(* ===== verification/_CoqProject ===== *)
-Q . S2P
Prelude.v
CString.v
Stdio.v
StdioSpec.v
StdioWitness.v
Queue.v
Probe.v
Hash.v
FrameDist.v
Pages.v
Kernel.v
KernelRules.v
ProcessMemory.v
PageFilling.v
TableList.v
ProcessMemorySpec.v
SharedMemory.v
SharedTables.v
SharedPages.v
SharedMemorySpec.v
SharedRefinement.v
ProcessFree.v
Scheduler.v
SchedulerSpec.v
Demo.v
SharedWitness.v
ProcessMemoryWitness.v
Semaphore.v
MsgQueue.v
ProcessApi.v
Console.v
Traps.v
Devices.v
Boot.v
DevicesSpec.v
BootSpec.v
BootWitness.v
SemaphoreSpec.v
SemaphoreTable.v
SemaphoreWitness.v
MsgQueueSpec.v
ChannelSpec.v
MsgQueueWitness.v
ConsoleSpec.v
ProcessApiSpec.v
ProcessApiWitness.v
StartSpec.v
Isolation.v
ProcessFreeSpec.v
WaitSpec.v
ExitSpec.v
MachineInv.v
MachineCalls.v
Machine.v
MachineWitness.v
System.v
SystemWitness.v
