(* ===== verification/Prelude.v ===== *)
(** * A verification development of the xinul kernel

    xinul ([src/]) is a small preemptive kernel for 64-bit RISC-V: processes
    with priorities, semaphores, message queues, shared memory, a console and
    Sv39 paging.  This library translates its core, file by file, into
    executable definitions and proves what makes the parts correct.

    ** The parts of the kernel and their models

    - [Prelude]: machine integers, faults, the error monad [res], the state
      and error monad [M] with its total-correctness predicate [wp], record
      update, list lemmas and tactics.
    - [Queue] ([src/lib/include/queue.h]): doubly linked priority queues on a
      heap of [prev]/[next] links, element for element as the macros relink
      them.
    - [Probe], [Hash] ([src/lib/hash/hash.c]): the open-addressing hash table;
      the two function pointers of a table are a class of keys.
    - [FrameDist] ([src/kernel/memory/frame_dist.c]): the free list of 4 KiB
      frames, threaded through the frames themselves.
    - [Pages] ([memory/pages.c], [memory/virtual_memory.c]): page table
      entries as bit fields of a 64-bit word, the kernel directory, and a
      reference walk of the Sv39 tables.
    - [Kernel]: the process structure ([process/process.h]), the heap objects,
      the globals as one record [kstate], and the accessors of
      [process/helperfunc.c].  [KernelRules] has the [wp] rules of the
      primitives.
    - [ProcessMemory], [ProcessFree] ([process/process_memory.c]) and
      [SharedMemory] ([process/memory_api.c]): the page tables of a process,
      its code, stack, heap and shared pages, and their release.
      [PageFilling] has the loops that take frames and fill the tables,
      [TableList] the list of level-0 tables and the reservation of pages,
      [ProcessMemorySpec] the address space they build.
    - [SharedTables], [SharedPages], [SharedMemorySpec], [SharedRefinement]:
      the tables of the shared part of an address space, the lists of shared
      and released pages of a process, the invariant of the shared memory of
      all the processes and its three calls, and their refinement of a map
      from names to frames.
    - [Scheduler] ([process/scheduler.c], [process/timer_api.c]),
      [SchedulerSpec]: the choice of the running process, sleeping and waking.
    - [Semaphore], [SemaphoreSpec], [SemaphoreTable]
      ([process/semaphore_api.c]).
    - [MsgQueue], [MsgQueueSpec] ([kernel/msgqueue.c]): one message queue;
      [ChannelSpec]: the table of all of them and its blocked processes.
    - [ProcessApi] ([process/process_api.c], [process/process.c]): start,
      exit, kill, waitpid, priorities.
    - [Console] ([input-output/], [drivers/console.c]): the input buffer, the
      keyboard handler, [cons_read] and [cons_write].
    - [Traps] ([traps/supervisor_trap.c], [kernel/timer.c], [start.c]):
      dispatch of interrupts, exceptions and system calls; [kernel_start].
    - [Devices] ([drivers/]): serial ports, host interface, interrupt
      controllers, clock, power-off and disk identification of every machine,
      as reads and writes of device and control registers; a device is what it
      answers to each history of accesses.  [DevicesSpec] has the bytes sent
      on a port, the value of a control register after a history, and the
      rules of the drivers.
    - [Boot] ([boot/], [boot_riscv], [machine_trap.c], [blue_screen.c],
      [bios/info.c]): machine mode; [BootSpec].
    - [ConsoleSpec], [ProcessApiSpec]: the theorems on the console and on the
      life cycle of processes.
    - [CString] ([lib/string/], [lib/stdlib/strtol.c]), [Stdio] ([lib/stdio/]),
      [StdioSpec]: the C library over a byte-addressed memory.
    - [StartSpec]: the creation of a process, [start_virtual], from its checks
      to the ready queue.
    - [Isolation]: the address spaces of all the processes side by side, what
      user code reaches and may write.
    - [ProcessFreeSpec]: the release of an address space, the inverse of its
      creation.  [WaitSpec]: the lists of children and [waitpid].
      [ExitSpec]: [exit] and the children of the process that ends.
    - [MachineInv]: the invariant of the kernel between two traps.
      [MachineCalls]: the system calls keep it.  [Machine]: traps and the
      writes of user code composed into the steps of the whole machine.
    - [System]: the data of the kernel at the reset, and the composition of
      [Boot], [Traps], [ProcessApi] and [Scheduler] from the reset to the first
      user program.
    - [Demo], [SharedWitness], [StdioWitness], [ProcessMemoryWitness], [BootWitness],
      [SemaphoreWitness], [MsgQueueWitness], [ProcessApiWitness],
      [MachineWitness], [SystemWitness]: concrete states on which the theorems
      are applied.

    ** How the state and the code correspond

    A C structure is a record with the fields of the source; a heap block lives
    in the finite map of its type at a pointer ([positive]), the null pointer
    is [None].  An access through a null pointer, an access to a block that is
    not allocated, a failed [assert], a call of [exit] and a loop that outlives
    its fuel are the faults of [Prelude.fault]; a theorem that a call "returns"
    states the result [Ok], so none of these happened.  Integers are [Z] with
    the conversions of the source written out ([wrapU], [wrapS]).

    Control: [scheduler k] is a call of [scheduler()] by code that would go on
    with the continuation [k] (the inductive type [Kernel.kont]); its result is
    the continuation that runs next, [k] itself or the one the chosen process
    saved when it left the processor.  A call that blocks is split where the
    source calls [scheduler]: the rest is a [resume_...] definition.

    Fuel: the loops that follow links take as fuel one more than the number of
    blocks of the heap they walk ([walk_fuel]); the theorems prove that it is
    enough, the lists being made of distinct blocks.  A driver reads the status
    of its device at most [polls] times; [responds] says that the device is
    ready by then, and the theorems hold for any such number.

    Hash tables: [Hash] has the table itself and proves that it behaves as a
    map of bounded capacity.  The kernel state has the map in its place: the
    pids, the names of the programs, the semaphores, the queues and the names
    of shared pages are finite maps, and an insertion succeeds.  A string key
    stands for its characters, so the model supposes that a process does not
    change the string it gave to [shm_acquire] while the page is mapped.

    Parameters: [KEnv] holds what is outside the sources: the memory layout,
    whether each [malloc] succeeds and what fresh blocks contain, the table of
    user programs the build generates, an assembly entry point.  [Platform]
    holds the devices and the control registers, as functions of the history
    of accesses, and the addresses the linker gives.

    ** What the theorems show

    - Queues: [Queue.queue_ops_refine], [Queue.queue_stable_priority].
    - Hash tables: [Hash.hash_ops_refine], [Hash.hash_set_out_of_memory].
    - Frames: [FrameDist.frame_allocator_refines], [FrameDist.frame_exhaustion],
      [FrameDist.release_frame_past_end].
    - Paging: [Pages.kernel_identity_map], [Pages.pte_layout_roundtrip];
      [ProcessMemorySpec.user_address_space] (the whole translation of a new
      process), and the defect [stack_page_not_cleared].
    - Shared memory, under [SharedMemorySpec.shm_ok]: [shm_ops_refine] (any
      calls of any processes behave as on a map of names, and the page walks
      of every process follow it), [shared_page_is_shared],
      [shm_release_unmaps].
    - Devices and boot: [console_prints], [boot_enters_supervisor],
      [virt_tick], and the defect [virt_plic_not_enabled].
    - Scheduling, under the invariant [SchedulerSpec.sched_inv]:
      [scheduler_highest_priority], [scheduler_round_robin], [sleepers_wake],
      [wait_clock_sleeps] and, where a date overflows, [wait_clock_overflow].
    - Semaphores, under [SemaphoreSpec.sem_shape] and [counts_ok]:
      [semaphore_ops_refine] (a simulation of the abstract semaphore
      [sem_spec]), [sdelete_releases], and the defect [kill_middle_waiter].
    - Message queues, under [MsgQueueSpec.chan]: [msgqueue_fifo],
      [psend_refines], [preceive_refines].
    - Console: [console_line_discipline], and the defects
      [delete_word_diverges] and [backspace_fills_buffer].
    - Life cycle: [start_virtual_creates] and its inverse [created_process_freed],
      [waitpid_reaps], [waitpid_outcomes], [exit_reaps], [chprio_reorders], and
      the defects [exit_walks_freed] (reached from a sound state in
      [ProcessApiWitness.grandchild_use_after_free]),
      [kill_waiting_parent], [released_pages_double_free],
      [rejected_starts_exhaust] and [chprio_misses_woken].
    - C library: [vsnprintf_renders] (refinement of a rendering function),
      [print_scan_roundtrip], [vprintf_prints], [strcmp_lexicographic],
      [strcpy_copies], [string_loops_terminate], and the defects
      [vprintf_char], [strncmp_past_bound], [unsigned_loses_digits].
    - The machine: [Machine.machine_safe] carries the invariants of the
      scheduler, of the semaphores, of the message queues and of the address
      spaces over any sequence of timer interrupts, resumptions, writes of user
      code, and system calls on the clock, the priorities, the semaphores and
      the message queues (their creation and deletion included), the output on
      the console, the creation and the end of processes.  [System.system_runs] starts it from the reset: no hypothesis
      on the state is left but that the console answers, that the programs and
      their frames fit in the memory and that [malloc] succeeds.

    ** What is not modelled

    The screen ([drivers/vga.c], the splash screen, the font): pixels that no
    code reads back.  The assembly: the start of the harts ([crtm.S]), the
    entries of the traps and the context switch, whose effect is the change of
    continuation and the return from machine mode.  Doug Lea's [malloc], a
    third-party file.  The kernel's own tests and the user programs, which are
    clients of the system calls: a user program is any sequence of traps and
    of writes in its pages.  Interrupts arrive between kernel calls: the kernel
    runs with them masked.

    Some calls are modelled and have theorems of their own but are not among
    the events of [machine_safe]: [kill], which breaks the invariant when the
    victim waits for a semaphore or for a child ([kill_middle_waiter],
    [kill_waiting_parent]); [waitpid] and the [exit] of a process with dead
    children, which read a freed process when a freed child had children
    ([exit_walks_freed]); the calls on shared memory, since a shared page is by
    design a frame two processes reach; [cons_read] and the keyboard
    interrupt. *)

From Stdlib Require Export ZArith Lia Sorted.
From stdpp Require Export base tactics decidable option strings numbers gmap list.

#[export] Set Default Goal Selector "!".
#[export] Set Warnings "-clear-no-such-hyp".

(** ** Machine integers

    A C integer is a [Z]; the conversions below are the ones the RISC-V 64-bit
    compiler applies (two's complement, modulo [2^n]). *)
Declare Scope cint_scope.
Delimit Scope cint_scope with cint.

Definition wrapU (n x : Z) : Z := x mod 2 ^ n.
Definition wrapS (n x : Z) : Z := (x + 2 ^ (n - 1)) mod 2 ^ n - 2 ^ (n - 1).

Notation "'u16' x" := (wrapU 16 x) (at level 10, x at level 9) : cint_scope.
Notation "'u32' x" := (wrapU 32 x) (at level 10, x at level 9) : cint_scope.
Notation "'u64' x" := (wrapU 64 x) (at level 10, x at level 9) : cint_scope.
Notation "'i16' x" := (wrapS 16 x) (at level 10, x at level 9) : cint_scope.
Notation "'i32' x" := (wrapS 32 x) (at level 10, x at level 9) : cint_scope.
Notation "'i64' x" := (wrapS 64 x) (at level 10, x at level 9) : cint_scope.

Lemma wrapU_id n x : (0 <= x < 2 ^ n)%Z -> wrapU n x = x.
Proof. intros H. by apply Z.mod_small. Qed.

Lemma wrapU_range n x : (0 <= n)%Z -> (0 <= wrapU n x < 2 ^ n)%Z.
Proof. intros H. apply Z.mod_pos_bound. apply Z.pow_pos_nonneg; lia. Qed.

Lemma wrapS_id n x : (0 < n)%Z -> (- 2 ^ (n - 1) <= x < 2 ^ (n - 1))%Z -> wrapS n x = x.
Proof.
  intros Hn Hx. unfold wrapS.
  assert (2 ^ n = 2 * 2 ^ (n - 1))%Z by (rewrite <- Z.pow_succ_r by lia; f_equal; lia).
  rewrite Z.mod_small; lia.
Qed.

Lemma wrapS_range n x : (0 < n)%Z -> (- 2 ^ (n - 1) <= wrapS n x < 2 ^ (n - 1))%Z.
Proof.
  intros Hn. unfold wrapS.
  assert (2 ^ n = 2 * 2 ^ (n - 1))%Z by (rewrite <- Z.pow_succ_r by lia; f_equal; lia).
  pose proof (Z.mod_pos_bound (x + 2 ^ (n - 1)) (2 ^ n)) as Hb.
  assert (0 < 2 ^ n)%Z by (apply Z.pow_pos_nonneg; lia). lia.
Qed.

(** ** Faults

    How a segment of kernel code can stop without returning: a dereference of
    a null pointer, an access to memory that is not allocated (freed, or never
    handed out), a failed [assert] (which prints and calls [exit(-1)]), an
    explicit [exit], or a loop that the fuel of its definition does not cover. *)
Inductive fault : Type :=
  | NullDeref
  | BadAccess
  | AssertFailed
  | Exited (status : Z)
  | OutOfFuel.

#[export] Instance fault_eq_dec : EqDecision fault.
Proof. solve_decision. Defined.

(** ** The error monad *)
Inductive res (A : Type) : Type :=
  | Ok (a : A)
  | Err (e : fault).
Arguments Ok {A} a.
Arguments Err {A} e.

#[export] Instance res_ret : MRet res := fun A a => Ok a.
#[export] Instance res_bind : MBind res := fun A B f m =>
  match m with Ok a => f a | Err e => Err e end.

Definition of_option {A} (e : fault) (o : option A) : res A :=
  match o with Some a => Ok a | None => Err e end.

(** [assert(x)] of [src/lib/include/assert.h]. *)
Definition assert_ (b : bool) : res unit :=
  if b then Ok tt else Err AssertFailed.

(** A pointer dereference: the null pointer is [None]. *)
Definition deref {A} (p : option A) : res A := of_option NullDeref p.

Lemma res_bind_ok {A B} (m : res A) (f : A -> res B) b :
  (m ≫= f) = Ok b <-> exists a, m = Ok a /\ f a = Ok b.
Proof.
  destruct m as [a|e]; simpl; split; [by eauto| | done |].
  - intros (a' & [= ->] & H). done.
  - intros (a' & [=] & _).
Qed.

(** ** The state and error monad of kernel code *)
Definition M (S A : Type) : Type := S -> res (A * S).

#[export] Instance M_ret {S} : MRet (M S) := fun A a s => Ok (a, s).
#[export] Instance M_bind {S} : MBind (M S) := fun A B f m s =>
  match m s with Ok (a, s') => f a s' | Err e => Err e end.

Definition get {S} : M S S := fun s => Ok (s, s).
Definition gets {S A} (f : S -> A) : M S A := fun s => Ok (f s, s).
Definition put {S} (s : S) : M S unit := fun _ => Ok (tt, s).
Definition modify {S} (f : S -> S) : M S unit := fun s => Ok (tt, f s).
Definition fail {S A} (e : fault) : M S A := fun _ => Err e.
Definition lift {S A} (r : res A) : M S A := fun s =>
  match r with Ok a => Ok (a, s) | Err e => Err e end.

(** Running a component's code inside a larger state. *)
Definition zoom {S T A} (pr : S -> T) (upd : T -> S -> S) (m : M T A) : M S A := fun s =>
  match m (pr s) with Ok (a, t) => Ok (a, upd t s) | Err e => Err e end.

(** Total correctness: the code returns, without a fault, in a state and with
    a value that satisfy [Q]. *)
Definition wp {S A} (m : M S A) (Q : A -> S -> Prop) (s : S) : Prop :=
  match m s with Ok (a, s') => Q a s' | Err _ => False end.

Section Wp.
Context {S : Type}.

Lemma wp_elim {A} (m : M S A) Q s : wp m Q s -> exists a s', m s = Ok (a, s') /\ Q a s'.
Proof. unfold wp. destruct (m s) as [[a s']|e]; [by eauto|done]. Qed.

Lemma wp_intro {A} (m : M S A) (Q : A -> S -> Prop) s a s' : m s = Ok (a, s') -> Q a s' -> wp m Q s.
Proof. unfold wp. by intros ->. Qed.

Lemma wp_run {A} (m : M S A) s a s' : wp m (fun b t => b = a /\ t = s') s -> m s = Ok (a, s').
Proof. unfold wp. by destruct (m s) as [[b t]|e]; [intros [-> ->]|]. Qed.

Lemma run_bind {A B} (m : M S A) (f : A -> M S B) s a s' : m s = Ok (a, s') -> (m ≫= f) s = f a s'.
Proof. unfold mbind, M_bind. by intros ->. Qed.

Lemma run_bind_err {A B} (m : M S A) (f : A -> M S B) s e : m s = Err e -> (m ≫= f) s = Err e.
Proof. unfold mbind, M_bind. by intros ->. Qed.

Lemma wp_mono {A} (m : M S A) (P Q : A -> S -> Prop) s :
  wp m P s -> (forall a s', P a s' -> Q a s') -> wp m Q s.
Proof. unfold wp. destruct (m s) as [[a s']|e]; auto. Qed.

Lemma wp_ret {A} (a : A) (Q : A -> S -> Prop) s : Q a s -> wp (mret a) Q s.
Proof. done. Qed.

Lemma wp_bind {A B} (m : M S A) (f : A -> M S B) (Q : B -> S -> Prop) s :
  wp m (fun a s' => wp (f a) Q s') s -> wp (m ≫= f) Q s.
Proof. unfold wp, mbind, M_bind. by destruct (m s) as [[a s']|e]. Qed.

Lemma wp_bind_inv {A B} (m : M S A) (f : A -> M S B) (Q : B -> S -> Prop) s :
  wp (m ≫= f) Q s -> wp m (fun a s' => wp (f a) Q s') s.
Proof. unfold wp, mbind, M_bind. by destruct (m s) as [[a s']|e]. Qed.

Lemma wp_gets {A} (f : S -> A) (Q : A -> S -> Prop) s : Q (f s) s -> wp (gets f) Q s.
Proof. done. Qed.

Lemma wp_modify (f : S -> S) (Q : unit -> S -> Prop) s : Q tt (f s) -> wp (modify f) Q s.
Proof. done. Qed.

Lemma wp_lift {A} (r : res A) (Q : A -> S -> Prop) s a : r = Ok a -> Q a s -> wp (lift r) Q s.
Proof. unfold wp, lift. by intros ->. Qed.

Lemma wp_and {A} (m : M S A) (P Q : A -> S -> Prop) s :
  wp m P s -> wp m Q s -> wp m (fun a s' => P a s' /\ Q a s') s.
Proof. unfold wp. destruct (m s) as [[a s']|e]; auto. Qed.

Lemma wp_zoom {T A} (pr : S -> T) upd (m : M T A) (Q : A -> S -> Prop) s :
  wp m (fun a t => Q a (upd t s)) (pr s) -> wp (zoom pr upd m) Q s.
Proof. unfold wp, zoom. by destruct (m (pr s)) as [[a t]|e]. Qed.
End Wp.

(** ** Generic list facts *)
Lemma list_snoc_inv {A} (xs : list A) : xs = [] \/ exists ys y, xs = ys ++ [y].
Proof. destruct xs as [|y ys _] using rev_ind; eauto. Qed.

Lemma elem_snoc_last {A} (xs : list A) x : x ∈ xs ++ [x].
Proof. apply elem_of_app. right. by left. Qed.

Lemma elem_snoc_init {A} (xs : list A) x y : x ∈ xs -> x ∈ xs ++ [y].
Proof. intros Hx. apply elem_of_app. by left. Qed.

Lemma list_filter_all {A} (R : A -> Prop) `{forall x, Decision (R x)} (xs : list A) :
  (forall x, x ∈ xs -> R x) -> filter R xs = xs.
Proof.
  induction xs as [|x xs IH]; intros Hall; [done|].
  rewrite filter_cons_True by (apply Hall; left). f_equal. apply IH. intros y Hy. apply Hall. by right.
Qed.

Lemma list_filter_none {A} (R : A -> Prop) `{forall x, Decision (R x)} (xs : list A) :
  (forall x, x ∈ xs -> ~ R x) -> filter R xs = [].
Proof.
  induction xs as [|x xs IH]; intros Hall; [done|].
  rewrite filter_cons_False by (apply Hall; left). apply IH. intros y Hy. apply Hall. by right.
Qed.

Lemma filter_reverse {A} (R : A -> Prop) `{forall x, Decision (R x)} (xs : list A) :
  filter R (reverse xs) = reverse (filter R xs).
Proof.
  induction xs as [|x xs IH]; [done|]. rewrite reverse_cons, filter_app, IH.
  destruct (decide (R x)).
  - rewrite !filter_cons_True by done. by rewrite reverse_cons.
  - rewrite !filter_cons_False by done. by rewrite app_nil_r.
Qed.

Lemma StronglySorted_snoc {A} (R : relation A) (xs : list A) x :
  StronglySorted R xs -> Forall (fun y => R y x) xs -> StronglySorted R (xs ++ [x]).
Proof.
  induction 1 as [|y ys Hs IH Hy]; intros Hall; simpl; [by repeat constructor|].
  apply Forall_cons in Hall as [Hyx Hall]. constructor; [by apply IH|].
  apply Forall_app. auto.
Qed.

Lemma StronglySorted_reverse {A} (R : relation A) (xs : list A) :
  StronglySorted R xs -> StronglySorted (flip R) (reverse xs).
Proof.
  induction 1 as [|x xs Hs IH Hx]; [constructor|].
  rewrite reverse_cons. apply StronglySorted_snoc; [done|].
  by apply Forall_reverse.
Qed.

(** ** Record update

    [r <| f := v |>] is [r] with field [f] set to [v].  A record declares its
    expansion [mk (f1 r) ... (fn r)] once, as an instance of [Eta]; the update
    of each field is found in it. *)
Class Eta (R : Type) : Type := eta : R -> R.
Class Upd {R E : Type} (proj : R -> E) : Type := upd : (E -> E) -> R -> R.
Arguments upd {R E} proj {_} f r.

Ltac find_upd R E proj :=
  let e := constr:(_ : Eta R) in
  exact (fun (f : E -> E) (r : R) =>
    ltac:(let b := eval red in (e r) in
          match eval pattern (proj r) in b with
          | ?g _ => let t := eval cbv beta in (g (f (proj r))) in exact t
          end)).
#[export] Hint Extern 1 (@Upd ?R ?E ?proj) => find_upd R E proj : typeclass_instances.

Notation "r <| f := v |>" := (upd f (fun _ => v) r) (at level 12, f at level 9, left associativity).
Notation "r <| f ::= g |>" := (upd f g r) (at level 12, f at level 9, left associativity).

(** ** Proof automation shared by the components *)
Create HintDb xinul.
#[export] Hint Resolve wrapU_range wrapS_range elem_snoc_last elem_snoc_init : xinul.

(** [lia] with the defining equations of [/] and [mod] by constants. *)
Ltac mlia := Z.div_mod_to_equations; lia.

Ltac simplify_res :=
  repeat match goal with
  | H : Ok _ = Ok _ |- _ => injection H as H
  | H : Err _ = Ok _ |- _ => discriminate H
  | H : Ok _ = Err _ |- _ => discriminate H
  | H : (_ ≫= _) = Ok _ |- _ => apply res_bind_ok in H as (? & ? & ?)
  end; simplify_eq/=.
