(* ===== verification/CString.v ===== *)
(** * CString: the string functions of the C library

    [src/lib/string/*.c] and [src/lib/stdlib/strtol.c].  The memory is a finite
    map from addresses to bytes; [char] is unsigned, as on RISC-V.  A loop that
    runs to the final null takes as fuel one more than the number of mapped
    bytes: it reads another address at each turn. *)

From S2P Require Import Prelude.
#[local] Open Scope Z_scope.

Abbreviation bytes := (gmap Z Z).

Definition ldb (a : Z) : M bytes Z := fun m =>
  match m !! a with Some v => Ok (v, m) | None => Err BadAccess end.
Definition stb (a v : Z) : M bytes unit := fun m =>
  match m !! a with Some _ => Ok (tt, <[a := wrapU 8 v]> m) | None => Err BadAccess end.
Definition str_fuel : M bytes nat := gets (fun m => S (base.size m)).

(** ** Memory blocks: [n] is the number of bytes left *)

Fixpoint memchr (p c : Z) (n : nat) : M bytes (option Z) :=
  match n with
  | O => mret None
  | S n => v ← ldb p; if v =? c then mret (Some p) else memchr (p + 1) c n
  end.

Fixpoint memcmp (s1 s2 : Z) (n : nat) : M bytes Z :=
  match n with
  | O => mret 0
  | S n => c1 ← ldb s1; c2 ← ldb s2;
      if negb (c1 =? c2) then mret (c1 - c2) else memcmp (s1 + 1) (s2 + 1) n
  end.

Fixpoint memcpy_loop (dest src : Z) (n : nat) : M bytes unit :=
  match n with
  | O => mret tt
  | S n => v ← ldb src; _ ← stb dest v; memcpy_loop (dest + 1) (src + 1) n
  end.
Definition memcpy (dest src : Z) (n : nat) : M bytes Z := _ ← memcpy_loop dest src n; mret dest.

Fixpoint memset_loop (dest c : Z) (n : nat) : M bytes unit :=
  match n with
  | O => mret tt
  | S n => _ ← stb dest c; memset_loop (dest + 1) c n
  end.
Definition memset (dest c : Z) (n : nat) : M bytes Z := _ ← memset_loop dest c n; mret dest.

(** ** Strings *)

Fixpoint strlen_loop (fuel : nat) (s p : Z) : M bytes Z :=
  match fuel with
  | O => fail OutOfFuel
  | S fuel => v ← ldb s; if v =? 0 then mret (s - p) else strlen_loop fuel (s + 1) p
  end.
Definition strlen (s : Z) : M bytes Z := fuel ← str_fuel; strlen_loop fuel s s.

Fixpoint strchr_loop (fuel : nat) (p c : Z) : M bytes (option Z) :=
  match fuel with
  | O => fail OutOfFuel
  | S fuel => v ← ldb p;
      if v =? 0 then mret None else if v =? c then mret (Some p) else strchr_loop fuel (p + 1) c
  end.
Definition strchr (s c : Z) : M bytes (option Z) := fuel ← str_fuel; strchr_loop fuel s c.

(** [*s1 - *s2] *)
Definition difference (s1 s2 : Z) : M bytes Z := c1 ← ldb s1; c2 ← ldb s2; mret (c1 - c2).

Fixpoint strcmp_loop (fuel : nat) (s1 s2 : Z) : M bytes Z :=
  match fuel with
  | O => fail OutOfFuel
  | S fuel => c1 ← ldb s1;
      if c1 =? 0 then difference s1 s2 else
      c2 ← ldb s2;
      if c2 =? 0 then difference s1 s2 else
      if c1 =? c2 then strcmp_loop fuel (s1 + 1) (s2 + 1) else difference s1 s2
  end.
Definition strcmp (s1 s2 : Z) : M bytes Z := fuel ← str_fuel; strcmp_loop fuel s1 s2.

Fixpoint strncmp (s1 s2 : Z) (n : nat) : M bytes Z :=
  match n with
  | O => difference s1 s2
  | S n => c1 ← ldb s1;
      if c1 =? 0 then difference s1 s2 else
      c2 ← ldb s2;
      if c2 =? 0 then difference s1 s2 else
      if c1 =? c2 then strncmp (s1 + 1) (s2 + 1) n else difference s1 s2
  end.

(** The two loops of [strncpy]: [k] turns are left, from index [i] on. *)
Fixpoint strncpy_zeros (dst i : Z) (k : nat) : M bytes unit :=
  match k with
  | O => mret tt
  | S k => _ ← stb (dst + i) 0; strncpy_zeros dst (i + 1) k
  end.
Fixpoint strncpy_loop (dst src i : Z) (k : nat) : M bytes unit :=
  match k with
  | O => mret tt
  | S k' => v ← ldb (src + i);
      if v =? 0 then strncpy_zeros dst i k
      else v ← ldb (src + i); _ ← stb (dst + i) v; strncpy_loop dst src (i + 1) k'
  end.
Definition strncpy (dst src : Z) (n : nat) : M bytes Z := _ ← strncpy_loop dst src 0 n; mret dst.
Definition strcpy (dst src : Z) : M bytes Z := n ← strlen src; strncpy dst src (Z.to_nat (n + 1)).

(** ** [strtol] *)

Definition isspace (c : Z) : bool :=
  (c =? 32) || (c =? 12) || (c =? 10) || (c =? 13) || (c =? 9) || (c =? 11).

Fixpoint skip_spaces (fuel : nat) (p : Z) : M bytes Z :=
  match fuel with
  | O => fail OutOfFuel
  | S fuel => c ← ldb p; if isspace c then skip_spaces fuel (p + 1) else mret p
  end.

(** The three tests on a digit: ['0'] is 48, ['a'] is 97, ['A'] is 65. *)
Definition digit_of (c base : Z) : option Z :=
  if (48 <=? c) && (c <=? 57) && (c - 48 <? base) then Some (c - 48)
  else if (97 <=? c) && (c <=? 122) && (c - 97 + 10 <? base) then Some (c - 97 + 10)
  else if (65 <=? c) && (c <=? 90) && (c - 65 + 10 <? base) then Some (c - 65 + 10)
  else None.

Fixpoint strtol_digits (fuel : nat) (p base v : Z) : M bytes (Z * Z) :=
  match fuel with
  | O => fail OutOfFuel
  | S fuel => c ← ldb p;
      match digit_of c base with
      | Some d => strtol_digits fuel (p + 1) base (wrapS 64 (v * base + d))
      | None => mret (v, p)
      end
  end.

(** The prefix [0x], and the base when it is given as 0. *)
Definition strtol_base (p base : Z) : M bytes (Z * Z) :=
  '(p, base) ← (if (base =? 16) || (base =? 0) then
                  c ← ldb p;
                  if c =? 48 then
                    x ← ldb (p + 1);
                    mret (if (x =? 120) || (x =? 88) then (p + 2, 16) else (p, base))
                  else mret (p, base)
                else mret (p, base));
  if base =? 0 then c ← ldb p; mret (p, if c =? 48 then 8 else 10) else mret (p, base).

(** The value, and the pointer stored in [*out_p]. *)
Definition strtol (p base : Z) : M bytes (Z * Z) :=
  fuel ← str_fuel;
  p ← skip_spaces fuel p;
  c ← ldb p;
  let is_neg := c =? 45 in
  '(p, base) ← strtol_base (if is_neg then p + 1 else p) base;
  '(v, p) ← strtol_digits fuel p base 0;
  mret (if is_neg then wrapS 64 (- v) else v, p).

(** ** Bytes in memory *)

(** The bytes [xs] are at address [a]. *)
Fixpoint bytes_at (m : bytes) (a : Z) (xs : list Z) : Prop :=
  match xs with
  | [] => True
  | x :: xs => m !! a = Some x /\ bytes_at m (a + 1) xs
  end.

(** The string [xs] is at address [a], with its final null. *)
Definition is_char (x : Z) : Prop := 0 < x < 256.
Definition cstr (m : bytes) (a : Z) (xs : list Z) : Prop := bytes_at m a (xs ++ [0]) /\ Forall is_char xs.

(** [n] bytes from [a] on can be written. *)
Definition mapped (m : bytes) (a n : Z) : Prop := forall b, a <= b < a + n -> is_Some (m !! b).

(** The memory after the bytes [xs] have been written at [a]. *)
Fixpoint overwrite (m : bytes) (a : Z) (xs : list Z) : bytes :=
  match xs with
  | [] => m
  | x :: xs => overwrite (<[a := x]> m) (a + 1) xs
  end.

Section Facts.
Implicit Types (m : bytes) (a p s n c : Z) (xs ys : list Z).

Lemma ldb_ok m a v : m !! a = Some v -> ldb a m = Ok (v, m).
Proof. unfold ldb. by intros ->. Qed.

Lemma stb_ok m a v : is_Some (m !! a) -> 0 <= v < 256 -> stb a v m = Ok (tt, <[a := v]> m).
Proof. intros [w Hw] Hv. unfold stb. rewrite Hw, wrapU_id by (simpl; lia). done. Qed.

Lemma bytes_at_app m a xs ys : bytes_at m a (xs ++ ys) <-> bytes_at m a xs /\ bytes_at m (a + Z.of_nat (length xs)) ys.
Proof.
  revert a. induction xs as [|x xs IH]; intros a; simpl; [rewrite Z.add_0_r; tauto|].
  rewrite IH. replace (a + Z.of_nat (S (length xs))) with (a + 1 + Z.of_nat (length xs)) by lia. tauto.
Qed.

Lemma cstr_nil m a : cstr m a [] <-> m !! a = Some 0.
Proof. split; [by intros [[] _]|intros H; by repeat split]. Qed.

Lemma cstr_cons m a x xs : cstr m a (x :: xs) <-> m !! a = Some x /\ is_char x /\ cstr m (a + 1) xs.
Proof. unfold cstr. simpl. rewrite Forall_cons. tauto. Qed.

Lemma bytes_at_mapped m a xs : bytes_at m a xs -> mapped m a (Z.of_nat (length xs)).
Proof.
  revert a. induction xs as [|x xs IH]; intros a; simpl; [intros _ b; lia|].
  intros [Hx Hb] b Hr. destruct (Z.eq_dec b a) as [->|]; [by eexists|]. apply (IH _ Hb). lia.
Qed.

(** Mapped consecutive addresses are not more than the bytes of the memory. *)
Lemma mapped_size m a (n : nat) : mapped m a (Z.of_nat n) -> (n <= base.size m)%nat.
Proof.
  intros Hm. rewrite <- size_dom.
  assert (Hnd : NoDup ((fun i => a + Z.of_nat i) <$> seq 0 n)).
  { apply NoDup_fmap_2; [intros i j; lia|apply NoDup_seq]. }
  replace n with (length ((fun i => a + Z.of_nat i) <$> seq 0 n)) at 1 by by rewrite length_fmap, length_seq.
  rewrite <- (size_list_to_set (C := gset Z)) by done. apply subseteq_size. intros b.
  rewrite elem_of_list_to_set, list_elem_of_fmap, elem_of_dom. intros (i & -> & Hi%elem_of_seq). apply Hm. lia.
Qed.

Lemma cstr_fuel m a xs : cstr m a xs -> (length xs < S (base.size m))%nat.
Proof.
  intros [Hb _]. apply bytes_at_mapped, mapped_size in Hb. rewrite length_app in Hb. simpl in Hb. lia.
Qed.

Lemma overwrite_lookup m a xs b :
  overwrite m a xs !! b = if (a <=? b) && (b <? a + Z.of_nat (length xs)) then xs !! Z.to_nat (b - a) else m !! b.
Proof.
  revert m a. induction xs as [|x xs IH]; intros m a; simpl.
  { destruct (Z.leb_spec a b); simpl; [|done]. destruct (Z.ltb_spec b (a + Z.of_nat 0)); [lia|done]. }
  rewrite IH. destruct (Z.eq_dec a b) as [->|Hab].
  - rewrite (proj2 (Z.leb_gt (b + 1) b)), Z.leb_refl, (proj2 (Z.ltb_lt b (b + Z.of_nat (S (length xs))))) by lia.
    rewrite lookup_insert_eq, Z.sub_diag. done.
  - rewrite lookup_insert_ne by done.
    destruct (Z.leb_spec a b), (Z.leb_spec (a + 1) b), (Z.ltb_spec b (a + 1 + Z.of_nat (length xs))),
      (Z.ltb_spec b (a + Z.of_nat (S (length xs)))); try lia; simpl; try done.
    replace (Z.to_nat (b - a)) with (S (Z.to_nat (b - (a + 1)))) by lia. done.
Qed.

Lemma overwrite_outside m a xs b : b < a \/ a + Z.of_nat (length xs) <= b -> overwrite m a xs !! b = m !! b.
Proof.
  intros Hb. rewrite overwrite_lookup. by destruct (Z.leb_spec a b), (Z.ltb_spec b (a + Z.of_nat (length xs))); try lia.
Qed.

Lemma overwrite_bytes_at m a xs : bytes_at (overwrite m a xs) a xs.
Proof.
  revert m a. induction xs as [|x xs IH]; intros m a; [done|]. simpl. split; [|apply IH].
  rewrite overwrite_outside by lia. apply lookup_insert_eq.
Qed.

Lemma bytes_at_outside m a xs b ys :
  bytes_at m b ys -> b + Z.of_nat (length ys) <= a \/ a + Z.of_nat (length xs) <= b -> bytes_at (overwrite m a xs) b ys.
Proof.
  revert b. induction ys as [|y ys IH]; intros b; simpl; [done|]. intros [Hy Hb] Hd. split.
  - rewrite overwrite_outside by lia. done.
  - apply IH; [done|lia].
Qed.

Lemma mapped_overwrite m a xs b n : mapped m b n -> mapped (overwrite m a xs) b n.
Proof.
  intros Hm c Hc. rewrite overwrite_lookup. destruct (Z.leb_spec a c), (Z.ltb_spec c (a + Z.of_nat (length xs)));
    simpl; try by apply Hm. apply lookup_lt_is_Some_2. lia.
Qed.

Lemma mapped_insert m a x b n : mapped m b n -> mapped (<[a := x]> m) b n.
Proof. apply (mapped_overwrite m a [x]). Qed.

Lemma overwrite_app m a xs ys :
  overwrite m a (xs ++ ys) = overwrite (overwrite m a xs) (a + Z.of_nat (length xs)) ys.
Proof.
  revert m a. induction xs as [|x xs IH]; intros m a; simpl; [by rewrite Z.add_0_r|].
  rewrite IH. f_equal. lia.
Qed.

(** ** Termination *)

(** A loop that runs out of fuel has read as many mapped bytes. *)
Definition scans (p : Z) (fuel : nat) m : Prop := mapped m p (Z.of_nat fuel).

Lemma scans_0 p m : scans p 0 m.
Proof. intros b. lia. Qed.

Lemma scans_S p fuel m v : m !! p = Some v -> scans (p + 1) fuel m -> scans p (S fuel) m.
Proof.
  intros Hv Hs b Hb. destruct (Z.eq_dec b p) as [->|]; [by eexists|]. apply Hs. lia.
Qed.

Lemma scans_full p m : ~ scans p (S (base.size m)) m.
Proof. intros Hs%mapped_size. lia. Qed.

Lemma difference_fuel s1 s2 m : difference s1 s2 m <> Err OutOfFuel.
Proof. unfold difference, mbind, M_bind, ldb. destruct (m !! s1); [|done]. by destruct (m !! s2). Qed.

Lemma strlen_scans fuel : forall s p m, strlen_loop fuel s p m = Err OutOfFuel -> scans s fuel m.
Proof.
  induction fuel as [|fuel IH]; intros s p m; [intros _; apply scans_0|]. cbn [strlen_loop].
  unfold mbind, M_bind, ldb. destruct (m !! s) as [v|] eqn:Ev; [|done]. simpl.
  destruct (v =? 0); [done|]. intros Hl. eapply scans_S, IH; done.
Qed.

Lemma strchr_scans fuel : forall p c m, strchr_loop fuel p c m = Err OutOfFuel -> scans p fuel m.
Proof.
  induction fuel as [|fuel IH]; intros p c m; [intros _; apply scans_0|]. cbn [strchr_loop].
  unfold mbind, M_bind, ldb. destruct (m !! p) as [v|] eqn:Ev; [|done]. simpl.
  destruct (v =? 0); [done|]. destruct (v =? c); [done|]. intros Hl. eapply scans_S, IH; done.
Qed.

Lemma strcmp_scans fuel : forall s1 s2 m, strcmp_loop fuel s1 s2 m = Err OutOfFuel -> scans s1 fuel m.
Proof.
  induction fuel as [|fuel IH]; intros s1 s2 m; [intros _; apply scans_0|]. cbn [strcmp_loop].
  unfold mbind, M_bind, ldb. destruct (m !! s1) as [v|] eqn:Ev; [|done]. simpl.
  destruct (v =? 0); [intros []%difference_fuel|]. destruct (m !! s2) as [w|]; [|done].
  destruct (w =? 0); [intros []%difference_fuel|]. destruct (v =? w); [|intros []%difference_fuel].
  intros Hl. eapply scans_S, IH; done.
Qed.

Lemma skip_spaces_scans fuel : forall p m, skip_spaces fuel p m = Err OutOfFuel -> scans p fuel m.
Proof.
  induction fuel as [|fuel IH]; intros p m; [intros _; apply scans_0|]. cbn [skip_spaces].
  unfold mbind, M_bind, ldb. destruct (m !! p) as [v|] eqn:Ev; [|done]. simpl.
  destruct (isspace v); [|done]. intros Hl. eapply scans_S, IH; done.
Qed.

Lemma strtol_scans fuel : forall p base v m, strtol_digits fuel p base v m = Err OutOfFuel -> scans p fuel m.
Proof.
  induction fuel as [|fuel IH]; intros p base v m; [intros _; apply scans_0|]. cbn [strtol_digits].
  unfold mbind, M_bind, ldb. destruct (m !! p) as [c|] eqn:Ev; [|done]. simpl.
  destruct (digit_of c base); [|done]. intros Hl. eapply scans_S, IH; done.
Qed.

(** The first part of a run that fails without a fault of its own. *)
Lemma ldb_fuel {A} a (f : Z -> M bytes A) m :
  (forall v, f v m <> Err OutOfFuel) -> (v ← ldb a; f v) m <> Err OutOfFuel.
Proof. intros Hf. unfold mbind, M_bind, ldb. by destruct (m !! a). Qed.

Lemma strtol_base_same p base m r m' : strtol_base p base m = Ok (r, m') -> m' = m.
Proof. unfold strtol_base, mbind, M_bind, ldb, mret, M_ret. intros E. repeat (case_match; simplify_eq); done. Qed.

Lemma strtol_base_fuel p base m : strtol_base p base m <> Err OutOfFuel.
Proof. unfold strtol_base, mbind, M_bind, ldb, mret, M_ret. intros E. repeat (case_match; simplify_eq). Qed.

Lemma skip_spaces_same fuel : forall p m r m', skip_spaces fuel p m = Ok (r, m') -> m' = m.
Proof.
  induction fuel as [|fuel IH]; intros p m r m'; [done|]. cbn [skip_spaces]. unfold mbind, M_bind, ldb.
  destruct (m !! p) as [v|]; [|done]. destruct (isspace v); [apply IH|by intros [= _ ->]].
Qed.


(** ** Comparisons *)

(** The order of strings: the first byte where they differ decides. *)
Fixpoint lex_compare xs ys : comparison :=
  match xs, ys with
  | [], [] => Eq
  | [], _ => Lt
  | _, [] => Gt
  | x :: xs, y :: ys => match x ?= y with Eq => lex_compare xs ys | c => c end
  end.

Lemma lex_compare_refl xs : lex_compare xs xs = Eq.
Proof. induction xs as [|x xs IH]; simpl; [done|]. by rewrite Z.compare_refl. Qed.

Lemma lex_compare_eq xs ys : lex_compare xs ys = Eq <-> xs = ys.
Proof.
  split; [|by intros ->; apply lex_compare_refl]. revert ys.
  induction xs as [|x xs IH]; intros [|y ys]; simpl; try done.
  destruct (Z.compare_spec x y) as [->| |]; try done. intros H. f_equal. by apply IH.
Qed.

Lemma lex_compare_antisym xs ys : lex_compare ys xs = CompOpp (lex_compare xs ys).
Proof.
  revert ys. induction xs as [|x xs IH]; intros [|y ys]; simpl; try done.
  rewrite Z.compare_antisym. destruct (x ?= y); [apply IH|done..].
Qed.

Lemma difference_ok m s1 s2 x y : m !! s1 = Some x -> m !! s2 = Some y -> difference s1 s2 m = Ok (x - y, m).
Proof. intros Hx Hy. unfold difference, mbind, M_bind, ldb. by rewrite Hx, Hy. Qed.

Lemma sub_compare x y : (x - y ?= 0) = (x ?= y).
Proof. destruct (Z.compare_spec x y), (Z.compare_spec (x - y) 0); lia || done. Qed.

Lemma strcmp_loop_lex m xs : forall fuel s1 s2 ys, (length xs < fuel)%nat -> cstr m s1 xs -> cstr m s2 ys ->
  exists d, strcmp_loop fuel s1 s2 m = Ok (d, m) /\ (d ?= 0) = lex_compare xs ys.
Proof.
  induction xs as [|x xs IH]; intros [|fuel] s1 s2 ys Hf; simpl in Hf; try lia; cbn [strcmp_loop];
    unfold mbind, M_bind, ldb.
  - rewrite cstr_nil. intros Hx. rewrite Hx. simpl. destruct ys as [|y ys].
    + rewrite cstr_nil. intros Hy. exists 0. by rewrite (difference_ok _ _ _ _ _ Hx Hy).
    + rewrite cstr_cons. intros (Hy & Hc & _). unfold is_char in Hc. exists (0 - y).
      rewrite (difference_ok _ _ _ _ _ Hx Hy), sub_compare. split; [done|]. apply Z.compare_lt_iff. lia.
  - rewrite cstr_cons. intros (Hx & Hc & Hs). unfold is_char in Hc. rewrite Hx.
    destruct (Z.eqb_spec x 0); [lia|]. destruct ys as [|y ys].
    + rewrite cstr_nil. intros Hy. rewrite Hy. simpl. exists (x - 0). rewrite (difference_ok _ _ _ _ _ Hx Hy), sub_compare.
      split; [done|]. apply Z.compare_gt_iff. lia.
    + rewrite cstr_cons. intros (Hy & Hcy & Hs'). unfold is_char in Hcy. rewrite Hy. destruct (Z.eqb_spec y 0); [lia|].
      simpl. destruct (Z.eqb_spec x y) as [->|Hxy]; [rewrite Z.compare_refl; apply IH; [lia|done|done]|].
      exists (x - y). rewrite (difference_ok _ _ _ _ _ Hx Hy), sub_compare.
      split; [done|]. by destruct (Z.compare_spec x y).
Qed.

(** C31: [strcmp] returns an integer whose sign is the order of the two
    strings, byte by byte, a prefix being smaller; in particular it returns 0
    exactly for equal strings. *)
Theorem strcmp_lexicographic m s1 s2 xs ys :
  cstr m s1 xs -> cstr m s2 ys ->
  exists d, strcmp s1 s2 m = Ok (d, m) /\ (d ?= 0) = lex_compare xs ys /\ (d = 0 <-> xs = ys).
Proof.
  intros H1 H2. destruct (strcmp_loop_lex m xs (S (base.size m)) s1 s2 ys) as (d & E & Hd);
    [by eapply cstr_fuel|done..|].
  exists d. split; [exact E|]. split; [done|]. rewrite <- lex_compare_eq, <- Hd, Z.compare_eq_iff. done.
Qed.

(** [strncmp] does not stop at its bound.  On two blocks whose first
    [length zs] bytes are the same, the comparison of [length zs] bytes reads
    and compares the next ones. *)
Theorem strncmp_past_bound m s1 s2 zs x y :
  bytes_at m s1 (zs ++ [x]) -> bytes_at m s2 (zs ++ [y]) -> Forall is_char zs ->
  strncmp s1 s2 (length zs) m = Ok (x - y, m).
Proof.
  revert s1 s2. induction zs as [|z zs IH]; intros s1 s2; simpl.
  - intros [Hx _] [Hy _] _. by apply difference_ok.
  - intros [Hz1 H1] [Hz2 H2] [Hz Hzs]%Forall_cons. unfold is_char in Hz. unfold mbind, M_bind, ldb.
    rewrite Hz1. destruct (Z.eqb_spec z 0); [lia|]. rewrite Hz2. destruct (Z.eqb_spec z 0); [lia|].
    rewrite Z.eqb_refl. by apply IH.
Qed.

(** ** Copies *)

Definition separate (a na b nb : Z) : Prop := a + na <= b \/ b + nb <= a.

Lemma strncpy_zeros_ok dst k : forall m i, mapped m (dst + i) (Z.of_nat k) ->
  strncpy_zeros dst i k m = Ok (tt, overwrite m (dst + i) (replicate k 0)).
Proof.
  induction k as [|k IH]; intros m i Hm; [done|]. cbn [strncpy_zeros]. unfold mbind, M_bind.
  rewrite stb_ok by (lia || apply Hm; lia). rewrite IH; [simpl; do 3 f_equal; lia|].
  apply mapped_insert. intros b Hb. apply Hm. lia.
Qed.

Lemma is_char_byte x : is_char x -> 0 <= x < 256.
Proof. unfold is_char. lia. Qed.

Lemma strncpy_loop_ok dst src xs : forall m i k,
  cstr m (src + i) xs -> mapped m (dst + i) (Z.of_nat k) ->
  separate (dst + i) (Z.of_nat k) (src + i) (Z.of_nat (length xs) + 1) ->
  strncpy_loop dst src i k m = Ok (tt, overwrite m (dst + i) (take k (xs ++ replicate k 0))).
Proof.
  induction xs as [|x xs IH]; intros m i [|k] Hs Hm Hd; try done; cbn [strncpy_loop]; unfold mbind at 1, M_bind at 1.
  - rewrite cstr_nil in Hs. rewrite (ldb_ok _ _ _ Hs), Z.eqb_refl.
    rewrite strncpy_zeros_ok by done. rewrite take_ge by (rewrite length_app, length_replicate; simpl; lia). done.
  - rewrite cstr_cons in Hs. destruct Hs as (Hx & Hc & Hs). rewrite (ldb_ok _ _ _ Hx). unfold is_char in Hc.
    destruct (Z.eqb_spec x 0); [lia|]. unfold mbind, M_bind. rewrite (ldb_ok _ _ _ Hx).
    rewrite stb_ok by (lia || apply Hm; lia). unfold separate in Hd. simpl length in Hd.
    rewrite IH.
    + simpl. replace (dst + (i + 1)) with (dst + i + 1) by lia. change (0 :: replicate k 0) with (replicate (S k) 0).
      by rewrite replicate_S_end, app_assoc, (take_app_le (xs ++ _)) by (rewrite length_app, length_replicate; lia).
    + destruct Hs as [Hb Hf]. split; [|done]. rewrite Z.add_assoc.
      apply (bytes_at_outside _ (dst + i) [x]); [done|]. rewrite length_app. simpl. lia.
    + apply mapped_insert. intros b Hb. apply Hm. lia.
    + unfold separate. lia.
Qed.

Lemma strncpy_copies m dst src xs (n : nat) :
  cstr m src xs -> mapped m dst (Z.of_nat n) -> separate dst (Z.of_nat n) src (Z.of_nat (length xs) + 1) ->
  strncpy dst src n m = Ok (dst, overwrite m dst (take n (xs ++ replicate n 0))).
Proof.
  intros Hs Hm Hd. unfold strncpy, mbind, M_bind.
  rewrite (strncpy_loop_ok _ _ xs); rewrite ?Z.add_0_r; done.
Qed.

Lemma strlen_loop_ok m p xs : forall fuel s, (length xs < fuel)%nat -> cstr m s xs ->
  strlen_loop fuel s p m = Ok (s + Z.of_nat (length xs) - p, m).
Proof.
  induction xs as [|x xs IH]; intros [|fuel] s Hf; simpl in Hf; try lia; cbn [strlen_loop]; unfold mbind, M_bind.
  - rewrite cstr_nil. intros Hx. rewrite (ldb_ok _ _ _ Hx). simpl. by rewrite Z.add_0_r.
  - rewrite cstr_cons. intros (Hx & Hc & Hs). rewrite (ldb_ok _ _ _ Hx). unfold is_char in Hc.
    destruct (Z.eqb_spec x 0); [lia|]. rewrite IH by (lia || done). do 2 f_equal. simpl length. lia.
Qed.

Lemma strlen_ok m s xs : cstr m s xs -> strlen s m = Ok (Z.of_nat (length xs), m).
Proof.
  intros Hs. unfold strlen, str_fuel, gets, mbind, M_bind. rewrite (strlen_loop_ok m s xs) by (by eapply cstr_fuel || done).
  do 2 f_equal. lia.
Qed.

(** [strcpy] copies a string: when the destination has room for it and
    does not overlap it, the call returns the destination, which then holds
    the same string; no other byte changes. *)
Theorem strcpy_copies m dst src xs :
  cstr m src xs -> mapped m dst (Z.of_nat (length xs) + 1) ->
  separate dst (Z.of_nat (length xs) + 1) src (Z.of_nat (length xs) + 1) ->
  exists m', strcpy dst src m = Ok (dst, m') /\ cstr m' dst xs /\ cstr m' src xs /\
    forall a, a < dst \/ dst + Z.of_nat (length xs) + 1 <= a -> m' !! a = m !! a.
Proof.
  intros Hs Hm Hd. exists (overwrite m dst (xs ++ [0])). split_and!.
  - unfold strcpy. eapply eq_trans; [by eapply run_bind, strlen_ok|].
    replace (Z.to_nat (Z.of_nat (length xs) + 1)) with (length (xs ++ [0])) by (rewrite length_app; simpl; lia).
    rewrite (strncpy_copies _ _ _ xs); [|done|by rewrite length_app, Nat2Z.inj_add|by rewrite length_app, Nat2Z.inj_add].
    do 3 f_equal. rewrite length_app, Nat.add_comm. cbn [length Nat.add]. rewrite replicate_S.
    change (0 :: replicate (length xs) 0) with ([0] ++ replicate (length xs) 0).
    rewrite app_assoc, take_app_length'; [done|rewrite length_app; simpl; lia].
  - split; [apply overwrite_bytes_at|apply Hs].
  - destruct Hs as [Hb Hf]. split; [|done]. apply bytes_at_outside; [done|].
    unfold separate in Hd. rewrite length_app. simpl length. lia.
  - intros a Ha. apply overwrite_outside. rewrite length_app. simpl length. lia.
Qed.

End Facts.
