(* ===== verification/Stdio.v ===== *)
(** * Stdio: formatted output, [src/lib/stdio/sprintf.c] and [vprintf.c]

    The variable arguments are a list of 64-bit slots, read at the width the
    conversion asks for; positions in the output do not reach [2^64]. *)

From stdpp Require Export pretty.
From S2P Require Import Prelude.
From S2P Require Import CString.
#[local] Open Scope Z_scope.

Definition SPRINTF_UNLIMITED : Z := 0xFFFFFFF.

Record fstate : Type := mk_fstate { format : bool; longarg : bool; pos : Z; vl : list Z }.
#[export] Instance eta_fstate : Eta fstate := fun s => mk_fstate (format s) (longarg s) (pos s) (vl s).

(** [va_arg]; there is nothing to read past the last argument *)
Definition va_arg (vl : list Z) : M bytes (Z * list Z) :=
  match vl with [] => fail BadAccess | x :: vl => mret (x, vl) end.

Section Format.
Variables (out : option Z) (n : Z).

(** [if (out && pos < n) out[pos] = c] *)
Definition put_at (pos c : Z) : M bytes unit :=
  match out with
  | Some o => if pos <? n then stb (o + pos) c else mret tt
  | None => mret tt
  end.

(** The loop of ['x']: [k] digits are left. *)
Fixpoint put_hex (pos num : Z) (k : nat) : M bytes unit :=
  match k with
  | O => mret tt
  | S i =>
      let d := Z.land (Z.shiftr num (4 * Z.of_nat i)) 0xF in
      _ ← put_at pos (if d <? 10 then 48 + d else 97 + d - 10);
      put_hex (pos + 1) num i
  end.
Definition conv_hex (st : fstate) : M bytes fstate :=
  '(x, vl) ← va_arg (vl st);
  let num := if longarg st then wrapS 64 x else wrapS 32 x in
  let hexdigits := if longarg st then 16%nat else 8%nat in
  _ ← put_hex (pos st) num hexdigits;
  mret (mk_fstate false false (pos st + Z.of_nat hexdigits) vl).

(** [long digits = 1; for (long nn = num; nn /= 10; digits++);] *)
Fixpoint count_digits (fuel : nat) (nn digits : Z) : M bytes Z :=
  match fuel with
  | O => fail OutOfFuel
  | S fuel => let nn := Z.quot nn 10 in if nn =? 0 then mret digits else count_digits fuel nn (digits + 1)
  end.
(** The digits from the last one on; [k] of them are left. *)
Fixpoint put_digits (pos num : Z) (k : nat) : M bytes unit :=
  match k with
  | O => mret tt
  | S i => _ ← put_at (pos + Z.of_nat i) (48 + Z.rem num 10); put_digits pos (Z.quot num 10) i
  end.
Definition put_number (pos num : Z) : M bytes Z :=
  digits ← count_digits 20 (wrapS 64 num) 1;
  _ ← put_digits pos num (Z.to_nat digits);
  mret (pos + digits).

Definition conv_unsigned (st : fstate) : M bytes fstate :=
  '(x, vl) ← va_arg (vl st);
  p ← put_number (pos st) (if longarg st then wrapU 64 x else wrapU 32 x);
  mret (mk_fstate false false p vl).

Definition conv_signed (st : fstate) : M bytes fstate :=
  '(x, vl) ← va_arg (vl st);
  let num := if longarg st then wrapS 64 x else wrapS 32 x in
  '(num, p) ← (if num <? 0 then _ ← put_at (pos st) 45; mret (wrapS 64 (- num), pos st + 1)
               else mret (num, pos st));
  p ← put_number p num;
  mret (mk_fstate false false p vl).

Fixpoint put_string (fuel : nat) (s2 pos : Z) : M bytes Z :=
  match fuel with
  | O => fail OutOfFuel
  | S fuel =>
      c ← ldb s2;
      if c =? 0 then mret pos
      else c ← ldb s2; _ ← put_at pos c; put_string fuel (s2 + 1) (pos + 1)
  end.
Definition conv_string (st : fstate) : M bytes fstate :=
  '(s2, vl) ← va_arg (vl st);
  fuel ← str_fuel;
  p ← put_string fuel s2 (pos st);
  mret (mk_fstate false false p vl).

(** The argument of ['c'] is only read when it is written. *)
Definition conv_char (st : fstate) : M bytes fstate :=
  vl ← match out with
       | Some o => if pos st <? n then '(x, vl) ← va_arg (vl st); _ ← stb (o + pos st) x; mret vl
                   else mret (vl st)
       | None => mret (vl st)
       end;
  mret (mk_fstate false false (pos st + 1) vl).

(** One character of the format. *)
Definition vsn_char (c : Z) (st : fstate) : M bytes fstate :=
  if format st then
    match c with
    | 108 (* l *) => mret (st <| longarg := true |>)
    | 112 (* p *) =>
        _ ← put_at (pos st) 48; _ ← put_at (pos st + 1) 120;
        conv_hex (st <| longarg := true |> <| pos ::= Z.add 2 |>)
    | 120 (* x *) => conv_hex st
    | 117 (* u *) => conv_unsigned st
    | 100 (* d *) => conv_signed st
    | 115 (* s *) => conv_string st
    | 99 (* c *) => conv_char st
    | _ => mret st
    end
  else if c =? 37 (* % *) then mret (st <| format := true |>)
  else _ ← put_at (pos st) c; mret (st <| pos ::= Z.add 1 |>).

Fixpoint vsn_loop (fuel : nat) (s : Z) (st : fstate) : M bytes fstate :=
  match fuel with
  | O => fail OutOfFuel
  | S fuel => c ← ldb s; if c =? 0 then mret st else st ← vsn_char c st; vsn_loop fuel (s + 1) st
  end.

(** The final null. *)
Definition put_end (pos : Z) : M bytes unit :=
  match out with
  | Some o => if pos <? n then stb (o + pos) 0 else if negb (n =? 0) then stb (o + (n - 1)) 0 else mret tt
  | None => mret tt
  end.

Definition vsnprintf (s : Z) (vl : list Z) : M bytes Z :=
  fuel ← str_fuel;
  st ← vsn_loop fuel s (mk_fstate false false 0 vl);
  _ ← put_end (pos st);
  mret (wrapS 32 (pos st)).
End Format.

Definition vsprintf (s fmt : Z) (args : list Z) : M bytes Z := vsnprintf (Some s) SPRINTF_UNLIMITED fmt args.
Definition sprintf (s fmt : Z) (args : list Z) : M bytes Z := vsprintf s fmt args.
Definition snprintf (s size fmt : Z) (args : list Z) : M bytes Z := vsnprintf (Some s) size fmt args.

(** The bytes [cons_write] is given. *)
Fixpoint read_bytes (a : Z) (k : nat) : M bytes (list Z) :=
  match k with O => mret [] | S k => c ← ldb a; cs ← read_bytes (a + 1) k; mret (c :: cs) end.

(** [vprintf]: [out] is the block that [alloca(res + 1)] returns; the result
    is the returned value and what is written on the console. *)
Definition vprintf (out s : Z) (args : list Z) : M bytes (Z * list Z) :=
  res ← vsnprintf None (2 ^ 64 - 1) s args;
  _ ← vsnprintf (Some out) (wrapU 64 (wrapS 32 (res + 1))) s args;
  cs ← read_bytes out (Z.to_nat res);
  mret (res, cs).
