(* ===== verification/StdioSpec.v ===== *)
(** * StdioSpec: what formatted output writes

    A reference rendering of a format on typed arguments, and the refinement of
    it by [vsnprintf]: the right text, cut to the size of the buffer. *)

From S2P Require Import Prelude.
From S2P Require Import CString.
From S2P Require Import Stdio.
#[local] Open Scope Z_scope.

(** ** Reference rendering *)

Fixpoint bytes_of (s : string) : list Z :=
  match s with EmptyString => [] | String a s => Z.of_nat (Ascii.nat_of_ascii a) :: bytes_of s end.

(** The decimal representation of an integer, by stdpp's [pretty]. *)
Definition decimal (x : Z) : list Z := bytes_of (pretty x).

(** [k] hexadecimal digits of [num]. *)
Definition hex_digit (d : Z) : Z := if d <? 10 then 48 + d else 97 + d - 10.
Fixpoint hexadecimal (k : nat) (num : Z) : list Z :=
  match k with
  | O => []
  | S i => hex_digit (num / 16 ^ Z.of_nat i mod 16) :: hexadecimal i num
  end.

(** An argument: an integer, a character, a string and its address. *)
Inductive arg : Type :=
  | ANum (x : Z)
  | AChr (x : Z)
  | AStr (a : Z) (xs : list Z).
Definition slot (v : arg) : Z := match v with ANum x | AChr x | AStr x _ => x end.

(** One conversion: the text, and what is left of the arguments.  The
    integers that [%lu] and [%ld] do not print right are excluded. *)
Definition convert (c : Z) (long : bool) (args : list arg) : option (list Z * list arg) :=
  match c, args with
  | 112, ANum x :: args => Some (48 :: 120 :: hexadecimal 16 x, args)
  | 120, ANum x :: args => Some (hexadecimal (if long then 16 else 8) x, args)
  | 117, ANum x :: args =>
      let x := wrapU (if long then 64 else 32) x in if x <? 2 ^ 63 then Some (decimal x, args) else None
  | 100, ANum x :: args =>
      let x := wrapS (if long then 64 else 32) x in if - 2 ^ 63 <? x then Some (decimal x, args) else None
  | 115, AStr _ xs :: args => Some (xs, args)
  | 99, AChr x :: args => Some ([wrapU 8 x], args)
  | _, _ => None
  end.
Definition conversions : list Z := bytes_of "pxudsc".

(** The text of a format: [fmt] is read in a conversion or not. *)
Fixpoint render (form long : bool) (fmt : list Z) (args : list arg) : option (list Z) :=
  match fmt with
  | [] => Some []
  | c :: fmt =>
      if form then
        if c =? 108 then render true true fmt args
        else if bool_decide (c ∈ conversions) then
          '(xs, args) ← convert c long args; rest ← render false false fmt args; Some (xs ++ rest)
        else render true long fmt args
      else if c =? 37 then render true long fmt args
      else rest ← render false long fmt args; Some (c :: rest)
  end.

(** ** Numbers *)

Section Numbers.
Implicit Types (x num v d : Z) (k : nat) (s : string).

Fixpoint dec_digits k num : list Z :=
  match k with O => [] | S i => dec_digits i (Z.quot num 10) ++ [48 + Z.rem num 10] end.

Lemma length_dec_digits k num : length (dec_digits k num) = k.
Proof. revert num. induction k as [|k IH]; intros num; simpl; [done|]. rewrite length_app, IH. simpl. lia. Qed.

Lemma pretty_char_byte (d : N) : (d < 10)%N -> Z.of_nat (Ascii.nat_of_ascii (pretty_N_char d)) = 48 + Z.of_N d.
Proof.
  intros Hd. assert (d = 0 \/ d = 1 \/ d = 2 \/ d = 3 \/ d = 4 \/ d = 5 \/ d = 6 \/ d = 7 \/ d = 8 \/ d = 9)%N by lia.
  destruct_or!; by subst.
Qed.

Lemma pretty_go_step x s : 0 < x ->
  pretty_N_go (Z.to_N x) s = pretty_N_go (Z.to_N (Z.quot x 10)) (String (pretty_N_char (Z.to_N (Z.rem x 10))) s).
Proof.
  intros Hx. rewrite pretty_N_go_step by lia. do 2 f_equal.
  - rewrite Z.quot_div_nonneg by lia. by rewrite Z2N.inj_div by lia.
  - f_equal. rewrite Z.rem_mod_nonneg by lia. by rewrite Z2N.inj_mod by lia.
Qed.

Lemma count_digits_go fuel : forall x d (m : bytes) s, 0 < x < 10 ^ Z.of_nat fuel ->
  exists j, count_digits fuel x d m = Ok (d + Z.of_nat j, m) /\ (j < fuel)%nat /\ x < 10 ^ Z.of_nat (S j) /\
    bytes_of (pretty_N_go (Z.to_N x) s) = dec_digits (S j) x ++ bytes_of s.
Proof.
  induction fuel as [|fuel IH]; intros x d m s Hx; [simpl in Hx; lia|]. cbn [count_digits].
  assert (Hr : 0 <= Z.rem x 10 < 10) by (apply Z.rem_bound_pos; lia).
  assert (Eb : Z.of_nat (Ascii.nat_of_ascii (pretty_N_char (Z.to_N (Z.rem x 10)))) = 48 + Z.rem x 10)
    by (rewrite pretty_char_byte; lia).
  rewrite pretty_go_step by lia. destruct (Z.eqb_spec (Z.quot x 10) 0) as [E0|Hq].
  - exists 0%nat. rewrite E0. split; [unfold mret, M_ret; do 2 f_equal; lia|]. split; [lia|].
    split; [apply Z.quot_small_iff in E0; lia|]. rewrite pretty_N_go_0. simpl. by rewrite Eb.
  - assert (Hq2 : 0 < Z.quot x 10 < 10 ^ Z.of_nat fuel).
    { pose proof (Z.quot_pos x 10 ltac:(lia) ltac:(lia)). split; [lia|]. apply Z.quot_lt_upper_bound; [lia..|].
      rewrite Nat2Z.inj_succ, Z.pow_succ_r in Hx; lia. }
    destruct (IH _ (d + 1) m (String (pretty_N_char (Z.to_N (Z.rem x 10))) s) Hq2) as (j & Ec & Hj & Hb & Ep).
    exists (S j). rewrite Ec. split; [do 2 f_equal; lia|]. split; [lia|]. split.
    { pose proof (Z.quot_rem' x 10). rewrite Nat2Z.inj_succ, Z.pow_succ_r by lia. lia. }
    rewrite Ep. cbn [dec_digits bytes_of]. rewrite Eb, <- !app_assoc. done.
Qed.

Lemma count_digits_decimal x (m : bytes) : 0 <= x < 2 ^ 63 ->
  exists j, count_digits 20 x 1 m = Ok (1 + Z.of_nat j, m) /\ (j < 20)%nat /\ x < 10 ^ Z.of_nat (S j) /\
    dec_digits (S j) x = decimal x.
Proof.
  intros Hx. destruct (Z.eq_dec x 0) as [->|Hne]; [exists 0%nat; split_and!; done || lia|].
  destruct (count_digits_go 20 x 1 m "") as (j & E & Hj & Hb & Ed); [lia|]. exists j. do 3 (split; [done|]).
  rewrite app_nil_r in Ed. rewrite <- Ed. unfold decimal. destruct x as [|x|x]; [done| |lia].
  by change (pretty (Z.pos x)) with (pretty_N_go (N.pos x) "").
Qed.

Lemma decimal_neg x : x < 0 -> decimal x = 45 :: decimal (- x).
Proof. by destruct x. Qed.

Lemma hex_shift num i : Z.land (Z.shiftr num (4 * Z.of_nat i)) 0xF = num / 16 ^ Z.of_nat i mod 16.
Proof.
  change 0xF with (Z.ones 4). rewrite Z.land_ones, Z.shiftr_div_pow2 by lia.
  by rewrite Z.pow_mul_r by lia.
Qed.

Lemma hex_digit_byte num i : 0 <= hex_digit (num / 16 ^ Z.of_nat i mod 16) < 256.
Proof. unfold hex_digit. pose proof (Z.mod_pos_bound (num / 16 ^ Z.of_nat i) 16). destruct (_ <? 10); lia. Qed.

Lemma length_hexadecimal k num : length (hexadecimal k num) = k.
Proof. induction k; simpl; auto. Qed.

(** Hexadecimal digits only depend on the bits they show. *)
Lemma hexadecimal_wrap k num num' : (num - num') mod 16 ^ Z.of_nat k = 0 -> hexadecimal k num = hexadecimal k num'.
Proof.
  induction k as [|k IH]; simpl; intros E; [done|].
  rewrite Nat2Z.inj_succ, Z.pow_succ_r in E by lia.
  assert (Hp : 0 < 16 ^ Z.of_nat k) by (apply Z.pow_pos_nonneg; lia).
  apply Z.div_exact in E; [|lia]. set (q := (num - num') / _) in E.
  assert (En : num = num' + q * 16 * 16 ^ Z.of_nat k) by lia. f_equal.
  - f_equal. rewrite En, Z.div_add by lia. by rewrite Z.mod_add by lia.
  - apply IH. rewrite En. replace (num' + _ - num') with (q * 16 * 16 ^ Z.of_nat k) by lia. by rewrite Z.mod_mul by lia.
Qed.

Lemma wrap_diff n x : 0 < n -> (wrapS n x - x) mod 2 ^ n = 0.
Proof.
  intros Hn. unfold wrapS. assert (Hp : 0 < 2 ^ n) by (apply Z.pow_pos_nonneg; lia).
  replace (_ - x) with ((x + 2 ^ (n - 1)) mod 2 ^ n - (x + 2 ^ (n - 1))) by lia.
  rewrite Zminus_mod, Z.mod_mod, Z.sub_diag by lia. done.
Qed.

End Numbers.

(** ** Writing *)

(** The text [pre] has been written, up to the size [n] of the buffer. *)
Definition written (out : option Z) (n : Z) (m : bytes) (pre : list Z) : bytes :=
  match out with Some o => overwrite m o (take (Z.to_nat n) pre) | None => m end.

Lemma overwrite_comm (m : bytes) a xs b ys :
  separate a (Z.of_nat (length xs)) b (Z.of_nat (length ys)) ->
  overwrite (overwrite m b ys) a xs = overwrite (overwrite m a xs) b ys.
Proof.
  intros Hd. unfold separate in Hd. apply map_eq. intros c. rewrite !overwrite_lookup.
  destruct (Z.leb_spec a c), (Z.ltb_spec c (a + Z.of_nat (length xs))), (Z.leb_spec b c),
    (Z.ltb_spec c (b + Z.of_nat (length ys))); simpl; done || lia.
Qed.

Section Run.
Variables (out : option Z) (n : Z) (m : bytes) (total : nat).
Hypothesis Hn : 0 <= n.

(** The part of the buffer that is used: the text and its null. *)
Definition window : Z := Z.min n (Z.of_nat total + 1).
Hypothesis Hroom : forall o, out = Some o -> mapped m o window.
Definition apart (a len : Z) : Prop := forall o, out = Some o -> separate o window a len.
Implicit Types (pre ds : list Z).

Lemma written_mapped pre o a : out = Some o -> mapped m o a -> mapped (written out n m pre) o a.
Proof. intros Ho Hm. unfold written. rewrite Ho. by apply mapped_overwrite. Qed.

Lemma cstr_written pre a xs :
  cstr m a xs -> apart a (Z.of_nat (length xs) + 1) -> (length pre <= total)%nat -> cstr (written out n m pre) a xs.
Proof.
  intros [Hb Hf] Ha Hp. split; [|done]. unfold written. destruct out as [o|] eqn:Eo; [|done].
  specialize (Ha o Eo). unfold separate, window in Ha. apply bytes_at_outside; [done|].
  rewrite length_app, length_take. simpl length. lia.
Qed.

(** A text added at the end, through a write of its visible part. *)
Lemma written_app pre ds :
  written out n m (pre ++ ds) =
  match out with
  | Some o => overwrite (written out n m pre) (o + Z.of_nat (length pre)) (take (Z.to_nat n - length pre) ds)
  | None => m
  end.
Proof.
  clear Hroom. unfold written. destruct out as [o|]; [|done]. rewrite take_app, overwrite_app, length_take.
  destruct (decide (length pre <= Z.to_nat n)%nat); [do 2 f_equal; lia|].
  by replace (Z.to_nat n - length pre)%nat with 0%nat by lia.
Qed.

(** [put_at] between two positions of a text. *)
Lemma put_at_ok mt pos c :
  0 <= c < 256 -> 0 <= pos < Z.of_nat total -> (forall o, out = Some o -> mapped mt o window) ->
  put_at out n pos c mt = Ok (tt, match out with Some o => if pos <? n then <[o + pos := c]> mt else mt | None => mt end).
Proof.
  intros Hc Hp Hm. unfold put_at. destruct out as [o|]; [|done]. destruct (Z.ltb_spec pos n); [|done].
  apply stb_ok; [|done]. apply (Hm o eq_refl). unfold window. lia.
Qed.

Lemma put_char_ok pre c :
  0 <= c < 256 -> (length pre < total)%nat ->
  put_at out n (Z.of_nat (length pre)) c (written out n m pre) = Ok (tt, written out n m (pre ++ [c])).
Proof.
  intros Hc Hp. rewrite put_at_ok; [|done|lia|by intros o Ho; apply written_mapped, Hroom]. do 2 f_equal.
  rewrite written_app. destruct out as [o|] eqn:Eo; [|done]. destruct (Z.ltb_spec (Z.of_nat (length pre)) n).
  - rewrite take_ge by (simpl; lia). done.
  - by replace (Z.to_nat n - length pre)%nat with 0%nat by lia.
Qed.

Lemma put_hex_ok num k : forall pre, (length pre + k <= total)%nat ->
  put_hex out n (Z.of_nat (length pre)) num k (written out n m pre) =
    Ok (tt, written out n m (pre ++ hexadecimal k num)).
Proof.
  induction k as [|k IH]; intros pre Hp; cbn [put_hex hexadecimal]; [by rewrite app_nil_r|].
  rewrite hex_shift. unfold mbind, M_bind. rewrite put_char_ok; [|apply hex_digit_byte|lia].
  replace (Z.of_nat (length pre) + 1) with (Z.of_nat (length (pre ++ [hex_digit (num / 16 ^ Z.of_nat k mod 16)])))
    by (rewrite length_app; simpl; lia).
  fold (hex_digit (num / 16 ^ Z.of_nat k mod 16)). rewrite IH by (rewrite length_app; simpl; lia).
  by rewrite <- app_assoc.
Qed.

(** The digits of a number are written from the last one on. *)
Lemma put_digits_ok k : forall num pos mt, 0 <= num -> 0 <= pos -> pos + Z.of_nat k <= Z.of_nat total ->
  (forall o, out = Some o -> mapped mt o window) ->
  put_digits out n pos num k mt = Ok (tt, match out with
    | Some o => overwrite mt (o + pos) (take (Z.to_nat (n - pos)) (dec_digits k num)) | None => mt end).
Proof.
  induction k as [|k IH]; intros num pos mt Hnum Hp Hk Hm; cbn [put_digits dec_digits].
  { destruct out; [|done]. by rewrite take_nil. }
  assert (Hr : 0 <= Z.rem num 10 < 10) by (apply Z.rem_bound_pos; lia).
  assert (Hq : 0 <= Z.quot num 10) by (apply Z.quot_pos; lia).
  unfold mbind, M_bind. rewrite put_at_ok; [|lia..|done]. destruct out as [o|] eqn:Eo; [|by apply IH; try lia].
  specialize (Hm o eq_refl). rewrite IH; [|lia..|].
  2:{ intros o' [= <-]. destruct (_ <? n); [by apply mapped_insert|done]. }
  f_equal. f_equal. destruct (Z.ltb_spec (pos + Z.of_nat k) n).
  - rewrite !take_ge by (rewrite ?length_app, length_dec_digits; simpl; lia). rewrite overwrite_app, length_dec_digits.
    rewrite <- Z.add_assoc. apply (overwrite_comm mt _ _ _ [_]). unfold separate. rewrite length_dec_digits. simpl. lia.
  - rewrite take_app_le by (rewrite length_dec_digits; lia). done.
Qed.

Lemma put_number_ok pre x : 0 <= x < 2 ^ 63 -> (length pre + length (decimal x) <= total)%nat ->
  put_number out n (Z.of_nat (length pre)) x (written out n m pre) =
    Ok (Z.of_nat (length (pre ++ decimal x)), written out n m (pre ++ decimal x)).
Proof.
  intros Hx Hp. unfold put_number. rewrite (wrapS_id 64) by lia.
  destruct (count_digits_decimal x (written out n m pre) Hx) as (j & Ec & _ & _ & Ed).
  eapply eq_trans; [by eapply run_bind|]. replace (Z.to_nat (1 + Z.of_nat j)) with (S j) by lia.
  assert (Hl : length (decimal x) = S j) by (by rewrite <- Ed, length_dec_digits).
  eapply eq_trans; [eapply run_bind, put_digits_ok|].
  - lia.
  - lia.
  - lia.
  - intros o Ho. by apply written_mapped, Hroom.
  - unfold mret, M_ret. f_equal. f_equal; [rewrite length_app; lia|]. rewrite written_app, Ed. destruct out; [|done].
    do 2 f_equal. lia.
Qed.

Lemma put_string_ok xs : forall fuel s pre, (length xs < fuel)%nat -> cstr m s xs -> apart s (Z.of_nat (length xs) + 1) ->
  (length pre + length xs <= total)%nat ->
  put_string out n fuel s (Z.of_nat (length pre)) (written out n m pre) =
    Ok (Z.of_nat (length (pre ++ xs)), written out n m (pre ++ xs)).
Proof.
  induction xs as [|x xs IH]; intros [|fuel] s pre Hf Hs Ha Hp; simpl in Hf; try lia; cbn [put_string];
    pose proof (cstr_written pre _ _ Hs Ha ltac:(lia)) as Hw; unfold mbind, M_bind.
  - rewrite cstr_nil in Hw. rewrite (ldb_ok _ _ _ Hw), app_nil_r. done.
  - apply cstr_cons in Hw as (Hx & Hc & _). apply cstr_cons in Hs as (_ & _ & Hs). simpl in Hp. rewrite (ldb_ok _ _ _ Hx).
    unfold is_char in Hc. destruct (Z.eqb_spec x 0); [lia|]. rewrite (ldb_ok _ _ _ Hx), put_char_ok by lia.
    replace (Z.of_nat (length pre) + 1) with (Z.of_nat (length (pre ++ [x]))) by (rewrite length_app; simpl; lia).
    rewrite IH; rewrite <- ?app_assoc; [done|lia|done| |rewrite length_app; simpl; lia].
    intros o Ho. specialize (Ha o Ho). unfold separate in *. simpl length in Ha. lia.
Qed.

(** ** Conversions *)

Definition arg_ok (v : arg) : Prop :=
  match v with AStr a xs => cstr m a xs /\ apart a (Z.of_nat (length xs) + 1) | _ => True end.
(** Characters are only read when they fit. *)
Definition chars_fit (args : list arg) : Prop :=
  out <> None /\ Z.of_nat total <= n \/ Forall (fun v => match v with AChr _ => False | _ => True end) args.

Lemma chars_fit_tail v args : chars_fit (v :: args) -> chars_fit args.
Proof. unfold chars_fit. rewrite Forall_cons. tauto. Qed.

Definition after pre xs args : fstate := mk_fstate false false (Z.of_nat (length (pre ++ xs))) (slot <$> args).
Implicit Types (st : fstate) (args : list arg).

Lemma conv_hex_ok st x args pre (num : Z) (k : nat) :
  vl st = slot <$> ANum x :: args -> pos st = Z.of_nat (length pre) ->
  num = (if longarg st then wrapS 64 x else wrapS 32 x) -> k = (if longarg st then 16 else 8)%nat ->
  (length pre + k <= total)%nat ->
  conv_hex out n st (written out n m pre) = Ok (after pre (hexadecimal k x) args, written out n m (pre ++ hexadecimal k x)).
Proof.
  intros Hv Hpos Hnum Hk Hp. unfold conv_hex. rewrite Hv, Hpos. cbn [fmap list_fmap slot]. unfold mbind at 1, M_bind at 1.
  cbn [va_arg mret M_ret]. cbv zeta. rewrite <- Hnum, <- Hk. eapply eq_trans; [by eapply run_bind, put_hex_ok|].
  assert (Ex : hexadecimal k num = hexadecimal k x).
  { apply hexadecimal_wrap. subst num k. destruct (longarg st);
      [change (16 ^ Z.of_nat 16) with (2 ^ 64)|change (16 ^ Z.of_nat 8) with (2 ^ 32)]; apply wrap_diff; lia. }
  rewrite Ex. unfold after, mret, M_ret. rewrite length_app, length_hexadecimal. do 3 f_equal. lia.
Qed.

Lemma conv_unsigned_ok st x args pre (num : Z) :
  vl st = slot <$> ANum x :: args -> pos st = Z.of_nat (length pre) ->
  num = wrapU (if longarg st then 64 else 32) x -> num < 2 ^ 63 -> (length pre + length (decimal num) <= total)%nat ->
  conv_unsigned out n st (written out n m pre) = Ok (after pre (decimal num) args, written out n m (pre ++ decimal num)).
Proof.
  intros Hv Hpos Hnum Hr Hp. unfold conv_unsigned. rewrite Hv, Hpos. cbn [fmap list_fmap slot].
  unfold mbind at 1, M_bind at 1. cbn [va_arg mret M_ret].
  replace (if longarg st then wrapU 64 x else wrapU 32 x) with num by (subst num; by destruct (longarg st)).
  assert (0 <= num) by (subst num; apply wrapU_range; by destruct (longarg st)).
  eapply eq_trans; [by eapply run_bind, put_number_ok|]. done.
Qed.

Lemma conv_signed_ok st x args pre (num : Z) :
  vl st = slot <$> ANum x :: args -> pos st = Z.of_nat (length pre) ->
  num = wrapS (if longarg st then 64 else 32) x -> - 2 ^ 63 < num -> (length pre + length (decimal num) <= total)%nat ->
  conv_signed out n st (written out n m pre) = Ok (after pre (decimal num) args, written out n m (pre ++ decimal num)).
Proof.
  intros Hv Hpos Hnum Hr Hp. unfold conv_signed. rewrite Hv, Hpos. cbn [fmap list_fmap slot].
  unfold mbind at 1, M_bind at 1. cbn [va_arg mret M_ret]. cbv zeta.
  replace (if longarg st then wrapS 64 x else wrapS 32 x) with num by (subst num; by destruct (longarg st)).
  assert (num < 2 ^ 63).
  { subst num. destruct (longarg st); [apply wrapS_range; lia|]. pose proof (wrapS_range 32 x). lia. }
  destruct (Z.ltb_spec num 0).
  - rewrite decimal_neg in * by done. simpl length in Hp.
    eapply eq_trans; [eapply run_bind; eapply eq_trans; [eapply run_bind, put_char_ok; lia|]; reflexivity|]. cbn beta iota.
    rewrite wrapS_id by lia. replace (Z.of_nat (length pre) + 1) with (Z.of_nat (length (pre ++ [45])))
      by (rewrite length_app; simpl; lia).
    eapply eq_trans; [eapply run_bind, put_number_ok; [lia|rewrite length_app; simpl; lia]|].
    unfold after, mret, M_ret. by rewrite <- !app_assoc.
  - eapply eq_trans; [eapply run_bind; reflexivity|]. cbn beta iota.
    by eapply eq_trans; [eapply run_bind, put_number_ok; [lia|done]|].
Qed.

Lemma conv_string_ok st a xs args pre :
  vl st = slot <$> AStr a xs :: args -> pos st = Z.of_nat (length pre) -> arg_ok (AStr a xs) ->
  (length pre + length xs <= total)%nat ->
  conv_string out n st (written out n m pre) = Ok (after pre xs args, written out n m (pre ++ xs)).
Proof.
  intros Hv Hpos [Hs Ha] Hp. unfold conv_string. rewrite Hv, Hpos. cbn [fmap list_fmap slot].
  unfold mbind at 1, M_bind at 1. cbn [va_arg mret M_ret]. eapply eq_trans; [eapply run_bind; reflexivity|]. cbn beta.
  eapply eq_trans; [eapply run_bind, put_string_ok; [|done..]|done]. eapply cstr_fuel, cstr_written; [done..|lia].
Qed.

Lemma conv_char_ok st x args pre :
  vl st = slot <$> AChr x :: args -> pos st = Z.of_nat (length pre) -> chars_fit (AChr x :: args) ->
  (length pre < total)%nat ->
  conv_char out n st (written out n m pre) = Ok (after pre [wrapU 8 x] args, written out n m (pre ++ [wrapU 8 x])).
Proof.
  intros Hv Hpos [[Hout Hfit]|Hno] Hp; [|by apply Forall_cons in Hno as [[] _]]. unfold conv_char. rewrite Hv, Hpos.
  cbn [fmap list_fmap slot]. destruct out as [o|] eqn:Eo; [|done]. destruct (Z.ltb_spec (Z.of_nat (length pre)) n); [|lia].
  assert (Est : stb (o + Z.of_nat (length pre)) x (written (Some o) n m pre) =
    Ok (tt, written (Some o) n m (pre ++ [wrapU 8 x]))).
  { assert (Hb : is_Some (written (Some o) n m pre !! (o + Z.of_nat (length pre)))).
    { rewrite <- Eo. eapply (written_mapped pre o window Eo); [by apply Hroom|]. unfold window. lia. }
    destruct Hb as [b Hb]. unfold stb. rewrite Hb. do 2 f_equal. pose proof (written_app pre [wrapU 8 x]) as Hw.
    rewrite Eo in Hw. rewrite Hw. rewrite take_ge by (simpl; lia). done. }
  unfold mbind, M_bind. cbn [va_arg mret M_ret]. rewrite Est. unfold after. by rewrite length_app, Nat2Z.inj_add.
Qed.

(** A conversion prints the text [convert] gives. *)
Lemma vsn_char_ok c st args pre xs args' :
  format st = true -> c ∈ conversions -> convert c (longarg st) args = Some (xs, args') ->
  vl st = slot <$> args -> pos st = Z.of_nat (length pre) -> Forall arg_ok args -> chars_fit args ->
  (length pre + length xs <= total)%nat ->
  vsn_char out n c st (written out n m pre) = Ok (after pre xs args', written out n m (pre ++ xs)) /\
  Forall arg_ok args' /\ chars_fit args'.
Proof.
  intros Hf Hc Hconv Hv Hpos Hok Hfit Hp. destruct args as [|v args].
  { exfalso. unfold convert in Hconv. by repeat case_match. }
  assert (args' = args) as ->.
  { unfold convert in Hconv. by repeat (case_match; simplify_eq). }
  split; [|apply Forall_cons in Hok as [_ ?]; split; [done|by eapply chars_fit_tail]].
  apply Forall_cons in Hok as [Hok _]. unfold vsn_char. rewrite Hf.
  change conversions with [112; 120; 117; 100; 115; 99] in Hc. rewrite !elem_of_cons, elem_of_nil in Hc. destruct_or! Hc; try done; subst c; cbn [convert] in Hconv.
  - destruct v; simplify_eq. cbn [length] in Hp. rewrite length_hexadecimal in Hp. rewrite Hpos.
    eapply eq_trans; [eapply run_bind, put_char_ok; lia|]. cbn beta.
    replace (Z.of_nat (length pre) + 1) with (Z.of_nat (length (pre ++ [48]))) by (rewrite length_app; simpl; lia).
    eapply eq_trans; [eapply run_bind, put_char_ok; [lia|rewrite length_app; simpl; lia]|]. cbn beta. rewrite <- app_assoc.
    eapply eq_trans; [eapply (conv_hex_ok _ _ args (pre ++ [48; 120])); [exact Hv| |reflexivity..|]|].
    + simpl. rewrite Hpos, length_app. simpl. lia.
    + rewrite length_app. simpl. lia.
    + unfold after. by rewrite <- !app_assoc.
  - destruct v; simplify_eq. rewrite length_hexadecimal in Hp. by eapply conv_hex_ok.
  - destruct v; simplify_eq. case_match eqn:E; simplify_eq. eapply conv_unsigned_ok; try done. by apply Z.ltb_lt.
  - destruct v; simplify_eq. case_match eqn:E; simplify_eq. eapply conv_signed_ok; try done. by apply Z.ltb_lt.
  - destruct v; simplify_eq. by eapply conv_string_ok.
  - destruct v; simplify_eq. eapply conv_char_ok; try done. simpl in Hp. lia.
Qed.

Lemma apart_tail a len : apart a (len + 1) -> 0 <= len -> apart (a + 1) len.
Proof. intros Ha Hl o Ho. specialize (Ha o Ho). unfold separate in *. lia. Qed.

(** A character that only changes the state, in or out of a conversion. *)
Lemma vsn_char_skip c st mt :
  format st = true -> c <> 108 -> c ∉ conversions -> vsn_char out n c st mt = Ok (st, mt).
Proof.
  intros Hf Hl Hc. change conversions with [112; 120; 117; 100; 115; 99] in Hc.
  rewrite !not_elem_of_cons in Hc. destruct Hc as (H1 & H2 & H3 & H4 & H5 & H6 & _).
  unfold vsn_char. rewrite Hf. by repeat (case_match; subst; try done).
Qed.

Lemma vsn_loop_ok fmt : forall fuel s st args rest pre,
  (length fmt < fuel)%nat -> cstr m s fmt -> apart s (Z.of_nat (length fmt) + 1) ->
  render (format st) (longarg st) fmt args = Some rest -> vl st = slot <$> args ->
  pos st = Z.of_nat (length pre) -> Forall arg_ok args -> chars_fit args -> (length pre + length rest <= total)%nat ->
  exists st', vsn_loop out n fuel s st (written out n m pre) = Ok (st', written out n m (pre ++ rest)) /\
    pos st' = Z.of_nat (length (pre ++ rest)).
Proof.
  induction fmt as [|c fmt IH]; intros [|fuel] s st args rest pre Hf Hs Ha Hr Hv Hpos Hok Hfit Hp; simpl in Hf; try lia;
    pose proof (cstr_written pre _ _ Hs Ha ltac:(lia)) as Hw; cbn [vsn_loop].
  { rewrite cstr_nil in Hw. eapply ex_intro. rewrite (run_bind _ _ _ _ _ (ldb_ok _ _ _ Hw)). simpl in Hr. simplify_eq.
    rewrite app_nil_r. done. }
  apply cstr_cons in Hw as (Hc & Hch & _). apply cstr_cons in Hs as (_ & _ & Hs). unfold is_char in Hch.
  assert (Ha' : apart (s + 1) (Z.of_nat (length fmt) + 1)).
  { apply apart_tail; [|lia]. replace (_ + 1 + 1) with (Z.of_nat (length (c :: fmt)) + 1) by (simpl length; lia). done. }
  rewrite (run_bind _ _ _ _ _ (ldb_ok _ _ _ Hc)). destruct (Z.eqb_spec c 0); [lia|]. cbn [render] in Hr.
  assert (Hskip : forall st1, vsn_char out n c st (written out n m pre) = Ok (st1, written out n m pre) ->
    vl st1 = vl st -> pos st1 = pos st -> render (format st1) (longarg st1) fmt args = Some rest ->
    exists st', (vsn_char out n c st ≫= vsn_loop out n fuel (s + 1)) (written out n m pre) =
      Ok (st', written out n m (pre ++ rest)) /\ pos st' = Z.of_nat (length (pre ++ rest))).
  { intros st1 E1 Ev1 Ep1 Er1. rewrite (run_bind _ _ _ _ _ E1). eapply (IH fuel _ _ args); try done; [lia|congruence..]. }
  destruct (format st) eqn:Ef.
  - destruct (Z.eqb_spec c 108) as [->|Hl].
    { apply (Hskip (st <| longarg := true |>)); try done; [unfold vsn_char; by rewrite Ef|]. simpl. by rewrite Ef. }
    case_bool_decide as Hin; [|apply (Hskip st); try done; [by apply vsn_char_skip|by rewrite Ef]].
    destruct (convert c (longarg st) args) as [[xs args']|] eqn:Ecv; [|done]. cbn in Hr.
    destruct (render false false fmt args') as [rs|] eqn:Er; [|done]. cbn in Hr. simplify_eq. rewrite length_app in Hp.
    destruct (vsn_char_ok c st args pre xs args') as (E1 & Hok' & Hfit'); try done; [lia|].
    rewrite (run_bind _ _ _ _ _ E1), app_assoc. eapply (IH fuel _ _ args'); try done; [lia|]. rewrite length_app. lia.
  - destruct (Z.eqb_spec c 37) as [->|Hpc].
    { apply (Hskip (st <| format := true |>)); try done. unfold vsn_char. by rewrite Ef. }
    destruct (render false (longarg st) fmt args) as [rs|] eqn:Er; [|done]. cbn in Hr. simplify_eq. simpl length in Hp.
    assert (E1 : vsn_char out n c st (written out n m pre) = Ok (st <| pos ::= Z.add 1 |>, written out n m (pre ++ [c]))).
    { unfold vsn_char. rewrite Ef, Hpos. destruct (Z.eqb_spec c 37); [done|].
      rewrite (run_bind _ _ _ _ _ (put_char_ok pre c ltac:(lia) ltac:(lia))). done. }
    rewrite (run_bind _ _ _ _ _ E1). replace (pre ++ c :: rs) with ((pre ++ [c]) ++ rs) by by rewrite <- app_assoc.
    eapply (IH fuel _ _ args); try done; [lia| | |rewrite length_app; simpl; lia].
    + simpl. by rewrite Ef.
    + simpl. rewrite Hpos, length_app. simpl. lia.
Qed.

(** The buffer at the end: the text, cut to [n - 1] bytes, and a null. *)
Definition finished (text : list Z) : bytes :=
  match out with Some o => if n =? 0 then m else overwrite m o (take (Z.to_nat n - 1) text ++ [0]) | None => m end.

Lemma put_end_ok text : length text = total ->
  put_end out n (Z.of_nat (length text)) (written out n m text) = Ok (tt, finished text).
Proof.
  intros Ht. unfold put_end, finished. destruct out as [o|] eqn:Eo; [|done].
  assert (Hm : mapped (written out n m text) o window) by (apply written_mapped; auto). unfold window in Hm.
  rewrite Eo in Hm. destruct (Z.ltb_spec (Z.of_nat (length text)) n).
  - destruct (Z.eqb_spec n 0); [lia|]. rewrite stb_ok by (lia || apply Hm; lia). unfold written.
    rewrite !take_ge by lia. by rewrite overwrite_app.
  - destruct (Z.eqb_spec n 0) as [->|]; [done|]. cbn [negb]. rewrite stb_ok by (lia || apply Hm; lia). unfold written.
    destruct (lookup_lt_is_Some_2 text (Z.to_nat n - 1)) as [x Hx]; [lia|].
    replace (Z.to_nat n) with (S (Z.to_nat n - 1)) at 1 by lia. rewrite (take_S_r _ _ _ Hx), !overwrite_app.
    rewrite length_take, (Nat.min_l (Z.to_nat n - 1)) by lia. simpl.
    replace (o + Z.of_nat (Z.to_nat n - 1)) with (o + (n - 1)) by lia. by rewrite insert_insert_eq.
Qed.

End Run.

(** ** The theorems *)

(** C18: [vsnprintf] prints what its format says, in the room it is given.
    For a format and arguments whose text is [text]: the call returns the
    length of [text] (as an [int]) and writes its first [n - 1] characters and
    a null, or nothing when [n] is 0 or the buffer is [NULL]; it never writes
    past the buffer, nor more than the text and its null, and changes no other
    byte.  A character argument must fit in the buffer (see [vprintf_char]). *)
Theorem vsnprintf_renders out n m s fmt args text :
  0 <= n -> cstr m s fmt -> render false false fmt args = Some text ->
  (forall o, out = Some o -> mapped m o (window n (length text))) ->
  apart out n (length text) s (Z.of_nat (length fmt) + 1) ->
  Forall (arg_ok out n m (length text)) args -> chars_fit out n (length text) args ->
  vsnprintf out n s (slot <$> args) m = Ok (wrapS 32 (Z.of_nat (length text)), finished out n m text).
Proof.
  intros Hn Hs Hr Hroom Ha Hok Hfit. unfold vsnprintf. eapply eq_trans; [eapply run_bind; reflexivity|]. cbn beta.
  destruct (vsn_loop_ok out n m (length text) Hn Hroom fmt (S (base.size m)) s
    (mk_fstate false false 0 (slot <$> args)) args text []) as (st & E & Hp); try done; [by eapply cstr_fuel|].
  assert (E0 : written out n m [] = m) by (unfold written; destruct out; [by rewrite take_nil|done]).
  rewrite E0 in E. rewrite (run_bind _ _ _ _ _ E), Hp.
  rewrite (run_bind _ _ _ _ _ (put_end_ok out n m (length text) Hn Hroom text eq_refl)). done.
Qed.

(** ** Reading numbers back *)

Section ReadBack.
Implicit Types (m : bytes) (o x v : Z).

(** The value of a list of digits, by the steps of [strtol]. *)
Definition digit_step (base v c : Z) : Z := match digit_of c base with Some d => wrapS 64 (v * base + d) | None => v end.

Lemma strtol_digits_ok m base ds : forall fuel p v, (length ds < fuel)%nat -> bytes_at m p (ds ++ [0]) ->
  Forall (fun c => is_Some (digit_of c base)) ds ->
  strtol_digits fuel p base v m = Ok (foldl (digit_step base) v ds, p + Z.of_nat (length ds), m).
Proof.
  induction ds as [|c ds IH]; intros [|fuel] p v Hf Hb Hd; simpl in Hf; try lia; cbn [strtol_digits]; simpl in Hb;
    destruct Hb as [Hc Hb]; rewrite (run_bind _ _ _ _ _ (ldb_ok _ _ _ Hc)).
  - simpl. by rewrite Z.add_0_r.
  - apply Forall_cons in Hd as [[d Hd] Hds]. rewrite Hd. rewrite IH by (lia || done). simpl foldl. unfold digit_step at 3.
    rewrite Hd. do 3 f_equal. simpl length. lia.
Qed.

(** A number without a sign or a prefix. *)
Lemma strtol_ok m p base c ds :
  2 <= base <= 16 -> cstr m p (c :: ds) -> Forall (fun c => is_Some (digit_of c base)) (c :: ds) ->
  strtol p base m = Ok (foldl (digit_step base) 0 (c :: ds), p + Z.of_nat (length (c :: ds)), m) /\
  (m !! (p - 1) = Some 45 ->
   strtol (p - 1) base m = Ok (wrapS 64 (- foldl (digit_step base) 0 (c :: ds)), p + Z.of_nat (length (c :: ds)), m)).
Proof.
  intros Hbase Hs Hd. pose proof (cstr_fuel _ _ _ Hs) as Hfuel.
  assert (Hrange : forall c, is_Some (digit_of c base) -> 48 <= c <= 102 /\ c <> 88).
  { intros c' [d Hd']. unfold digit_of in Hd'. repeat case_match; simplify_eq; lia. }
  assert (Hsp : forall c, 45 <= c -> isspace c = false).
  { intros c' Hc'. unfold isspace. by rewrite !(proj2 (Z.eqb_neq c' _)) by lia. }
  assert (Hb : strtol_base p base m = Ok (p, base, m)).
  { pose proof Hs as [[Hc Hrest] _]. unfold strtol_base.
    rewrite (run_bind _ _ m (p, base) m); [cbn beta iota; destruct (Z.eqb_spec base 0); [lia|done]|].
    destruct (Z.eqb_spec base 0); [lia|]. rewrite orb_false_r. destruct (Z.eqb_spec base 16); [|done].
    rewrite (run_bind _ _ _ _ _ (ldb_ok _ _ _ Hc)). destruct (Z.eqb_spec c 48); [|done].
    assert (Hx : exists x, m !! (p + 1) = Some x /\ x <> 120 /\ x <> 88).
    { destruct ds as [|x ds]; simpl in Hrest; destruct Hrest as [Hx _]; [by exists 0|]. exists x. split; [done|].
      apply Forall_cons in Hd as [_ [Hd _]%Forall_cons]. apply Hrange in Hd. lia. }
    destruct Hx as (x & Hx & H1 & H2). rewrite (run_bind _ _ _ _ _ (ldb_ok _ _ _ Hx)).
    by destruct (Z.eqb_spec x 120), (Z.eqb_spec x 88). }
  pose proof (strtol_digits_ok m base _ _ p 0 Hfuel (proj1 Hs) Hd) as Hdig.
  pose proof Hs as [[Hc _] _]. assert (Hc' := Hd). apply Forall_cons in Hc' as [Hc' _]. apply Hrange in Hc' as [Hc' _].
  unfold strtol, str_fuel. split.
  - eapply eq_trans; [eapply run_bind; reflexivity|]. cbn beta. cbn [skip_spaces].
    eapply eq_trans; [eapply run_bind; rewrite (run_bind _ _ _ _ _ (ldb_ok _ _ _ Hc)), Hsp by lia; reflexivity|]. cbn beta.
    rewrite (run_bind _ _ _ _ _ (ldb_ok _ _ _ Hc)). cbv zeta. destruct (Z.eqb_spec c 45); [lia|].
    rewrite (run_bind _ _ _ _ _ Hb). by rewrite (run_bind _ _ _ _ _ Hdig).
  - intros Hm. eapply eq_trans; [eapply run_bind; reflexivity|]. cbn beta. cbn [skip_spaces].
    eapply eq_trans; [eapply run_bind; rewrite (run_bind _ _ _ _ _ (ldb_ok _ _ _ Hm)), Hsp by lia; reflexivity|]. cbn beta.
    rewrite (run_bind _ _ _ _ _ (ldb_ok _ _ _ Hm)). cbv zeta. rewrite Z.eqb_refl. replace (p - 1 + 1) with p by lia.
    rewrite (run_bind _ _ _ _ _ Hb). by rewrite (run_bind _ _ _ _ _ Hdig).
Qed.

Lemma dec_digit_of d : 0 <= d < 10 -> digit_of (48 + d) 10 = Some d.
Proof.
  intros Hd. unfold digit_of. replace (48 + d - 48) with d by lia.
  by rewrite (proj2 (Z.leb_le 48 _)), (proj2 (Z.leb_le _ 57)), (proj2 (Z.ltb_lt d 10)) by lia.
Qed.

Lemma dec_digits_value k : forall x, 0 <= x < 2 ^ 63 -> x < 10 ^ Z.of_nat k ->
  foldl (digit_step 10) 0 (dec_digits k x) = x /\ Forall (fun c => is_Some (digit_of c 10) /\ is_char c) (dec_digits k x).
Proof.
  induction k as [|k IH]; intros x Hx Hk; [split; [simpl in *; lia|constructor]|]. cbn [dec_digits].
  pose proof (Z.rem_bound_pos x 10 ltac:(lia) ltac:(lia)) as Hr. pose proof (Z.quot_rem' x 10) as Hq.
  rewrite Nat2Z.inj_succ, Z.pow_succ_r in Hk by lia.
  assert (Hq0 : 0 <= Z.quot x 10) by (apply Z.quot_pos; lia).
  destruct (IH (Z.quot x 10)) as [Ev Hd]; [lia..|].
  rewrite foldl_app, Ev. simpl. unfold digit_step. rewrite dec_digit_of by lia. split; [rewrite wrapS_id; lia|].
  apply Forall_app. split; [done|]. constructor; [|done]. rewrite dec_digit_of by lia. split; [by eexists|unfold is_char; lia].
Qed.

Lemma hex_digit_of d : 0 <= d < 16 -> digit_of (hex_digit d) 16 = Some d /\ is_char (hex_digit d).
Proof.
  intros Hd. assert (d = 0 \/ d = 1 \/ d = 2 \/ d = 3 \/ d = 4 \/ d = 5 \/ d = 6 \/ d = 7 \/ d = 8 \/ d = 9 \/ d = 10 \/
    d = 11 \/ d = 12 \/ d = 13 \/ d = 14 \/ d = 15) by lia.
  destruct_or!; subst; by split; vm_compute.
Qed.

Lemma wrapS_step x y : wrapS 64 (wrapS 64 x * 16 + y) = wrapS 64 (x * 16 + y).
Proof.
  unfold wrapS. f_equal. set (h := 2 ^ (64 - 1)). set (w := 2 ^ 64).
  replace (((x + h) mod w - h) * 16 + y + h) with (((x + h) mod w) * 16 + (y - h * 16 + h)) by lia.
  rewrite Zplus_mod, Zmult_mod_idemp_l, <- Zplus_mod. f_equal. lia.
Qed.

Lemma hexadecimal_value k x : forall v, foldl (digit_step 16) (wrapS 64 v) (hexadecimal k x) =
    wrapS 64 (v * 16 ^ Z.of_nat k + x mod 16 ^ Z.of_nat k).
Proof.
  induction k as [|k IH]; intros v; cbn [hexadecimal foldl]; [f_equal; rewrite Z.mod_1_r; lia|].
  assert (Hp : 0 < 16 ^ Z.of_nat k) by (apply Z.pow_pos_nonneg; lia).
  pose proof (Z.mod_pos_bound (x / 16 ^ Z.of_nat k) 16 ltac:(lia)) as Hm. unfold digit_step at 2.
  rewrite (proj1 (hex_digit_of _ Hm)), wrapS_step, IH. f_equal.
  rewrite Nat2Z.inj_succ, Z.pow_succ_r, (Z.mul_comm 16), Z.rem_mul_r by lia. lia.
Qed.

Lemma hexadecimal_chars k x : Forall (fun c => is_Some (digit_of c 16) /\ is_char c) (hexadecimal k x).
Proof.
  induction k as [|k IH]; cbn [hexadecimal]; constructor; [|done].
  destruct (hex_digit_of (x / 16 ^ Z.of_nat k mod 16)) as [-> ?]; [apply Z.mod_pos_bound; lia|]. by split.
Qed.

Lemma decimal_digits x : 0 <= x < 2 ^ 63 -> exists c ds, decimal x = c :: ds /\ (length (c :: ds) <= 20)%nat /\
  foldl (digit_step 10) 0 (c :: ds) = x /\ Forall (fun c => is_Some (digit_of c 10) /\ is_char c) (c :: ds).
Proof.
  intros Hx. destruct (count_digits_decimal x ∅ Hx) as (j & _ & Hj & Hb & Ed).
  destruct (dec_digits_value (S j) x Hx Hb) as [Ev Hd]. rewrite Ed in Ev, Hd.
  assert (Hl : length (decimal x) = S j) by (by rewrite <- Ed, length_dec_digits).
  destruct (decimal x) as [|c ds]; [done|]. exists c, ds. split_and!; [done|rewrite Hl; lia|done|done].
Qed.

Lemma Forall_both {A} (P1 P2 : A -> Prop) (xs : list A) : Forall (fun y => P1 y /\ P2 y) xs -> Forall P1 xs /\ Forall P2 xs.
Proof. intros H. split; (eapply Forall_impl; [exact H|naive_solver]). Qed.

(** The text of a number is read back. *)
Lemma strtol_decimal m p x : - 2 ^ 63 < x < 2 ^ 63 -> bytes_at m p (decimal x ++ [0]) ->
  strtol p 10 m = Ok (x, p + Z.of_nat (length (decimal x)), m).
Proof.
  intros Hx Hb. destruct (decide (x < 0)) as [Hneg|].
  - rewrite decimal_neg in * by done. destruct (decimal_digits (- x)) as (c & ds & E & _ & Ev & Hd); [lia|]. rewrite E in *.
    simpl in Hb. destruct Hb as [Hm Hb]. apply Forall_both in Hd as [Hd Hch].
    destruct (strtol_ok m (p + 1) 10 c ds) as [_ Hs]; [lia|by split|done|]. replace (p + 1 - 1) with p in Hs by lia.
    rewrite (Hs Hm), Ev, Z.opp_involutive, wrapS_id by lia. do 3 f_equal. simpl length. lia.
  - destruct (decimal_digits x) as (c & ds & E & _ & Ev & Hd); [lia|]. rewrite E in *. apply Forall_both in Hd as [Hd Hch].
    destruct (strtol_ok m p 10 c ds) as [-> _]; [lia|by split|done|]. by rewrite Ev.
Qed.

Lemma strtol_hexadecimal m p x : - 2 ^ 63 <= x < 2 ^ 63 -> bytes_at m p (hexadecimal 16 x ++ [0]) ->
  strtol p 16 m = Ok (x, p + 16, m).
Proof.
  intros Hx Hb. pose proof (hexadecimal_chars 16 x) as Hd. pose proof (hexadecimal_value 16 x 0) as Ev.
  pose proof (length_hexadecimal 16 x) as Hl. rewrite (wrapS_id 64 0) in Ev by lia. apply Forall_both in Hd as [Hd Hch].
  destruct (hexadecimal 16 x) as [|c ds] eqn:E; [done|]. destruct (strtol_ok m p 16 c ds) as [-> _]; [lia|by split|done|].
  rewrite Ev, Hl. change (16 ^ Z.of_nat 16) with (2 ^ 64). do 3 f_equal. unfold wrapS. rewrite Z.mul_0_l, Z.add_0_l.
  rewrite Zplus_mod_idemp_l. fold (wrapS 64 x). apply wrapS_id; lia.
Qed.

(** C19: numbers that are printed are read back.  For a [long] other than the
    smallest one, [snprintf] with [%ld] followed by [strtol] in base 10, and
    [snprintf] with [%lx] followed by [strtol] in base 16, give the number
    again, with the end pointer on the final null; a buffer of 32 bytes is
    enough. *)
Theorem print_scan_roundtrip m o n s x fmt base :
  fmt = bytes_of "%ld" /\ base = 10 \/ fmt = bytes_of "%lx" /\ base = 16 ->
  - 2 ^ 63 < x < 2 ^ 63 -> 32 <= n -> cstr m s fmt -> mapped m o 32 -> separate o 32 s 4 ->
  exists len m', snprintf o n s [x] m = Ok (len, m') /\ strtol o base m' = Ok (x, o + len, m').
Proof.
  intros Hfb Hx Hn Hs Hm Hsep.
  assert (Htext : exists text, render false false fmt [ANum x] = Some text /\ (length text < 32)%nat /\
    forall m', bytes_at m' o (text ++ [0]) -> strtol o base m' = Ok (x, o + Z.of_nat (length text), m')).
  { destruct Hfb as [[-> ->]|[-> ->]].
    - exists (decimal x). split; [|split].
      + change (bytes_of "%ld") with [37; 108; 100]. cbn -[wrapS Z.ltb Z.pow decimal conversions]. change (bool_decide (100 ∈ conversions)) with true.
        cbn -[wrapS Z.ltb Z.pow decimal]. rewrite wrapS_id by lia. rewrite (proj2 (Z.ltb_lt (- 2 ^ 63) x)) by lia.
        cbn -[decimal]. by rewrite app_nil_r.
      + destruct (decide (x < 0)); [rewrite decimal_neg by done; destruct (decimal_digits (- x)) as (c & ds & -> & Hl & _);
          [lia|simpl in *; lia]|destruct (decimal_digits x) as (c & ds & -> & Hl & _); lia].
      + intros m'. by apply strtol_decimal.
    - exists (hexadecimal 16 x). split; [|split].
      + reflexivity.
      + rewrite length_hexadecimal. lia.
      + intros m' Hb. rewrite length_hexadecimal. apply strtol_hexadecimal; [lia|done]. }
  destruct Htext as (text & Hr & Hl & Hread). assert (Hf3 : length fmt = 3%nat) by (by destruct Hfb as [[-> _]|[-> _]]).
  exists (Z.of_nat (length text)), (overwrite m o (text ++ [0])). split.
  - unfold snprintf. change [x] with (slot <$> [ANum x]).
    rewrite (vsnprintf_renders (Some o) n m s fmt [ANum x] text); try done.
    + unfold finished. destruct (Z.eqb_spec n 0); [lia|]. rewrite wrapS_id by lia. by rewrite take_ge by lia.
    + lia.
    + intros o' [= <-] b Hb. apply Hm. unfold window in Hb. lia.
    + intros o' [= <-]. rewrite Hf3. unfold separate, window in *. lia.
    + by repeat constructor.
    + right. by repeat constructor.
  - apply Hread, overwrite_bytes_at.
Qed.

End ReadBack.

(** ** [vprintf] *)

Lemma read_bytes_ok m xs : forall a ys, bytes_at m a (xs ++ ys) -> read_bytes a (length xs) m = Ok (xs, m).
Proof.
  induction xs as [|x xs IH]; intros a ys; [done|]. simpl. intros [Hx Hb].
  rewrite (run_bind _ _ _ _ _ (ldb_ok _ _ _ Hx)). by rewrite (run_bind _ _ _ _ _ (IH _ _ Hb)).
Qed.

(** C33: [printf] writes on the console the text of its format, all of it, and
    returns its length: the first pass of [vprintf] measures the text, the
    second one writes it in a block of that size.  This holds for formats
    without a character argument. *)
Theorem vprintf_prints m out s fmt args text :
  let size := Z.of_nat (length text) + 1 in
  cstr m s fmt -> render false false fmt args = Some text -> size < 2 ^ 31 ->
  mapped m out size -> separate out size s (Z.of_nat (length fmt) + 1) ->
  Forall (fun v => match v with
    | AStr a xs => cstr m a xs /\ separate out size a (Z.of_nat (length xs) + 1)
    | AChr _ => False | ANum _ => True end) args ->
  exists m', vprintf out s (slot <$> args) m = Ok (size - 1, text, m').
Proof.
  intros size Hs Hr Hsize Hm Hsep Hargs. exists (overwrite m out (text ++ [0])). unfold vprintf.
  assert (Hno : Forall (fun v => match v with AChr _ => False | _ => True end) args).
  { eapply Forall_impl; [exact Hargs|]. by intros []. }
  assert (Ew : wrapS 32 (Z.of_nat (length text)) = Z.of_nat (length text)) by (apply wrapS_id; lia).
  eapply eq_trans; [eapply run_bind, (vsnprintf_renders None); try done|].
  { eapply Forall_impl; [exact Hargs|]. intros []; simpl; [done..|]. intros [? _]. split; [done|]. intros ? [=]. }
  { by right. }
  cbn beta. unfold finished. rewrite Ew, (wrapS_id 32), (wrapU_id 64) by lia.
  assert (Hwin : window size (length text) = size) by (unfold window; lia).
  eapply eq_trans; [eapply run_bind, (vsnprintf_renders (Some out) size); try done|].
  { lia. }
  { intros o [= <-]. by rewrite Hwin. }
  { intros o [= <-]. by rewrite Hwin. }
  { eapply Forall_impl; [exact Hargs|]. intros []; simpl; [done..|]. intros [? ?]. split; [done|].
    intros o [= <-]. by rewrite Hwin. }
  { by right. }
  cbn beta. unfold finished. destruct (Z.eqb_spec size 0); [lia|]. rewrite take_ge by lia. rewrite Nat2Z.id.
  eapply eq_trans; [eapply run_bind, (read_bytes_ok _ text _ [0]), overwrite_bytes_at|]. unfold mret, M_ret. do 3 f_equal. lia.
Qed.

(** ** Two defects *)

Lemma vsn_loop_step out n fuel s st (m m' : bytes) c st' :
  m !! s = Some c -> c <> 0 -> vsn_char out n c st m = Ok (st', m') ->
  vsn_loop out n (S fuel) s st m = vsn_loop out n fuel (s + 1) st' m'.
Proof.
  intros Hc H0 E. cbn [vsn_loop]. rewrite (run_bind _ _ _ _ _ (ldb_ok _ _ _ Hc)).
  destruct (Z.eqb_spec c 0); [done|]. by rewrite (run_bind _ _ _ _ _ E).
Qed.

(** A character argument breaks [printf].  The pass that measures the text
    does not write, and [%c] reads its argument only when it writes: a string
    that follows a character is looked for at the address that is the
    character's code. *)
Theorem vprintf_char m out s c a :
  cstr m s (bytes_of "%c%s") -> m !! c = None -> vprintf out s [c; a] m = Err BadAccess.
Proof.
  change (bytes_of "%c%s") with [37; 99; 37; 115]. intros Hs Hc. pose proof (cstr_fuel _ _ _ Hs) as Hf. simpl length in Hf. destruct Hs as [(H1 & H2 & H3 & H4 & _) _].
  unfold vprintf. apply run_bind_err. unfold vsnprintf. eapply eq_trans; [eapply run_bind; reflexivity|]. cbn beta.
  apply run_bind_err. destruct (base.size m) as [|[|[|[|f]]]]; [lia..|].
  rewrite (vsn_loop_step _ _ _ _ _ _ m _ (mk_fstate true false 0 [c; a]) H1) by done.
  rewrite (vsn_loop_step _ _ _ _ _ _ m _ (mk_fstate false false 1 [c; a]) H2) by done.
  rewrite (vsn_loop_step _ _ _ _ _ _ m _ (mk_fstate true false 1 [c; a]) H3) by done.
  cbn [vsn_loop]. rewrite (run_bind _ _ _ _ _ (ldb_ok _ _ _ H4)). change (115 =? 0) with false. cbv iota.
  apply run_bind_err. change (vsn_char None (2 ^ 64 - 1) 115 (mk_fstate true false 1 [c; a])) with (conv_string None (2 ^ 64 - 1) (mk_fstate true false 1 [c; a])).
  unfold conv_string. eapply eq_trans; [eapply run_bind; reflexivity|]. cbn beta iota.
  eapply eq_trans; [eapply run_bind; reflexivity|]. cbn beta. apply run_bind_err. cbn [put_string].
  apply run_bind_err. unfold ldb. by rewrite Hc.
Qed.

(** Large unsigned numbers lose their first digits.  [%lu] counts the digits
    of the number taken as a signed one: the numbers from [2^64 - 9] on, which
    have 20 digits, are printed as their last digit. *)
Theorem unsigned_loses_digits m o n s x :
  2 ^ 64 - 9 <= x < 2 ^ 64 -> cstr m s (bytes_of "%lu") -> 2 <= n -> mapped m o 2 -> separate o 2 s 4 ->
  snprintf o n s [x] m = Ok (1, overwrite m o [48 + x mod 10; 0]).
Proof.
  change (bytes_of "%lu") with [37; 108; 117]. intros Hx Hs Hn Hm Hsep. pose proof (cstr_fuel _ _ _ Hs) as Hf. simpl length in Hf.
  destruct Hs as [(H1 & H2 & H3 & H4 & _) _]. unfold snprintf, vsnprintf.
  assert (Hd : 0 <= x mod 10 < 10) by (apply Z.mod_pos_bound; lia).
  set (m1 := <[o + 0 := 48 + x mod 10]> m).
  assert (E3 : vsn_char (Some o) n 117 (mk_fstate true true 0 [x]) m = Ok (mk_fstate false false 1 [], m1)).
  { change (vsn_char (Some o) n 117 (mk_fstate true true 0 [x])) with (conv_unsigned (Some o) n (mk_fstate true true 0 [x])). unfold conv_unsigned.
    eapply eq_trans; [eapply run_bind; reflexivity|]. cbn [longarg pos vl]. rewrite wrapU_id by lia.
    unfold put_number. assert (Ew : wrapS 64 x = x - 2 ^ 64).
    { unfold wrapS. replace (x + 2 ^ (64 - 1)) with (x - 2 ^ 64 + 2 ^ (64 - 1) + 1 * 2 ^ 64) by lia.
      rewrite Z.mod_add, Z.mod_small by lia. lia. }
    rewrite Ew. assert (Eq : Z.quot (x - 2 ^ 64) 10 = 0) by (apply Z.quot_small_iff; lia).
    eapply eq_trans; [eapply run_bind; eapply eq_trans; [eapply run_bind; cbn [count_digits]; rewrite Eq; reflexivity|]|].
    { cbn beta. change (Z.to_nat 1) with 1%nat. cbn [put_digits]. rewrite Z.rem_mod_nonneg by lia.
      eapply eq_trans; [eapply run_bind; eapply eq_trans; [eapply run_bind|reflexivity]|reflexivity].
      unfold put_at. destruct (Z.ltb_spec (0 + Z.of_nat 0) n); [|lia].
      apply stb_ok; [apply Hm; lia|lia]. }
    done. }
  assert (Hm1 : m1 !! (s + 1 + 1 + 1) = Some 0).
  { unfold m1. rewrite lookup_insert_ne; [exact H4|]. unfold separate in Hsep. lia. }
  eapply eq_trans; [eapply run_bind; reflexivity|]. cbn beta. destruct (base.size m) as [|[|[|f]]]; [lia..|].
  eapply eq_trans; [eapply run_bind|].
  { rewrite (vsn_loop_step _ _ _ _ _ _ m _ (mk_fstate true false 0 [x]) H1) by done.
    rewrite (vsn_loop_step _ _ _ _ _ _ m _ (mk_fstate true true 0 [x]) H2) by done.
    rewrite (vsn_loop_step _ _ _ _ _ _ m1 _ (mk_fstate false false 1 []) H3) by done.
    cbn [vsn_loop]. rewrite (run_bind _ _ _ _ _ (ldb_ok _ _ _ Hm1)). reflexivity. }
  cbn beta. eapply eq_trans; [eapply run_bind|].
  { unfold put_end. cbn [pos]. destruct (Z.ltb_spec 1 n); [|lia]. apply stb_ok; [|lia]. unfold m1.
    apply (mapped_insert _ _ _ o 2 Hm). lia. }
  unfold m1. rewrite Z.add_0_r. done.
Qed.
