(* ===== verification/StdioWitness.v ===== *)
(** * StdioWitness: the theorems on the C library, on small memories

    A string at address 100 and a buffer of 64 bytes at address 200. *)

From S2P Require Import Prelude.
From S2P Require Import CString.
From S2P Require Import Stdio.
From S2P Require Import StdioSpec.
#[local] Open Scope Z_scope.

Definition text_memory (xs : list Z) : bytes := overwrite (overwrite ∅ 200 (replicate 64 7)) 100 (xs ++ [0]).
Definition two_strings (xs ys : list Z) : bytes := overwrite (text_memory xs) 300 (ys ++ [0]).

Lemma text_at xs : Forall is_char xs -> cstr (text_memory xs) 100 xs.
Proof. split; [apply overwrite_bytes_at|done]. Qed.

Lemma buffer_mapped xs n : 0 <= n <= 64 -> mapped (text_memory xs) 200 n.
Proof.
  intros Hn b Hb. apply (mapped_overwrite (overwrite ∅ 200 (replicate 64 7)) 100 (xs ++ [0]) 200 64); [|lia].
  apply (bytes_at_mapped _ 200 (replicate 64 7)), overwrite_bytes_at.
Qed.

Lemma second_string xs ys : Forall is_char ys -> cstr (two_strings xs ys) 300 ys.
Proof. split; [apply overwrite_bytes_at|done]. Qed.

Lemma first_string xs ys : Forall is_char xs -> (length xs < 100)%nat -> cstr (two_strings xs ys) 100 xs.
Proof.
  intros Hx Hl. split; [|done]. apply bytes_at_outside; [apply text_at; done|].
  rewrite length_app. simpl length. lia.
Qed.

(** Bytes that are characters. *)
Ltac chars := repeat constructor; unfold is_char; lia.

Lemma strcmp_lexicographic_witness :
  exists d, strcmp 100 300 (two_strings [97; 98] [97; 99; 100]) = Ok (d, two_strings [97; 98] [97; 99; 100]) /\
    (d ?= 0) = Lt /\ (d = 0 <-> [97; 98] = [97; 99; 100]).
Proof.
  refine (strcmp_lexicographic _ _ _ [97; 98] [97; 99; 100] _ _).
  - apply first_string; [chars|simpl; lia].
  - apply second_string. chars.
Defined.

Lemma strncmp_past_bound_witness :
  strncmp 100 300 2 (two_strings [97; 98; 120] [97; 98; 121]) = Ok (-1, two_strings [97; 98; 120] [97; 98; 121]).
Proof.
  refine (strncmp_past_bound _ 100 300 [97; 98] 120 121 _ _ _); [by vm_compute..|chars].
Defined.

Lemma strcpy_copies_witness :
  exists m', strcpy 200 100 (text_memory [97; 98]) = Ok (200, m') /\ cstr m' 200 [97; 98] /\ cstr m' 100 [97; 98] /\
    forall a, a < 200 \/ 200 + 2 + 1 <= a -> m' !! a = text_memory [97; 98] !! a.
Proof.
  refine (strcpy_copies _ 200 100 [97; 98] _ _ _).
  - apply text_at. chars.
  - apply buffer_mapped. simpl. lia.
  - unfold separate. simpl. lia.
Defined.

(** "%d!" in a buffer of 4 bytes: the text of -1234 is cut. *)
Lemma vsnprintf_renders_witness :
  vsnprintf (Some 200) 4 100 [-1234] (text_memory [37; 100; 33]) =
    Ok (6, overwrite (text_memory [37; 100; 33]) 200 [45; 49; 50; 0]).
Proof.
  refine (vsnprintf_renders (Some 200) 4 _ 100 [37; 100; 33] [ANum (-1234)] [45; 49; 50; 51; 52; 33] _ _ _ _ _ _ _).
  - lia.
  - apply text_at. chars.
  - by vm_compute.
  - intros o [= <-]. apply buffer_mapped. unfold window. simpl. lia.
  - intros o [= <-]. unfold separate, window. simpl. lia.
  - by repeat constructor.
  - right. by repeat constructor.
Defined.

Lemma print_scan_roundtrip_witness :
  exists len m', snprintf 200 64 100 [-77] (text_memory [37; 108; 120]) = Ok (len, m') /\
    strtol 200 16 m' = Ok (-77, 200 + len, m').
Proof.
  refine (print_scan_roundtrip _ 200 64 100 (-77) [37; 108; 120] 16 _ _ _ _ _ _).
  - right. by vm_compute.
  - lia.
  - lia.
  - apply text_at. chars.
  - apply buffer_mapped. lia.
  - unfold separate. lia.
Defined.

Lemma vprintf_prints_witness :
  exists m', vprintf 200 100 [300; 5] (two_strings [37; 115; 37; 117] [104; 105]) = Ok (4 - 1, [104; 105; 53], m').
Proof.
  refine (vprintf_prints _ 200 100 [37; 115; 37; 117] [AStr 300 [104; 105]; ANum 5] [104; 105; 53] _ _ _ _ _ _).
  - apply first_string; [chars|simpl; lia].
  - by vm_compute.
  - simpl. lia.
  - apply mapped_overwrite, buffer_mapped. simpl. lia.
  - unfold separate. simpl. lia.
  - constructor; [|by repeat constructor]. split; [apply second_string; chars|unfold separate; simpl; lia].
Defined.

Lemma vprintf_char_witness : vprintf 200 100 [65; 300] (two_strings [37; 99; 37; 115] [104; 105]) = Err BadAccess.
Proof.
  refine (vprintf_char _ 200 100 65 300 _ _); [|by vm_compute]. apply first_string; [chars|simpl; lia].
Defined.

Lemma unsigned_loses_digits_witness :
  snprintf 200 64 100 [2 ^ 64 - 1] (text_memory [37; 108; 117]) =
    Ok (1, overwrite (text_memory [37; 108; 117]) 200 [53; 0]).
Proof.
  refine (unsigned_loses_digits _ 200 64 100 (2 ^ 64 - 1) _ _ _ _ _).
  - lia.
  - apply text_at. chars.
  - lia.
  - apply buffer_mapped. lia.
  - unfold separate. lia.
Defined.
