(* ===== verification/Queue.v ===== *)
(** * Queue: the generic priority queues of [src/lib/include/queue.h]

    The queues are circular doubly linked lists threaded through a [link] field
    of their elements.  The first half of the file models the macros on a heap
    of links, pointer store by pointer store; the second half relates such a
    heap to a map from queue heads to plain lists ([rep]) and shows that every
    operation implements its list counterpart.

    A link address is either a queue head ([inl h]) or the [link] field of an
    element ([inr p]); [queue_entry] (the [container_of] arithmetic) is the
    projection of [inr]. *)

From S2P Require Import Prelude.
#[local] Open Scope Z_scope.

Section Queue.
Context {H P : Type} `{Countable H, Countable P}.

Abbreviation addr := (H + P)%type.

(** [struct list_link] *)
Record link : Type := mk_link { prev : option addr; next : option addr }.

Abbreviation link_heap := (gmap addr link).
Implicit Types (m : link_heap) (a b : addr) (h : H) (p : P).

Definition null_link : link := mk_link None None.

(** ** The link stores *)
Definition get_prev m a : option addr := m !! a ≫= prev.
Definition get_next m a : option addr := m !! a ≫= next.

Definition set_prev (a : addr) (v : option addr) (m : link_heap) : res link_heap :=
  l ← of_option BadAccess (m !! a); Ok (<[a := mk_link v (next l)]> m).
Definition set_next (a : addr) (v : option addr) (m : link_heap) : res link_heap :=
  l ← of_option BadAccess (m !! a); Ok (<[a := mk_link (prev l) v]> m).

(** [INIT_LIST_HEAD], [INIT_LINK] *)
Definition INIT_LIST_HEAD (h : H) (m : link_heap) : link_heap :=
  <[inl h := mk_link (Some (inl h)) (Some (inl h))]> m.
Definition INIT_LINK (p : P) (m : link_heap) : link_heap :=
  <[inr p := null_link]> m.

(** [queue_entry]: from a link to the element that holds it. *)
Definition queue_entry (a : addr) : res P :=
  match a with inr p => Ok p | inl _ => Err BadAccess end.

(** [queue_empty] *)
Definition queue_empty (h : H) (m : link_heap) : res bool :=
  n ← deref (get_next m (inl h)); Ok (bool_decide (n = inl h)).

(** The [do ... while] search of [queue_add]: move to the next link until the
    head is reached or an element of priority at least [pe] is found.
    [prio] reads the priority field of an element. *)
Fixpoint queue_add_search (fuel : nat) (m : link_heap) (h : H)
    (prio : P -> option Z) (pe : Z) (cur : addr) : res addr :=
  match fuel with
  | O => Err OutOfFuel
  | S fuel =>
      cur ← deref (get_next m cur);
      if bool_decide (cur = inl h) then Ok cur
      else
        e ← queue_entry cur;
        pc ← of_option BadAccess (prio e);
        if pc <? pe then queue_add_search fuel m h prio pe cur else Ok cur
  end.

(** [queue_add] *)
Definition queue_add (e : P) (h : H) (prio : P -> option Z) (m : link_heap) : res link_heap :=
  l ← of_option BadAccess (m !! inr e);
  _ ← assert_ (bool_decide (prev l = None) && bool_decide (next l = None));
  pe ← of_option BadAccess (prio e);
  cur ← queue_add_search (size m) m h prio pe (inl h);
  m ← set_next (inr e) (Some cur) m;
  cp ← deref (get_prev m cur);
  m ← set_prev (inr e) (Some cp) m;
  m ← set_next cp (Some (inr e)) m;
  set_prev cur (Some (inr e)) m.

(** [queue_out] (macro and [__queue_out]) *)
Definition queue_out (h : H) (m : link_heap) : res (option P * link_heap) :=
  ptr_link_ret ← deref (get_prev m (inl h));
  em ← queue_empty h m;
  if em : bool then Ok (None, m)
  else
    pp ← deref (get_prev m ptr_link_ret);
    m ← set_prev (inl h) (Some pp) m;
    m ← set_next pp (Some (inl h)) m;
    m ← set_prev ptr_link_ret None m;
    m ← set_next ptr_link_ret None m;
    e ← queue_entry ptr_link_ret;
    Ok (Some e, m).

(** [queue_del] *)
Definition queue_del (e : P) (m : link_heap) : res link_heap :=
  l ← of_option BadAccess (m !! inr e);
  _ ← assert_ (negb (bool_decide (prev l = None)) && negb (bool_decide (next l = None)));
  ep ← deref (get_prev m (inr e));
  en ← deref (get_next m (inr e));
  m ← set_next ep (Some en) m;
  en ← deref (get_next m (inr e));
  ep ← deref (get_prev m (inr e));
  m ← set_prev en (Some ep) m;
  m ← set_next (inr e) None m;
  set_prev (inr e) None m.

(** [queue_top] (macro and [__queue_top]) *)
Definition queue_top (h : H) (m : link_heap) : res (option P) :=
  ptr_link_ret ← deref (get_prev m (inl h));
  em ← queue_empty h m;
  if em : bool then Ok None else e ← queue_entry ptr_link_ret; Ok (Some e).

(** [queue_bottom] (macro and [__queue_bottom]) *)
Definition queue_bottom (h : H) (m : link_heap) : res (option P) :=
  ptr_link_ret ← deref (get_next m (inl h));
  em ← queue_empty h m;
  if em : bool then Ok None else e ← queue_entry ptr_link_ret; Ok (Some e).

(** [queue_for_each]: the elements the loop visits, in order. *)
Fixpoint queue_walk (fuel : nat) (m : link_heap) (h : H) (a : addr) : res (list P) :=
  match fuel with
  | O => Err OutOfFuel
  | S fuel =>
      if bool_decide (a = inl h) then Ok []
      else
        e ← queue_entry a;
        n ← deref (get_next m a);
        es ← queue_walk fuel m h n;
        Ok (e :: es)
  end.
Definition queue_for_each (h : H) (m : link_heap) : res (list P) :=
  n ← deref (get_next m (inl h)); queue_walk (size m) m h n.

(** [queue_for_each_prev] *)
Fixpoint queue_walk_prev (fuel : nat) (m : link_heap) (h : H) (a : addr) : res (list P) :=
  match fuel with
  | O => Err OutOfFuel
  | S fuel =>
      if bool_decide (a = inl h) then Ok []
      else
        e ← queue_entry a;
        n ← deref (get_prev m a);
        es ← queue_walk_prev fuel m h n;
        Ok (e :: es)
  end.
Definition queue_for_each_prev (h : H) (m : link_heap) : res (list P) :=
  n ← deref (get_prev m (inl h)); queue_walk_prev (size m) m h n.

(** ** The abstract queues

    A heap of links represents a map [Q] from heads to lists: the list of a
    head holds its elements from [head->next] to [head->prev], that is in
    ascending priority; the element to leave first is the last one. *)

Definition edge m a b : Prop := get_next m a = Some b /\ get_prev m b = Some a.

Fixpoint chain m a (xs : list addr) b : Prop :=
  match xs with
  | [] => edge m a b
  | x :: xs => edge m a x /\ chain m x xs b
  end.

Definition ring m h (xs : list P) : Prop :=
  chain m (inl h) (inr <$> xs) (inl h) /\ NoDup xs.

Definition queued (Q : gmap H (list P)) (p : P) : Prop :=
  exists h xs, Q !! h = Some xs /\ p ∈ xs.

Record rep m (Q : gmap H (list P)) : Prop := {
  rep_ring : forall h xs, Q !! h = Some xs -> ring m h xs;
  rep_disj : forall h1 h2 xs ys p,
    Q !! h1 = Some xs -> Q !! h2 = Some ys -> p ∈ xs -> p ∈ ys -> h1 = h2;
  rep_free : forall p l, m !! inr p = Some l -> ~ queued Q p -> l = null_link
}.

(** List counterparts of the operations. *)
Fixpoint insert_prio (f : P -> Z) (e : P) (xs : list P) : list P :=
  match xs with
  | [] => [e]
  | x :: xs => if f x <? f e then x :: insert_prio f e xs else e :: x :: xs
  end.

(** ** Link-level lemmas *)

Lemma get_next_insert m a l b :
  get_next (<[a := l]> m) b = if decide (a = b) then next l else get_next m b.
Proof. unfold get_next. rewrite lookup_insert. by case_decide. Qed.

Lemma get_prev_insert m a l b :
  get_prev (<[a := l]> m) b = if decide (a = b) then prev l else get_prev m b.
Proof. unfold get_prev. rewrite lookup_insert. by case_decide. Qed.

(** The effect of a store on the two fields of every link. *)
Lemma set_next_spec m a v :
  is_Some (m !! a) ->
  exists m', set_next a v m = Ok m' /\ dom m' = dom m /\
    (forall b, get_next m' b = if decide (a = b) then v else get_next m b) /\
    (forall b, get_prev m' b = get_prev m b).
Proof.
  intros [l Hl]. unfold set_next. rewrite Hl. simpl. eexists. split; [done|].
  split; [apply dom_insert_lookup_L; eauto|]. split; intros b.
  - by rewrite get_next_insert.
  - rewrite get_prev_insert. case_decide; subst; [|done]. unfold get_prev. by rewrite Hl.
Qed.

Lemma set_prev_spec m a v :
  is_Some (m !! a) ->
  exists m', set_prev a v m = Ok m' /\ dom m' = dom m /\
    (forall b, get_prev m' b = if decide (a = b) then v else get_prev m b) /\
    (forall b, get_next m' b = get_next m b).
Proof.
  intros [l Hl]. unfold set_prev. rewrite Hl. simpl. eexists. split; [done|].
  split; [apply dom_insert_lookup_L; eauto|]. split; intros b.
  - by rewrite get_prev_insert.
  - rewrite get_next_insert. case_decide; subst; [|done]. unfold get_next. by rewrite Hl.
Qed.

Lemma get_next_dom m a b : get_next m a = Some b -> is_Some (m !! a).
Proof. unfold get_next. destruct (m !! a); [by eauto|done]. Qed.
Lemma get_prev_dom m a b : get_prev m a = Some b -> is_Some (m !! a).
Proof. unfold get_prev. destruct (m !! a); [by eauto|done]. Qed.
Lemma dom_is_Some m m' a : dom m' = dom m -> is_Some (m !! a) -> is_Some (m' !! a).
Proof. rewrite <- !elem_of_dom. congruence. Qed.
Hint Resolve get_next_dom get_prev_dom dom_is_Some : core.

(** ** Chains *)

Lemma chain_app m a xs y ys b :
  chain m a (xs ++ y :: ys) b <-> chain m a xs y /\ chain m y ys b.
Proof. revert a. induction xs as [|x xs IH]; intros a; simpl; [done|]. rewrite IH. tauto. Qed.

Lemma chain_frame m m' a xs b :
  (forall x, x ∈ a :: xs -> get_next m' x = get_next m x) ->
  (forall x, x ∈ xs ++ [b] -> get_prev m' x = get_prev m x) ->
  chain m a xs b -> chain m' a xs b.
Proof.
  revert a. induction xs as [|x xs IH]; intros a Hn Hp; simpl; unfold edge.
  - rewrite Hn, Hp; [done|set_solver..].
  - rewrite Hn, Hp by set_solver. intros [He Hc]. split; [done|]. apply IH; set_solver.
Qed.

Lemma chain_dom m a xs b x : chain m a xs b -> x ∈ a :: xs ++ [b] -> is_Some (m !! x).
Proof.
  revert a. induction xs as [|y xs IH]; intros a; simpl.
  - intros [??]. rewrite !elem_of_cons, elem_of_nil. naive_solver.
  - intros [[??] Hc]. rewrite elem_of_cons. intros [->|Hx]; [by eauto|]. by apply (IH y).
Qed.

(** The last link of a non-empty prefix and the first of a suffix. *)
Lemma chain_split m h (xs ys : list P) :
  chain m (inl h) (inr <$> (xs ++ ys)) (inl h) ->
  exists a b,
    a = default (inl h) (inr <$> last xs) /\ b = default (inl h) (inr <$> head ys) /\
    edge m a b.
Proof.
  intros Hc. eexists _, _. split; [done|]. split; [done|].
  rewrite fmap_app in Hc.
  destruct (list_snoc_inv xs) as [->|(xs' & x & ->)]; destruct ys as [|y ys]; simpl in *.
  - done.
  - by destruct Hc.
  - rewrite last_snoc. rewrite fmap_app, app_nil_r in Hc. simpl in *.
    by apply chain_app in Hc as [? ?].
  - rewrite last_snoc. rewrite fmap_app, <-app_assoc in Hc. simpl in *.
    apply chain_app in Hc as [_ Hc]. by destruct Hc.
Qed.

(** Splicing an element into, and out of, a chain. *)
Lemma chain_splice_in m m' h (xs ys : list P) e a b :
  a = default (inl h) (inr <$> last xs) -> b = default (inl h) (inr <$> head ys) ->
  e ∉ xs ++ ys -> NoDup (xs ++ ys) ->
  get_next m' (inr e) = Some b -> get_prev m' (inr e) = Some a ->
  get_next m' a = Some (inr e) -> get_prev m' b = Some (inr e) ->
  (forall x, x <> inr e -> x <> a -> get_next m' x = get_next m x) ->
  (forall x, x <> inr e -> x <> b -> get_prev m' x = get_prev m x) ->
  chain m (inl h) (inr <$> (xs ++ ys)) (inl h) ->
  chain m' (inl h) (inr <$> (xs ++ e :: ys)) (inl h).
Proof.
  intros Ha Hb He Hnd Hne Hpe Hna Hpb Hfn Hfp Hc.
  rewrite fmap_app. simpl. apply chain_app.
  apply NoDup_app in Hnd as (Hx & Hd & Hy).
  rewrite fmap_app in Hc.
  assert (forall x, inr e = (inr x : addr) -> x = e) by congruence.
  split.
  - destruct (list_snoc_inv xs) as [->|(xs' & x & ->)]; [simpl in *; by subst|].
    rewrite last_snoc in Ha. simpl in Ha. subst a.
    rewrite fmap_app in *. simpl in *. apply chain_app. split; [|done].
    rewrite <- app_assoc in Hc. simpl in Hc. apply chain_app in Hc as [Hc _].
    apply NoDup_app in Hx as (Hx1 & Hx2 & _).
    eapply chain_frame; [| |done].
    + intros z Hz. apply Hfn; set_solver.
    + intros z Hz. apply Hfp; [set_solver|].
      destruct ys as [|y ys]; simpl in Hb; subst b; set_solver.
  - destruct ys as [|y ys]; simpl in *; [by subst|]. subst b.
    split; [done|]. apply chain_app in Hc as [_ Hc].
    apply NoDup_cons in Hy as [Hy1 Hy2].
    eapply chain_frame; [| |done].
    + intros z Hz. apply Hfn; [set_solver|].
      destruct (list_snoc_inv xs) as [->|(xs' & x & ->)]; [set_solver|].
      rewrite last_snoc in Ha. simpl in Ha. subst a. set_solver.
    + intros z Hz. apply Hfp; set_solver.
Qed.

Lemma chain_splice_out m m' h (xs ys : list P) e a b :
  a = default (inl h) (inr <$> last xs) -> b = default (inl h) (inr <$> head ys) ->
  NoDup (xs ++ e :: ys) ->
  get_next m' a = Some b -> get_prev m' b = Some a ->
  (forall x, x <> inr e -> x <> a -> get_next m' x = get_next m x) ->
  (forall x, x <> inr e -> x <> b -> get_prev m' x = get_prev m x) ->
  chain m (inl h) (inr <$> (xs ++ e :: ys)) (inl h) ->
  chain m' (inl h) (inr <$> (xs ++ ys)) (inl h).
Proof.
  intros Ha Hb Hnd Hna Hpb Hfn Hfp Hc.
  rewrite fmap_app in Hc. simpl in Hc. apply chain_app in Hc as [Hc1 Hc2].
  apply NoDup_app in Hnd as (Hx & Hd & [He Hy]%NoDup_cons).
  assert (chain m' a (inr <$> ys) (inl h)) as Hc2'.
  { destruct ys as [|y ys]; simpl in *; subst b; [done|].
    split; [done|]. apply NoDup_cons in Hy as [Hy1 Hy2]. destruct Hc2 as [_ Hc2].
    eapply chain_frame; [| |done].
    - intros z Hz. apply Hfn; [set_solver|].
      destruct (list_snoc_inv xs) as [->|(xs' & x & ->)]; [set_solver|].
      rewrite last_snoc in Ha. simpl in Ha. subst a. set_solver.
    - intros z Hz. apply Hfp; set_solver. }
  destruct (list_snoc_inv xs) as [->|(xs' & x & ->)]; simpl in *; [by subst|].
  rewrite last_snoc in Ha. simpl in Ha. subst a.
  rewrite <- app_assoc. rewrite fmap_app in *. simpl in *. apply chain_app. split; [|done].
  apply chain_app in Hc1 as [Hc1 _]. apply NoDup_app in Hx as (Hx1 & Hx2 & _).
  eapply chain_frame; [| |done].
  - intros z Hz. apply Hfn; set_solver.
  - intros z Hz. apply Hfp; [set_solver|].
    destruct ys as [|y ys]; simpl in Hb; subst b; set_solver.
Qed.

(** ** Rings and represented heaps *)

Lemma lookup_link m a l : m !! a = Some l -> l = mk_link (get_prev m a) (get_next m a).
Proof. intros Hl. unfold get_prev, get_next. rewrite Hl. by destruct l. Qed.

Lemma ring_dom m h xs : ring m h xs -> is_Some (m !! inl h) /\ forall p, p ∈ xs -> is_Some (m !! inr p).
Proof.
  intros [Hc _]. split; [eapply chain_dom; [done|set_solver]|].
  intros p Hp. eapply chain_dom; [done|]. set_solver.
Qed.

(** A ring has fewer elements than the heap has links: the fuel of the loops
    over a queue, the size of the heap, covers every ring. *)
Lemma ring_length m h xs : ring m h xs -> (length xs < size m)%nat.
Proof.
  intros Hr. pose proof Hr as [Hc Hnd].
  assert (NoDup (inl h :: (inr <$> xs))) as Hnd'.
  { apply NoDup_cons. split; [set_solver|]. by apply (NoDup_fmap_2 inr). }
  rewrite <- size_dom.
  replace (length xs) with (pred (length (inl h :: (inr <$> xs) : list addr)))
    by (simpl; by rewrite length_fmap).
  rewrite <- (size_list_to_set (C := gset addr)) by done.
  enough (size (list_to_set (inl h :: (inr <$> xs)) : gset addr) <= size (dom m))%nat.
  { pose proof (size_list_to_set (C := gset addr) _ Hnd') as E. simpl length in E. lia. }
  apply subseteq_size. intros x. rewrite elem_of_list_to_set, elem_of_dom. intros Hx.
  eapply chain_dom; [done|]. set_solver.
Qed.

Lemma ring_frame m m' h xs :
  (forall x, x ∈ inl h :: (inr <$> xs) ->
     get_next m' x = get_next m x /\ get_prev m' x = get_prev m x) ->
  ring m h xs -> ring m' h xs.
Proof.
  intros Hf [Hc Hnd]. split; [|done].
  eapply chain_frame; [| |done]; intros x Hx; apply Hf; set_solver.
Qed.

(** One queue changes from [xs] to [xs'], all stores being to its head, its
    elements or [e]: the other queues are as before. *)
Lemma rep_update m m' Q h xs xs' e :
  rep m Q -> Q !! h = Some xs -> dom m' = dom m ->
  ring m' h xs' -> (forall p, p ∈ xs' -> p = e \/ p ∈ xs) ->
  (e ∈ xs \/ ~ queued Q e) ->
  (forall x, x ∉ inl h :: (inr <$> e :: xs) ->
     get_next m' x = get_next m x /\ get_prev m' x = get_prev m x) ->
  (forall p, p = e \/ p ∈ xs -> p ∉ xs' ->
     get_next m' (inr p) = None /\ get_prev m' (inr p) = None) ->
  rep m' (<[h := xs']> Q).
Proof.
  intros [Hr Hd Hfree] HQ Hdom Hring Hsub He Hout Hnull.
  assert (forall h' ys p, h' <> h -> Q !! h' = Some ys -> p ∈ ys -> p <> e /\ p ∉ xs) as Hsep.
  { intros h' ys p Hne HQ' Hp. split.
    - intros ->. destruct He as [He|He]; [by eapply Hne, Hd|]. apply He. by exists h', ys.
    - intros Hp'. by eapply Hne, Hd. }
  split.
  - intros h' ys. rewrite lookup_insert. case_decide; [intros [= <-]; by subst|]. intros HQ'.
    eapply ring_frame; [|by apply Hr]. intros x Hx. apply Hout. simpl.
    rewrite !not_elem_of_cons, list_elem_of_fmap.
    apply elem_of_cons in Hx as [->|(p & -> & Hp)%list_elem_of_fmap].
    + split; [congruence|]. split; [done|]. intros (? & ? & _). done.
    + destruct (Hsep h' ys p) as [Hpe Hpx]; [done..|].
      split; [done|]. split; [congruence|]. intros (? & [= <-] & ?). done.
  - intros h1 h2 ys zs p. rewrite !lookup_insert.
    case_decide as E1; case_decide as E2; intros HQ1 HQ2 Hp1 Hp2; simplify_eq; try done.
    + exfalso. edestruct (Hsep h2 zs p); [done..|]. destruct (Hsub p); done.
    + exfalso. edestruct (Hsep h1 ys p); [done..|]. destruct (Hsub p); done.
    + by eapply Hd.
  - intros p l Hl Hnq. assert (is_Some (m !! inr p)) as [l0 Hl0] by eauto.
    assert (p ∉ xs') as Hpx.
    { intros Hp. apply Hnq. exists h, xs'. by rewrite lookup_insert_eq. }
    rewrite (lookup_link m' _ _ Hl).
    destruct (decide (p = e \/ p ∈ xs)) as [Hp|Hp].
    + by destruct (Hnull p Hp Hpx) as [-> ->].
    + destruct (Hout (inr p)) as [-> ->].
      { simpl. rewrite !not_elem_of_cons, list_elem_of_fmap. split; [done|].
        split; [naive_solver|]. intros (? & [= <-] & ?). naive_solver. }
      rewrite <- (lookup_link m _ _ Hl0). apply (Hfree p); [done|].
      intros (h' & ys & HQ' & Hp'). destruct (decide (h' = h)) as [->|].
      * naive_solver.
      * apply Hnq. exists h', ys. by rewrite lookup_insert_ne.
Qed.

Lemma rep_unlinked m Q p : rep m Q -> is_Some (m !! inr p) -> ~ queued Q p -> m !! inr p = Some null_link.
Proof. intros Hrep [l Hl] Hnq. by rewrite Hl, (rep_free _ _ Hrep p l Hl Hnq). Qed.

Lemma rep_queued_link m Q h xs ys p :
  rep m Q -> Q !! h = Some (xs ++ p :: ys) ->
  get_prev m (inr p) = Some (default (inl h) (inr <$> last xs)) /\
  get_next m (inr p) = Some (default (inl h) (inr <$> head ys)).
Proof.
  intros Hrep HQ. destruct (rep_ring _ _ Hrep _ _ HQ) as [Hc _]. split.
  - by destruct (chain_split m h xs (p :: ys) Hc) as (? & ? & -> & -> & ? & ?).
  - rewrite (cons_middle p xs ys), app_assoc in Hc.
    destruct (chain_split m h (xs ++ [p]) ys Hc) as (? & ? & -> & -> & ? & ?).
    by rewrite last_snoc in *.
Qed.

(** ** The operations implement their list counterparts *)

Lemma default_inr_last h (xs : list P) :
  default (inl h) (inr <$> last xs) ∈ (inl h :: (inr <$> xs) : list addr).
Proof.
  destruct (list_snoc_inv xs) as [->|(xs' & x & ->)]; [set_solver|].
  rewrite last_snoc. simpl. set_solver.
Qed.

Lemma default_inr_head h (xs : list P) :
  default (inl h) (inr <$> head xs) ∈ (inl h :: (inr <$> xs) : list addr).
Proof. destruct xs; set_solver. Qed.

Lemma link_neq_elem h (xs : list P) e a :
  e ∉ xs -> a ∈ inl h :: (inr <$> xs) -> inr e <> a.
Proof. set_solver. Qed.

Lemma link_neq_out h (xs zs : list P) e a x :
  x ∉ inl h :: (inr <$> e :: zs) -> (forall y, y ∈ xs -> y ∈ zs) ->
  a ∈ inl h :: (inr <$> xs) -> inl h <> x /\ inr e <> x /\ a <> x.
Proof. set_solver. Qed.

Lemma removed_elem (xs ys : list P) e p :
  p = e \/ p ∈ xs ++ e :: ys -> p ∉ xs ++ ys -> p = e.
Proof. set_solver. Qed.

Lemma NoDup_insert (xs ys : list P) e : NoDup (xs ++ ys) -> e ∉ xs ++ ys -> NoDup (xs ++ e :: ys).
Proof.
  intros (Hx & Hd & Hy)%NoDup_app He. apply NoDup_app. split; [done|].
  split; [set_solver|]. apply NoDup_cons. set_solver.
Qed.

Lemma ring_link_dom m h xs x : ring m h xs -> x ∈ inl h :: (inr <$> xs) -> is_Some (m !! x).
Proof. intros [Hc _] Hx. eapply chain_dom; [done|]. set_solver. Qed.

(** The search of [queue_add] stops where [insert_prio] inserts. *)
Lemma queue_add_search_spec fuel m h prio f e xs a :
  chain m a (inr <$> xs) (inl h) ->
  (forall x, x ∈ xs -> prio x = Some (f x)) -> (length xs < fuel)%nat ->
  exists pre suf, xs = pre ++ suf /\ insert_prio f e xs = pre ++ e :: suf /\
    queue_add_search fuel m h prio (f e) a = Ok (default (inl h) (inr <$> head suf)).
Proof.
  revert a fuel. induction xs as [|x xs IH]; intros a fuel Hc Hp Hf;
    (destruct fuel as [|fuel]; [simpl in Hf; lia|]); simpl in *.
  - destruct Hc as [-> _]. simpl. rewrite bool_decide_true by done. by exists [], [].
  - destruct Hc as [[-> _] Hc]. simpl. rewrite (Hp x) by set_solver. simpl.
    destruct (f x <? f e) eqn:E.
    + destruct (IH (inr x) fuel) as (pre & suf & -> & -> & ->); [done|set_solver|lia|].
      by exists (x :: pre), suf.
    + by exists [], (x :: xs).
Qed.

Theorem queue_add_rep m Q h xs e prio f :
  rep m Q -> Q !! h = Some xs -> is_Some (m !! inr e) -> ~ queued Q e ->
  (forall x, x ∈ e :: xs -> prio x = Some (f x)) ->
  exists m', queue_add e h prio m = Ok m' /\ dom m' = dom m /\
    rep m' (<[h := insert_prio f e xs]> Q).
Proof.
  intros Hrep HQ Hl Hnq Hprio.
  pose proof (rep_ring _ _ Hrep _ _ HQ) as Hring. pose proof Hring as [Hc Hnd].
  destruct (queue_add_search_spec (size m) m h prio f e xs (inl h))
    as (pre & suf & Hxs & Hins & Hsearch); [done|set_solver|by eapply ring_length|].
  assert (e ∉ xs) as Hex by (intros ?; apply Hnq; by exists h, xs).
  unfold queue_add. rewrite (rep_unlinked _ _ _ Hrep Hl Hnq). simpl.
  rewrite (Hprio e) by set_solver. simpl. rewrite Hsearch. simpl.
  pose proof (default_inr_last h pre) as Ha. pose proof (default_inr_head h suf) as Hb.
  remember (default (inl h) (inr <$> head suf)) as b eqn:Eb.
  remember (default (inl h) (inr <$> last pre)) as a eqn:Ea.
  assert (edge m a b) as [Eab1 Eab2].
  { subst a b xs. by destruct (chain_split _ _ _ _ Hc) as (? & ? & -> & -> & ?). }
  assert (inr e <> a /\ inr e <> b) as [Hea Heb].
  { split; (eapply link_neq_elem; [|done]); set_solver. }
  edestruct (set_next_spec m (inr e) (Some b)) as (m1 & -> & D1 & N1 & P1); [done|]. simpl.
  rewrite P1, Eab2. simpl.
  edestruct (set_prev_spec m1 (inr e) (Some a)) as (m2 & -> & D2 & P2 & N2); [by eauto|]. simpl.
  edestruct (set_next_spec m2 a (Some (inr e))) as (m3 & -> & D3 & N3 & P3);
    [apply (dom_is_Some m); [congruence|eauto]|]. simpl.
  edestruct (set_prev_spec m3 b (Some (inr e))) as (m4 & -> & D4 & P4 & N4);
    [apply (dom_is_Some m); [congruence|eauto]|]. simpl.
  exists m4. split; [done|]. split; [congruence|].
  assert (Hnext : forall x, get_next m4 x =
    if decide (a = x) then Some (inr e) else if decide (inr e = x) then Some b else get_next m x)
    by (intros x; by rewrite N4, N3, N2, N1).
  assert (Hprev : forall x, get_prev m4 x =
    if decide (b = x) then Some (inr e) else if decide (inr e = x) then Some a else get_prev m x)
    by (intros x; by rewrite P4, P3, P2, P1).
  eapply (rep_update m m4 Q h xs _ e); [done|done|congruence| | |by right| |].
  - split.
    + rewrite Hins. subst xs. eapply (chain_splice_in m m4 h pre suf e a b); try done.
      * rewrite Hnext, decide_False, decide_True by done. done.
      * rewrite Hprev, decide_False, decide_True by done. done.
      * rewrite Hnext, decide_True by done. done.
      * rewrite Hprev, decide_True by done. done.
      * intros x ??. by rewrite Hnext, !decide_False by done.
      * intros x ??. by rewrite Hprev, !decide_False by done.
    + rewrite Hins. subst xs. by apply NoDup_insert.
  - intros p. rewrite Hins, Hxs, !elem_of_app, elem_of_cons. tauto.
  - intros x Hx. rewrite Hnext, Hprev.
    destruct (link_neq_out h pre xs e a x) as (? & ? & ?);
      [done|by intros; subst xs; apply elem_of_app; left|done|].
    destruct (link_neq_out h suf xs e b x) as (_ & _ & ?);
      [done|by intros; subst xs; apply elem_of_app; right|done|].
    by rewrite !decide_False by done.
  - intros p Hp Hp'. exfalso. apply Hp'. rewrite Hins.
    rewrite Hxs in Hp. rewrite elem_of_app, elem_of_cons in *. tauto.
Qed.

Lemma queue_empty_rep m Q h xs :
  rep m Q -> Q !! h = Some xs -> queue_empty h m = Ok (bool_decide (xs = [])).
Proof.
  intros Hrep HQ. destruct (rep_ring _ _ Hrep _ _ HQ) as [Hc _].
  destruct (chain_split m h [] xs Hc) as (? & ? & -> & -> & E & _). simpl in E.
  unfold queue_empty. rewrite E. simpl. f_equal. destruct xs as [|x xs]; simpl; [|done].
  by rewrite bool_decide_true.
Qed.

Lemma head_prev_rep m Q h xs :
  rep m Q -> Q !! h = Some xs ->
  get_prev m (inl h) = Some (default (inl h) (inr <$> last xs)).
Proof.
  intros Hrep HQ. destruct (rep_ring _ _ Hrep _ _ HQ) as [Hc _].
  rewrite <- (app_nil_r xs) in Hc.
  by destruct (chain_split m h xs [] Hc) as (? & ? & -> & -> & _ & ?).
Qed.

Theorem queue_out_rep_empty m Q h :
  rep m Q -> Q !! h = Some [] -> queue_out h m = Ok (None, m).
Proof.
  intros Hrep HQ. unfold queue_out.
  rewrite (head_prev_rep _ _ _ _ Hrep HQ). simpl.
  by rewrite (queue_empty_rep _ _ _ _ Hrep HQ).
Qed.

Theorem queue_out_rep m Q h xs e :
  rep m Q -> Q !! h = Some (xs ++ [e]) ->
  exists m', queue_out h m = Ok (Some e, m') /\ dom m' = dom m /\ rep m' (<[h := xs]> Q).
Proof.
  intros Hrep HQ. pose proof (rep_ring _ _ Hrep _ _ HQ) as Hring. pose proof Hring as [Hc Hnd].
  unfold queue_out. rewrite (head_prev_rep _ _ _ _ Hrep HQ), last_snoc. simpl.
  rewrite (queue_empty_rep _ _ _ _ Hrep HQ). rewrite bool_decide_false by (by destruct xs). simpl.
  destruct (rep_queued_link m Q h xs [] e Hrep HQ) as [Ep En]. rewrite Ep. simpl.
  pose proof (default_inr_last h xs) as Ha.
  remember (default (inl h) (inr <$> last xs)) as a eqn:Ea.
  assert (e ∉ xs) as Hex by (apply NoDup_app in Hnd; set_solver).
  assert (inr e <> a) as Hea by (by eapply link_neq_elem).
  edestruct (set_prev_spec m (inl h) (Some a)) as (m1 & -> & D1 & P1 & N1);
    [by eapply ring_dom|]. simpl.
  edestruct (set_next_spec m1 a (Some (inl h))) as (m2 & -> & D2 & N2 & P2).
  { apply (dom_is_Some m); [done|]. eapply ring_link_dom; [done|]. set_solver. } simpl.
  edestruct (set_prev_spec m2 (inr e) None) as (m3 & -> & D3 & P3 & N3);
    [apply (dom_is_Some m); [congruence|eauto]|]. simpl.
  edestruct (set_next_spec m3 (inr e) None) as (m4 & -> & D4 & N4 & P4);
    [apply (dom_is_Some m); [congruence|eauto]|]. simpl.
  exists m4. split; [done|]. split; [congruence|].
  eapply (rep_update m m4 Q h (xs ++ [e]) xs e); [done|done|congruence| |set_solver|set_solver| |].
  - split; [|by apply NoDup_app in Hnd as [? _]]. rewrite <- (app_nil_r xs).
    eapply (chain_splice_out m m4 h xs [] e a (inl h)); try done.
    + by rewrite N4, N3, N2, decide_False, decide_True by done.
    + by rewrite P4, P3, P2, P1, decide_False, decide_True by done.
    + intros x ??. by rewrite N4, N3, N2, N1, !decide_False by done.
    + intros x ??. by rewrite P4, P3, P2, P1, !decide_False by done.
  - intros x Hx. rewrite N4, N3, N2, N1, P4, P3, P2, P1.
    destruct (link_neq_out h xs (xs ++ [e]) e a x) as (? & ? & ?);
      [done|by intros; apply elem_of_app; left|done|].
    by rewrite !decide_False by done.
  - intros p Hp Hp'. assert (p = e) as ->
      by (apply (removed_elem xs []); [done|by rewrite app_nil_r]).
    by rewrite N4, P4, P3, !decide_True by done.
Qed.

Theorem queue_top_rep m Q h xs :
  rep m Q -> Q !! h = Some xs -> queue_top h m = Ok (last xs).
Proof.
  intros Hrep HQ. unfold queue_top. rewrite (head_prev_rep _ _ _ _ Hrep HQ). simpl.
  rewrite (queue_empty_rep _ _ _ _ Hrep HQ). simpl.
  destruct (list_snoc_inv xs) as [->|(xs' & x & ->)]; [done|].
  rewrite bool_decide_false by (by destruct xs'). by rewrite last_snoc.
Qed.

Theorem queue_bottom_rep m Q h xs :
  rep m Q -> Q !! h = Some xs -> queue_bottom h m = Ok (head xs).
Proof.
  intros Hrep HQ. unfold queue_bottom.
  destruct (rep_ring _ _ Hrep _ _ HQ) as [Hc _].
  destruct (chain_split m h [] xs Hc) as (? & ? & -> & -> & E & _). simpl in E. rewrite E. simpl.
  rewrite (queue_empty_rep _ _ _ _ Hrep HQ). by destruct xs.
Qed.

Theorem queue_del_rep m Q h xs ys e :
  rep m Q -> Q !! h = Some (xs ++ e :: ys) ->
  exists m', queue_del e m = Ok m' /\ dom m' = dom m /\ rep m' (<[h := xs ++ ys]> Q).
Proof.
  intros Hrep HQ. pose proof (rep_ring _ _ Hrep _ _ HQ) as Hring. pose proof Hring as [Hc Hnd].
  destruct (rep_queued_link m Q h xs ys e Hrep HQ) as [Ep En].
  destruct (get_prev_dom _ _ _ Ep) as [l Hl].
  pose proof (default_inr_last h xs) as Ha. pose proof (default_inr_head h ys) as Hb.
  remember (default (inl h) (inr <$> last xs)) as a eqn:Ea.
  remember (default (inl h) (inr <$> head ys)) as b eqn:Eb.
  assert (e ∉ xs /\ e ∉ ys) as [Hex Hey].
  { apply NoDup_app in Hnd as (? & ? & [? ?]%NoDup_cons). split; [|done]. intros ?. set_solver. }
  assert (inr e <> a) as Hea by (by apply (link_neq_elem h xs)).
  assert (inr e <> b) as Heb by (by apply (link_neq_elem h ys)).
  unfold queue_del. rewrite Hl. simpl. rewrite (lookup_link _ _ _ Hl), Ep, En. simpl.
  edestruct (set_next_spec m a (Some b)) as (m1 & -> & D1 & N1 & P1);
    [eapply ring_link_dom; [done|]; set_solver|]. simpl.
  rewrite N1, P1, decide_False, En, Ep by done. simpl.
  edestruct (set_prev_spec m1 b (Some a)) as (m2 & -> & D2 & P2 & N2);
    [apply (dom_is_Some m); [done|]; eapply ring_link_dom; [done|]; set_solver|]. simpl.
  edestruct (set_next_spec m2 (inr e) None) as (m3 & -> & D3 & N3 & P3);
    [apply (dom_is_Some m); [congruence|eauto]|]. simpl.
  edestruct (set_prev_spec m3 (inr e) None) as (m4 & -> & D4 & P4 & N4);
    [apply (dom_is_Some m); [congruence|eauto]|]. simpl.
  exists m4. split; [done|]. split; [congruence|].
  eapply (rep_update m m4 Q h (xs ++ e :: ys) (xs ++ ys) e);
    [done|done|congruence| |set_solver|set_solver| |].
  - split.
    + eapply (chain_splice_out m m4 h xs ys e a b); try done.
      * by rewrite N4, N3, N2, N1, decide_False, decide_True by done.
      * by rewrite P4, P3, P2, decide_False, decide_True by done.
      * intros x ??. by rewrite N4, N3, N2, N1, !decide_False by done.
      * intros x ??. by rewrite P4, P3, P2, P1, !decide_False by done.
    + apply NoDup_app in Hnd as (? & ? & [? ?]%NoDup_cons). apply NoDup_app. set_solver.
  - intros x Hx. rewrite N4, N3, N2, N1, P4, P3, P2, P1.
    destruct (link_neq_out h xs (xs ++ e :: ys) e a x) as (? & ? & ?);
      [done|by intros; apply elem_of_app; left|done|].
    destruct (link_neq_out h ys (xs ++ e :: ys) e b x) as (_ & _ & ?);
      [done|by intros; apply elem_of_app; right; right|done|].
    by rewrite !decide_False by done.
  - intros p Hp Hp'. assert (p = e) as -> by (by apply (removed_elem xs ys)).
    by rewrite N4, N3, P4, !decide_True by done.
Qed.

(** Unlinking an element that is in no queue trips the assertion. *)
Theorem queue_del_unqueued m Q e :
  rep m Q -> is_Some (m !! inr e) -> ~ queued Q e -> queue_del e m = Err AssertFailed.
Proof. intros Hrep Hl Hnq. unfold queue_del. by rewrite (rep_unlinked _ _ _ Hrep Hl Hnq). Qed.

(** So does linking an element that is already in a queue. *)
Theorem queue_add_queued m Q e h prio :
  rep m Q -> queued Q e -> queue_add e h prio m = Err AssertFailed.
Proof.
  intros Hrep (h' & xs & HQ & (l1 & l2 & ->)%list_elem_of_split).
  destruct (rep_queued_link m Q h' l1 l2 e Hrep HQ) as [Ep En].
  destruct (get_prev_dom _ _ _ Ep) as [l Hl].
  unfold queue_add. rewrite Hl. simpl. by rewrite (lookup_link _ _ _ Hl), Ep.
Qed.

Lemma queue_walk_chain fuel m h xs a b :
  chain m a (inr <$> xs) (inl h) -> get_next m a = Some b -> (length xs < fuel)%nat ->
  queue_walk fuel m h b = Ok xs.
Proof.
  revert a b fuel. induction xs as [|x xs IH]; intros a b fuel Hc Hn Hf;
    (destruct fuel as [|fuel]; [simpl in Hf; lia|]); simpl in *.
  - destruct Hc as [Hc _]. rewrite Hc in Hn. injection Hn as <-. by rewrite bool_decide_true.
  - destruct Hc as [[Hc _] Hc']. rewrite Hc in Hn. injection Hn as <-. simpl.
    assert (exists n, get_next m (inr x) = Some n) as [n Hn'].
    { destruct xs; simpl in Hc'; [destruct Hc' as [? _] | destruct Hc' as [[? _] _]]; eauto. }
    rewrite Hn'. simpl. rewrite (IH (inr x) n fuel); [done|done|done|lia].
Qed.

Theorem queue_for_each_rep m Q h xs :
  rep m Q -> Q !! h = Some xs -> queue_for_each h m = Ok xs.
Proof.
  intros Hrep HQ. pose proof (rep_ring _ _ Hrep _ _ HQ) as Hring. pose proof Hring as [Hc _].
  destruct (chain_split m h [] xs Hc) as (? & ? & -> & -> & E & _). simpl in E.
  unfold queue_for_each. rewrite E. simpl.
  eapply (queue_walk_chain _ m h xs (inl h)); [done|done|by eapply ring_length].
Qed.

Lemma queue_walk_prev_chain fuel m h xs a :
  chain m (inl h) (inr <$> xs) a -> (length xs < fuel)%nat ->
  queue_walk_prev fuel m h (default (inl h) (inr <$> last xs)) = Ok (reverse xs).
Proof.
  revert a fuel. induction xs as [|x xs IH] using rev_ind; intros a fuel Hc Hf;
    (destruct fuel as [|fuel]; [lia|]).
  - simpl. by rewrite bool_decide_true.
  - rewrite last_snoc. simpl. rewrite length_app in Hf. simpl in Hf.
    rewrite fmap_app in Hc. simpl in Hc. apply chain_app in Hc as [Hc _].
    assert (get_prev m (inr x) = Some (default (inl h) (inr <$> last xs))) as ->.
    { destruct (list_snoc_inv xs) as [->|(ys & y & ->)]; [by destruct Hc|].
      rewrite last_snoc. rewrite fmap_app in Hc. simpl in Hc.
      by apply chain_app in Hc as [_ [_ ?]]. }
    simpl. rewrite (IH (inr x) fuel); [|done|lia]. simpl. by rewrite reverse_app.
Qed.

Theorem queue_for_each_prev_rep m Q h xs :
  rep m Q -> Q !! h = Some xs -> queue_for_each_prev h m = Ok (reverse xs).
Proof.
  intros Hrep HQ. pose proof (rep_ring _ _ Hrep _ _ HQ) as Hring. pose proof Hring as [Hc _].
  unfold queue_for_each_prev. rewrite (head_prev_rep _ _ _ _ Hrep HQ). simpl.
  eapply queue_walk_prev_chain; [done|by eapply ring_length].
Qed.

(** ** Initialisation *)

Lemma rep_empty : rep ∅ ∅.
Proof.
  split; intros *; rewrite ?lookup_empty; [done..|]. intros [=].
Qed.

Lemma rep_init_head m Q h :
  rep m Q -> Q !! h = None -> rep (INIT_LIST_HEAD h m) (<[h := []]> Q).
Proof.
  intros Hrep HQ. split.
  - intros h' xs. rewrite lookup_insert. case_decide as E.
    + intros [= <-]. subst h'. split; [|constructor]. unfold INIT_LIST_HEAD. simpl. unfold edge.
      by rewrite get_next_insert, get_prev_insert, !decide_True by done.
    + intros HQ'. eapply ring_frame; [|by apply (rep_ring _ _ Hrep)].
      intros x Hin. unfold INIT_LIST_HEAD. rewrite get_next_insert, get_prev_insert.
      rewrite !decide_False by set_solver. done.
  - intros h1 h2 xs ys p. rewrite !lookup_insert.
    case_decide; case_decide; intros HQ1 HQ2 Hp1 Hp2; simplify_eq; try set_solver.
    by eapply (rep_disj _ _ Hrep).
  - intros p l. unfold INIT_LIST_HEAD. rewrite lookup_insert_ne by done. intros Hl Hnq.
    apply (rep_free _ _ Hrep p l Hl). intros (h' & xs & HQ' & Hp). apply Hnq. exists h', xs.
    split; [|done]. rewrite lookup_insert_ne; [done|]. intros ->. congruence.
Qed.

Lemma rep_init_link m Q p : rep m Q -> ~ queued Q p -> rep (INIT_LINK p m) Q.
Proof.
  intros Hrep Hnq. split.
  - intros h xs HQ. eapply ring_frame; [|by apply (rep_ring _ _ Hrep)].
    intros x Hin. unfold INIT_LINK. rewrite get_next_insert, get_prev_insert.
    assert (inr p <> x) by (intros <-; apply Hnq; exists h, xs; set_solver).
    by rewrite !decide_False by done.
  - apply (rep_disj _ _ Hrep).
  - intros q l. unfold INIT_LINK. rewrite lookup_insert. case_decide as E; [by intros [= <-]|].
    apply (rep_free _ _ Hrep).
Qed.

(** The head of an empty queue may go. *)
Lemma queued_delete Q h q : Q !! h = Some [] -> queued (delete h Q) q <-> queued Q q.
Proof.
  intros Hh. split; intros (h' & ys & HQ & Hp).
  - rewrite lookup_delete in HQ. case_decide; [done|]. by exists h', ys.
  - exists h', ys. split; [|done]. rewrite lookup_delete_ne; [done|]. intros <-. rewrite HQ in Hh. injection Hh as ->.
    by apply elem_of_nil in Hp.
Qed.

Lemma queued_insert_nil Q h q : Q !! h = None -> queued (<[h := []]> Q) q <-> queued Q q.
Proof.
  intros Hh. rewrite <- (queued_delete (<[h := []]> Q) h) by apply lookup_insert_eq. by rewrite delete_insert_id.
Qed.

Lemma rep_delete_head m Q h : rep m Q -> Q !! h = Some [] -> rep (delete (inl h) m) (delete h Q).
Proof.
  intros Hrep Hh. assert (Hq : forall h' xs, delete h Q !! h' = Some xs -> h' <> h /\ Q !! h' = Some xs).
  { intros h' xs. rewrite lookup_delete. case_decide; [done|]. by split; [congruence|]. }
  split.
  - intros h' xs [Hne HQ]%Hq. eapply ring_frame; [|by apply (rep_ring _ _ Hrep)].
    intros x Hin. assert (inl h <> x) by (intros <-; set_solver).
    unfold get_next, get_prev. by rewrite lookup_delete_ne.
  - intros h1 h2 xs ys p [_ HQ1]%Hq [_ HQ2]%Hq. by eapply (rep_disj _ _ Hrep).
  - intros p l. rewrite lookup_delete_ne by done. rewrite queued_delete by done. apply (rep_free _ _ Hrep).
Qed.

(** The link of an element that is in no queue may go. *)
Lemma rep_delete_link m Q p : rep m Q -> ~ queued Q p -> rep (delete (inr p) m) Q.
Proof.
  intros Hrep Hnq. split.
  - intros h xs HQ. eapply ring_frame; [|by apply (rep_ring _ _ Hrep)].
    intros x Hin. assert (inr p <> x) by (intros <-; apply Hnq; exists h, xs; set_solver).
    unfold get_next, get_prev. by rewrite lookup_delete_ne.
  - apply (rep_disj _ _ Hrep).
  - intros q l. rewrite lookup_delete. case_decide; [done|]. apply (rep_free _ _ Hrep).
Qed.

(** ** Sequences of operations

    [ptr_op] runs an operation on the links, [list_op] on the lists; the two
    agree on every sequence, failed assertions included. *)

Inductive qop : Type :=
  | QAdd (e : P) (h : H)
  | QOut (h : H)
  | QDel (e : P)
  | QTop (h : H).

Definition ptr_op (f : P -> Z) (o : qop) (m : link_heap) : res (option P * link_heap) :=
  match o with
  | QAdd e h => m ← queue_add e h (fun p => Some (f p)) m; Ok (None, m)
  | QOut h => queue_out h m
  | QDel e => m ← queue_del e m; Ok (None, m)
  | QTop h => e ← queue_top h m; Ok (e, m)
  end.

#[export] Instance queued_dec Q p : Decision (queued Q p).
Proof.
  refine (cast_if (decide (map_Exists (fun (_ : H) (xs : list P) => bool_decide (p ∈ xs) = true) Q))).
  - abstract (destruct m as (h & xs & HQ & Hp); exists h, xs; by apply bool_decide_eq_true in Hp).
  - abstract (intros (h & xs & HQ & Hp); apply n; exists h, xs; by rewrite bool_decide_true).
Defined.

Definition list_op (f : P -> Z) (o : qop) (Q : gmap H (list P)) : res (option P * gmap H (list P)) :=
  match o with
  | QAdd e h =>
      if decide (queued Q e) then Err AssertFailed
      else Ok (None, <[h := insert_prio f e (default [] (Q !! h))]> Q)
  | QOut h => let xs := default [] (Q !! h) in Ok (last xs, <[h := take (pred (length xs)) xs]> Q)
  | QDel e =>
      if decide (queued Q e) then Ok (None, filter (fun x => x <> e) <$> Q) else Err AssertFailed
  | QTop h => Ok (last (default [] (Q !! h)), Q)
  end.

(** The heads and elements an operation names exist. *)
Definition op_ok (o : qop) (m : link_heap) (Q : gmap H (list P)) : Prop :=
  match o with
  | QAdd e h => is_Some (m !! inr e) /\ is_Some (Q !! h)
  | QOut h | QTop h => is_Some (Q !! h)
  | QDel e => is_Some (m !! inr e)
  end.

Fixpoint ptr_ops (f : P -> Z) (os : list qop) (m : link_heap) : res (list (option P) * link_heap) :=
  match os with
  | [] => Ok ([], m)
  | o :: os => '(r, m) ← ptr_op f o m; '(rs, m) ← ptr_ops f os m; Ok (r :: rs, m)
  end.

Fixpoint list_ops (f : P -> Z) (os : list qop) (Q : gmap H (list P)) :
    res (list (option P) * gmap H (list P)) :=
  match os with
  | [] => Ok ([], Q)
  | o :: os => '(r, Q) ← list_op f o Q; '(rs, Q) ← list_ops f os Q; Ok (r :: rs, Q)
  end.

Lemma filter_out_app (xs ys : list P) e :
  e ∉ xs -> e ∉ ys -> filter (fun x => x <> e) (xs ++ e :: ys) = xs ++ ys.
Proof.
  intros Hx Hy. rewrite filter_app, filter_cons_False by naive_solver.
  rewrite !list_filter_all; [done|..]; intros z Hz ->; done.
Qed.

Lemma rep_filter_out m Q h xs ys e :
  rep m Q -> Q !! h = Some (xs ++ e :: ys) ->
  filter (fun x => x <> e) <$> Q = <[h := xs ++ ys]> Q.
Proof.
  intros Hrep HQ. apply map_eq. intros h'. rewrite lookup_fmap, lookup_insert.
  case_decide as E.
  - subst h'. rewrite HQ. simpl. f_equal.
    destruct (rep_ring _ _ Hrep _ _ HQ) as [_ (? & Hd & [? ?]%NoDup_cons)%NoDup_app].
    apply filter_out_app; [|done]. intros Hx. by apply (Hd e Hx), elem_of_cons; left.
  - destruct (Q !! h') as [zs|] eqn:E'; [|done]. simpl. f_equal.
    apply list_filter_all. intros z Hz ->.
    apply E. eapply (rep_disj _ _ Hrep); [done..| |done]. apply elem_of_app. right. by left.
Qed.

Lemma ptr_op_rep f o m Q :
  rep m Q -> op_ok o m Q ->
  match list_op f o Q with
  | Ok (r, Q') => exists m', ptr_op f o m = Ok (r, m') /\ rep m' Q' /\ dom m' = dom m /\ dom Q' = dom Q
  | Err e => ptr_op f o m = Err e
  end.
Proof.
  intros Hrep. destruct o as [e h|h|e|h]; simpl.
  - intros [Hl [xs HQ]]. rewrite HQ. simpl. case_decide as Hq.
    + by rewrite (queue_add_queued m Q).
    + destruct (queue_add_rep m Q h xs e (fun p => Some (f p)) f) as (m' & -> & Hd & Hr'); [done..|].
      exists m'. split; [done|]. split; [done|]. split; [done|]. apply dom_insert_lookup_L; eauto.
  - intros [xs HQ]. rewrite HQ. simpl.
    destruct (list_snoc_inv xs) as [->|(ys & y & ->)].
    + exists m. rewrite (queue_out_rep_empty m Q h) by done. simpl. by rewrite insert_id.
    + destruct (queue_out_rep m Q h ys y) as (m' & -> & Hd & Hr'); [done..|].
      exists m'. rewrite last_snoc, length_app, Nat.add_comm. simpl.
      rewrite take_app_length. split; [done|]. split; [done|]. split; [done|].
      apply dom_insert_lookup_L; eauto.
  - intros Hl. case_decide as Hq.
    + destruct Hq as (h & xs & HQ & (l1 & l2 & ->)%list_elem_of_split).
      destruct (queue_del_rep m Q h l1 l2 e) as (m' & -> & Hd & Hr'); [done..|].
      exists m'. rewrite (rep_filter_out m Q h l1 l2 e) by done.
      split; [done|]. split; [done|]. split; [done|]. apply dom_insert_lookup_L; eauto.
    + by rewrite (queue_del_unqueued m Q e).
  - intros [xs HQ]. rewrite HQ. simpl. exists m. by rewrite (queue_top_rep m Q h xs).
Qed.

Lemma op_ok_dom o m m' Q Q' :
  dom m' = dom m -> dom Q' = dom Q -> op_ok o m Q -> op_ok o m' Q'.
Proof.
  intros Hm HQ. assert (forall h, is_Some (Q !! h) -> is_Some (Q' !! h))
    by (intros h; rewrite <- !elem_of_dom; congruence).
  destruct o; simpl; intuition eauto.
Qed.

(** ** Priority order *)

Lemma insert_prio_perm f e xs : insert_prio f e xs ≡ₚ e :: xs.
Proof.
  induction xs as [|x xs IH]; simpl; [done|]. destruct (f x <? f e); [|done].
  rewrite IH. constructor.
Qed.

Lemma insert_prio_sorted f e xs :
  Sorted (fun x y => f x <= f y) xs -> Sorted (fun x y => f x <= f y) (insert_prio f e xs).
Proof.
  induction xs as [|x xs IH]; simpl; intros Hs; [by repeat constructor|].
  apply Sorted_inv in Hs as [Hs Hhd].
  destruct (f x <? f e) eqn:E.
  - constructor; [by apply IH|]. destruct xs as [|y ys]; simpl; [constructor; lia|].
    destruct (f y <? f e) eqn:E'; constructor; [|lia]. by inversion Hhd.
  - constructor; [by constructor|]. constructor. lia.
Qed.

(** Insertion keeps the arrival order of the elements of each priority. *)
Lemma insert_prio_stable f e xs v :
  Sorted (fun x y => f x <= f y) xs ->
  filter (fun x => f x = v) (insert_prio f e xs) = filter (fun x => f x = v) (e :: xs).
Proof.
  intros Hs. induction xs as [|x xs IH]; [done|]. simpl insert_prio.
  destruct (f x <? f e) eqn:E; [|done].
  apply Sorted_inv in Hs as [Hs Hhd].
  destruct (decide (f x = v)) as [Hx|Hx].
  - rewrite filter_cons_True, IH by done.
    rewrite filter_cons_False by lia. rewrite (filter_cons_False _ e), filter_cons_True by lia. done.
  - rewrite filter_cons_False, IH by done.
    destruct (decide (f e = v)).
    + rewrite !filter_cons_True, filter_cons_False by done. done.
    + rewrite !filter_cons_False by done. done.
Qed.

Definition add_all (f : P -> Z) (es xs : list P) : list P :=
  foldl (fun xs e => insert_prio f e xs) xs es.

Lemma add_all_spec f es xs :
  Sorted (fun x y => f x <= f y) xs ->
  Sorted (fun x y => f x <= f y) (add_all f es xs) /\ add_all f es xs ≡ₚ es ++ xs /\
  forall v, filter (fun x => f x = v) (add_all f es xs) =
            reverse (filter (fun x => f x = v) es) ++ filter (fun x => f x = v) xs.
Proof.
  revert xs. induction es as [|e es IH]; intros xs Hs; simpl; [done|].
  destruct (IH (insert_prio f e xs)) as (Hsort & Hperm & Hstab); [by apply insert_prio_sorted|].
  split; [done|]. split.
  - rewrite Hperm, insert_prio_perm. by rewrite Permutation_middle.
  - intros v. rewrite Hstab, insert_prio_stable by done.
    destruct (decide (f e = v)).
    + rewrite !filter_cons_True by done. by rewrite reverse_cons, <- app_assoc.
    + by rewrite !filter_cons_False by done.
Qed.

(** Adding a list of elements one after the other, and emptying a queue with
    [queue_out] (the loop of [free_dead_process] and [free_blocked_queue]). *)
Fixpoint queue_add_list (f : P -> Z) (es : list P) (h : H) (m : link_heap) : res link_heap :=
  match es with
  | [] => Ok m
  | e :: es => m ← queue_add e h (fun p => Some (f p)) m; queue_add_list f es h m
  end.

Fixpoint queue_drain (fuel : nat) (h : H) (m : link_heap) : res (list P * link_heap) :=
  match fuel with
  | O => Err OutOfFuel
  | S fuel =>
      '(o, m) ← queue_out h m;
      match o with
      | None => Ok ([], m)
      | Some e => '(es, m) ← queue_drain fuel h m; Ok (e :: es, m)
      end
  end.

Lemma queue_add_list_rep f es m Q h xs :
  rep m Q -> Q !! h = Some xs -> NoDup es ->
  (forall e, e ∈ es -> is_Some (m !! inr e) /\ ~ queued Q e) ->
  exists m', queue_add_list f es h m = Ok m' /\ dom m' = dom m /\
    rep m' (<[h := add_all f es xs]> Q).
Proof.
  revert m Q xs. induction es as [|e es IH]; intros m Q xs Hrep HQ Hnd Hes; simpl.
  - exists m. by rewrite insert_id.
  - apply NoDup_cons in Hnd as [Hne Hnd]. destruct (Hes e) as [Hl Hnq]; [by left|].
    destruct (queue_add_rep m Q h xs e (fun p => Some (f p)) f) as (m1 & -> & Hd1 & Hr1); [done..|].
    simpl. destruct (IH m1 (<[h := insert_prio f e xs]> Q) (insert_prio f e xs))
      as (m2 & -> & Hd2 & Hr2); [done|by rewrite lookup_insert_eq|done| |].
    + intros x Hx. destruct (Hes x) as [Hlx Hnx]; [by right|]. split; [by eauto|].
      intros (h' & ys & HQ' & Hy). rewrite lookup_insert in HQ'. case_decide; simplify_eq.
      * rewrite insert_prio_perm, elem_of_cons in Hy. destruct Hy as [->|Hy]; [done|].
        apply Hnx. by exists h', xs.
      * apply Hnx. by exists h', ys.
    + exists m2. split; [done|]. split; [congruence|]. by rewrite insert_insert_eq in Hr2.
Qed.

Lemma queue_drain_rep fuel m Q h xs :
  rep m Q -> Q !! h = Some xs -> (length xs < fuel)%nat ->
  exists m', queue_drain fuel h m = Ok (reverse xs, m') /\ dom m' = dom m /\ rep m' (<[h := []]> Q).
Proof.
  revert m Q fuel. induction xs as [|x xs IH] using rev_ind; intros m Q fuel Hrep HQ Hf;
    (destruct fuel as [|fuel]; [lia|]); simpl.
  - rewrite (queue_out_rep_empty m Q h) by done. simpl. exists m. by rewrite insert_id.
  - destruct (queue_out_rep m Q h xs x) as (m1 & -> & Hd1 & Hr1); [done..|]. simpl.
    rewrite length_app in Hf. simpl in Hf.
    destruct (IH m1 (<[h := xs]> Q) fuel) as (m2 & -> & Hd2 & Hr2);
      [done|by rewrite lookup_insert_eq|lia|].
    simpl. exists m2. rewrite reverse_app. split; [done|]. split; [congruence|].
    by rewrite insert_insert_eq in Hr2.
Qed.

(** ** The properties of the component *)

(** C11: The pointer implementation of the queues refines the list
    specification.  From a heap of links that represents the lists [Q], any
    sequence of [queue_add], [queue_out], [queue_del] and [queue_top] returns
    the same elements as on the lists, ends in a heap that represents the
    resulting lists, and fails an assertion exactly when the specification
    says so (adding an element that is already linked, deleting one that is
    not). *)
Theorem queue_ops_refine f os m Q :
  rep m Q -> Forall (fun o => op_ok o m Q) os ->
  match list_ops f os Q with
  | Ok (rs, Q') => exists m', ptr_ops f os m = Ok (rs, m') /\ rep m' Q'
  | Err e => ptr_ops f os m = Err e
  end.
Proof.
  revert m Q. induction os as [|o os IH]; intros m Q Hrep Hok; simpl; [by eauto|].
  apply Forall_cons in Hok as [Ho Hok]. pose proof (ptr_op_rep f o m Q Hrep Ho) as Hop.
  destruct (list_op f o Q) as [[r Q1]|e]; simpl; [|by rewrite Hop].
  destruct Hop as (m1 & -> & Hr1 & Hd1 & Hq1). simpl.
  assert (Forall (fun o => op_ok o m1 Q1) os) as Hok1
    by (eapply Forall_impl; [done|]; intros o'; by apply op_ok_dom).
  specialize (IH m1 Q1 Hr1 Hok1). destruct (list_ops f os Q1) as [[rs Q2]|e]; simpl.
  - destruct IH as (m2 & -> & ?). simpl. eauto.
  - by rewrite IH.
Qed.

(** C34: Priority order with FIFO ties.  Elements added to an empty queue leave
    it by decreasing priority, and elements of equal priority leave in the
    order in which they were added; nothing is lost or duplicated and the
    queue ends empty. *)
Theorem queue_stable_priority f es m Q h :
  rep m Q -> Q !! h = Some [] -> NoDup es ->
  (forall e, e ∈ es -> is_Some (m !! inr e) /\ ~ queued Q e) ->
  exists m1 ds m2,
    queue_add_list f es h m = Ok m1 /\ queue_drain (size m1) h m1 = Ok (ds, m2) /\
    ds ≡ₚ es /\ StronglySorted (fun x y => f y <= f x) ds /\
    (forall v, filter (fun x => f x = v) ds = filter (fun x => f x = v) es) /\
    rep m2 Q.
Proof.
  intros Hrep HQ Hnd Hes.
  destruct (queue_add_list_rep f es m Q h []) as (m1 & E1 & Hd1 & Hr1); [done..|].
  destruct (queue_drain_rep (size m1) m1 _ h (add_all f es []) Hr1) as (m2 & E2 & Hd2 & Hr2).
  { by rewrite lookup_insert_eq. }
  { eapply ring_length, (rep_ring _ _ Hr1). by rewrite lookup_insert_eq. }
  destruct (add_all_spec f es []) as (Hsort & Hperm & Hstab); [constructor|].
  eexists m1, _, m2. split; [done|]. split; [done|].
  split; [by rewrite reverse_Permutation, Hperm, app_nil_r|]. split.
  - apply (StronglySorted_reverse (fun x y => f x <= f y)), Sorted_StronglySorted; [|done].
    intros x y z ??. lia.
  - split; [|by rewrite insert_insert_eq, insert_id in Hr2].
    intros v. rewrite filter_reverse, Hstab, app_nil_r. by rewrite reverse_involutive.
Qed.

End Queue.



(** ** Witnesses: two heads and three elements. *)
Definition demo_links : gmap (nat + nat) link :=
  INIT_LINK 3%nat (INIT_LINK 2%nat (INIT_LINK 1%nat (INIT_LIST_HEAD 1%nat (INIT_LIST_HEAD 0%nat ∅)))).
Definition demo_queues : gmap nat (list nat) := <[1%nat := []]> (<[0%nat := []]> ∅).

Lemma demo_unqueued (p : nat) : ~ queued demo_queues p.
Proof.
  intros (h & xs & HQ & Hp). unfold demo_queues in HQ.
  repeat (rewrite lookup_insert in HQ; case_decide; [simplify_eq; by apply elem_of_nil in Hp|]).
  by rewrite lookup_empty in HQ.
Qed.

Lemma demo_rep : rep demo_links demo_queues.
Proof.
  unfold demo_links. do 3 (apply rep_init_link; [|apply demo_unqueued]).
  do 2 (apply rep_init_head; [|done]). apply rep_empty.
Qed.

Definition demo_ops : list qop :=
  [QAdd 1%nat 0%nat; QAdd 2%nat 0%nat; QAdd 3%nat 0%nat; QDel 1%nat; QOut 0%nat; QTop 0%nat].

Lemma queue_ops_refine_witness :
  exists m', ptr_ops Z.of_nat demo_ops demo_links =
    Ok ([None; None; None; None; Some 3%nat; Some 2%nat], m') /\
    rep m' (<[1%nat := []]> (<[0%nat := [2%nat]]> ∅)).
Proof.
  assert (Forall (fun o => op_ok o demo_links demo_queues) demo_ops) as Hok
    by (repeat constructor; vm_compute; eauto).
  exact (queue_ops_refine Z.of_nat demo_ops demo_links demo_queues demo_rep Hok).
Defined.

Lemma queue_stable_priority_witness :
  exists m1 ds m2,
    queue_add_list (fun _ => 5) [2; 3; 1]%nat 0%nat demo_links = Ok m1 /\
    queue_drain (size m1) 0%nat m1 = Ok (ds, m2) /\ ds ≡ₚ [2; 3; 1]%nat /\
    StronglySorted (fun _ _ : nat => 5 <= 5) ds /\
    (forall v, filter (fun _ => 5 = v) ds = filter (fun _ => 5 = v) [2; 3; 1]%nat) /\
    rep m2 demo_queues.
Proof.
  apply (queue_stable_priority (fun _ => 5) [2; 3; 1]%nat demo_links demo_queues 0%nat demo_rep).
  - reflexivity.
  - repeat constructor; set_solver.
  - intros e He. split; [|apply demo_unqueued].
    rewrite !elem_of_cons, elem_of_nil in He.
    destruct He as [->|[->|[->|[]]]]; vm_compute; eauto.
Defined.
