(* ===== verification/Probe.v ===== *)
(** * Probe: the probe sequence of [hash_lookup] visits every slot

    The loop of [hash_lookup] (src/lib/hash/hash.c) moves from [index] to
    [5 * index + perturb + 1] on 64 bits and shifts [perturb] right by five.
    Once [perturb] is zero the sequence is the recurrence [x -> 5 x + 1], which
    has full period modulo every power of two. *)

From Stdlib Require Import Znumtheory.
From S2P Require Import Prelude.
#[local] Open Scope Z_scope.

(** One turn of the loop on the pair (index, perturb), and [n] turns. *)
Definition probe_next (s : Z * Z) : Z * Z :=
  (wrapU 64 (5 * s.1 + s.2 + 1), Z.shiftr s.2 5).
Definition probe_at (s : Z * Z) (n : nat) : Z * Z := Nat.iter n probe_next s.

Lemma probe_at_S s n : probe_at s (S n) = probe_at (probe_next s) n.
Proof. unfold probe_at. by rewrite Nat.iter_succ_r. Qed.

Lemma probe_at_add s n n' : probe_at s (n + n') = probe_at (probe_at s n) n'.
Proof. unfold probe_at. rewrite Nat.add_comm. apply Nat.iter_add. Qed.

Lemma probe_perturb s n : (probe_at s n).2 = Z.shiftr s.2 (5 * Z.of_nat n).
Proof.
  revert s. induction n as [|n IH]; intros s; [by rewrite Z.shiftr_0_r|].
  rewrite probe_at_S, IH. simpl. rewrite Z.shiftr_shiftr by lia. f_equal. lia.
Qed.

Lemma probe_perturb_zero s : 0 <= s.2 < 2 ^ 64 -> (probe_at s 13).2 = 0.
Proof.
  intros Hs. rewrite probe_perturb, Z.shiftr_div_pow2 by lia.
  apply Z.div_small. split; [lia|]. etransitivity; [apply Hs|]. apply Z.pow_lt_mono_r; lia.
Qed.

(** ** The period of [x -> 5 x + 1] *)

Lemma pow5_odd_part (e : Z) : 0 <= e -> exists q, 5 ^ e + 1 = 2 * (2 * q + 1).
Proof.
  intros He. assert (exists q, 5 ^ e = 4 * q + 1) as [q Hq].
  { revert e He. apply natlike_ind; [by exists 0|]. intros e He [q IH].
    exists (5 * q + 1). rewrite Z.pow_succ_r by lia. lia. }
  exists q. lia.
Qed.

Lemma gcd_pow2_odd n q : 0 <= n -> Z.gcd (2 ^ n) (2 * q + 1) = 1.
Proof.
  intros Hn. apply Zgcd_1_rel_prime, rel_prime_sym. revert n Hn. apply natlike_ind.
  - apply rel_prime_sym, rel_prime_1.
  - intros n Hn IH. rewrite Z.pow_succ_r by lia. apply rel_prime_mult; [|done].
    apply rel_prime_sym, prime_rel_prime; [apply prime_2|]. intros [z Hz]. lia.
Qed.

(** If [2 ^ (k+2)] divides [5 ^ d - 1] then [2 ^ k] divides [d]. *)
Lemma pow5_order (k : nat) : forall d, 0 <= d ->
  (2 ^ (Z.of_nat k + 2) | 5 ^ d - 1) -> (2 ^ Z.of_nat k | d).
Proof.
  induction k as [|k IH]; intros d Hd Hdiv; [apply Z.divide_1_l|].
  destruct (Z.Even_or_Odd d) as [[e ->]|[e ->]].
  - rewrite Nat2Z.inj_succ, Z.pow_succ_r by lia. apply Z.mul_divide_mono_l.
    apply IH; [lia|]. destruct (pow5_odd_part e) as [q Hq]; [lia|].
    replace (5 ^ (2 * e) - 1) with (2 * ((2 * q + 1) * (5 ^ e - 1))) in Hdiv.
    2: { rewrite Z.pow_mul_r by lia.
         replace ((5 ^ 2) ^ e) with (5 ^ e * 5 ^ e) by (rewrite <- Z.pow_mul_l; done).
         nia. }
    replace (Z.of_nat (S k) + 2) with (Z.succ (Z.of_nat k + 2)) in Hdiv by lia.
    rewrite Z.pow_succ_r in Hdiv by lia. apply Z.mul_divide_cancel_l in Hdiv; [|lia].
    eapply Z.gauss; [exact Hdiv|]. apply gcd_pow2_odd. lia.
  - exfalso. replace (Z.of_nat (S k) + 2) with (3 + Z.of_nat k) in Hdiv by lia.
    rewrite Z.pow_add_r in Hdiv by lia.
    assert ((8 | 5 ^ (2 * e + 1) - 1)) as [z Hz] by (etransitivity; [|exact Hdiv]; by exists (2 ^ Z.of_nat k); lia).
    assert (exists q, 5 ^ (2 * e + 1) = 8 * q + 5) as [q Hq].
    { assert (0 <= e) as He by lia. clear -He. revert e He. apply natlike_ind; [by exists 0|].
      intros e He [q IH]. exists (25 * q + 15).
      replace (2 * Z.succ e + 1) with (2 + (2 * e + 1)) by lia.
      rewrite Z.pow_add_r by lia. lia. }
    lia.
Qed.

Lemma probe_unperturbed x n :
  (2 ^ 66 | (4 * (probe_at (x, 0) n).1 + 1) - 5 ^ Z.of_nat n * (4 * x + 1)) /\
  (probe_at (x, 0) n).2 = 0.
Proof.
  induction n as [|n [[q IH] IH2]].
  - split; [|done]. exists 0. simpl. lia.
  - unfold probe_at in *. rewrite Nat.iter_succ. unfold probe_next at 1 3. rewrite IH2.
    split; [|done]. simpl fst. unfold wrapU.
    set (i := (Nat.iter n probe_next (x, 0)).1) in *.
    pose proof (Z_div_mod_eq_full (5 * i + 0 + 1) (2 ^ 64)) as E.
    exists (5 * q - (5 * i + 0 + 1) / 2 ^ 64).
    rewrite Nat2Z.inj_succ, Z.pow_succ_r by lia.
    change (2 ^ 66) with (4 * 2 ^ 64) in *. lia.
Qed.

Lemma probe_cycle_inj x (k : nat) (i j : nat) :
  (k <= 64)%nat -> (i < j)%nat -> Z.of_nat j - Z.of_nat i < 2 ^ Z.of_nat k ->
  (probe_at (x, 0) i).1 mod 2 ^ Z.of_nat k <> (probe_at (x, 0) j).1 mod 2 ^ Z.of_nat k.
Proof.
  intros Hk Hij Hlt E.
  destruct (probe_unperturbed x i) as [[qi Hi] _], (probe_unperturbed x j) as [[qj Hj] _].
  set (yi := (probe_at (x, 0) i).1) in *. set (yj := (probe_at (x, 0) j).1) in *.
  set (d := Z.of_nat j - Z.of_nat i) in *.
  assert (2 ^ Z.of_nat k <> 0) as Hnz by (apply Z.pow_nonzero; lia).
  pose proof (Z_div_mod_eq_full yi (2 ^ Z.of_nat k)) as Ei.
  pose proof (Z_div_mod_eq_full yj (2 ^ Z.of_nat k)) as Ej. rewrite <- E in Ej.
  assert (5 ^ Z.of_nat j = 5 ^ Z.of_nat i * 5 ^ d) as Epow
    by (rewrite <- Z.pow_add_r by lia; f_equal; lia).
  assert (2 ^ 66 = 2 ^ (Z.of_nat k + 2) * 2 ^ (64 - Z.of_nat k)) as E66
    by (rewrite <- Z.pow_add_r by lia; f_equal; lia).
  assert (2 ^ (Z.of_nat k + 2) = 2 ^ Z.of_nat k * 4) as E2 by (by rewrite Z.pow_add_r by lia).
  assert ((2 ^ (Z.of_nat k + 2) | (2 * (2 * x) + 1) * (5 ^ Z.of_nat i * (5 ^ d - 1)))) as Hdiv.
  { exists (yj / 2 ^ Z.of_nat k - yi / 2 ^ Z.of_nat k + (qi - qj) * 2 ^ (64 - Z.of_nat k)).
    rewrite E66 in Hi, Hj. rewrite Epow in Hj. rewrite E2 in *. nia. }
  assert (exists q, 5 ^ Z.of_nat i = 2 * q + 1) as [q5 E5].
  { destruct (pow5_odd_part (Z.of_nat i)) as [q Hq]; [lia|]. exists (2 * q). lia. }
  apply Z.gauss in Hdiv; [|apply gcd_pow2_odd; lia]. rewrite E5 in Hdiv.
  apply Z.gauss in Hdiv; [|apply gcd_pow2_odd; lia].
  apply pow5_order in Hdiv; [|lia]. apply Z.divide_pos_le in Hdiv; lia.
Qed.

Lemma probe_cycle_surj x (k : nat) t :
  (k <= 64)%nat -> 0 <= t < 2 ^ Z.of_nat k ->
  exists n, (n < Z.to_nat (2 ^ Z.of_nat k))%nat /\ (probe_at (x, 0) n).1 mod 2 ^ Z.of_nat k = t.
Proof.
  intros Hk Ht. set (N := Z.to_nat (2 ^ Z.of_nat k)).
  assert (0 < 2 ^ Z.of_nat k) as Hpos by lia.
  set (f n := Z.to_nat ((probe_at (x, 0) n).1 mod 2 ^ Z.of_nat k)).
  assert (forall n, (f n < N)%nat) as Hf.
  { intros n. unfold f, N. pose proof (Z.mod_pos_bound (probe_at (x, 0) n).1 _ Hpos). lia. }
  assert (List.incl (seq 0 N) (f <$> seq 0 N)) as Hincl.
  { apply List.NoDup_length_incl.
    - apply NoDup_ListNoDup. apply NoDup_fmap_2_strong; [|apply NoDup_seq].
      intros i j Hi Hj Eij. apply elem_of_seq in Hi, Hj.
      assert (~ (i < j)%nat /\ ~ (j < i)%nat) as [? ?]; [|lia].
      unfold f in Eij.
      pose proof (Z.mod_pos_bound (probe_at (x, 0) i).1 _ Hpos).
      pose proof (Z.mod_pos_bound (probe_at (x, 0) j).1 _ Hpos).
      split; intros Hlt; eapply (probe_cycle_inj x k); try exact Hlt; lia.
    - by rewrite length_fmap.
    - intros m Hm. apply list_elem_of_In, list_elem_of_fmap in Hm as (n & -> & _).
      apply list_elem_of_In, elem_of_seq. specialize (Hf n). lia. }
  assert (Z.to_nat t ∈ f <$> seq 0 N) as (n & En & Hn)%list_elem_of_fmap.
  { apply list_elem_of_In, Hincl, list_elem_of_In, elem_of_seq. lia. }
  exists n. apply elem_of_seq in Hn. split; [lia|].
  pose proof (Z.mod_pos_bound (probe_at (x, 0) n).1 _ Hpos). unfold f in En. lia.
Qed.

(** From any start, every slot of a table of [2 ^ k] slots is probed within
    [13 + 2 ^ k] turns. *)
Lemma probe_covers s (k : nat) t :
  (k <= 64)%nat -> 0 <= s.2 < 2 ^ 64 -> 0 <= t < 2 ^ Z.of_nat k ->
  exists n, (n < 13 + Z.to_nat (2 ^ Z.of_nat k))%nat /\ (probe_at s n).1 mod 2 ^ Z.of_nat k = t.
Proof.
  intros Hk Hs Ht. pose proof (probe_perturb_zero s Hs) as Hp.
  destruct (probe_cycle_surj (probe_at s 13).1 k t Hk Ht) as (n & Hn & E).
  exists (13 + n)%nat. split; [lia|].
  rewrite probe_at_add. destruct (probe_at s 13) as [i p]. simpl in *. by subst p.
Qed.
