(* ===== verification/Hash.v ===== *)
(** * Hash: the generic hash table of [src/lib/hash/hash.c]

    Open addressing with deleted marks and the pseudo-random probing of
    CPython 2.6.  The file models the table operation by operation, shows that
    the probe sequence of [hash_lookup] visits every slot (so the [while (1)]
    loop ends whenever the table has an empty slot) and that the operations
    implement a partial map on the keys, modulo the comparison function. *)

From S2P Require Import Prelude.
From S2P Require Import Probe.
#[local] Open Scope Z_scope.

(** ** The key interface

    [hash_func_t] and [hash_compare_t] of [src/lib/include/hash.h]: the two
    function pointers a table is initialised with, and the laws a client must
    respect.  Decidable equality on [K] is the comparison of the [void *] keys
    themselves. *)
Class HashKey (K : Type) `{EqDecision K} : Type := {
  null_key : K;
  hfunc : K -> Z;
  cmp : K -> K -> bool;
  hfunc_range k : - 2 ^ 63 <= hfunc k < 2 ^ 63;
  cmp_refl k : cmp k k = true;
  cmp_sym k1 k2 : cmp k1 k2 = true -> cmp k2 k1 = true;
  cmp_trans k1 k2 k3 : cmp k1 k2 = true -> cmp k2 k3 = true -> cmp k1 k3 = true;
  cmp_hash k1 k2 : cmp k1 k2 = true -> hfunc k1 = hfunc k2
}.

Definition HASH_MINSIZE : Z := 8.

(** Modes of the slots. *)
Inductive slot_mode : Type := SL_EMPTY | SL_ACTIVE | SL_DELETED.

#[export] Instance slot_mode_eq_dec : EqDecision slot_mode.
Proof. solve_decision. Defined.

Section Hash.
Context {K V : Type} `{HashKey K} (null_val : V).

(** [hash_slot_t] and [hash_t]; the fields [hfunc] and [cmp] are the methods
    of the key class. *)
Record hash_slot_t : Type := mk_slot { key : K; value : V; hash : Z; mode : slot_mode }.
Record hash_t : Type := mk_hash { fill : Z; count : Z; mask : Z; table : list hash_slot_t }.

Implicit Types (map : hash_t) (k : K) (v : V) (tbl : list hash_slot_t).

Definition empty_slot : hash_slot_t := mk_slot null_key null_val 0 SL_EMPTY.

(** [hash_initialize]; [mem] says whether [mem_alloc] finds the memory. *)
Definition hash_initialize (mem : bool) (sz : Z) : option hash_t :=
  if mem then Some (mk_hash 0 0 (sz - 1) (replicate (Z.to_nat sz) empty_slot)) else None.

(** The test of [hash_lookup] on an active slot. *)
Definition slot_matches (s : hash_slot_t) (k : K) (h : Z) : bool :=
  bool_decide (key s = k) || ((hash s =? h) && cmp (key s) k).

(** The [while (1)] loop of [hash_lookup]; the result is the index of a slot. *)
Fixpoint hash_lookup_loop (fuel : nat) (map : hash_t) (k : K) (h index perturb : Z)
    (freeslot : option nat) : res nat :=
  match fuel with
  | O => Err OutOfFuel
  | S fuel =>
      let i := Z.to_nat (Z.land index (mask map)) in
      s ← of_option BadAccess (table map !! i);
      match mode s with
      | SL_EMPTY => Ok (default i freeslot)
      | SL_ACTIVE =>
          if slot_matches s k h then Ok i
          else hash_lookup_loop fuel map k h (wrapU 64 (5 * index + perturb + 1))
                 (Z.shiftr perturb 5) freeslot
      | SL_DELETED =>
          hash_lookup_loop fuel map k h (wrapU 64 (5 * index + perturb + 1))
            (Z.shiftr perturb 5) (Some (default i freeslot))
      end
  end.

(** Thirteen steps exhaust the 64-bit [perturb], after which one full cycle of
    the table visits every slot. *)
Definition hash_fuel (map : hash_t) : nat := 14 + Z.to_nat (mask map + 1).

(** [hash_lookup] *)
Definition hash_lookup (map : hash_t) (k : K) (h : Z) : res nat :=
  hash_lookup_loop (hash_fuel map) map k h (Z.land (wrapU 64 h) (mask map)) (wrapU 64 h) None.

Definition set_slot (i : nat) (s : hash_slot_t) (map : hash_t) : hash_t :=
  mk_hash (fill map) (count map) (mask map) (<[i := s]> (table map)).

(** [hash_copy] *)
Fixpoint hash_copy (map : hash_t) (oldtable : list hash_slot_t) : res hash_t :=
  match oldtable with
  | [] => Ok map
  | old :: oldtable =>
      match mode old with
      | SL_ACTIVE =>
          i ← hash_lookup map (key old) (hfunc (key old));
          let map := set_slot i (mk_slot (key old) (value old) (hash old) SL_ACTIVE) map in
          hash_copy (mk_hash (fill map + 1) (count map + 1) (mask map) (table map)) oldtable
      | _ => hash_copy map oldtable
      end
  end.

(** [hash_update] *)
Definition hash_update (mem : bool) (map : hash_t) : res (Z * hash_t) :=
  let old_size := mask map + 1 in
  let resize new_size :=
    match hash_initialize mem new_size with
    | None => Ok (-1, map)
    | Some map' => map' ← hash_copy map' (table map); Ok (0, map')
    end in
  if 3 * fill map >=? 2 * old_size then
    let new_size := wrapS 64 (Z.shiftl old_size 1) in
    if new_size <? old_size then Ok (-1, map) else resize new_size
  else if (HASH_MINSIZE <? old_size) && (4 * count map <=? old_size) then
    resize (Z.shiftr old_size 1)
  else Ok (0, map).

(** [hash_init] *)
Definition hash_init (mem : bool) : option hash_t := hash_initialize mem HASH_MINSIZE.

(** [hash_destroy] *)
Definition hash_destroy (map : hash_t) : hash_t := mk_hash 0 0 0 [].

(** [hash_isset], [hash_get]; a null table is [None]. *)
Definition hash_isset (map : option hash_t) (k : K) : res bool :=
  match map with
  | None => Ok false
  | Some map =>
      i ← hash_lookup map k (hfunc k);
      s ← of_option BadAccess (table map !! i);
      Ok (bool_decide (mode s = SL_ACTIVE))
  end.

Definition hash_get (map : option hash_t) (k : K) (default_value : V) : res V :=
  match map with
  | None => Ok default_value
  | Some map =>
      i ← hash_lookup map k (hfunc k);
      s ← of_option BadAccess (table map !! i);
      Ok (if bool_decide (mode s = SL_ACTIVE) then value s else default_value)
  end.

(** [hash_set] *)
Definition hash_set (mem : bool) (map : option hash_t) (k : K) (v : V) : res (Z * option hash_t) :=
  match map with
  | None => Ok (-1, None)
  | Some map =>
      let h := hfunc k in
      i ← hash_lookup map k h;
      s ← of_option BadAccess (table map !! i);
      match mode s with
      | SL_ACTIVE => Ok (0, Some (set_slot i (mk_slot (key s) v (hash s) (mode s)) map))
      | _ =>
          let fill' := if bool_decide (mode s = SL_EMPTY) then fill map + 1 else fill map in
          '(c, map) ← hash_update mem
            (mk_hash fill' (count map + 1) (mask map) (<[i := mk_slot k v h SL_ACTIVE]> (table map)));
          Ok (c, Some map)
      end
  end.

(** [hash_del] *)
Definition hash_del (mem : bool) (map : option hash_t) (k : K) : res (Z * option hash_t) :=
  match map with
  | None => Ok (-1, None)
  | Some map =>
      i ← hash_lookup map k (hfunc k);
      s ← of_option BadAccess (table map !! i);
      match mode s with
      | SL_ACTIVE =>
          '(c, map) ← hash_update mem
            (mk_hash (fill map) (count map - 1) (mask map)
               (<[i := mk_slot null_key null_val 0 SL_DELETED]> (table map)));
          Ok (c, Some map)
      | _ => Ok (0, Some map)
      end
  end.

End Hash.

(** ** The predefined key kinds *)

(** [hash_direct_hfunc], [hash_direct_cmp]: the pointer is its own hash code.
    A pointer is its 64-bit pattern read as a [long]. *)
Definition hash_direct_hfunc (key : Z) : Z := wrapS 64 key.
Definition hash_direct_cmp (key1 key2 : Z) : bool := key1 =? key2.

#[export] Program Instance hash_direct : HashKey Z := {|
  null_key := 0; hfunc := hash_direct_hfunc; cmp := hash_direct_cmp
|}.
Next Obligation. intros k. unfold hash_direct_hfunc. apply (wrapS_range 64); lia. Qed.
Next Obligation. intros k. unfold hash_direct_cmp. lia. Qed.
Next Obligation. unfold hash_direct_cmp. lia. Qed.
Next Obligation. unfold hash_direct_cmp. lia. Qed.
Next Obligation. unfold hash_direct_cmp. intros k1 k2 E. f_equal. lia. Qed.

(** A string key: the address of the string and the characters up to the NUL. *)
Record str_key : Type := mk_str { str_addr : Z; str_chars : list Z }.
#[export] Instance str_key_eq_dec : EqDecision str_key.
Proof. solve_decision. Defined.

(** [hash_string_cmp]: [strcmp(key1, key2) == 0]. *)
Definition hash_string_cmp (key1 key2 : str_key) : bool :=
  bool_decide (str_chars key1 = str_chars key2).

(** [hash_string_hfunc] *)
Definition hash_string_hfunc (key : str_key) : Z :=
  foldl (fun h c => wrapS 64 (Z.lxor (wrapS 64 (wrapS 64 (Z.shiftl h 5) + h)) c)) 5381 (str_chars key).

Lemma hash_string_hfunc_range key : - 2 ^ 63 <= hash_string_hfunc key < 2 ^ 63.
Proof.
  unfold hash_string_hfunc. generalize (str_chars key) as cs. intros cs.
  assert (- 2 ^ 63 <= 5381 < 2 ^ 63) as Hi by lia. revert Hi. generalize 5381 as i.
  induction cs as [|c cs IH]; intros i Hi; [exact Hi|]. simpl. apply IH. apply (wrapS_range 64). lia.
Qed.

#[export] Program Instance hash_string : HashKey str_key := {|
  null_key := mk_str 0 []; hfunc := hash_string_hfunc; cmp := hash_string_cmp
|}.
Next Obligation. apply hash_string_hfunc_range. Qed.
Next Obligation. intros k. unfold hash_string_cmp. by apply bool_decide_eq_true. Qed.
Next Obligation. unfold hash_string_cmp. intros ??. rewrite !bool_decide_eq_true. done. Qed.
Next Obligation. unfold hash_string_cmp. intros ???. rewrite !bool_decide_eq_true. congruence. Qed.
Next Obligation.
  intros k1 k2. unfold hash_string_cmp, hash_string_hfunc. rewrite bool_decide_eq_true.
  by intros ->.
Qed.

(** [hash_init_direct], [hash_init_string] *)
Definition hash_init_direct {V} (null_val : V) (mem : bool) : option (@hash_t Z V) :=
  hash_init null_val mem.
Definition hash_init_string {V} (null_val : V) (mem : bool) : option (@hash_t str_key V) :=
  hash_init null_val mem.

(** ** Correctness *)

Section HashCorrect.
Context {K V : Type} `{HashKey K} (null_val : V).
Abbreviation slot := (@hash_slot_t K V).
Abbreviation map_t := (@hash_t K V).
Implicit Types (map : map_t) (k : K) (v : V) (tbl : list slot) (s : slot).

(** The [n]-th slot probed for a hash code. *)
Definition probe_start (msk h : Z) : Z * Z := (Z.land (wrapU 64 h) msk, wrapU 64 h).
Definition probe_pos (msk h : Z) (n : nat) : nat :=
  Z.to_nat (Z.land (probe_at (probe_start msk h) n).1 msk).

Definition matching (k : K) (s : slot) : Prop := mode s = SL_ACTIVE /\ cmp (key s) k = true.
#[local] Instance matching_dec k s : Decision (matching k s) := _.

(** No probe before the [n]-th for hash code [h] meets an empty slot. *)
Definition probed_full (msk : Z) tbl (h : Z) (n : nat) : Prop :=
  forall n', (n' < n)%nat -> exists s, tbl !! probe_pos msk h n' = Some s /\ mode s <> SL_EMPTY.

(** The invariant of the slots: the stored hash codes are those of the keys,
    no two active slots hold equivalent keys, and every active slot is
    reached by its probe sequence before an empty one. *)
Record slots_ok (msk : Z) tbl : Prop := {
  so_size : exists kk, (3 <= kk <= 30)%nat /\ msk + 1 = 2 ^ Z.of_nat kk;
  so_length : length tbl = Z.to_nat (msk + 1);
  so_hash : forall i s, tbl !! i = Some s -> mode s = SL_ACTIVE -> hash s = hfunc (key s);
  so_uniq : forall i j s s', tbl !! i = Some s -> tbl !! j = Some s' ->
    mode s = SL_ACTIVE -> matching (key s) s' -> i = j;
  so_reach : forall i s, tbl !! i = Some s -> mode s = SL_ACTIVE ->
    exists n, probe_pos msk (hfunc (key s)) n = i /\ probed_full msk tbl (hfunc (key s)) n
}.

Definition n_used tbl : Z := Z.of_nat (length (filter (fun s => mode s <> SL_EMPTY) tbl)).
Definition n_active tbl : Z := Z.of_nat (length (filter (fun s => mode s = SL_ACTIVE) tbl)).

(** The invariant of a table. *)
Record hash_wf map : Prop := {
  wf_slots : slots_ok (mask map) (table map);
  wf_fill : fill map = n_used (table map);
  wf_count : count map = n_active (table map);
  wf_room : fill map < mask map + 1
}.

(** The partial map a table represents. *)
Definition denote tbl (k : K) : option V := value ∘ snd <$> list_find (matching k) tbl.

(** *** Slots and probes *)

Lemma land_mask kk x : Z.land x (2 ^ Z.of_nat kk - 1) = x mod 2 ^ Z.of_nat kk.
Proof. rewrite <- Z.land_ones, Z.ones_equiv by lia. done. Qed.

Lemma probe_pos_lt msk tbl h n : slots_ok msk tbl -> (probe_pos msk h n < length tbl)%nat.
Proof.
  intros [(kk & Hk & Hm) Hlen _ _ _]. unfold probe_pos. rewrite Hlen.
  replace msk with (2 ^ Z.of_nat kk - 1) by lia. rewrite land_mask.
  pose proof (Z.mod_pos_bound (probe_at (probe_start (2 ^ Z.of_nat kk - 1) h) n).1 (2 ^ Z.of_nat kk)). lia.
Qed.

Lemma probe_pos_covers msk tbl h i :
  slots_ok msk tbl -> (i < length tbl)%nat ->
  exists n, (n < 13 + length tbl)%nat /\ probe_pos msk h n = i.
Proof.
  intros [(kk & Hk & Hm) Hlen _ _ _] Hi. rewrite Hlen in *.
  destruct (probe_covers (probe_start msk h) kk (Z.of_nat i)) as (n & Hn & E).
  - lia.
  - simpl. apply wrapU_range. lia.
  - lia.
  - exists n. rewrite Hm. split; [done|]. unfold probe_pos.
    replace msk with (2 ^ Z.of_nat kk - 1) in * by lia. rewrite land_mask, E. lia.
Qed.

Lemma matching_slot k s :
  mode s = SL_ACTIVE -> hash s = hfunc (key s) ->
  slot_matches s k (hfunc k) = bool_decide (matching k s).
Proof.
  intros Hm Hh. unfold slot_matches. destruct (bool_decide_reflect (matching k s)) as [[_ Hc]|Hn].
  - rewrite Hc, Hh, (cmp_hash _ _ Hc), Z.eqb_refl. by rewrite orb_true_r.
  - destruct (cmp (key s) k) eqn:Ec; [by destruct Hn|].
    rewrite andb_false_r, orb_false_r. apply bool_decide_eq_false. intros <-.
    by rewrite cmp_refl in Ec.
Qed.

(** *** The loop of [hash_lookup] *)

(** A probe stops the search for [k] when its slot is empty or matches. *)
Definition stops tbl k (i : nat) : Prop :=
  exists s, tbl !! i = Some s /\ (mode s = SL_EMPTY \/ matching k s).
#[local] Instance stops_dec tbl k i : Decision (stops tbl k i).
Proof.
  refine (match tbl !! i as o return tbl !! i = o -> _ with
          | Some s => fun E => cast_if (decide (mode s = SL_EMPTY \/ matching k s))
          | None => fun E => right _ end eq_refl).
  - exists s. done.
  - intros (s' & E' & Hs). congruence.
  - intros (s' & E' & _). congruence.
Defined.

Lemma least_nat (R : nat -> Prop) `{forall n, Decision (R n)} n :
  R n -> exists m, (m <= n)%nat /\ R m /\ forall m', (m' < m)%nat -> ~ R m'.
Proof.
  induction n as [n IH] using lt_wf_ind. intros Hn.
  destruct (decide (Exists R (seq 0 n))) as [(m & Hm & HR)%Exists_exists|Hno].
  - apply elem_of_seq in Hm. destruct (IH m) as (m' & Hle & Hm' & Hmin); [lia|done|].
    exists m'. split; [lia|done].
  - exists n. split; [done|]. split; [done|]. intros m' Hlt Hm'. apply Hno, Exists_exists.
    exists m'. split; [|done]. apply elem_of_seq. lia.
Qed.

Lemma lookup_loop_spec map k n : forall st fuel free,
  (forall i s, table map !! i = Some s -> mode s = SL_ACTIVE -> hash s = hfunc (key s)) ->
  let pos m := Z.to_nat (Z.land (probe_at st m).1 (mask map)) in
  (forall m, (pos m < length (table map))%nat) ->
  (n < fuel)%nat -> stops (table map) k (pos n) ->
  (forall m, (m < n)%nat -> ~ stops (table map) k (pos m)) ->
  exists r, hash_lookup_loop fuel map k (hfunc k) st.1 st.2 free = Ok r /\
    ((r = pos n /\ exists s, table map !! r = Some s /\ matching k s) \/
     (exists s, table map !! pos n = Some s /\ mode s = SL_EMPTY /\
       (free = Some r \/ r = pos n \/
        exists m s', (m < n)%nat /\ r = pos m /\ table map !! r = Some s' /\ mode s' = SL_DELETED))).
Proof.
  induction n as [|n IH]; intros st fuel free Hhash pos Hpos Hf Hstop Hnot;
    (destruct fuel as [|fuel]; [lia|]); simpl.
  - destruct Hstop as (s & Hs & Hcase). unfold pos in Hs. simpl in Hs. rewrite Hs. simpl.
    destruct (mode s) eqn:Em.
    + eexists. split; [done|]. right. exists s. split; [done|]. split; [done|].
      destruct free as [r|]; simpl; auto.
    + destruct Hcase as [Hcase|Hm]; [done|].
      rewrite (matching_slot k s Em) by eauto. rewrite bool_decide_true by done.
      eexists. split; [done|]. left. eauto.
    + destruct Hcase as [Hcase|[Hm _]]; congruence.
  - assert (exists s, table map !! pos 0%nat = Some s) as [s Hs].
    { apply lookup_lt_is_Some, Hpos. }
    assert (~ stops (table map) k (pos 0%nat)) as Hns by (apply Hnot; lia).
    assert (Hrec : forall free', exists r,
      hash_lookup_loop fuel map k (hfunc k) (probe_next st).1 (probe_next st).2 free' = Ok r /\
      ((r = pos (S n) /\ exists s, table map !! r = Some s /\ matching k s) \/
       (exists s, table map !! pos (S n) = Some s /\ mode s = SL_EMPTY /\
         (free' = Some r \/ r = pos (S n) \/
          exists m s', (m < n)%nat /\ r = pos (S m) /\ table map !! r = Some s' /\ mode s' = SL_DELETED)))).
    { intros free'. specialize (IH (probe_next st) fuel free' Hhash).
      unfold pos in *. setoid_rewrite <- probe_at_S in IH. apply IH.
      - intros m. apply Hpos.
      - lia.
      - done.
      - intros m Hm. apply Hnot. lia. }
    unfold pos in Hs. simpl in Hs. rewrite Hs. simpl. destruct (mode s) eqn:Em.
    + destruct Hns. exists s. unfold pos. simpl. auto.
    + rewrite (matching_slot k s Em) by eauto. rewrite bool_decide_false.
      2: { intros Hm. destruct Hns. exists s. unfold pos. simpl. auto. }
      destruct (Hrec free) as (r & E & Hr). exists r. split; [exact E|].
      destruct Hr as [?|(s' & ? & ? & [?|[?|(m & s'' & ? & ? & ? & ?)]])]; [by left|right; exists s'..].
      * auto.
      * auto.
      * split; [done|]. split; [done|]. right. right. exists (S m), s''. split; [lia|done].
    + match goal with |- context [Some (default ?i free)] => destruct (Hrec (Some (default i free))) as (r & E & Hr) end.
      exists r. split; [exact E|].
      destruct Hr as [?|(s' & ? & ? & [Hfree|[?|(m & s'' & ? & ? & ? & ?)]])]; [by left|right; exists s'..].
      * split; [done|]. split; [done|]. injection Hfree as Hfree. destruct free as [f|]; simpl in Hfree.
        -- left. congruence.
        -- right. right. exists 0%nat, s. subst r. split; [lia|]. done.
      * auto.
      * split; [done|]. split; [done|]. right. right. exists (S m), s''. split; [lia|done].
Qed.

(** *** [hash_lookup] *)

Lemma empty_slot_exists msk tbl :
  slots_ok msk tbl -> n_used tbl < msk + 1 -> exists i s, tbl !! i = Some s /\ mode s = SL_EMPTY.
Proof.
  intros Hok Hroom. destruct (decide (Exists (fun s => mode s = SL_EMPTY) tbl)) as [He|Hne].
  - apply Exists_exists in He as (s & Hs & Hm). apply list_elem_of_lookup in Hs as [i Hs]. eauto.
  - exfalso. unfold n_used in Hroom.
    rewrite list_filter_all in Hroom.
    + pose proof (so_length _ _ Hok). destruct (so_size _ _ Hok) as (kk & ? & ?). lia.
    + intros s Hs Hm. apply Hne, Exists_exists. eauto.
Qed.

Lemma probed_full_not_stops msk tbl k n :
  slots_ok msk tbl ->
  (forall m, (m < n)%nat -> ~ stops tbl k (probe_pos msk (hfunc k) m)) ->
  probed_full msk tbl (hfunc k) n.
Proof.
  intros Hok Hns m Hm. destruct (lookup_lt_is_Some_2 tbl (probe_pos msk (hfunc k) m)) as [s Hs].
  { by apply probe_pos_lt. }
  exists s. split; [done|]. intros He. apply (Hns m Hm). exists s. auto.
Qed.

(** [hash_lookup] ends, on the slot of the key when there is one and
    otherwise on a free slot that the probe sequence of the key reaches
    before an empty one. *)
Lemma hash_lookup_spec map k :
  slots_ok (mask map) (table map) -> n_used (table map) < mask map + 1 ->
  exists i s, hash_lookup map k (hfunc k) = Ok i /\ table map !! i = Some s /\
    (matching k s \/
     (mode s <> SL_ACTIVE /\ (forall j s', table map !! j = Some s' -> ~ matching k s') /\
      exists n, probe_pos (mask map) (hfunc k) n = i /\ probed_full (mask map) (table map) (hfunc k) n)).
Proof.
  intros Hok Hroom. set (msk := mask map) in *. set (tbl := table map) in *.
  destruct (empty_slot_exists msk tbl Hok Hroom) as (j & sj & Hj & Hej).
  destruct (probe_pos_covers msk tbl (hfunc k) j Hok) as (n0 & Hn0 & Hpj);
    [by eapply lookup_lt_Some|].
  destruct (least_nat (fun n => stops tbl k (probe_pos msk (hfunc k) n)) n0) as (n & Hle & Hstop & Hmin).
  { rewrite Hpj. exists sj. auto. }
  destruct (lookup_loop_spec map k n (probe_start msk (hfunc k)) (hash_fuel map) None) as (r & Hr & Hres).
  - apply (so_hash _ _ Hok).
  - intros m. by apply (probe_pos_lt msk tbl).
  - unfold hash_fuel. fold msk. rewrite <- (so_length _ _ Hok). lia.
  - done.
  - done.
  - assert (probed_full msk tbl (hfunc k) n) as Hfull by (by apply probed_full_not_stops).
    destruct Hres as [(-> & s & Hs & Hm)|(s & Hs & He & Hcase)]; [by eauto 10|].
    change (tbl !! probe_pos msk (hfunc k) n = Some s) in Hs.
    assert (Hno : forall j s', tbl !! j = Some s' -> ~ matching k s').
    { intros j' s' Hj' Hm. destruct (so_reach _ _ Hok j' s' Hj') as (n' & Hn' & Hfull'); [apply Hm|].
      rewrite (cmp_hash _ _ (proj2 Hm)) in *.
      destruct (decide (n' <= n)%nat) as [Hlt|Hlt].
      - destruct (decide (n' = n)) as [->|Hne].
        + rewrite Hn' in Hs. destruct Hm as [Hm _]. congruence.
        + apply (Hmin n'); [lia|]. rewrite Hn'. exists s'. auto.
      - destruct (Hfull' n) as (s'' & Hs'' & He''); [lia|].
        congruence. }
    destruct Hcase as [[=]|[->|(m & s' & Hm & -> & Hs' & Hd)]].
    + exists (probe_pos msk (hfunc k) n), s. split; [exact Hr|]. split; [exact Hs|]. right.
      split; [congruence|]. split; [done|]. eauto.
    + exists (probe_pos msk (hfunc k) m), s'. split; [exact Hr|]. split; [exact Hs'|]. right.
      split; [congruence|]. split; [done|]. exists m. split; [done|]. intros m' ?. apply Hfull. lia.
Qed.

(** *** Denotation *)

Lemma denote_Some msk tbl k i s :
  slots_ok msk tbl -> tbl !! i = Some s -> matching k s -> denote tbl k = Some (value s).
Proof.
  intros Hok Hi Hm. unfold denote.
  destruct (list_find (matching k) tbl) as [[j s']|] eqn:E.
  - apply list_find_Some in E as (Hj & Hm' & _). simpl.
    assert (i = j) as ->.
    { eapply (so_uniq _ _ Hok i j s s'); [done..|apply Hm|].
      split; [apply Hm'|]. eapply cmp_trans; [apply Hm'|]. apply cmp_sym, Hm. }
    congruence.
  - apply list_find_None in E. rewrite Forall_lookup in E. by destruct (E i s Hi).
Qed.

Lemma denote_None tbl k :
  (forall i s, tbl !! i = Some s -> ~ matching k s) -> denote tbl k = None.
Proof.
  intros Hno. unfold denote. destruct (list_find (matching k) tbl) as [[j s']|] eqn:E; [|done].
  apply list_find_Some in E as (Hj & Hm' & _). by destruct (Hno j s').
Qed.

Lemma denote_inv tbl k v :
  denote tbl k = Some v -> exists i s, tbl !! i = Some s /\ matching k s /\ value s = v.
Proof.
  unfold denote. destruct (list_find (matching k) tbl) as [[j s']|] eqn:E; [|done].
  apply list_find_Some in E as (Hj & Hm' & _). simpl. intros [= <-]. eauto.
Qed.

Lemma denote_ext msk msk' tbl tbl' k k' :
  slots_ok msk tbl -> slots_ok msk' tbl' ->
  (forall s, matching k s /\ (exists i, tbl !! i = Some s) -> exists i' s', tbl' !! i' = Some s' /\ matching k' s' /\ value s' = value s) ->
  (forall s, matching k' s /\ (exists i, tbl' !! i = Some s) -> exists i' s', tbl !! i' = Some s' /\ matching k s') ->
  denote tbl k = denote tbl' k'.
Proof.
  intros Hok Hok' H1 H2. destruct (denote tbl k) as [v|] eqn:E.
  - apply denote_inv in E as (i & s & Hi & Hm & <-).
    destruct (H1 s) as (i' & s' & Hi' & Hm' & <-); [eauto|]. symmetry. by eapply denote_Some.
  - symmetry. apply denote_None. intros i s Hi Hm. destruct (H2 s) as (i' & s' & Hi' & Hm'); [eauto|].
    erewrite denote_Some in E; [|exact Hok|done|done]. done.
Qed.

(** *** Stores to a slot *)

Lemma n_filter_insert (R : slot -> Prop) `{forall s, Decision (R s)} tbl i s0 s :
  tbl !! i = Some s0 ->
  (length (filter R (<[i := s]> tbl)) + (if decide (R s0) then 1 else 0) =
   length (filter R tbl) + (if decide (R s) then 1 else 0))%nat.
Proof.
  intros Hi. rewrite insert_take_drop by (by eapply lookup_lt_Some).
  rewrite <- (take_drop_middle tbl i s0 Hi) at 3.
  rewrite !filter_app, !length_app, !filter_cons. do 2 case_decide; simpl; lia.
Qed.

Lemma n_used_insert tbl i s0 s :
  tbl !! i = Some s0 -> mode s <> SL_EMPTY ->
  n_used (<[i := s]> tbl) = n_used tbl + (if bool_decide (mode s0 = SL_EMPTY) then 1 else 0).
Proof.
  intros Hi Hs. pose proof (n_filter_insert (fun s => mode s <> SL_EMPTY) tbl i s0 s Hi) as E.
  unfold n_used. do 2 case_decide; case_bool_decide; try done; lia.
Qed.

Lemma n_active_insert tbl i s0 s :
  tbl !! i = Some s0 ->
  n_active (<[i := s]> tbl) + (if bool_decide (mode s0 = SL_ACTIVE) then 1 else 0) =
  n_active tbl + (if bool_decide (mode s = SL_ACTIVE) then 1 else 0).
Proof.
  intros Hi. pose proof (n_filter_insert (fun s => mode s = SL_ACTIVE) tbl i s0 s Hi) as E.
  unfold n_active. do 2 case_decide; do 2 case_bool_decide; try done; lia.
Qed.

Lemma probed_full_insert msk tbl h n i s :
  mode s <> SL_EMPTY -> probed_full msk tbl h n -> probed_full msk (<[i := s]> tbl) h n.
Proof.
  intros Hs Hf m Hm. destruct (Hf m Hm) as (s' & Hs' & He).
  destruct (decide (i = probe_pos msk h m)) as [->|Hne].
  - exists s. split; [|done]. apply list_lookup_insert_eq. by eapply lookup_lt_Some.
  - exists s'. by rewrite list_lookup_insert_ne.
Qed.

(** Filling a free slot found for a key that is not in the table. *)
Lemma slots_ok_fill msk tbl i s0 k v n :
  slots_ok msk tbl -> tbl !! i = Some s0 ->
  (forall j s', tbl !! j = Some s' -> ~ matching k s') ->
  probe_pos msk (hfunc k) n = i -> probed_full msk tbl (hfunc k) n ->
  slots_ok msk (<[i := mk_slot k v (hfunc k) SL_ACTIVE]> tbl).
Proof.
  intros Hok Hi Hno Hpos Hfull. set (s := mk_slot k v (hfunc k) SL_ACTIVE).
  pose proof (lookup_lt_Some _ _ _ Hi) as Hlt. split.
  - apply (so_size _ _ Hok).
  - rewrite length_insert. apply (so_length _ _ Hok).
  - intros j s' Hj Hm. apply list_lookup_insert_Some in Hj as [(_ & <- & _)|[_ Hj]]; [done|].
    by apply (so_hash _ _ Hok j s').
  - intros j1 j2 s1 s2 H1 H2 Hm1 Hm2.
    apply list_lookup_insert_Some in H1 as [(<- & <- & _)|[Hn1 H1]];
      apply list_lookup_insert_Some in H2 as [(<- & <- & _)|[Hn2 H2]].
    + done.
    + by destruct (Hno j2 s2 H2).
    + exfalso. apply (Hno j1 s1 H1). split; [done|]. apply cmp_sym, Hm2.
    + by eapply (so_uniq _ _ Hok j1 j2).
  - intros j s' Hj Hm. apply list_lookup_insert_Some in Hj as [(<- & <- & _)|[Hn Hj]].
    + exists n. split; [done|]. by apply probed_full_insert.
    + destruct (so_reach _ _ Hok j s' Hj Hm) as (n' & ? & ?). exists n'. split; [done|].
      by apply probed_full_insert.
Qed.

Lemma denote_fill msk tbl i s0 k v k' :
  slots_ok msk tbl -> slots_ok msk (<[i := mk_slot k v (hfunc k) SL_ACTIVE]> tbl) ->
  tbl !! i = Some s0 -> mode s0 <> SL_ACTIVE ->
  denote (<[i := mk_slot k v (hfunc k) SL_ACTIVE]> tbl) k' =
    if cmp k k' then Some v else denote tbl k'.
Proof.
  intros Hok Hok' Hi Hna. pose proof (lookup_lt_Some _ _ _ Hi) as Hlt. destruct (cmp k k') eqn:Ec.
  - rewrite (denote_Some msk _ k' i (mk_slot k v (hfunc k) SL_ACTIVE)); [done|done|..|done].
    by apply list_lookup_insert_eq.
  - eapply denote_ext; [done|done|..].
    + intros s [Hm [j Hj]]. apply list_lookup_insert_Some in Hj as [(_ & <- & _)|[_ Hj]]; [|by eauto].
      destruct Hm as [_ Hm]. simpl in Hm. congruence.
    + intros s [Hm [j Hj]]. exists j, s. split; [|done].
      rewrite list_lookup_insert_ne; [done|]. intros <-. destruct Hm. congruence.
Qed.

(** *** [hash_copy] *)

Record olds_ok tbl : Prop := {
  oo_hash : forall i s, tbl !! i = Some s -> mode s = SL_ACTIVE -> hash s = hfunc (key s);
  oo_uniq : forall i j s s', tbl !! i = Some s -> tbl !! j = Some s' ->
    mode s = SL_ACTIVE -> matching (key s) s' -> i = j
}.

Lemma olds_ok_tail s tbl : olds_ok (s :: tbl) -> olds_ok tbl.
Proof.
  intros [Hh Hu]. split.
  - intros i s' Hi. by apply (Hh (S i)).
  - intros i j s1 s2 Hi Hj Hm Hm'. specialize (Hu (S i) (S j) s1 s2 Hi Hj Hm Hm'). lia.
Qed.

Lemma olds_ok_head s tbl :
  olds_ok (s :: tbl) -> mode s = SL_ACTIVE -> forall j s', tbl !! j = Some s' -> ~ matching (key s) s'.
Proof. intros [_ Hu] Hm j s' Hj Hm'. specialize (Hu 0%nat (S j) s s' eq_refl Hj Hm Hm'). lia. Qed.

Lemma denote_cons s tbl k :
  denote (s :: tbl) k = if decide (matching k s) then Some (value s) else denote tbl k.
Proof.
  unfold denote. simpl. case_decide; [done|].
  by destruct (list_find (matching k) tbl) as [[??]|].
Qed.

Lemma n_active_cons s tbl :
  n_active (s :: tbl) = n_active tbl + (if decide (mode s = SL_ACTIVE) then 1 else 0).
Proof. unfold n_active. rewrite filter_cons. case_decide; simpl; lia. Qed.

Lemma n_active_nonneg tbl : 0 <= n_active tbl.
Proof. unfold n_active. lia. Qed.

Lemma hash_copy_spec olds : forall map,
  slots_ok (mask map) (table map) -> fill map = n_used (table map) -> count map = n_active (table map) ->
  Forall (fun s => mode s <> SL_DELETED) (table map) ->
  olds_ok olds -> fill map + n_active olds < mask map + 1 ->
  (forall i s, olds !! i = Some s -> mode s = SL_ACTIVE ->
     forall j s', table map !! j = Some s' -> ~ matching (key s) s') ->
  exists map', hash_copy map olds = Ok map' /\ mask map' = mask map /\
    slots_ok (mask map') (table map') /\ fill map' = n_used (table map') /\
    count map' = n_active (table map') /\ fill map' = fill map + n_active olds /\
    forall k, denote (table map') k =
      match denote olds k with Some v => Some v | None => denote (table map) k end.
Proof.
  induction olds as [|old olds IH]; intros map Hok Hfill Hcount Hnd Hold Hroom Hdisj; simpl.
  - exists map. split_and!; try done. unfold n_active. simpl. lia.
  - assert (Hold' := olds_ok_tail _ _ Hold). rewrite n_active_cons in *.
    destruct (mode old) eqn:Em.
    1,3: rewrite decide_False in * by done; destruct (IH map) as (map' & -> & E1 & E2 & E3 & E4 & E5 & E6);
      [done..|lia|intros i s Hi; by apply (Hdisj (S i))|];
      exists map'; split_and!; [done..|lia|]; intros k; rewrite E6, denote_cons;
      rewrite decide_False; [done|by intros [? _]; congruence].
    rewrite decide_True in * by done. pose proof (n_active_nonneg olds).
    destruct (hash_lookup_spec map (key old)) as (i & s0 & -> & Hi & Hcase); [done|lia|]. simpl.
    destruct Hcase as [Hm|(Hna & Hno & n & Hpos & Hfull)].
    { exfalso. by eapply (Hdisj 0%nat old). }
    assert (hash old = hfunc (key old)) as -> by (by apply (oo_hash _ Hold 0%nat)).
    set (s1 := mk_slot (key old) (value old) (hfunc (key old)) SL_ACTIVE).
    assert (mode s0 = SL_EMPTY) as He.
    { rewrite Forall_lookup in Hnd. specialize (Hnd i s0 Hi). by destruct (mode s0). }
    assert (Hok1 : slots_ok (mask map) (<[i := s1]> (table map))) by (by eapply slots_ok_fill).
    edestruct (IH (mk_hash (fill map + 1) (count map + 1) (mask map) (<[i := s1]> (table map))))
      as (map' & -> & E1 & E2 & E3 & E4 & E5 & E6); simpl in *.
    + done.
    + rewrite (n_used_insert _ _ s0) by done. rewrite He, bool_decide_true by done. lia.
    + pose proof (n_active_insert (table map) i s0 s1 Hi) as E.
      rewrite bool_decide_false, bool_decide_true in E by done. lia.
    + by apply Forall_insert.
    + done.
    + lia.
    + intros j s Hj Hmj j' s' Hj'.
      apply list_lookup_insert_Some in Hj' as [(_ & <- & _)|[_ Hj']].
      * intros [_ Hc]. simpl in Hc. by eapply (olds_ok_head _ _ Hold Em j s Hj), conj, cmp_sym.
      * by apply (Hdisj (S j) s Hj Hmj j').
    + exists map'. split_and!; [done..|lia|]. intros k. rewrite E6, denote_cons.
      unfold s1. erewrite denote_fill by done.
      destruct (decide (matching k old)) as [[_ Hc]|Hn].
      * rewrite Hc. rewrite denote_None; [done|]. intros j s Hj Hm.
        apply (olds_ok_head _ _ Hold Em j s Hj). split; [apply Hm|].
        eapply cmp_trans; [apply Hm|]. by apply cmp_sym.
      * destruct (cmp (key old) k) eqn:Ec; [by destruct Hn|]. done.
Qed.

(** *** Fresh tables and [hash_update] *)

Lemma slots_ok_fresh kk :
  (3 <= kk <= 30)%nat ->
  slots_ok (2 ^ Z.of_nat kk - 1) (replicate (Z.to_nat (2 ^ Z.of_nat kk)) (empty_slot null_val)).
Proof.
  intros Hk. assert (Hnone : forall i s, replicate (Z.to_nat (2 ^ Z.of_nat kk)) (empty_slot null_val) !! i = Some s ->
    mode s <> SL_ACTIVE).
  { intros i s [-> _]%lookup_replicate. done. }
  split.
  - exists kk. split; [done|lia].
  - rewrite length_replicate. f_equal. lia.
  - intros i s Hi Hm. by destruct (Hnone i s Hi).
  - intros i j s s' Hi _ Hm. by destruct (Hnone i s Hi).
  - intros i s Hi Hm. by destruct (Hnone i s Hi).
Qed.

Lemma filter_replicate_False (R : slot -> Prop) `{forall s, Decision (R s)} n s :
  ~ R s -> filter R (replicate n s) = [].
Proof. intros Hs. induction n as [|n IH]; [done|]. simpl. by rewrite filter_cons_False. Qed.

Lemma fresh_counts n :
  n_used (replicate n (empty_slot null_val)) = 0 /\ n_active (replicate n (empty_slot null_val)) = 0.
Proof. unfold n_used, n_active. rewrite !filter_replicate_False by (simpl; naive_solver). done. Qed.

Lemma denote_fresh n k : denote (replicate n (empty_slot null_val)) k = None.
Proof. apply denote_None. intros i s [-> _]%lookup_replicate. intros [[=] _]. Qed.

Lemma n_active_le_used tbl : n_active tbl <= n_used tbl.
Proof.
  unfold n_active, n_used. induction tbl as [|s tbl IH]; [done|].
  rewrite !filter_cons. do 2 case_decide; simpl; try lia. exfalso. naive_solver congruence.
Qed.

Lemma slots_ok_olds msk tbl : slots_ok msk tbl -> olds_ok tbl.
Proof. intros Hok. split; [apply (so_hash _ _ Hok)|apply (so_uniq _ _ Hok)]. Qed.

(** A resize keeps the represented map. *)
Lemma hash_resize_spec tbl kk :
  (3 <= kk <= 30)%nat -> olds_ok tbl -> n_active tbl < 2 ^ Z.of_nat kk ->
  exists map', hash_copy (mk_hash 0 0 (2 ^ Z.of_nat kk - 1)
      (replicate (Z.to_nat (2 ^ Z.of_nat kk)) (empty_slot null_val))) tbl = Ok map' /\
    mask map' = 2 ^ Z.of_nat kk - 1 /\ hash_wf map' /\ fill map' = n_active tbl /\
    forall k, denote (table map') k = denote tbl k.
Proof.
  intros Hk Hold Hn. destruct (fresh_counts (Z.to_nat (2 ^ Z.of_nat kk))) as [Eu Ea].
  edestruct (hash_copy_spec tbl (mk_hash 0 0 (2 ^ Z.of_nat kk - 1)
    (replicate (Z.to_nat (2 ^ Z.of_nat kk)) (empty_slot null_val))))
    as (map' & -> & E1 & E2 & E3 & E4 & E5 & E6); simpl.
  - by apply slots_ok_fresh.
  - done.
  - done.
  - apply Forall_replicate. done.
  - done.
  - lia.
  - intros ? ? ? ? j s' [-> _]%lookup_replicate [[=] _].
  - exists map'. simpl in *. split_and!; [done..|split;[done..|]|lia|]; [lia|].
    intros k. rewrite E6, denote_fresh. by destruct (denote tbl k).
Qed.

Lemma hash_update_spec map :
  slots_ok (mask map) (table map) -> fill map = n_used (table map) -> count map = n_active (table map) ->
  fill map <= mask map + 1 -> mask map + 1 <= 2 ^ 29 ->
  exists map', hash_update null_val true map = Ok (0, map') /\ hash_wf map' /\
    (forall k, denote (table map') k = denote (table map) k) /\
    fill map' <= fill map /\ mask map' + 1 <= Z.max (mask map + 1) (3 * fill map).
Proof.
  intros Hok Hfill Hcount Hle Hbound. unfold hash_update.
  destruct (so_size _ _ Hok) as (kk & Hk & Hsz).
  pose proof (n_active_le_used (table map)) as Hau. pose proof (n_active_nonneg (table map)).
  assert (kk <= 29)%nat as Hk29.
  { assert (Z.of_nat kk <= 29); [|lia]. apply (Z.pow_le_mono_r_iff 2); lia. }
  rewrite Hsz in *. destruct (Z.geb_spec (3 * fill map) (2 * 2 ^ Z.of_nat kk)) as [Hg|Hg].
  - assert (Z.shiftl (2 ^ Z.of_nat kk) 1 = 2 ^ Z.of_nat (S kk)) as ->.
    { rewrite Z.shiftl_mul_pow2, Nat2Z.inj_succ, Z.pow_succ_r by lia. lia. }
    assert (2 ^ Z.of_nat (S kk) = 2 * 2 ^ Z.of_nat kk) as Edbl
      by (rewrite Nat2Z.inj_succ, Z.pow_succ_r by lia; lia).
    rewrite wrapS_id by lia. destruct (Z.ltb_spec (2 ^ Z.of_nat (S kk)) (2 ^ Z.of_nat kk)); [lia|].
    simpl. destruct (hash_resize_spec (table map) (S kk)) as (map' & -> & Em & Hwf & Ef & Hd);
      [lia|by eapply slots_ok_olds|lia|].
    simpl. exists map'. split_and!; [done..|lia|lia].
  - destruct ((HASH_MINSIZE <? 2 ^ Z.of_nat kk) && (4 * count map <=? 2 ^ Z.of_nat kk)) eqn:Ec.
    + apply andb_true_iff in Ec as [Hmin%Z.ltb_lt Hc%Z.leb_le]. unfold HASH_MINSIZE in Hmin.
      assert (3 < kk)%nat as Hk3.
      { assert (3 < Z.of_nat kk); [|lia]. apply (Z.pow_lt_mono_r_iff 2); lia. }
      destruct kk as [|kk]; [lia|].
      assert (2 ^ Z.of_nat (S kk) = 2 * 2 ^ Z.of_nat kk) as Edbl
        by (rewrite Nat2Z.inj_succ, Z.pow_succ_r by lia; lia).
      assert (Z.shiftr (2 ^ Z.of_nat (S kk)) 1 = 2 ^ Z.of_nat kk) as ->.
      { rewrite Z.shiftr_div_pow2 by lia. symmetry. apply Z.div_unique_exact; lia. }
      simpl. destruct (hash_resize_spec (table map) kk) as (map' & -> & Em & Hwf & Ef & Hd);
        [lia|by eapply slots_ok_olds|lia|].
      simpl. exists map'. split_and!; [done..|lia|lia].
    + exists map. split_and!; [done| |done|lia|lia]. split; [done..|]. lia.
Qed.

Lemma hash_update_fail map : exists c, hash_update null_val false map = Ok (c, map) /\ (c = 0 \/ c = -1).
Proof. unfold hash_update. simpl. repeat case_match; eauto. Qed.

(** *** The operations *)

Lemma hash_get_spec map k d :
  hash_wf map -> hash_get (Some map) k d = Ok (default d (denote (table map) k)).
Proof.
  intros [Hok Hfill _ Hroom]. unfold hash_get.
  destruct (hash_lookup_spec map k) as (i & s & -> & Hi & Hcase); [done|lia|]. simpl. rewrite Hi. simpl.
  destruct Hcase as [Hm|(Hna & Hno & _)].
  - rewrite (denote_Some _ _ _ _ _ Hok Hi Hm). by rewrite bool_decide_true by apply Hm.
  - rewrite denote_None by done. by rewrite bool_decide_false.
Qed.

Lemma hash_isset_spec map k :
  hash_wf map -> hash_isset (Some map) k = Ok (bool_decide (is_Some (denote (table map) k))).
Proof.
  intros [Hok Hfill _ Hroom]. unfold hash_isset.
  destruct (hash_lookup_spec map k) as (i & s & -> & Hi & Hcase); [done|lia|]. simpl. rewrite Hi. simpl.
  destruct Hcase as [Hm|(Hna & Hno & _)].
  - rewrite (denote_Some _ _ _ _ _ Hok Hi Hm). rewrite bool_decide_true by apply Hm.
    rewrite bool_decide_true; [done|]. eauto.
  - rewrite denote_None by done. rewrite !bool_decide_false; [done| |done]. by intros [??].
Qed.

(** Overwriting the value of an active slot. *)
Lemma slots_ok_value msk tbl i s v :
  slots_ok msk tbl -> tbl !! i = Some s -> mode s = SL_ACTIVE ->
  slots_ok msk (<[i := mk_slot (key s) v (hash s) SL_ACTIVE]> tbl).
Proof.
  intros Hok Hi Hm. set (s' := mk_slot (key s) v (hash s) SL_ACTIVE).
  assert (Hcase : forall j t, <[i := s']> tbl !! j = Some t ->
    exists t0, tbl !! j = Some t0 /\ key t0 = key t /\ hash t0 = hash t /\ mode t0 = mode t).
  { intros j t Hj. apply list_lookup_insert_Some in Hj as [(<- & <- & _)|[_ Hj]]; eauto. }
  split.
  - apply (so_size _ _ Hok).
  - rewrite length_insert. apply (so_length _ _ Hok).
  - intros j t Hj Ht. destruct (Hcase j t Hj) as (t0 & Hj0 & <- & <- & E).
    apply (so_hash _ _ Hok j t0); congruence.
  - intros j1 j2 t1 t2 H1 H2 Hm1 Hm2. destruct (Hcase j1 t1 H1) as (u1 & Hu1 & Ek1 & _ & E1).
    destruct (Hcase j2 t2 H2) as (u2 & Hu2 & Ek2 & _ & E2).
    apply (so_uniq _ _ Hok j1 j2 u1 u2 Hu1 Hu2); [congruence|].
    destruct Hm2. split; congruence.
  - intros j t Hj Ht. destruct (Hcase j t Hj) as (t0 & Hj0 & <- & _ & E).
    destruct (so_reach _ _ Hok j t0 Hj0) as (n & ? & ?); [congruence|].
    exists n. split; [done|]. by apply probed_full_insert.
Qed.

Lemma hash_set_spec mem map k v :
  hash_wf map -> mask map + 1 <= 2 ^ 29 -> mem = true \/ fill map + 1 < mask map + 1 ->
  exists c map', hash_set null_val mem (Some map) k v = Ok (c, Some map') /\ hash_wf map' /\
    (mem = true -> c = 0) /\
    (forall k', denote (table map') k' = if cmp k k' then Some v else denote (table map) k') /\
    fill map' <= fill map + 1 /\ mask map' + 1 <= Z.max (mask map + 1) (3 * (fill map + 1)).
Proof.
  intros [Hok Hfill Hcount Hroom] Hbound Hmem. unfold hash_set.
  destruct (hash_lookup_spec map k) as (i & s & -> & Hi & Hcase); [done|lia|]. simpl. rewrite Hi. simpl.
  pose proof (lookup_lt_Some _ _ _ Hi) as Hlt.
  destruct Hcase as [[Hm Hc]|(Hna & Hno & n & Hpos & Hfull)].
  - rewrite Hm. pose proof (slots_ok_value _ _ i s v Hok Hi Hm) as Hok'.
    eexists 0, _. split; [done|]. simpl. split_and!; try done; [split; try done; simpl|..|lia|lia].
    + rewrite (n_used_insert _ _ s) by done. by rewrite Hm, Hfill, bool_decide_false, Z.add_0_r.
    + pose proof (n_active_insert (table map) i s (mk_slot (key s) v (hash s) SL_ACTIVE) Hi) as E.
      rewrite Hm, bool_decide_true in E by done. simpl in E. lia.
    + intros k'. destruct (cmp k k') eqn:Ec.
      * erewrite (denote_Some _ _ k' i); [|exact Hok'|by apply list_lookup_insert_eq|]; [done|].
        split; [done|]. by eapply cmp_trans.
      * eapply denote_ext; [done|done|..].
        -- intros t [Ht [j Hj]]. apply list_lookup_insert_Some in Hj as [(_ & <- & _)|[_ Hj]]; [|by eauto].
           destruct Ht as [_ Ht]. simpl in Ht. assert (cmp k k' = true); [|congruence].
           eapply cmp_trans; [|done]. by apply cmp_sym.
        -- intros t [Ht [j Hj]]. exists j, t. split; [|done].
           rewrite list_lookup_insert_ne; [done|]. intros <-. rewrite Hi in Hj. simplify_eq.
           assert (cmp k k' = true); [|congruence]. eapply cmp_trans; [|apply Ht]. by apply cmp_sym.
  - set (map1 := mk_hash (if bool_decide (mode s = SL_EMPTY) then fill map + 1 else fill map)
        (count map + 1) (mask map) (<[i := mk_slot k v (hfunc k) SL_ACTIVE]> (table map))).
    assert (Hok1 : slots_ok (mask map1) (table map1)) by (by eapply slots_ok_fill).
    assert (Hd1 : forall k', denote (table map1) k' = if cmp k k' then Some v else denote (table map) k')
      by (intros k'; by eapply denote_fill).
    assert (Hf1 : fill map1 = n_used (table map1)).
    { simpl. rewrite (n_used_insert _ _ s) by done. case_bool_decide; lia. }
    assert (Hc1 : count map1 = n_active (table map1)).
    { pose proof (n_active_insert (table map) i s (mk_slot k v (hfunc k) SL_ACTIVE) Hi) as E.
      rewrite bool_decide_false, bool_decide_true in E by done. simpl in *. lia. }
    assert (Hle1 : fill map1 <= fill map + 1) by (simpl; case_bool_decide; lia).
    assert (exists c map', hash_update null_val mem map1 = Ok (c, map') /\ hash_wf map' /\
      (mem = true -> c = 0) /\ (forall k', denote (table map') k' = denote (table map1) k') /\
      fill map' <= fill map1 /\ mask map' + 1 <= Z.max (mask map1 + 1) (3 * fill map1)) as (c & map' & E & Hwf & Hc & Hd & Hfl & Hml).
    { destruct mem.
      - destruct (hash_update_spec map1) as (map' & -> & ? & ? & ? & ?); [done..|simpl in *; lia|done|].
        by eexists 0, map'.
      - destruct Hmem as [|Hmem]; [done|]. destruct (hash_update_fail map1) as (c & -> & _).
        exists c, map1. split_and!; try done; [|lia]. split; try done. simpl in *. lia. }
    exists c, map'. replace (match mode s with SL_ACTIVE => _ | _ => _ end)
      with ('(c, map) ← hash_update null_val mem map1; Ok (c, Some map)) by (by destruct (mode s)).
    rewrite E. simpl.
    change (mask map) with (mask map1).
    split_and!; [done..| |lia|lia]. intros k'. by rewrite Hd, Hd1.
Qed.

(** Marking an active slot deleted. *)
Lemma slots_ok_delete msk tbl i s :
  slots_ok msk tbl -> tbl !! i = Some s ->
  slots_ok msk (<[i := mk_slot null_key null_val 0 SL_DELETED]> tbl).
Proof.
  intros Hok Hi. set (s' := mk_slot null_key null_val 0 SL_DELETED).
  assert (Hcase : forall j t, <[i := s']> tbl !! j = Some t -> mode t = SL_ACTIVE -> tbl !! j = Some t).
  { intros j t Hj Ht. by apply list_lookup_insert_Some in Hj as [(<- & <- & _)|[_ Hj]]. }
  split.
  - apply (so_size _ _ Hok).
  - rewrite length_insert. apply (so_length _ _ Hok).
  - intros j t Hj Ht. apply (so_hash _ _ Hok j t); auto.
  - intros j1 j2 t1 t2 H1 H2 Hm1 Hm2.
    apply (so_uniq _ _ Hok j1 j2 t1 t2); auto. apply Hcase; [done|apply Hm2].
  - intros j t Hj Ht. destruct (so_reach _ _ Hok j t) as (n & ? & ?); [auto..|].
    exists n. split; [done|]. by apply probed_full_insert.
Qed.

Lemma hash_del_spec mem map k :
  hash_wf map -> mask map + 1 <= 2 ^ 29 ->
  exists c map', hash_del null_val mem (Some map) k = Ok (c, Some map') /\ hash_wf map' /\
    (mem = true -> c = 0) /\
    (forall k', denote (table map') k' = if cmp k k' then None else denote (table map) k') /\
    fill map' <= fill map /\ mask map' + 1 <= Z.max (mask map + 1) (3 * fill map).
Proof.
  intros Hwf Hbound. pose proof Hwf as [Hok Hfill Hcount Hroom]. unfold hash_del.
  destruct (hash_lookup_spec map k) as (i & s & -> & Hi & Hcase); [done|lia|]. simpl. rewrite Hi. simpl.
  pose proof (lookup_lt_Some _ _ _ Hi) as Hlt.
  destruct Hcase as [[Hm Hc]|(Hna & Hno & n & Hpos & Hfull)].
  - rewrite Hm. set (s' := mk_slot null_key null_val 0 SL_DELETED).
    set (map1 := mk_hash (fill map) (count map - 1) (mask map) (<[i := s']> (table map))).
    assert (Hok1 : slots_ok (mask map1) (table map1)) by (by eapply slots_ok_delete).
    assert (Hf1 : fill map1 = n_used (table map1)).
    { simpl. rewrite (n_used_insert _ _ s) by done. by rewrite Hm, bool_decide_false, Z.add_0_r. }
    assert (Hc1 : count map1 = n_active (table map1)).
    { pose proof (n_active_insert (table map) i s s' Hi) as E.
      rewrite Hm, bool_decide_true, bool_decide_false in E by done. simpl in *. lia. }
    assert (Hd1 : forall k', denote (table map1) k' = if cmp k k' then None else denote (table map) k').
    { intros k'. destruct (cmp k k') eqn:Ec.
      - apply denote_None. intros j t Hj Ht.
        apply list_lookup_insert_Some in Hj as [(_ & <- & _)|[Hne Hj]]; [by destruct Ht|].
        apply Hne. eapply (so_uniq _ _ Hok i j s t); [done..|]. split; [apply Ht|].
        eapply cmp_trans; [apply Ht|]. apply cmp_sym. by eapply cmp_trans.
      - eapply denote_ext; [done|done|..].
        + intros t [Ht [j Hj]]. apply list_lookup_insert_Some in Hj as [(_ & <- & _)|[_ Hj]]; [|by eauto].
          by destruct Ht.
        + intros t [Ht [j Hj]]. exists j, t. split; [|done].
          simpl. rewrite list_lookup_insert_ne; [done|]. intros <-. rewrite Hi in Hj. simplify_eq.
          assert (cmp k k' = true); [|congruence]. eapply cmp_trans; [|apply Ht]. by apply cmp_sym. }
    destruct mem.
    + destruct (hash_update_spec map1) as (map' & -> & ? & Hd & Hfl & Hml); [done..|simpl in *; lia|done|].
      exists 0, map'. split_and!; [done..| |done|done]. intros k'. by rewrite Hd, Hd1.
    + destruct (hash_update_fail map1) as (c & -> & _).
      exists c, map1. split_and!; try done; simpl; lia.
  - exists 0, map.
    replace (match mode s with SL_ACTIVE => _ | _ => _ end) with (Ok (0, Some map)) by (by destruct (mode s)).
    split_and!; [done..| |lia|lia]. intros k'. destruct (cmp k k') eqn:Ec; [|done].
    apply denote_None. intros j t Hj Ht.
    apply (Hno j t Hj). split; [apply Ht|]. eapply cmp_trans; [apply Ht|]. by apply cmp_sym.
Qed.

(** *** Sequences of operations

    The specification is a function from keys to values; the four operations
    a client has on a table, run on the table and on the function. *)

Inductive hash_op : Type := HSet (k : K) (v : V) | HDel (k : K) | HGet (k : K) (d : V) | HIsset (k : K).
Inductive hash_out : Type := OCode (c : Z) | OVal (v : V) | OBool (b : bool).

Definition hash_step map (op : hash_op) : res (hash_out * map_t) :=
  match op with
  | HSet k v => '(c, map) ← hash_set null_val true (Some map) k v; map ← deref map; Ok (OCode c, map)
  | HDel k => '(c, map) ← hash_del null_val true (Some map) k; map ← deref map; Ok (OCode c, map)
  | HGet k d => v ← hash_get (Some map) k d; Ok (OVal v, map)
  | HIsset k => b ← hash_isset (Some map) k; Ok (OBool b, map)
  end.

Fixpoint hash_run map (ops : list hash_op) : res (list hash_out * map_t) :=
  match ops with
  | [] => Ok ([], map)
  | op :: ops =>
      '(o, map) ← hash_step map op; '(os, map) ← hash_run map ops; Ok (o :: os, map)
  end.

Definition spec_step (f : K -> option V) (op : hash_op) : hash_out * (K -> option V) :=
  match op with
  | HSet k v => (OCode 0, fun k' => if cmp k k' then Some v else f k')
  | HDel k => (OCode 0, fun k' => if cmp k k' then None else f k')
  | HGet k d => (OVal (default d (f k)), f)
  | HIsset k => (OBool (bool_decide (is_Some (f k))), f)
  end.

Fixpoint spec_run (f : K -> option V) (ops : list hash_op) : list hash_out * (K -> option V) :=
  match ops with
  | [] => ([], f)
  | op :: ops => let '(o, f) := spec_step f op in let '(os, f) := spec_run f ops in (o :: os, f)
  end.

(** A table that stands for [f] and has grown by at most [n] insertions. *)
Record refines (n : nat) map (f : K -> option V) : Prop := {
  rf_wf : hash_wf map;
  rf_denote : forall k, denote (table map) k = f k;
  rf_fill : fill map <= Z.of_nat n;
  rf_size : mask map + 1 <= Z.max HASH_MINSIZE (3 * Z.of_nat n)
}.

Lemma hash_step_refines n map f op :
  refines n map f -> Z.of_nat n < 2 ^ 26 ->
  exists map', hash_step map op = Ok ((spec_step f op).1, map') /\ refines (S n) map' (spec_step f op).2.
Proof.
  intros [Hwf Hd Hf Hs] Hn. unfold HASH_MINSIZE in Hs.
  assert (Hmono : refines (S n) map f) by (split; try done; unfold HASH_MINSIZE; lia).
  destruct op as [k v|k|k d|k]; unfold hash_step, spec_step; cbn [fst snd].
  - destruct (hash_set_spec true map k v) as (c & map' & -> & Hwf' & Hc & Hd' & Hf' & Hs'); [done|lia|by left|].
    rewrite Hc by done. exists map'. split; [done|]. split; unfold HASH_MINSIZE; [done| |lia|lia].
    intros k'. rewrite Hd'. by rewrite Hd.
  - destruct (hash_del_spec true map k) as (c & map' & -> & Hwf' & Hc & Hd' & Hf' & Hs'); [done|lia|].
    rewrite Hc by done. exists map'. split; [done|]. split; unfold HASH_MINSIZE; [done| |lia|lia].
    intros k'. rewrite Hd'. by rewrite Hd.
  - exists map. rewrite hash_get_spec, Hd by done. done.
  - exists map. rewrite hash_isset_spec, Hd by done. done.
Qed.

Lemma hash_run_refines ops : forall n map f,
  refines n map f -> Z.of_nat (n + length ops) <= 2 ^ 26 ->
  exists map', hash_run map ops = Ok ((spec_run f ops).1, map') /\
    refines (n + length ops) map' (spec_run f ops).2.
Proof.
  induction ops as [|op ops IH]; intros n map f Hr Hn; simpl in *.
  - exists map. by rewrite Nat.add_0_r.
  - destruct (hash_step_refines n map f op) as (map1 & -> & Hr1); [done|lia|]. simpl.
    destruct (spec_step f op) as [o f'] eqn:Es. simpl in *.
    destruct (IH (S n) map1 f') as (map2 & -> & Hr2); [done|lia|]. simpl.
    destruct (spec_run f' ops) as [os f'']. simpl in *. exists map2. split; [done|].
    by rewrite <- Nat.add_succ_comm.
Qed.

Lemma hash_init_refines map : hash_init null_val true = Some map -> refines 0 map (fun _ => None).
Proof.
  intros Hi. assert (map = mk_hash 0 0 (2 ^ Z.of_nat 3 - 1)
    (replicate (Z.to_nat (2 ^ Z.of_nat 3)) (empty_slot null_val))) as -> by (by injection Hi).
  destruct (fresh_counts (Z.to_nat (2 ^ Z.of_nat 3))) as [Eu Ea].
  pose proof (slots_ok_fresh 3 ltac:(lia)). split; cbn [fill count mask table].
  - split; cbn [fill count mask table]; [done|by rewrite Eu|by rewrite Ea|lia].
  - intros k. apply denote_fresh.
  - done.
  - unfold HASH_MINSIZE. lia.
Qed.

(** C12: from a freshly initialised table, any sequence of [hash_set],
    [hash_del], [hash_get] and [hash_isset] calls of up to 2^26 calls returns
    (every loop of every call terminates), never reads outside the slot
    array, and returns exactly what the same calls on a function from keys to
    values return, whatever growths and shrinks of the table they trigger;
    afterwards the table still answers every key as that function does. *)
Theorem hash_ops_refine (ops : list hash_op) map :
  hash_init null_val true = Some map -> Z.of_nat (length ops) <= 2 ^ 26 ->
  exists map', hash_run map ops = Ok ((spec_run (fun _ => None) ops).1, map') /\
    forall k d, hash_get (Some map') k d = Ok (default d ((spec_run (fun _ => None) ops).2 k)).
Proof.
  intros Hi Hn. destruct (hash_run_refines ops 0 map (fun _ => None)) as (map' & -> & [Hwf Hd _ _]);
    [by apply hash_init_refines|done|].
  exists map'. split; [done|]. intros k d. by rewrite hash_get_spec, Hd.
Qed.

(** When the reallocation of [hash_update] finds no memory, [hash_set]
    still stores the binding (the table keeps its size and stays well formed)
    as long as one slot besides the one it fills is empty: the return code
    [-1] reports the failed growth, not a lost binding. *)
Theorem hash_set_out_of_memory map k v :
  hash_wf map -> mask map + 1 <= 2 ^ 29 -> fill map + 1 < mask map + 1 ->
  exists c map', hash_set null_val false (Some map) k v = Ok (c, Some map') /\ hash_wf map' /\
    forall k' d, hash_get (Some map') k' d =
      if cmp k k' then Ok v else hash_get (Some map) k' d.
Proof.
  intros Hwf Hb Hroom.
  destruct (hash_set_spec false map k v) as (c & map' & E & Hwf' & _ & Hd & _); [done|done|by right|].
  exists c, map'. split_and!; [done..|]. intros k' d. rewrite !hash_get_spec, Hd by done.
  by destruct (cmp k k').
Qed.

End HashCorrect.

(** Twelve insertions (the table grows from 8 to 32 slots on the way) with
    colliding keys, deletions and reads. *)
Lemma hash_ops_refine_witness :
  let ops := [HSet 3 30; HSet 11 110; HSet 19 190; HSet 27 270; HDel 11; HSet 35 350; HSet 43 430;
              HGet 11 (-1); HSet 1 10; HSet 2 20; HSet 4 40; HSet 51 510; HGet 51 (-1); HIsset 3] in
  exists map map', hash_init_direct 0 true = Some map /\
    hash_run 0 map ops = Ok ((spec_run (fun _ => None) ops).1, map') /\
    hash_get (Some map') 19 (-1) = Ok 190.
Proof.
  intros ops. eexists.
  destruct (hash_ops_refine 0 ops (mk_hash 0 0 7 (replicate 8 (empty_slot 0)))) as (map' & E & Hg);
    [reflexivity|simpl; lia|].
  exists map'. split; [reflexivity|]. split; [exact E|]. rewrite Hg. reflexivity.
Defined.

Lemma hash_set_out_of_memory_witness :
  exists c map', hash_set 0 false (Some (mk_hash 0 0 7 (replicate 8 (empty_slot 0)))) 3 30 = Ok (c, Some map') /\
    hash_get (Some map') 3 (-1) = Ok 30.
Proof.
  destruct (hash_set_out_of_memory 0 (mk_hash 0 0 7 (replicate 8 (empty_slot 0))) 3 30)
    as (c & map' & E & _ & Hg).
  - destruct (hash_init_refines (K:=Z) 0 (mk_hash 0 0 7 (replicate 8 (empty_slot 0)))) as [Hwf _ _ _];
      [reflexivity|exact Hwf].
  - simpl. lia.
  - simpl. lia.
  - exists c, map'. split; [exact E|]. by rewrite Hg.
Defined.
