(* ===== verification/FrameDist.v ===== *)
(** * FrameDist: the physical frame allocator, [src/kernel/memory/frame_dist.c]

    Physical memory is a store of 64-bit words; the free frames form a list
    threaded through their first words.  The section [Frames] translates
    [init_frames], [get_frame] and [release_frame] as they read and write that
    store; the rest of the file shows that they implement a stack of frames
    that shares no frame with what the clients hold. *)

From S2P Require Import Prelude.
#[local] Open Scope Z_scope.

(** ** The memory layout

    The symbols of the linker scripts ([src/kernel/boot/*/default.lds]): RAM
    starts at [ram_start]; the kernel image and heap lie below
    [free_memory_start]; the frames lie between [free_memory_start] and
    [memory_end].  Physical addresses fit the 56 bits of Sv39. *)
Class MemLayout : Type := {
  ram_start : Z;
  free_memory_start : Z;
  memory_end : Z;
  layout_ram : 0 <= ram_start <= free_memory_start;
  layout_free : 0 < free_memory_start < memory_end;
  layout_top : memory_end <= 2 ^ 56;
  layout_align_start : free_memory_start mod 4096 = 0;
  layout_align_end : memory_end mod 4096 = 0
}.

Definition FRAME_SIZE_EXP : Z := 12.
Definition FRAME_SIZE : Z := Z.shiftl 1 FRAME_SIZE_EXP.

(** ** Memory words *)

(** Physical memory and the global [mem_ptr] (0 is the null pointer). *)
Record fmem : Type := mk_fmem { mem_ptr : Z; words : gmap Z Z }.

Definition word (s : fmem) (a : Z) : Z := default 0 (words s !! a).

Section Frames.
Context `{L : MemLayout}.

(** An aligned 64-bit access inside RAM. *)
Definition addr_ok (a : Z) : bool := (ram_start <=? a) && (a + 8 <=? memory_end) && (a mod 8 =? 0).

Definition load (a : Z) : M fmem Z := fun s =>
  if addr_ok a then Ok (word s a, s) else Err BadAccess.
Definition store (a v : Z) : M fmem unit := fun s =>
  if addr_ok a then Ok (tt, mk_fmem (mem_ptr s) (<[a := v]> (words s))) else Err BadAccess.
Definition set_mem_ptr (p : Z) : M fmem unit := modify (fun s => mk_fmem p (words s)).

(** The [while] loop of [init_frames]. *)
Fixpoint init_frames_loop (fuel : nat) (curptr : Z) : M fmem Z :=
  match fuel with
  | O => fail OutOfFuel
  | S fuel =>
      if curptr + FRAME_SIZE <? memory_end then
        _ ← store curptr (curptr + FRAME_SIZE);
        init_frames_loop fuel (curptr + FRAME_SIZE)
      else mret curptr
  end.

Definition frame_fuel : nat := S (Z.to_nat ((memory_end - free_memory_start) / FRAME_SIZE)).

Definition init_frames : M fmem unit :=
  curptr ← init_frames_loop frame_fuel free_memory_start;
  _ ← store curptr 0;
  _ ← set_mem_ptr free_memory_start;
  _ ← lift (assert_ (curptr <? memory_end));
  _ ← lift (assert_ (memory_end <=? curptr + FRAME_SIZE));
  w ← load curptr;
  lift (assert_ (w =? 0)).

Definition get_frame : M fmem Z :=
  p ← gets mem_ptr;
  nxt ← load p;
  if nxt =? 0 then mret 0
  else _ ← set_mem_ptr nxt; mret p.

Definition release_frame (frame : Z) : M fmem unit :=
  if (frame <? free_memory_start) || (memory_end <? frame) then mret tt
  else if negb (Z.land frame 0xFFF =? 0) then mret tt
  else
    temp ← gets mem_ptr;
    _ ← set_mem_ptr frame;
    store frame temp.

End Frames.

(** ** The free list *)
Section FreeList.
Context `{L : MemLayout}.

Lemma FRAME_SIZE_eq : FRAME_SIZE = 4096.
Proof. reflexivity. Qed.

Definition is_frame (f : Z) : Prop := free_memory_start <= f < memory_end /\ f mod 4096 = 0.
Definition frame_of (a : Z) : Z := a - a mod 4096.

Definition n_frames : nat := Z.to_nat ((memory_end - free_memory_start) / 4096).
Definition nth_frame (i : nat) : Z := free_memory_start + 4096 * Z.of_nat i.
Definition all_frames : list Z := nth_frame <$> seq 0 n_frames.

(** The list threaded through the first words, from the pointer [p] to null. *)
Fixpoint chain (w : Z -> Z) (p : Z) (l : list Z) : Prop :=
  match l with
  | [] => p = 0
  | x :: l => p = x /\ chain w (w x) l
  end.

(** The allocator's invariant: [free] is the list of free frames. *)
Record free_ok (s : fmem) (free : list Z) : Prop := {
  fo_chain : chain (word s) (mem_ptr s) free;
  fo_nonempty : free <> [];
  fo_frames : Forall is_frame free;
  fo_nodup : NoDup free
}.

Lemma n_frames_eq : memory_end = free_memory_start + 4096 * Z.of_nat n_frames.
Proof.
  pose proof layout_free. pose proof layout_align_start. pose proof layout_align_end.
  unfold n_frames. rewrite Z2Nat.id by (apply Z.div_pos; lia).
  assert ((memory_end - free_memory_start) mod 4096 = 0) as E.
  { rewrite Zminus_mod, layout_align_start, layout_align_end. done. }
  pose proof (Z.div_mod (memory_end - free_memory_start) 4096). lia.
Qed.

Lemma n_frames_pos : (0 < n_frames)%nat.
Proof. pose proof n_frames_eq. pose proof layout_free. lia. Qed.

Lemma nth_frame_is_frame i : (i < n_frames)%nat -> is_frame (nth_frame i).
Proof.
  intros Hi. pose proof n_frames_eq. unfold nth_frame. split; [lia|].
  rewrite Z.mul_comm, Z.mod_add by lia. apply layout_align_start.
Qed.

Lemma is_frame_nth f : is_frame f <-> exists i, (i < n_frames)%nat /\ f = nth_frame i.
Proof.
  split; [|intros (i & Hi & ->); by apply nth_frame_is_frame].
  intros [Hb Hm]. pose proof n_frames_eq. pose proof layout_align_start.
  exists (Z.to_nat ((f - free_memory_start) / 4096)). unfold nth_frame.
  assert ((f - free_memory_start) mod 4096 = 0) as E.
  { rewrite Zminus_mod, Hm, layout_align_start. done. }
  pose proof (Z.div_mod (f - free_memory_start) 4096). lia.
Qed.

Lemma elem_of_all_frames f : f ∈ all_frames <-> is_frame f.
Proof.
  unfold all_frames. rewrite list_elem_of_fmap, is_frame_nth.
  split; intros (i & ? & ?); exists i; rewrite elem_of_seq in *; (split; [done||lia|]); (done||lia).
Qed.

Lemma all_frames_nodup : NoDup all_frames.
Proof. apply NoDup_fmap_2, NoDup_seq. intros i j. unfold nth_frame. lia. Qed.

Lemma is_frame_top f : is_frame f -> f + 4096 <= memory_end.
Proof. intros [Hb Hm]. pose proof layout_align_end as E. mlia. Qed.

Lemma is_frame_addr f : is_frame f -> addr_ok f = true.
Proof.
  intros Hf. pose proof (is_frame_top f Hf). destruct Hf as [Hb Hm]. pose proof layout_ram. unfold addr_ok.
  assert (f mod 8 = 0) as Hm8 by mlia. lia.
Qed.

Lemma is_frame_pos f : is_frame f -> 0 < f.
Proof. intros [Hb _]. pose proof layout_free. lia. Qed.

Lemma is_frame_of f : is_frame f -> frame_of f = f.
Proof. intros [_ Hm]. unfold frame_of. lia. Qed.

Lemma word_insert s p a v b : word (mk_fmem p (<[a := v]> (words s))) b = if decide (a = b) then v else word s b.
Proof. unfold word. simpl. rewrite lookup_insert. by case_decide. Qed.

Lemma wp_load a (Q : Z -> fmem -> Prop) s : addr_ok a = true -> Q (word s a) s -> wp (load a) Q s.
Proof. unfold wp, load. by intros ->. Qed.

Lemma wp_store a v (Q : unit -> fmem -> Prop) s :
  addr_ok a = true -> Q tt (mk_fmem (mem_ptr s) (<[a := v]> (words s))) -> wp (store a v) Q s.
Proof. unfold wp, store. by intros ->. Qed.

Lemma chain_ext w w' p l : (forall x, x ∈ l -> w x = w' x) -> chain w p l -> chain w' p l.
Proof.
  revert p. induction l as [|x l IH]; intros p E; [done|]. intros [-> Hc]. split; [done|].
  rewrite <- E by left. apply IH; [|done]. intros y Hy. apply E. by right.
Qed.

(** Writing inside a frame that is not free keeps the free list. *)
Lemma free_ok_store s free a v :
  free_ok s free -> frame_of a ∉ free -> free_ok (mk_fmem (mem_ptr s) (<[a := v]> (words s))) free.
Proof.
  intros [Hc Hn Hf Hd] Ha. split; try done. eapply chain_ext; [|exact Hc].
  intros x Hx. rewrite word_insert. case_decide as E; [|done]. subst. exfalso. apply Ha.
  by rewrite is_frame_of by (by eapply Forall_forall).
Qed.

(** *** [init_frames] *)

Lemma chain_frames w n k :
  (forall j, (j < k)%nat -> w (nth_frame (n + j)) = nth_frame (n + j + 1)) ->
  w (nth_frame (n + k)) = 0 -> chain w (nth_frame n) (nth_frame <$> seq n (S k)).
Proof.
  revert n. induction k as [|k IH]; intros n Hw Hlast; (split; [done|]).
  - by rewrite Nat.add_0_r in Hlast.
  - pose proof (Hw 0%nat ltac:(lia)) as E. rewrite Nat.add_0_r in E. rewrite E, Nat.add_1_r.
    apply (IH (S n)).
    + intros j Hj. rewrite Nat.add_succ_comm. apply Hw. lia.
    + by rewrite Nat.add_succ_comm.
Qed.

Lemma init_frames_loop_spec k : forall i fuel s,
  (i + k + 1 = n_frames)%nat -> (k < fuel)%nat ->
  wp (init_frames_loop fuel (nth_frame i)) (fun c s' =>
    c = nth_frame (i + k) /\
    (forall a, a < nth_frame i -> word s' a = word s a) /\
    forall j, (j < k)%nat -> word s' (nth_frame (i + j)) = nth_frame (i + j + 1)) s.
Proof.
  induction k as [|k IH]; intros i [|fuel] s Hk Hf; try lia; simpl;
    rewrite FRAME_SIZE_eq; pose proof n_frames_eq;
    assert (nth_frame i + 4096 = nth_frame (S i)) as E by (unfold nth_frame; lia).
  - destruct (Z.ltb_spec (nth_frame i + 4096) memory_end); [unfold nth_frame in *; lia|].
    apply wp_ret. rewrite Nat.add_0_r. split; [done|]. split; [done|]. lia.
  - destruct (Z.ltb_spec (nth_frame i + 4096) memory_end); [|unfold nth_frame in *; lia].
    apply wp_bind, wp_store; [apply is_frame_addr, nth_frame_is_frame; lia|].
    rewrite E. eapply wp_mono; [apply IH; lia|]. intros c s' (-> & Hlow & Hw).
    split; [f_equal; lia|]. split.
    + intros a Ha. rewrite Hlow by lia. rewrite word_insert. case_decide; [lia|done].
    + intros [|j] Hj.
      * rewrite Nat.add_0_r, Hlow by lia. rewrite word_insert, decide_True by done. f_equal; lia.
      * rewrite <- Nat.add_succ_comm, Hw by lia. done.
Qed.

Lemma init_frames_spec s : wp init_frames (fun _ s' => free_ok s' all_frames) s.
Proof.
  pose proof n_frames_pos as Hpos. pose proof n_frames_eq as Hend. destruct n_frames as [|n] eqn:En; [lia|].
  unfold init_frames. apply wp_bind. replace free_memory_start with (nth_frame 0) at 1 by (unfold nth_frame; lia).
  eapply wp_mono.
  { apply (init_frames_loop_spec n 0); [lia|]. unfold frame_fuel. rewrite FRAME_SIZE_eq.
    fold n_frames. lia. }
  intros c s1 (-> & _ & Hw). simpl in *.
  pose proof (nth_frame_is_frame n ltac:(lia)) as Hfr.
  assert (memory_end = nth_frame n + 4096) as E by (unfold nth_frame; lia).
  apply wp_bind, wp_store; [by apply is_frame_addr|]. apply wp_bind, wp_modify.
  apply wp_bind. eapply wp_lift; [|apply wp_bind; eapply wp_lift].
  { destruct (Z.ltb_spec (nth_frame n) memory_end); [done|lia]. }
  { rewrite FRAME_SIZE_eq. destruct (Z.leb_spec memory_end (nth_frame n + 4096)); [done|lia]. }
  apply wp_bind, wp_load; [by apply is_frame_addr|]. simpl.
  rewrite word_insert, decide_True by done. eapply wp_lift; [done|]. split.
  - simpl. replace free_memory_start with (nth_frame 0) by (unfold nth_frame; lia).
    unfold all_frames. rewrite En. apply chain_frames; simpl.
    + intros j Hj. rewrite word_insert, decide_False by (unfold nth_frame; lia). by apply Hw.
    + by rewrite word_insert, decide_True.
  - unfold all_frames. by rewrite En.
  - apply Forall_forall. intros f. by rewrite elem_of_all_frames.
  - apply all_frames_nodup.
Qed.

(** *** [get_frame] and [release_frame] *)

Lemma get_frame_spec s f free :
  free_ok s (f :: free) ->
  get_frame s = Ok (if decide (free = []) then (0, s) else (f, mk_fmem (default 0 (head free)) (words s))).
Proof.
  intros [[Ep Hc] _ Hf _]. apply Forall_cons in Hf as [Hff Hf].
  unfold get_frame, mbind, M_bind, gets. rewrite Ep. unfold load. rewrite is_frame_addr by done. simpl.
  destruct free as [|g free]; simpl in *.
  - by rewrite Hc.
  - destruct Hc as [-> _]. apply Forall_cons in Hf as [Hg _]. pose proof (is_frame_pos _ Hg).
    destruct (Z.eqb_spec g 0); [lia|]. done.
Qed.

Lemma get_frame_ok s f free :
  free_ok s (f :: free) -> free <> [] -> free_ok (mk_fmem (default 0 (head free)) (words s)) free.
Proof.
  intros [[_ Hc] _ Hf Hd] Hn. apply Forall_cons in Hf as [_ Hf]. apply NoDup_cons in Hd as [_ Hd].
  split; try done. simpl. destruct free as [|g free]; [done|]. simpl in *. destruct Hc as [E Hc]. done.
Qed.

Lemma land_frame f : Z.land f 0xFFF = f mod 4096.
Proof. change 0xFFF with (Z.ones 12). by rewrite Z.land_ones. Qed.

Lemma release_frame_spec s f :
  is_frame f -> release_frame f s = Ok (tt, mk_fmem f (<[f := mem_ptr s]> (words s))).
Proof.
  intros Hf. pose proof Hf as [Hb Hm]. unfold release_frame. rewrite land_frame, Hm.
  destruct (Z.ltb_spec f free_memory_start); [lia|]. destruct (Z.ltb_spec memory_end f); [lia|].
  simpl. unfold mbind, M_bind, gets, set_mem_ptr, modify, store. simpl.
  by rewrite is_frame_addr.
Qed.

Lemma release_frame_ok s f free :
  free_ok s free -> is_frame f -> f ∉ free ->
  free_ok (mk_fmem f (<[f := mem_ptr s]> (words s))) (f :: free).
Proof.
  intros Hok Hf Hn. pose proof Hok as [Hc Hne Hff Hd]. split; [|done|by constructor|by constructor].
  split; [done|]. rewrite word_insert, decide_True by done. eapply chain_ext; [|exact Hc].
  intros x Hx. rewrite word_insert, decide_False by set_solver. done.
Qed.

(** A pointer that is not the address of a frame is ignored. *)
Lemma release_frame_ignored s f :
  f < free_memory_start \/ memory_end < f \/ f mod 4096 <> 0 -> release_frame f s = Ok (tt, s).
Proof.
  intros Hc. unfold release_frame. rewrite land_frame.
  destruct (Z.ltb_spec f free_memory_start); [done|]. destruct (Z.ltb_spec memory_end f); [done|]. simpl.
  destruct (Z.eqb_spec (f mod 4096) 0); [lia|done].
Qed.

End FreeList.

(** ** The allocator as a stack of frames, with its clients *)

(** What a client does: ask for a frame, give one back, write or read a word
    of a frame it holds. *)
Inductive frame_op : Type := FGet | FRelease (f : Z) | FWrite (a v : Z) | FRead (a : Z).

Section FrameClients.
Context `{L : MemLayout}.

Definition frame_op_run (o : frame_op) : M fmem Z :=
  match o with
  | FGet => get_frame
  | FRelease f => _ ← release_frame f; mret 0
  | FWrite a v => _ ← store a v; mret 0
  | FRead a => load a
  end.

Fixpoint frame_ops_run (os : list frame_op) : M fmem (list Z) :=
  match os with
  | [] => mret []
  | o :: os => r ← frame_op_run o; rs ← frame_ops_run os; mret (r :: rs)
  end.

(** The specification: a stack of free frames whose bottom is never handed
    out, the set of frames the clients hold and what they wrote there; [None]
    when the client breaks its side (releases or accesses a frame it does not
    hold). *)
Record frame_spec : Type := mk_fspec { sfree : list Z; sheld : gset Z; sdata : gmap Z Z }.

Definition frame_op_spec (o : frame_op) (p : frame_spec) : option (Z * frame_spec) :=
  match o with
  | FGet =>
      match sfree p with
      | f :: (_ :: _) as free => Some (f, mk_fspec (tail (sfree p)) ({[f]} ∪ sheld p) (sdata p))
      | _ => Some (0, p)
      end
  | FRelease f =>
      if decide (f ∈ sheld p)
      then Some (0, mk_fspec (f :: sfree p) (sheld p ∖ {[f]}) (filter (fun kv => frame_of kv.1 <> f) (sdata p)))
      else None
  | FWrite a v =>
      if decide (a mod 8 = 0 /\ frame_of a ∈ sheld p)
      then Some (0, mk_fspec (sfree p) (sheld p) (<[a := v]> (sdata p)))
      else None
  | FRead a => v ← sdata p !! a; Some (v, p)
  end.

Fixpoint frame_ops_spec (os : list frame_op) (p : frame_spec) : option (list Z * frame_spec) :=
  match os with
  | [] => Some ([], p)
  | o :: os => '(r, p) ← frame_op_spec o p; '(rs, p) ← frame_ops_spec os p; Some (r :: rs, p)
  end.

Record frame_sim (s : fmem) (p : frame_spec) : Prop := {
  fs_free : free_ok s (sfree p);
  fs_part : forall f, is_frame f <-> f ∈ sfree p \/ f ∈ sheld p;
  fs_disj : forall f, f ∈ sfree p -> f ∉ sheld p;
  fs_data : forall a v, sdata p !! a = Some v -> word s a = v /\ a mod 8 = 0 /\ frame_of a ∈ sheld p
}.

Lemma frame_addr a : is_frame (frame_of a) -> a mod 8 = 0 -> addr_ok a = true.
Proof.
  intros Hf Hm. pose proof (is_frame_top _ Hf). destruct Hf as [Hb _]. pose proof layout_ram.
  unfold frame_of, addr_ok in *. pose proof (Z.mod_pos_bound a 4096). pose proof layout_align_end.
  assert (a + 8 <= memory_end); [mlia|lia].
Qed.

Lemma frame_op_sim s p o r p' :
  frame_sim s p -> frame_op_spec o p = Some (r, p') ->
  wp (frame_op_run o) (fun r' s' => r' = r /\ frame_sim s' p') s.
Proof.
  intros [Hfree Hpart Hdisj Hdata] Hspec. destruct o as [|f|a v|a]; simpl in *.
  - destruct (sfree p) as [|f free] eqn:Ef; [by destruct Hfree|].
    unfold wp. rewrite (get_frame_spec s f free) by done. destruct free as [|g free]; simplify_eq/=.
    + split; [done|]. split; try rewrite Ef; done.
    + split; [done|]. apply get_frame_ok in Hfree as Hfree'; [|done]. split; simpl; [done|..].
      * intros f'. rewrite Hpart, elem_of_union, elem_of_singleton, (elem_of_cons (g :: free)). tauto.
      * intros f' Hf'. rewrite elem_of_union, elem_of_singleton. intros [->|Hin].
        -- apply fo_nodup, NoDup_cons in Hfree as [? _]. done.
        -- apply (Hdisj f'); [by right|done].
      * intros a v Ha. destruct (Hdata a v Ha) as (? & ? & ?). split_and!; [done..|]. set_solver.
  - case_decide as Hin; [|done]. simplify_eq. assert (Hf : is_frame f) by (apply Hpart; auto).
    apply wp_bind. unfold wp. rewrite release_frame_spec by done. split; [done|].
    split; simpl.
    + apply release_frame_ok; [done..|]. intros Hf'. by apply (Hdisj f).
    + intros f'. rewrite Hpart, elem_of_cons, elem_of_difference, elem_of_singleton.
      destruct (decide (f' = f)); naive_solver.
    + intros f'. rewrite elem_of_cons, elem_of_difference, elem_of_singleton. naive_solver.
    + intros a v [Ha Hne]%map_lookup_filter_Some. destruct (Hdata a v Ha) as (Hw & Hm & Hh). simpl in Hne.
      rewrite word_insert, decide_False by (intros <-; by rewrite is_frame_of in Hne).
      split_and!; [done..|]. by rewrite elem_of_difference, elem_of_singleton.
  - case_decide as Hc; [|done]. destruct Hc as [Hm Hh]. simplify_eq.
    assert (Hf : is_frame (frame_of a)) by (apply Hpart; auto).
    apply wp_bind, wp_store; [by apply frame_addr|]. apply wp_ret. split; [done|]. split; simpl; try done.
    + apply free_ok_store; [done|]. intros Hf'. by apply (Hdisj (frame_of a)).
    + intros b w. rewrite word_insert, lookup_insert. case_decide; [by intros [= <-]; subst|]. apply Hdata.
  - destruct (sdata p !! a) as [v|] eqn:Ea; [|done]. simplify_eq/=.
    destruct (Hdata a r Ea) as (Hw & Hm & Hh). apply wp_load; [|by split].
    apply frame_addr; [apply Hpart; auto|done].
Qed.

Lemma frame_ops_sim os : forall s p rs p',
  frame_sim s p -> frame_ops_spec os p = Some (rs, p') ->
  wp (frame_ops_run os) (fun rs' s' => rs' = rs /\ frame_sim s' p') s.
Proof.
  induction os as [|o os IH]; intros s p rs p' Hsim Hspec; simpl in *; [by simplify_eq|].
  destruct (frame_op_spec o p) as [[r p1]|] eqn:E1; [|done]. simpl in Hspec.
  destruct (frame_ops_spec os p1) as [[rs1 p2]|] eqn:E2; [|done]. simplify_eq/=.
  apply wp_bind. eapply wp_mono; [by eapply frame_op_sim|]. intros ? s1 [-> Hs1].
  apply wp_bind. eapply wp_mono; [by eapply IH|]. intros ? s2 [-> Hs2]. by apply wp_ret.
Qed.

Definition frame_spec_init : frame_spec := mk_fspec all_frames ∅ ∅.

Lemma frame_sim_init s : free_ok s all_frames -> frame_sim s frame_spec_init.
Proof.
  intros Hok. split; simpl; [done|..].
  - intros f. rewrite elem_of_all_frames. set_solver.
  - set_solver.
  - by intros a v ?%lookup_empty_Some.
Qed.

Lemma frame_sim_perm s p : frame_sim s p -> sfree p ++ elements (sheld p) ≡ₚ all_frames.
Proof.
  intros [Hfree Hpart Hdisj _]. apply NoDup_Permutation.
  - apply NoDup_app. split_and!; [by destruct Hfree| |apply NoDup_elements].
    intros f Hf. rewrite elem_of_elements. by apply Hdisj.
  - apply all_frames_nodup.
  - intros f. by rewrite elem_of_app, elem_of_elements, elem_of_all_frames, Hpart.
Qed.

(** C13: whatever the memory holds at boot, [init_frames] followed by any
    sequence of [get_frame], [release_frame] (of frames the client holds) and
    client writes and reads in held frames runs without a fault and returns
    what a stack of frames returns: a frame is handed out only when nobody
    holds it, what a client wrote in a frame it holds reads back, and free and
    held frames together are at every point exactly the frames of memory. *)
Theorem frame_allocator_refines os s rs p :
  frame_ops_spec os frame_spec_init = Some (rs, p) ->
  exists s', (_ ← init_frames; frame_ops_run os) s = Ok (rs, s') /\
    free_ok s' (sfree p) /\ sfree p ++ elements (sheld p) ≡ₚ all_frames /\
    forall a v, sdata p !! a = Some v -> word s' a = v.
Proof.
  intros Hspec.
  assert (wp (_ ← init_frames; frame_ops_run os) (fun rs' s' => rs' = rs /\ frame_sim s' p) s) as Hwp.
  { apply wp_bind. eapply wp_mono; [apply init_frames_spec|]. intros ? s1 Hs1.
    eapply frame_ops_sim; [by apply frame_sim_init|done]. }
  apply wp_elim in Hwp as (rs' & s' & E & -> & Hsim). exists s'. split_and!; [done| | |].
  - apply Hsim.
  - by eapply frame_sim_perm.
  - intros a v Ha. by destruct (fs_data _ _ Hsim a v Ha).
Qed.

Lemma frame_gets_spec k : forall free held data,
  (k < length free)%nat ->
  frame_ops_spec (replicate k FGet) (mk_fspec free held data) =
    Some (take k free, mk_fspec (drop k free) (list_to_set (take k free) ∪ held) data).
Proof.
  induction k as [|k IH]; intros free held data Hk.
  - rewrite drop_0, take_0. simpl. by rewrite union_empty_l_L.
  - destruct free as [|f [|g free]]; simpl in *; [lia..|]. rewrite IH by (simpl; lia). simpl.
    do 3 f_equal. set_solver.
Qed.

Lemma frame_ops_spec_app os1 : forall os2 q rs1 q1 rs2 q2,
  frame_ops_spec os1 q = Some (rs1, q1) -> frame_ops_spec os2 q1 = Some (rs2, q2) ->
  frame_ops_spec (os1 ++ os2) q = Some (rs1 ++ rs2, q2).
Proof.
  induction os1 as [|o os1 IH]; intros os2 q rs1 q1 rs2 q2 E1 E2; simpl in *; [by simplify_eq|].
  destruct (frame_op_spec o q) as [[r q']|]; [|done]. simpl in *.
  destruct (frame_ops_spec os1 q') as [[rs' q'']|] eqn:E; [|done]. simplify_eq/=.
  by rewrite (IH os2 q' rs' q1 rs2 q2).
Qed.

(** C36: the allocator hands out every frame of memory but the last one, in
    the order of their addresses, and then returns null for ever: one frame is
    lost to the end mark of the list. *)
Theorem frame_exhaustion s k :
  exists s', (_ ← init_frames; frame_ops_run (replicate (n_frames - 1) FGet ++ replicate k FGet)) s =
    Ok (take (n_frames - 1) all_frames ++ replicate k 0, s').
Proof.
  pose proof n_frames_pos. assert (length all_frames = n_frames) as Hlen.
  { unfold all_frames. by rewrite length_fmap, length_seq. }
  set (p := mk_fspec (drop (n_frames - 1) all_frames) (list_to_set (take (n_frames - 1) all_frames) ∪ ∅) ∅).
  assert (Hlast : exists f, sfree p = [f]).
  { assert (length (sfree p) = 1)%nat as E by (simpl; rewrite length_drop; lia).
    destruct (sfree p) as [|f [|]]; [done|by exists f|done]. }
  assert (Hdry : forall j, frame_ops_spec (replicate j FGet) p = Some (replicate j 0, p)).
  { destruct Hlast as [f Ef]. induction j as [|j IH]; [done|].
    change (replicate (S j) FGet) with (FGet :: replicate j FGet).
    unfold frame_ops_spec; fold frame_ops_spec. unfold frame_op_spec. rewrite Ef.
    change (('(rs, p0) ← frame_ops_spec (replicate j FGet) p; Some (0 :: rs, p0)) = Some (replicate (S j) 0, p)).
    by rewrite IH. }
  assert (wp (_ ← init_frames; frame_ops_run (replicate (n_frames - 1) FGet ++ replicate k FGet))
    (fun rs' s' => rs' = take (n_frames - 1) all_frames ++ replicate k 0 /\ frame_sim s' p) s) as Hwp.
  { apply wp_bind. eapply wp_mono; [apply init_frames_spec|]. intros ? s1 Hs1.
    eapply frame_ops_sim; [by apply frame_sim_init|]. eapply frame_ops_spec_app; [|apply Hdry].
    apply frame_gets_spec. lia. }
  apply wp_elim in Hwp as (rs' & s' & E & -> & _). by exists s'.
Qed.

(** [release_frame] accepts the address just past the end of memory (its
    bound test is not strict) and then writes outside memory, whatever the
    state; every other pointer that is not a frame is ignored. *)
Theorem release_frame_past_end s f :
  release_frame memory_end s = Err BadAccess /\
  (f <> memory_end -> ~ is_frame f -> release_frame f s = Ok (tt, s)).
Proof.
  split.
  - unfold release_frame. rewrite land_frame, layout_align_end. pose proof layout_free.
    destruct (Z.ltb_spec memory_end free_memory_start); [lia|].
    destruct (Z.ltb_spec memory_end memory_end); [lia|]. simpl.
    unfold mbind, M_bind, gets, set_mem_ptr, modify, store, addr_ok. simpl.
    destruct (Z.leb_spec (memory_end + 8) memory_end); [lia|]. by rewrite andb_false_r.
  - intros Hne Hnf. apply release_frame_ignored. unfold is_frame in Hnf. lia.
Qed.

End FrameClients.

(** A machine with eight frames. *)
#[local] Program Instance tiny_layout : MemLayout :=
  {| ram_start := 0x80000000; free_memory_start := 0x80010000; memory_end := 0x80018000 |}.
Solve Obligations with done.

Lemma frame_allocator_refines_witness :
  let os := [FGet; FGet; FWrite 0x80010008 7; FRelease 0x80011000; FRead 0x80010008; FGet; FGet] in
  exists s', (_ ← init_frames; frame_ops_run os) (mk_fmem 0 ∅) =
    Ok ([0x80010000; 0x80011000; 0; 0; 7; 0x80011000; 0x80012000], s').
Proof.
  intros os.
  assert (fst <$> frame_ops_spec os frame_spec_init =
    Some [0x80010000; 0x80011000; 0; 0; 7; 0x80011000; 0x80012000]) as Hout by (vm_compute; reflexivity).
  destruct (frame_ops_spec os frame_spec_init) as [[rs p]|] eqn:E; [|discriminate Hout].
  destruct (frame_allocator_refines os (mk_fmem 0 ∅) rs p E) as (s' & Hrun & _).
  exists s'. rewrite Hrun. injection Hout as ->. reflexivity.
Defined.

Lemma release_frame_past_end_witness :
  release_frame 0x80018000 (mk_fmem 0 ∅) = Err BadAccess /\
  release_frame 0x80010008 (mk_fmem 0 ∅) = Ok (tt, mk_fmem 0 ∅).
Proof.
  destruct (release_frame_past_end (mk_fmem 0 ∅) 0x80010008) as [E1 E2].
  split; [exact E1|]. apply E2; [done|]. by intros [_ ?].
Defined.
