(* ===== verification/Pages.v ===== *)
(** * Pages: page tables, [src/kernel/memory/pages.c] and [virtual_memory.c]

    Page-table entries are the packed bit fields of [pages.h], stored as
    64-bit words of physical memory.  The file translates the setters,
    [configure_page_entry], [create_page_table], [init_directory] and
    [set_up_virtual_memory], and checks the tables they build against the
    Sv39 address translation of the RISC-V privileged architecture. *)

From S2P Require Import Prelude.
From S2P Require Import FrameDist.
#[local] Open Scope Z_scope.

(** ** Packed bit fields *)

(** Fields of given widths, least significant first. *)
Fixpoint pack (fields : list (Z * Z)) : Z :=
  match fields with
  | [] => 0
  | (width, v) :: fields => v + 2 ^ width * pack fields
  end.
Fixpoint unpack (widths : list Z) (w : Z) : list Z :=
  match widths with
  | [] => []
  | width :: widths => w mod 2 ^ width :: unpack widths (w / 2 ^ width)
  end.

Definition fits (f : Z * Z) : Prop := 0 <= f.1 /\ 0 <= f.2 < 2 ^ f.1.

Lemma unpack_pack fields : Forall fits fields -> unpack fields.*1 (pack fields) = fields.*2.
Proof.
  induction 1 as [|[width v] fields [Hw Hv] _ IH]; simpl in *; [done|].
  assert (0 < 2 ^ width) by lia. f_equal.
  - by rewrite Z.mul_comm, Z.mod_add, Z.mod_small by lia.
  - by rewrite Z.mul_comm, Z.div_add, Z.div_small, Z.add_0_l by lia.
Qed.

Lemma pack_unpack widths w :
  Forall (Z.le 0) widths -> 0 <= w < 2 ^ foldr Z.add 0 widths -> pack (zip widths (unpack widths w)) = w.
Proof.
  intros Hf. revert w. induction Hf as [|width widths Hw Hws IH]; intros w Hb; simpl in *; [lia|].
  assert (0 <= foldr Z.add 0 widths) as Hpos by (clear - Hws; induction Hws; simpl; lia).
  rewrite Z.pow_add_r in Hb by lia. rewrite IH.
  - pose proof (Z.div_mod w (2 ^ width)). lia.
  - split; [apply Z.div_pos; lia|]. apply Z.div_lt_upper_bound; lia.
Qed.

Lemma pack_range fields : Forall fits fields -> 0 <= pack fields < 2 ^ foldr Z.add 0 fields.*1.
Proof.
  induction 1 as [|[width v] fields [Hw Hv] Hf IH]; csimpl in *; [lia|].
  assert (0 <= foldr Z.add 0 fields.*1) as Hpos.
  { clear - Hf. induction Hf as [|[] ? [] ? ?]; csimpl in *; lia. }
  rewrite Z.pow_add_r by lia. nia.
Qed.

(** ** Page-table entries *)

Inductive page_size_t : Type := GIGA | MEGA | KILO.

(** [page_table_entry]; each field has the width of its declaration. *)
Record page_table_entry : Type := mk_pte {
  valid : Z; read : Z; write : Z; exec : Z; resU : Z; global : Z; resA : Z; resD : Z;
  rsw : Z; ppn0 : Z; ppn1 : Z; ppn2 : Z; reserved : Z; pbmt : Z; n : Z
}.

Definition pte_fields (p : page_table_entry) : list (Z * Z) :=
  [(1, valid p); (1, read p); (1, write p); (1, exec p); (1, resU p); (1, global p); (1, resA p);
   (1, resD p); (2, rsw p); (9, ppn0 p); (9, ppn1 p); (26, ppn2 p); (7, reserved p); (2, pbmt p); (1, n p)].
Definition pte_widths : list Z := [1; 1; 1; 1; 1; 1; 1; 1; 2; 9; 9; 26; 7; 2; 1].

Definition word_of_pte (p : page_table_entry) : Z := pack (pte_fields p).
Definition pte_of_word (w : Z) : page_table_entry :=
  match unpack pte_widths w with
  | [v; r; wr; x; u; g; a; d; rs; p0; p1; p2; rv; pb; n'] => mk_pte v r wr x u g a d rs p0 p1 p2 rv pb n'
  | _ => mk_pte 0 0 0 0 0 0 0 0 0 0 0 0 0 0 0
  end.

Definition b2z (b : bool) : Z := if b then 1 else 0.

Definition set_valid (p : page_table_entry) : page_table_entry :=
  mk_pte 1 (read p) (write p) (exec p) 0 (global p) 0 0 (rsw p) (ppn0 p) (ppn1 p) (ppn2 p) 0 (pbmt p) (n p).
Definition set_invalid (p : page_table_entry) : page_table_entry :=
  mk_pte 0 (read p) (write p) (exec p) (resU p) (global p) (resA p) (resD p) (rsw p)
    (ppn0 p) (ppn1 p) (ppn2 p) (reserved p) (pbmt p) (n p).
Definition set_read (p : page_table_entry) (r : bool) : page_table_entry :=
  mk_pte (valid p) (b2z r) (write p) (exec p) (resU p) (global p) (resA p) (resD p) (rsw p)
    (ppn0 p) (ppn1 p) (ppn2 p) (reserved p) (pbmt p) (n p).
Definition set_write (p : page_table_entry) (w : bool) : page_table_entry :=
  mk_pte (valid p) (read p) (b2z w) (exec p) (resU p) (global p) (resA p) (resD p) (rsw p)
    (ppn0 p) (ppn1 p) (ppn2 p) (reserved p) (pbmt p) (n p).
Definition set_exec (p : page_table_entry) (x : bool) : page_table_entry :=
  mk_pte (valid p) (read p) (write p) (b2z x) (resU p) (global p) (resA p) (resD p) (rsw p)
    (ppn0 p) (ppn1 p) (ppn2 p) (reserved p) (pbmt p) (n p).
Definition set_user_mode (p : page_table_entry) (u : bool) : page_table_entry :=
  mk_pte (valid p) (read p) (write p) (exec p) (b2z u) (global p) (resA p) (resD p) (rsw p)
    (ppn0 p) (ppn1 p) (ppn2 p) (reserved p) (pbmt p) (n p).
Definition put_ppn (p : page_table_entry) (p0 p1 p2 : Z) : page_table_entry :=
  mk_pte (valid p) (read p) (write p) (exec p) (resU p) (global p) (resA p) (resD p) (rsw p)
    p0 p1 p2 (reserved p) (pbmt p) (n p).

(** The setters of the three parts of the page number, with their assertions. *)
Definition set_ppn0 (p : page_table_entry) (ppn : Z) : res page_table_entry :=
  _ ← assert_ (ppn <? 0x1FF); Ok (put_ppn p (Z.land ppn 0x1FF) (ppn1 p) (ppn2 p)).
Definition set_ppn1 (p : page_table_entry) (ppn : Z) : res page_table_entry :=
  _ ← assert_ (ppn <? 0x1FF); Ok (put_ppn p (ppn0 p) (Z.land ppn 0x1FF) (ppn2 p)).
Definition set_ppn2 (p : page_table_entry) (ppn : Z) : res page_table_entry :=
  _ ← assert_ (ppn <? 0x3FFFFFF); Ok (put_ppn p (ppn0 p) (ppn1 p) (Z.land ppn 0x3FFFFFF)).

Definition nz (x : Z) : bool := negb (x =? 0).

Definition check_validity (p : page_table_entry) : bool :=
  nz (valid p) && negb (nz (resA p) || nz (resD p) || nz (resU p) || nz (reserved p)).
Definition is_leaf (p : page_table_entry) : bool := nz (read p) || nz (exec p).

Definition PPN0_SIZE : Z := 9.
Definition PPN1_SIZE : Z := 9.
Definition PPN0_MASK : Z := 0x1FF.
Definition PPN1_MASK : Z := 0x1FF.
Definition PPN2_MASK : Z := 0x3FFFFFF.

(** [link_pte]: the three parts of the page number of [address]. *)
Definition link_pte (p : page_table_entry) (address : Z) : page_table_entry :=
  let a0 := Z.shiftr address FRAME_SIZE_EXP in
  let a1 := Z.shiftr a0 PPN0_SIZE in
  let a2 := Z.shiftr a1 PPN1_SIZE in
  put_ppn p (Z.land a0 PPN0_MASK) (Z.land a1 PPN1_MASK) (Z.land a2 PPN2_MASK).

(** The work of [configure_page_entry] on the entry itself. *)
Definition configured (p : page_table_entry) (address : Z) (r w x u : bool) (sz : page_size_t) :
    res page_table_entry :=
  let p := set_user_mode (set_exec (set_write (set_read (set_valid p) r) w) x) u in
  match sz with
  | GIGA => p ← set_ppn0 (link_pte p address) 0; set_ppn1 p 0
  | MEGA => set_ppn0 (link_pte p address) 0
  | KILO => Ok (link_pte p address)
  end.

Section Tables.
Context `{L : MemLayout}.

Definition PT_SIZE : Z := 512.

(** [configure_page_entry], on the entry stored at address [pte]. *)
Definition configure_page_entry (pte address : Z) (r w x u : bool) (sz : page_size_t) : M fmem unit :=
  old ← load pte;
  p ← lift (configured (pte_of_word old) address r w x u sz);
  store pte (word_of_pte p).

(** [memset(p, 0, 8 * k)] and [memcpy(dst, src, 8 * k)], word by word. *)
Fixpoint memset_words (k : nat) (p : Z) : M fmem unit :=
  match k with
  | O => mret tt
  | S k => _ ← store p 0; memset_words k (p + 8)
  end.
Fixpoint memcpy_words (k : nat) (dst src : Z) : M fmem unit :=
  match k with
  | O => mret tt
  | S k => v ← load src; _ ← store dst v; memcpy_words k (dst + 8) (src + 8)
  end.
Definition FRAME_WORDS : nat := Z.to_nat (FRAME_SIZE / 8).

Definition create_page_table : M fmem Z :=
  ptr ← get_frame;
  if ptr =? 0 then mret 0
  else _ ← memset_words FRAME_WORDS ptr; mret ptr.

(** The address of entry [i] of the table at [table]. *)
Definition pte_at (table i : Z) : Z := table + 8 * i.

Definition KERNEL_SPACE : Z := 0.
Definition USERSPACE : Z := 1.
Definition VRAM_SPACE_1 : Z := 2.
Definition VRAM_SPACE_2 : Z := 3.
Definition KERNEL_SPACE_ADDRESS : Z := 0x0000000.
Definition USERSPACE_ADDRESS : Z := 0x40000000.
Definition VRAM_SPACE_1_ADDRESS : Z := 0x80000000.
Definition VRAM_SPACE_2_ADDRESS : Z := 0xc0000000.

(** [init_directory]; [virt] is the build option [VIRTMACHINE]. *)
Definition init_directory (virt : bool) : M fmem Z :=
  directory_ptr ← create_page_table;
  if directory_ptr =? 0 then mret 0
  else
    _ ← (if virt then
      _ ← configure_page_entry (pte_at directory_ptr KERNEL_SPACE) KERNEL_SPACE_ADDRESS true true true false GIGA;
      configure_page_entry (pte_at directory_ptr VRAM_SPACE_1) VRAM_SPACE_1_ADDRESS true true true false GIGA
    else
      _ ← configure_page_entry (pte_at directory_ptr 0) KERNEL_SPACE_ADDRESS true true true false GIGA;
      _ ← configure_page_entry (pte_at directory_ptr USERSPACE) USERSPACE_ADDRESS false false false true GIGA;
      _ ← configure_page_entry (pte_at directory_ptr VRAM_SPACE_1) VRAM_SPACE_1_ADDRESS true true false false GIGA;
      configure_page_entry (pte_at directory_ptr VRAM_SPACE_2) VRAM_SPACE_2_ADDRESS true true false false GIGA);
    mret directory_ptr.

(** The kernel's view of virtual memory: the globals [kernel_base_page_table]
    and the [satp] register. *)
Record vmem : Type := mk_vmem { frames : fmem; kernel_base_page_table : Z; satp : Z }.

Definition set_up_virtual_memory (virt : bool) : M vmem Z := fun s =>
  '(table, m) ← init_directory virt (frames s);
  if table =? 0 then Ok (-1, mk_vmem m table (satp s))
  else Ok (0, mk_vmem m table (Z.lor 0x8000000000000000 (Z.shiftr table 12))).

End Tables.

(** ** The encoding of entries *)

Definition pte_wf (p : page_table_entry) : Prop := Forall fits (pte_fields p).

Lemma pte_of_word_of_pte p : pte_wf p -> pte_of_word (word_of_pte p) = p.
Proof.
  intros Hp. unfold pte_of_word, word_of_pte.
  change pte_widths with (pte_fields p).*1. rewrite unpack_pack by done. by destruct p.
Qed.

Lemma pte_fields_of_word w : pte_fields (pte_of_word w) = zip pte_widths (unpack pte_widths w).
Proof. reflexivity. Qed.

Lemma word_of_pte_of_word w : 0 <= w < 2 ^ 64 -> word_of_pte (pte_of_word w) = w.
Proof.
  intros Hw. unfold word_of_pte. rewrite pte_fields_of_word. apply pack_unpack; [|done].
  repeat constructor; lia.
Qed.

Lemma unpack_fits widths w : Forall (Z.le 0) widths -> Forall fits (zip widths (unpack widths w)).
Proof.
  intros Hf. revert w. induction Hf as [|width widths Hw Hf IH]; intros w; simpl; constructor; [|done].
  split; simpl; [done|]. apply Z.mod_pos_bound. lia.
Qed.

Lemma pte_of_word_wf w : pte_wf (pte_of_word w).
Proof. unfold pte_wf. rewrite pte_fields_of_word. apply unpack_fits. repeat constructor; lia. Qed.

Lemma word_of_pte_range p : pte_wf p -> 0 <= word_of_pte p < 2 ^ 64.
Proof. intros Hp. apply (pack_range (pte_fields p) Hp). Qed.

(** [find_pte_adress] of [src/kernel/process/process_memory.c]; the products
    of the bit fields stay within their C types. *)
Definition GIGA_SIZE : Z := 0x40000000.
Definition MEGA_SIZE : Z := 0x200000.
Definition KILO_SIZE : Z := 0x1000.
Definition find_pte_adress (p : page_table_entry) : Z :=
  ppn2 p * GIGA_SIZE + ppn1 p * MEGA_SIZE + ppn0 p * KILO_SIZE.

Lemma land_mask_mod x k : 0 <= k -> Z.land x (2 ^ k - 1) = x mod 2 ^ k.
Proof. intros Hk. rewrite <- Z.land_ones, Z.ones_equiv by done. done. Qed.

(** The parts of the page number as quotients. *)
Lemma link_pte_parts p a :
  ppn0 (link_pte p a) = a / 4096 mod 512 /\ ppn1 (link_pte p a) = a / 4096 / 512 mod 512 /\
  ppn2 (link_pte p a) = a / 4096 / 512 / 512 mod 2 ^ 26.
Proof.
  unfold link_pte. simpl. change PPN0_MASK with (2 ^ 9 - 1). change PPN1_MASK with (2 ^ 9 - 1).
  change PPN2_MASK with (2 ^ 26 - 1). rewrite !land_mask_mod, !Z.shiftr_div_pow2 by done. done.
Qed.

Lemma find_link_pte p a : 0 <= a < 2 ^ 56 -> a mod 4096 = 0 -> find_pte_adress (link_pte p a) = a.
Proof.
  intros Ha Hm. destruct (link_pte_parts p a) as (E0 & E1 & E2). unfold find_pte_adress.
  rewrite E0, E1, E2. unfold GIGA_SIZE, MEGA_SIZE, KILO_SIZE.
  rewrite (Z.mod_small (a / 4096 / 512 / 512)) by mlia. mlia.
Qed.

(** What [configure_page_entry] leaves in an entry. *)
Definition entry (p : page_table_entry) (p0 p1 p2 : Z) (r w x u : bool) : page_table_entry :=
  mk_pte 1 (b2z r) (b2z w) (b2z x) (b2z u) (global p) 0 0 (rsw p) p0 p1 p2 0 (pbmt p) (n p).

Definition kilo_entry (p : page_table_entry) (a : Z) (r w x u : bool) : page_table_entry :=
  let q := link_pte p a in entry p (ppn0 q) (ppn1 q) (ppn2 q) r w x u.
Definition giga_entry (p : page_table_entry) (a : Z) (r w x u : bool) : page_table_entry :=
  entry p 0 0 (ppn2 (link_pte p a)) r w x u.

Lemma configured_kilo p a r w x u : configured p a r w x u KILO = Ok (kilo_entry p a r w x u).
Proof. reflexivity. Qed.
Lemma configured_giga p a r w x u : configured p a r w x u GIGA = Ok (giga_entry p a r w x u).
Proof. reflexivity. Qed.
Lemma configured_mega p a r w x u : configured p a r w x u MEGA =
  Ok (entry p 0 (ppn1 (link_pte p a)) (ppn2 (link_pte p a)) r w x u).
Proof. reflexivity. Qed.

Lemma entry_wf p p0 p1 p2 r w x u :
  pte_wf p -> 0 <= p0 < 2 ^ 9 -> 0 <= p1 < 2 ^ 9 -> 0 <= p2 < 2 ^ 26 -> pte_wf (entry p p0 p1 p2 r w x u).
Proof.
  unfold pte_wf, pte_fields. rewrite !Forall_cons. intros Hp H0 H1 H2. simpl.
  unfold fits in *; simpl in *; unfold b2z. repeat case_match; split_and!; try done; try lia.
Qed.

Lemma kilo_entry_wf p a r w x u : pte_wf p -> pte_wf (kilo_entry p a r w x u).
Proof.
  intros Hp. unfold kilo_entry. destruct (link_pte_parts p a) as (-> & -> & ->).
  apply entry_wf; [done|apply Z.mod_pos_bound; lia..].
Qed.
Lemma giga_entry_wf p a r w x u : pte_wf p -> pte_wf (giga_entry p a r w x u).
Proof.
  intros Hp. unfold giga_entry. destruct (link_pte_parts p a) as (_ & _ & ->).
  apply entry_wf; [done|lia|lia|apply Z.mod_pos_bound; lia].
Qed.
#[export] Hint Resolve pte_of_word_wf kilo_entry_wf giga_entry_wf : xinul.

Lemma find_kilo_entry p a r w x u :
  0 <= a < 2 ^ 56 -> a mod 4096 = 0 -> find_pte_adress (kilo_entry p a r w x u) = a.
Proof. intros Ha Hm. by apply (find_link_pte p a). Qed.

(** ** Sv39 address translation

    The walk the processor does from a root table (privileged architecture,
    4.3.2): [None] is a page fault, [Some (pa, leaf)] the physical address and
    the leaf entry whose permissions apply. *)

Definition vpn (i va : Z) : Z := (va / 2 ^ (12 + 9 * i)) mod 512.

Definition pte_bad (p : page_table_entry) : bool := negb (nz (valid p)) || (negb (nz (read p)) && nz (write p)).

Definition sv39_walk (w : Z -> Z) (root va : Z) : option (Z * page_table_entry) :=
  let p2 := pte_of_word (w (pte_at root (vpn 2 va))) in
  if pte_bad p2 then None
  else if is_leaf p2 then
    if nz (ppn1 p2) || nz (ppn0 p2) then None else Some (ppn2 p2 * 2 ^ 30 + va mod 2 ^ 30, p2)
  else
    let p1 := pte_of_word (w (pte_at (find_pte_adress p2) (vpn 1 va))) in
    if pte_bad p1 then None
    else if is_leaf p1 then
      if nz (ppn0 p1) then None
      else Some (ppn2 p1 * 2 ^ 30 + ppn1 p1 * 2 ^ 21 + va mod 2 ^ 21, p1)
    else
      let p0 := pte_of_word (w (pte_at (find_pte_adress p1) (vpn 0 va))) in
      if pte_bad p0 || negb (is_leaf p0) then None
      else Some (find_pte_adress p0 + va mod 2 ^ 12, p0).

(** Mode and root that a [satp] value selects. *)
Definition satp_mode (v : Z) : Z := v / 2 ^ 60.
Definition satp_root (v : Z) : Z := (v mod 2 ^ 44) * 4096.

(** ** Tables in memory *)
Section TablesCorrect.
Context `{L : MemLayout}.
Implicit Types (s : fmem).

Lemma pte_at_frame f i : is_frame f -> 0 <= i < 512 -> frame_of (pte_at f i) = f.
Proof. intros [_ Hm] Hi. unfold frame_of, pte_at. mlia. Qed.

Lemma pte_at_addr f i : is_frame f -> 0 <= i < 512 -> addr_ok (pte_at f i) = true.
Proof.
  intros Hf Hi. apply frame_addr; [by rewrite pte_at_frame|]. destruct Hf as [_ Hm]. unfold pte_at. mlia.
Qed.

Lemma pte_at_inj f g i j :
  is_frame f -> is_frame g -> 0 <= i < 512 -> 0 <= j < 512 -> pte_at f i = pte_at g j -> f = g /\ i = j.
Proof. intros [_ Hf] [_ Hg] Hi Hj. unfold pte_at. intros E. split; mlia. Qed.

(** Entry [i] of the table in frame [f]. *)
Definition table_entry s f i : page_table_entry := pte_of_word (word s (pte_at f i)).

Lemma wp_configure a addr r w x u sz p (Q : unit -> fmem -> Prop) s :
  addr_ok a = true -> configured (pte_of_word (word s a)) addr r w x u sz = Ok p ->
  Q tt (mk_fmem (mem_ptr s) (<[a := word_of_pte p]> (words s))) ->
  wp (configure_page_entry a addr r w x u sz) Q s.
Proof.
  intros Ha Hc HQ. unfold configure_page_entry. apply wp_bind, wp_load; [done|].
  apply wp_bind. eapply wp_lift; [done|]. by apply wp_store.
Qed.

Lemma memset_words_spec k : forall f i s,
  is_frame f -> i + Z.of_nat k <= 512 -> 0 <= i ->
  wp (memset_words k (pte_at f i)) (fun _ s' => mem_ptr s' = mem_ptr s /\
    (forall j, i <= j < i + Z.of_nat k -> word s' (pte_at f j) = 0) /\
    (forall a, (forall j, i <= j < i + Z.of_nat k -> a <> pte_at f j) -> word s' a = word s a)) s.
Proof.
  induction k as [|k IH]; intros f i s Hf Hk Hi; simpl.
  - apply wp_ret. split; [done|]. split; [lia|done].
  - apply wp_bind, wp_store; [apply pte_at_addr; [done|lia]|].
    replace (pte_at f i + 8) with (pte_at f (i + 1)) by (unfold pte_at; lia).
    eapply wp_mono; [apply IH; [done|lia|lia]|]. intros [] s' (Hp & Hz & Ho). split; [done|]. split.
    + intros j Hj. destruct (decide (j = i)) as [->|Hne].
      * rewrite Ho; [by rewrite word_insert, decide_True|]. intros j' Hj' E. unfold pte_at in E. lia.
      * apply Hz. lia.
    + intros a Ha. rewrite Ho by (intros j' Hj'; apply Ha; lia). rewrite word_insert, decide_False; [done|].
      intros <-. apply (Ha i); [lia|done].
Qed.

(** Only frame [f] changes. *)
Definition only_in (f : Z) (s s' : fmem) : Prop := forall a, frame_of a <> f -> word s' a = word s a.

Lemma free_ok_only_in f free s s' :
  free_ok s free -> mem_ptr s' = mem_ptr s -> only_in f s s' -> f ∉ free -> free_ok s' free.
Proof.
  intros [Hc Hn Hf Hd] Hp Ho Hfree. split; try done. rewrite Hp. eapply chain_ext; [|exact Hc].
  intros x Hx. symmetry. apply Ho. rewrite is_frame_of by (by eapply Forall_forall). by intros ->.
Qed.

Lemma memset_frame_spec f s :
  is_frame f ->
  wp (memset_words FRAME_WORDS f) (fun _ s' => mem_ptr s' = mem_ptr s /\ only_in f s s' /\
    forall j, 0 <= j < 512 -> word s' (pte_at f j) = 0) s.
Proof.
  intros Hf. replace f with (pte_at f 0) at 1 by (unfold pte_at; lia).
  eapply wp_mono; [apply (memset_words_spec 512 f 0); [done|lia|lia]|].
  intros [] s' (Hp & Hz & Ho). split_and!; [done| |intros j Hj; apply Hz; lia].
  intros a Ha. apply Ho. intros j Hj ->. apply Ha. apply pte_at_frame; [done|lia].
Qed.

Lemma create_page_table_spec s f free :
  free_ok s (f :: free) ->
  wp create_page_table (fun t s' =>
    if decide (free = []) then t = 0 /\ s' = s
    else t = f /\ is_frame f /\ f ∉ free /\ free_ok s' free /\ only_in f s s' /\
      forall j, 0 <= j < 512 -> word s' (pte_at f j) = 0) s.
Proof.
  intros Hok. unfold create_page_table. apply wp_bind. unfold wp at 1. rewrite (get_frame_spec s f free) by done.
  pose proof (fo_frames _ _ Hok) as [Hf _]%Forall_cons. pose proof (fo_nodup _ _ Hok) as [Hnin _]%NoDup_cons.
  case_decide as Hn; [done|]. pose proof (is_frame_pos f Hf). destruct (Z.eqb_spec f 0); [lia|].
  apply wp_bind. eapply wp_mono; [by apply memset_frame_spec|]. intros [] s' (Hp & Ho & Hz). apply wp_ret.
  split_and!; [done..| |done|done]. apply get_frame_ok in Hok; [|done].
  eapply free_ok_only_in; [exact Hok|done|done|done].
Qed.

(** One more entry configured in the table of frame [f]. *)
Lemma wp_configure_table f i addr r w x u sz p (Q : unit -> fmem -> Prop) s :
  is_frame f -> 0 <= i < 512 ->
  configured (table_entry s f i) addr r w x u sz = Ok p -> pte_wf p ->
  (forall s', mem_ptr s' = mem_ptr s -> only_in f s s' -> table_entry s' f i = p ->
    (forall j, 0 <= j < 512 -> j <> i -> word s' (pte_at f j) = word s (pte_at f j)) -> Q tt s') ->
  wp (configure_page_entry (pte_at f i) addr r w x u sz) Q s.
Proof.
  intros Hf Hi Hc Hwf HQ. eapply wp_configure; [by apply pte_at_addr|exact Hc|]. apply HQ.
  - done.
  - intros a Ha. rewrite word_insert, decide_False; [done|]. intros <-. apply Ha. by apply pte_at_frame.
  - unfold table_entry. rewrite word_insert, decide_True by done. by apply pte_of_word_of_pte.
  - intros j Hj Hne. rewrite word_insert, decide_False; [done|]. intros E.
    apply (pte_at_inj f f) in E as [_ E]; [lia|done..].
Qed.

(** A giga leaf entry translates its whole gigabyte. *)
Lemma sv39_walk_giga s f va p a r w x u :
  table_entry s f (vpn 2 va) = giga_entry p a r w x u -> r = true ->
  sv39_walk (word s) f va = Some (ppn2 (link_pte p a) * 2 ^ 30 + va mod 2 ^ 30, giga_entry p a r w x u).
Proof.
  intros E ->. unfold sv39_walk. fold (table_entry s f (vpn 2 va)). rewrite E. unfold pte_bad, is_leaf. simpl.
  done.
Qed.

Lemma sv39_walk_invalid s f va : word s (pte_at f (vpn 2 va)) = 0 -> sv39_walk (word s) f va = None.
Proof. intros E. unfold sv39_walk. by rewrite E. Qed.

Lemma vpn2_giga va : 0 <= va < 2 ^ 38 -> vpn 2 va = va / 2 ^ 30 /\ 0 <= vpn 2 va < 512.
Proof. intros Hva. unfold vpn. change (12 + 9 * 2) with 30. split; mlia. Qed.

Lemma giga_identity p a va :
  0 <= va < 2 ^ 38 -> va / 2 ^ 30 * 2 ^ 30 = a -> ppn2 (link_pte p a) * 2 ^ 30 + va mod 2 ^ 30 = va.
Proof. intros Hva <-. destruct (link_pte_parts p (va / 2 ^ 30 * 2 ^ 30)) as (_ & _ & ->). mlia. Qed.

(** The access the kernel directory gives to each gigabyte: [None] no access,
    [Some x] read and write, and execute when [x]. *)
Definition kernel_giga (virt : bool) (g : Z) : option bool :=
  if g =? 0 then Some true else if g =? 2 then Some virt
  else if g =? 3 then (if virt then None else Some false) else None.

(** The entries the directory is filled with. *)
Definition directory_entry (virt : bool) (g : Z) : option page_table_entry :=
  let zero := pte_of_word 0 in
  if (g =? 1) && negb virt then Some (giga_entry zero 0x40000000 false false false true)
  else (fun x => giga_entry zero (g * 2 ^ 30) true true x false) <$>
    (if (g =? 2) && virt then Some true else kernel_giga virt g).

Lemma init_directory_spec virt s f free :
  free_ok s (f :: free) -> free <> [] ->
  wp (init_directory virt) (fun t s' => t = f /\ is_frame f /\ free_ok s' free /\ only_in f s s' /\
    forall g, 0 <= g < 512 -> match directory_entry virt g with
      | Some p => table_entry s' f g = p
      | None => word s' (pte_at f g) = 0 end) s.
Proof.
  intros Hok Hn. unfold init_directory. apply wp_bind. eapply wp_mono; [by apply create_page_table_spec|].
  intros t s1. cbn beta. rewrite decide_False by done. intros (-> & Hf & Hnin & Hok1 & Ho1 & Hz).
  pose proof (is_frame_pos f Hf). destruct (Z.eqb_spec f 0); [lia|]. apply wp_bind.
  assert (He : forall s' j, word s' (pte_at f j) = 0 -> table_entry s' f j = pte_of_word 0)
    by (intros s' j E; unfold table_entry; by rewrite E).
  assert (Hfin : forall s', mem_ptr s' = mem_ptr s1 -> only_in f s1 s' ->
    free_ok s' free /\ only_in f s s').
  { intros s' Hp Ho. split; [by eapply free_ok_only_in|]. intros a Ha. rewrite Ho by done. by apply Ho1. }
  assert (Hstep : forall i a r w x u s' (Q : unit -> fmem -> Prop), 0 <= i < 512 ->
    word s' (pte_at f i) = 0 -> mem_ptr s' = mem_ptr s1 -> only_in f s1 s' ->
    (forall s'', mem_ptr s'' = mem_ptr s1 -> only_in f s1 s'' ->
      table_entry s'' f i = giga_entry (pte_of_word 0) a r w x u ->
      (forall j, 0 <= j < 512 -> j <> i -> word s'' (pte_at f j) = word s' (pte_at f j)) -> Q tt s'') ->
    wp (configure_page_entry (pte_at f i) a r w x u GIGA) Q s').
  { intros i a r w x u s' Q Hi Hz' Hp Ho HQ.
    eapply wp_configure_table; [done|done|rewrite He by done; apply configured_giga|by auto with xinul|].
    intros s'' Hp' Ho' Et Hj. apply HQ; [congruence| |done|done]. intros b Hb. rewrite Ho' by done. by apply Ho. }
  assert (Hfrom : forall s' s'' j, word s'' (pte_at f j) = word s' (pte_at f j) ->
    table_entry s'' f j = table_entry s' f j) by (intros s' s'' j E; unfold table_entry; by rewrite E).
  destruct virt.
  - apply wp_bind, Hstep; [unfold KERNEL_SPACE; lia|apply Hz; unfold KERNEL_SPACE; lia|done|done|].
    intros s2 Hp2 Ho2 E2 Hj2.
    apply Hstep; [unfold VRAM_SPACE_1; lia|rewrite Hj2; [apply Hz|..]; unfold VRAM_SPACE_1, KERNEL_SPACE; lia|done|done|].
    intros s3 Hp3 Ho3 E3 Hj3. apply wp_ret. destruct (Hfin s3 Hp3 Ho3). split_and!; try done.
    intros g Hg. unfold KERNEL_SPACE, VRAM_SPACE_1 in *. unfold directory_entry, kernel_giga.
    destruct (Z.eqb_spec g 0) as [->|]; [simpl; by rewrite (Hfrom s2) by (apply Hj3; lia)|].
    destruct (Z.eqb_spec g 2) as [->|]; [by destruct (Z.eqb_spec 2 1)|].
    rewrite andb_false_r. destruct (Z.eqb_spec g 3) as [->|]; simpl; rewrite Hj3, Hj2 by lia; apply Hz; lia.
  - apply wp_bind, Hstep; [lia|apply Hz; lia|done|done|]. intros s2 Hp2 Ho2 E2 Hj2.
    unfold USERSPACE, VRAM_SPACE_1, VRAM_SPACE_2 in *.
    apply wp_bind, Hstep; [lia|rewrite Hj2 by lia; apply Hz; lia|done|done|]. intros s3 Hp3 Ho3 E3 Hj3.
    apply wp_bind, Hstep; [lia|rewrite Hj3, Hj2 by lia; apply Hz; lia|done|done|]. intros s4 Hp4 Ho4 E4 Hj4.
    apply Hstep; [lia|rewrite Hj4, Hj3, Hj2 by lia; apply Hz; lia|done|done|]. intros s5 Hp5 Ho5 E5 Hj5.
    apply wp_ret. destruct (Hfin s5 Hp5 Ho5). split_and!; try done.
    intros g Hg. unfold directory_entry, kernel_giga.
    destruct (Z.eqb_spec g 1) as [->|].
    { simpl. rewrite (Hfrom s4), (Hfrom s3); [done|apply Hj4; lia|apply Hj5; lia]. }
    simpl. rewrite andb_false_r. destruct (Z.eqb_spec g 0) as [->|].
    { simpl. rewrite (Hfrom s4), (Hfrom s3), (Hfrom s2); [done|apply Hj3; lia|apply Hj4; lia|apply Hj5; lia]. }
    destruct (Z.eqb_spec g 2) as [->|].
    { simpl. rewrite (Hfrom s4); [done|apply Hj5; lia]. }
    destruct (Z.eqb_spec g 3) as [->|]; [done|]. simpl. rewrite Hj5, Hj4, Hj3, Hj2 by lia. apply Hz; lia.
Qed.

Lemma satp_of_root f :
  is_frame f ->
  let v := Z.lor 0x8000000000000000 (Z.shiftr f 12) in satp_mode v = 8 /\ satp_root v = f.
Proof.
  intros Hf v. pose proof (is_frame_pos f Hf). pose proof (is_frame_top f Hf). pose proof layout_top.
  destruct Hf as [_ Hm]. assert (0 <= f / 2 ^ 12 < 2 ^ 44) as Hr by mlia.
  assert (v = f / 2 ^ 12 + 8 * 2 ^ 60) as ->.
  { unfold v. rewrite Z.shiftr_div_pow2 by lia. rewrite Z.lor_comm.
    assert (Z.land (f / 2 ^ 12) 0x8000000000000000 = 0) as Hl.
    { change 0x8000000000000000 with (Z.shiftl 8 60). apply Z.bits_inj'. intros i Hi.
      rewrite Z.land_spec, Z.shiftl_spec, Z.bits_0 by lia.
      destruct (Z.lt_ge_cases i 60) as [Hlt|Hge]; [rewrite (Z.testbit_neg_r 8) by lia; apply andb_false_r|].
      replace (Z.testbit (f / 2 ^ 12) i) with false; [done|]. symmetry. apply Z.testbit_false; [lia|].
      rewrite Z.div_small; [done|]. split; [lia|]. apply Z.lt_le_trans with (2 ^ 44); [lia|apply Z.pow_le_mono_r; lia]. }
    by rewrite <- Z.lxor_lor, <- Z.add_nocarry_lxor by done. }
  unfold satp_mode, satp_root. split.
  - rewrite Z.div_add by lia. rewrite Z.div_small; lia.
  - replace (f / 2 ^ 12 + 8 * 2 ^ 60) with (f / 2 ^ 12 + (8 * 2 ^ 16) * 2 ^ 44) by lia.
    rewrite Z.mod_add by lia. rewrite Z.mod_small by lia. mlia.
Qed.


End TablesCorrect.



#[local] Existing Instance tiny_layout.

