(* ===== verification/Kernel.v ===== *)
(** * Kernel: the state of the kernel and its heap

    The process structure and the other heap objects of [src/kernel/process],
    the globals of the kernel and the small functions every part calls
    ([helperfunc.c], the head of [process_api.c]).

    A heap object lives in the map of its type, at a pointer; [None] is the
    null pointer, an access to a pointer that is not in the map is a
    [BadAccess] (a block that was freed or never allocated).  [malloc] is the
    allocator of [src/lib/stdlib/malloc.c]: it returns null or a fresh block
    whose contents are unspecified.  Hash tables are finite maps, which is what
    [Hash.v] shows them to be. *)

From S2P Require Import Prelude.
From S2P Require Import Queue.
From S2P Require Import FrameDist.
From S2P Require Import Pages.
#[local] Open Scope Z_scope.

Abbreviation ptr := positive.

(** ** Heads of the process queues

    The four globals of [scheduler.c], and the two heads inside each message
    queue. *)
Inductive qhead : Type :=
  | activatable_process_queue | asleep_process_queue | dead_process_queue | blocked_io_process_queue
  | blocked_cons (q : ptr) | blocked_prod (q : ptr).

#[export] Instance qhead_eq_dec : EqDecision qhead.
Proof. solve_decision. Defined.
#[export] Instance qhead_countable : Countable qhead.
Proof.
  refine (inj_countable'
    (fun h => match h with
       | activatable_process_queue => inl 0%nat | asleep_process_queue => inl 1%nat
       | dead_process_queue => inl 2%nat | blocked_io_process_queue => inl 3%nat
       | blocked_cons q => inr (inl q) | blocked_prod q => inr (inr q) end)
    (fun x => match x with
       | inl 0%nat => activatable_process_queue | inl 1%nat => asleep_process_queue
       | inl 2%nat => dead_process_queue | inl _ => blocked_io_process_queue
       | inr (inl q) => blocked_cons q | inr (inr q) => blocked_prod q end) _).
  by intros [].
Defined.

(** ** Continuations

    What is left to run of a kernel call when [scheduler()] gives the
    processor away: the code between the call of [scheduler] and the return to
    the process.  [KRet v out] is the return to the process with the value [v]
    and with [out] written through its out-parameter, [KIret] the return from
    an interrupt. *)
Inductive kont : Type :=
  | KUserEntry | KKernelEntry
  | KMain
  | KRet (v : Z) (out : list Z)
  | KIret
  | KTick (again : bool)
  | KStart (p : ptr)
  | KWait (p : ptr)
  | KPsend (p : ptr)
  | KPreceive (p : ptr) (want : bool)
  | KWaitAny (want : bool)
  | KWaitPid (child before : ptr) (want : bool)
  | KConsRead (length : Z)
  | KKill (p : ptr) (pid : Z) (fault : bool).

(** ** Heap objects *)

(** [context_t]: the saved registers; [ra] is where the process resumes. *)
Record context_t : Type := mk_context {
  sp : Z; ra : kont; s1 : Z; s2 : Z; sscratch : Z; sepc : Z; ctx_satp : Z
}.

Inductive process_state : Type :=
  | ACTIF | ACTIVATABLE | BLOCKEDSEMAPHORE | BLOCKEDIO | BLOCKEDQUEUE | BLOCKEDWAITCHILD
  | ASLEEP | ZOMBIE | KILLED.
#[export] Instance process_state_eq_dec : EqDecision process_state.
Proof. solve_decision. Defined.

Inductive message_status : Type := RECEIVED | ERROR | SENT.
#[export] Instance message_status_eq_dec : EqDecision message_status.
Proof. solve_decision. Defined.

Record message_t : Type := mk_message { msg_value : Z; status : message_status; blocked_head : option qhead }.
#[export] Instance eta_message_t : Eta message_t := fun r => mk_message (msg_value r) (status r) (blocked_head r).

(** [struct uapps] of [userspace_apps.h] *)
Record uapps : Type := mk_uapps { app_name : string; app_start : Z; app_end : Z }.

Record released_pages_t : Type := mk_released {
  rel_lvl2_index : Z; rel_lvl1_index : Z; rel_lvl0_index : Z; rel_page_table : Z;
  next_released_page : option ptr
}.

Record shared_pages_proc_t : Type := mk_shared_proc {
  key : string; lvl2_index : Z; lvl1_index : Z; lvl0_index : Z; page_table : Z;
  next_shared_page : option ptr
}.
#[export] Instance eta_shared_pages_proc_t : Eta shared_pages_proc_t := fun r =>
  mk_shared_proc (key r) (lvl2_index r) (lvl1_index r) (lvl0_index r) (page_table r) (next_shared_page r).

Record shared_pages_wrap_t : Type := mk_shared_wrap {
  head_shared_page : option ptr; tail_shared_page : option ptr
}.
#[export] Instance eta_shared_pages_wrap_t : Eta shared_pages_wrap_t := fun r =>
  mk_shared_wrap (head_shared_page r) (tail_shared_page r).

Record page_table_link_list_t : Type := mk_pt_link {
  pt_table : Z;
  parent_page : option ptr; head_page : option ptr; tail_page : option ptr; next_page : option ptr;
  usage : Z; stack_usage : Z; heap_usage : Z; shared_memory_usage : Z;
  index : Z
}.
#[export] Instance eta_page_table_link_list_t : Eta page_table_link_list_t := fun r =>
  mk_pt_link (pt_table r) (parent_page r) (head_page r) (tail_page r) (next_page r)
    (usage r) (stack_usage r) (heap_usage r) (shared_memory_usage r) (index r).

(** [process]; the links [next_prev] are in the link heap of the queues, the
    blocks that only the process points to ([process_name], [context_process],
    [proc_shared_hash_table], [shared_pages]) are inside it, null or present. *)
Record process : Type := mk_process {
  pid : Z;
  process_name : option string;
  state : process_state;
  ssize : Z;
  prio : Z;
  context_process : option context_t;
  func : Z;
  parent : option ptr;
  children_head : option ptr;
  children_tail : option ptr;
  next_sibling : option ptr;
  return_value : Z;
  page_table_level_2 : Z;
  page_tables_lvl_1_list : option ptr;
  stack_shift : Z;
  proc_shared_hash_table : option (gmap string ptr);
  shared_pages : option shared_pages_wrap_t;
  released_pages_list : option ptr;
  sscratch_frame : Z;
  wake_time : Z;
  message : message_t;
  sem_signal : Z;
  semaphore_id : Z;
  app_pointer : option uapps
}.
#[export] Instance eta_process : Eta process := fun r =>
  mk_process (pid r) (process_name r) (state r) (ssize r) (prio r) (context_process r) (func r)
    (parent r) (children_head r) (children_tail r) (next_sibling r) (return_value r)
    (page_table_level_2 r) (page_tables_lvl_1_list r) (stack_shift r)
    (proc_shared_hash_table r) (shared_pages r) (released_pages_list r) (sscratch_frame r)
    (wake_time r) (message r) (sem_signal r) (semaphore_id r) (app_pointer r).

(** [shared_page_t] of [memory_api.h] *)
Record shared_page_t : Type := mk_shared_page {
  page_key : string; page_address : Z; page_usage : Z; page_id : Z
}.
#[export] Instance eta_shared_page_t : Eta shared_page_t := fun r =>
  mk_shared_page (page_key r) (page_address r) (page_usage r) (page_id r).

(** [semaphore_t], [list_semaphore_header_t], [blocked_process_semaphore_t] *)
Record blocked_process_semaphore_t : Type := mk_blocked {
  blocked_process : ptr; next_block_struct : option ptr
}.
#[export] Instance eta_blocked_process_semaphore_t : Eta blocked_process_semaphore_t := fun r =>
  mk_blocked (blocked_process r) (next_block_struct r).
Record list_semaphore_header_t : Type := mk_header { head_blocked : option ptr; tail_blocked : option ptr }.
#[export] Instance eta_list_semaphore_header_t : Eta list_semaphore_header_t := fun r =>
  mk_header (head_blocked r) (tail_blocked r).
Record semaphore_t : Type := mk_sem { count : Z; list_header_process : option list_semaphore_header_t }.
#[export] Instance eta_semaphore_t : Eta semaphore_t := fun r => mk_sem (count r) (list_header_process r).

(** [msg_queue_t]; the two link heads are in the link heap. *)
Record msg_queue_t : Type := mk_msg_queue {
  msg_arr : option (list Z); size : Z; number_of_msgs : Z; iffc : Z
}.
#[export] Instance eta_msg_queue_t : Eta msg_queue_t := fun r =>
  mk_msg_queue (msg_arr r) (size r) (number_of_msgs r) (iffc r).

(** [console_device_t]: the input buffer of the console driver and, newest
    first, what was written on the screen. *)
Record console_device_t : Type := mk_console {
  ignore : bool; buffer : list Z; last_written_char_index : Z; start_of_buffer_index : Z; echo : bool; screen : list Z
}.
#[export] Instance eta_console_device_t : Eta console_device_t := fun r =>
  mk_console (ignore r) (buffer r) (last_written_char_index r) (start_of_buffer_index r) (echo r) (screen r).

(** ** The kernel state *)
Record kstate : Type := mk_kstate {
  frame_mem : fmem;
  kernel_table : Z;
  links : gmap (qhead + ptr) (@link qhead ptr);
  procs : gmap ptr process;
  pt_nodes : gmap ptr page_table_link_list_t;
  shared_nodes : gmap ptr shared_pages_proc_t;
  released_nodes : gmap ptr released_pages_t;
  shared_infos : gmap ptr shared_page_t;
  sems : gmap ptr semaphore_t;
  blocked_nodes : gmap ptr blocked_process_semaphore_t;
  msg_queues : gmap ptr msg_queue_t;
  next_block : ptr;
  pid_process_hash_table : gmap Z ptr;
  shared_memory_hash_table : gmap string ptr;
  semaphore_table : gmap Z ptr;
  all_queues : list (option ptr);
  current_running_process_pid : Z;
  pid_iterator : Z;
  nb_proc_running : Z;
  process_id_list : list Z;
  page_id_counter : Z;
  custom_release_process : option ptr;
  semaphore_id_counter : Z;
  currently_running_semaphores : Z;
  parent_block : bool;
  scheduler_main : option kont;
  started_user_process : bool;
  counter : Z;
  sstatus_spp : bool;
  sstatus_sie : bool;
  console_dev : console_device_t
}.
#[export] Instance eta_kstate : Eta kstate := fun r =>
  mk_kstate (frame_mem r) (kernel_table r) (links r) (procs r) (pt_nodes r) (shared_nodes r)
    (released_nodes r) (shared_infos r) (sems r) (blocked_nodes r) (msg_queues r) (next_block r)
    (pid_process_hash_table r) (shared_memory_hash_table r) (semaphore_table r) (all_queues r)
    (current_running_process_pid r) (pid_iterator r) (nb_proc_running r) (process_id_list r)
    (page_id_counter r) (custom_release_process r) (semaphore_id_counter r)
    (currently_running_semaphores r) (parent_block r) (scheduler_main r) (started_user_process r)
    (counter r) (sstatus_spp r) (sstatus_sie r) (console_dev r).

Definition K : Type -> Type := M kstate.

(** ** The environment of the kernel code

    The memory layout of the machine, whether each allocation finds memory,
    what a fresh block holds, the table of user programs the build generates
    ([symbols_table]) and the address of the assembly entry of kernel processes. *)
Class KEnv : Type := {
  k_layout :: MemLayout;
  malloc_ok : ptr -> bool;
  junk_process : ptr -> process;
  junk_shared : ptr -> shared_pages_proc_t;
  junk_queue : ptr -> msg_queue_t;
  junk_word : ptr -> Z;
  symbols_table : list uapps;
  process_call_wrapper_kernel : Z
}.

(** ** Objects *)
Section Objects.
Context `{E : KEnv} {A : Type} (heap : kstate -> gmap ptr A) `{!Upd heap}.

(** Reading, updating, allocating and freeing an object of a heap. *)
Definition rd (p : option ptr) : K A :=
  p ← lift (deref p); h ← gets heap; lift (of_option BadAccess (h !! p)).
Definition wr (p : option ptr) (f : A -> A) : K unit :=
  a ← rd p; p ← lift (deref p); modify (fun s => s <| heap ::= <[p := f a]> |>).
Definition malloc (v : ptr -> A) : K (option ptr) :=
  p ← gets next_block;
  _ ← modify (fun s => s <| next_block ::= Pos.succ |>);
  if malloc_ok p then
    _ ← modify (fun s => s <| heap ::= <[p := v p]> |>);
    mret (Some p)
  else mret None.
Definition free (p : option ptr) : K unit :=
  match p with
  | None => mret tt
  | Some p => _ ← rd (Some p); modify (fun s => s <| heap ::= delete p |>)
  end.
End Objects.

(** Field access through a process pointer. *)
Definition pget {A} (p : option ptr) (f : process -> A) : K A := a ← rd procs p; mret (f a).
Definition pset {A} (p : option ptr) (f : process -> A) `{!Upd f} (v : A) : K unit :=
  wr procs p (fun a => a <| f := v |>).

Definition kput {A} (f : kstate -> A) `{!Upd f} (v : A) : K unit := modify (fun s => s <| f := v |>).
Definition kupd {A} (f : kstate -> A) `{!Upd f} (g : A -> A) : K unit := modify (fun s => s <| f ::= g |>).

(** Code of the frame allocator and of the page tables, on its part of the state. *)
Definition in_frames {A} (m : M fmem A) : K A := zoom frame_mem (fun m s => s <| frame_mem := m |>) m.

(** [if (m < 0) return -1; k] *)
Definition or_fail (m : K Z) (k : K Z) : K Z := v ← m; if v <? 0 then mret (-1) else k.

(** Enough steps to walk a list whose nodes are distinct objects of a heap. *)
Definition walk_fuel {A} (heap : kstate -> gmap ptr A) (s : kstate) : nat := S (base.size (heap s)).

(** ** Queues of processes *)

(** [queue_add(p, head, process, next_prev, prio)] and the other macros on the
    links of the processes; [field] is the priority field. *)
Definition qadd (p : option ptr) (h : qhead) (field : process -> Z) : K unit :=
  p ← lift (deref p);
  ps ← gets procs; l ← gets links;
  l ← lift (queue_add p h (fun q => field <$> ps !! q) l);
  kput links l.
Definition qout (h : qhead) : K (option ptr) :=
  l ← gets links; '(p, l) ← lift (queue_out h l); _ ← kput links l; mret p.
Definition qtop (h : qhead) : K (option ptr) := l ← gets links; lift (queue_top h l).
Definition qdel (p : option ptr) : K unit :=
  p ← lift (deref p); l ← gets links; l ← lift (queue_del p l); kput links l.
Definition qempty (h : qhead) : K bool := l ← gets links; lift (queue_empty h l).

(** ** [helperfunc.c] and the accessors of [process_api.c] *)

Definition MAXPRIO : Z := 256.
Definition MINPRIO : Z := 1.
Definition MAX_NB_PROCESS : Z := 1000.
Definition MAX_SIZE_NAME : Z := 256.
Definition PROCESS_SETUP_SIZE : Z := 2.
Definition idleId : Z := 1.
Definition kernelId : Z := 0.

Definition getpid : K Z := gets current_running_process_pid.

Definition get_process_struct_of_pid (pid : Z) : K (option ptr) :=
  t ← gets pid_process_hash_table; mret (t !! pid).

Definition get_current_process : K (option ptr) := pid ← getpid; get_process_struct_of_pid pid.

Definition get_semaphore_struct (sem : Z) : K (option ptr) :=
  t ← gets semaphore_table; mret (t !! sem).

Definition get_pid_name (pid : Z) : K (option string) :=
  p ← get_process_struct_of_pid pid;
  match p with None => mret None | Some _ => pget p process_name end.
Definition getname : K (option string) := pid ← getpid; get_pid_name pid.

Definition validate_action_process_valid (p : option ptr) : K Z :=
  match p with
  | None => mret (-1)
  | Some _ =>
      st ← pget p state;
      if bool_decide (st = ZOMBIE) || bool_decide (st = KILLED) then mret (-1) else mret 0
  end.

Definition getprio (pid : Z) : K Z :=
  p ← get_process_struct_of_pid pid;
  match p with
  | None => mret (-1)
  | Some _ =>
      v ← validate_action_process_valid p;
      if v <? 0 then mret (-1) else pget p prio
  end.

Definition setpid (new_pid : Z) : K Z :=
  p ← get_process_struct_of_pid new_pid;
  match p with
  | None => mret (-1)
  | Some _ => _ ← kput current_running_process_pid new_pid; mret new_pid
  end.

Section Helpers.
Context `{E : KEnv}.

(** An allocation whose block is modelled by the value stored in it. *)
Definition malloc_block : K bool :=
  p ← gets next_block; _ ← kupd next_block Pos.succ; mret (malloc_ok p).

(** [save_pid], [increment_pid_and_get_new_pid]: the list of pids to reuse.
    The list nodes are reachable from nowhere else. *)
Definition save_pid (pid : Z) : K Z :=
  ok ← malloc_block;
  if (ok : bool) then _ ← kupd process_id_list (cons pid); mret 0 else mret (-1).

Definition increment_pid_and_get_new_pid : K Z :=
  l ← gets process_id_list;
  match l with
  | id :: l => _ ← kput process_id_list l; mret id
  | [] => _ ← kupd pid_iterator (fun i => wrapS 32 (i + 1)); gets pid_iterator
  end.

Definition increment_shared_page_counter : K Z :=
  _ ← kupd page_id_counter (fun i => wrapU 64 (i + 1)); gets page_id_counter.
Definition increment_semaphore_id : K Z :=
  _ ← kupd semaphore_id_counter (fun i => wrapS 32 (i + 1)); gets semaphore_id_counter.

Definition set_custom_release_process (p : option ptr) : K unit := kput custom_release_process p.
Definition get_custom_release_process : K (option ptr) := gets custom_release_process.
Definition set_supervisor_interrupts (val : bool) : K unit := kput sstatus_sie val.

(** [find_app] of [userspace_apps.c] *)
Definition find_app (name : string) : option uapps :=
  list_find (fun a => app_name a = name) symbols_table ≫= fun ia => Some ia.2.

End Helpers.
