(* ===== verification/KernelRules.v ===== *)
(** * KernelRules: how the primitives of kernel code run

    Total-correctness rules for the heap accesses, the queue macros and the
    frame code that [Kernel.v] builds the kernel from. *)

From S2P Require Import Prelude.
From S2P Require Import Queue.
From S2P Require Import FrameDist.
From S2P Require Import Pages.
From S2P Require Import Kernel.
#[local] Open Scope Z_scope.

(** A field of a process, 0 where there is no process. *)
Definition pfield (s : kstate) (f : process -> Z) (p : ptr) : Z := default 0 (f <$> procs s !! p).

Lemma pfield_eq s f p x : procs s !! p = Some x -> pfield s f p = f x.
Proof. unfold pfield. by intros ->. Qed.

(** One step of a run whose result is known. *)
Tactic Notation "run_step" tactic3(t) := eapply eq_trans; [eapply run_bind; apply wp_run; t|cbn beta].

Lemma procs_twice s p x y : s <| procs ::= <[p := x]> |> <| procs ::= <[p := y]> |> = s <| procs ::= <[p := y]> |>.
Proof. unfold upd. simpl. by rewrite insert_insert_eq. Qed.

Section Rules.
Context `{E : KEnv}.
Implicit Types (s : kstate) (p : ptr).

Section Heap.
Context {A : Type} (heap : kstate -> gmap ptr A) `{!Upd heap}.

Lemma wp_rd p a (Q : A -> kstate -> Prop) s : heap s !! p = Some a -> Q a s -> wp (rd heap (Some p)) Q s.
Proof. intros Ha HQ. unfold wp, rd, mbind, M_bind, lift, gets. simpl. by rewrite Ha. Qed.

Lemma wp_wr p a f (Q : unit -> kstate -> Prop) s :
  heap s !! p = Some a -> Q tt (s <| heap ::= <[p := f a]> |>) -> wp (wr heap (Some p) f) Q s.
Proof.
  intros Ha HQ. unfold wr. apply wp_bind. eapply wp_rd; [done|]. apply wp_bind.
  eapply wp_lift; [done|]. by apply wp_modify.
Qed.

Lemma wp_free p a (Q : unit -> kstate -> Prop) s :
  heap s !! p = Some a -> Q tt (s <| heap ::= delete p |>) -> wp (free heap (Some p)) Q s.
Proof. intros Ha HQ. unfold free. apply wp_bind. eapply wp_rd; [done|]. by apply wp_modify. Qed.
End Heap.

Lemma wp_pget {A} p x (f : process -> A) (Q : A -> kstate -> Prop) s :
  procs s !! p = Some x -> Q (f x) s -> wp (pget (Some p) f) Q s.
Proof. intros Hx HQ. unfold pget. apply wp_bind. eapply wp_rd; [done|]. by apply wp_ret. Qed.

Lemma wp_pset {A} p x (f : process -> A) `{!Upd f} v (Q : unit -> kstate -> Prop) s :
  procs s !! p = Some x -> Q tt (s <| procs ::= <[p := x <| f := v |>]> |>) -> wp (pset (Some p) f v) Q s.
Proof. intros Hx HQ. unfold pset. by eapply (wp_wr procs). Qed.

Lemma wp_kput {A} (f : kstate -> A) `{!Upd f} v (Q : unit -> kstate -> Prop) s :
  Q tt (s <| f := v |>) -> wp (kput f v) Q s.
Proof. done. Qed.

Lemma wp_kupd {A} (f : kstate -> A) `{!Upd f} g (Q : unit -> kstate -> Prop) s :
  Q tt (s <| f ::= g |>) -> wp (kupd f g) Q s.
Proof. done. Qed.

Lemma wp_fail_iff {A} e (Q : A -> kstate -> Prop) s : wp (fail e) Q s <-> False.
Proof. done. Qed.

(** ** Queues *)

Definition linked s p : Prop := is_Some (links s !! inr p).

Lemma wp_qadd p h field (Q : gmap qhead (list ptr)) xs (Φ : unit -> kstate -> Prop) s :
  rep (links s) Q -> Q !! h = Some xs -> linked s p -> ~ queued Q p ->
  (forall x, x ∈ p :: xs -> is_Some (procs s !! x)) ->
  (forall l, dom l = dom (links s) -> rep l (<[h := insert_prio (pfield s field) p xs]> Q) ->
    Φ tt (s <| links := l |>)) ->
  wp (qadd (Some p) h field) Φ s.
Proof.
  intros Hrep HQ Hl Hnq Hps HΦ. unfold qadd. apply wp_bind. eapply wp_lift; [done|].
  apply wp_bind, wp_gets, wp_bind, wp_gets, wp_bind.
  destruct (queue_add_rep (links s) Q h xs p (fun q => field <$> procs s !! q) (pfield s field))
    as (l & El & Hd & Hr); [done..| |].
  { intros x Hx. destruct (Hps x Hx) as [y Ey]. unfold pfield. by rewrite Ey. }
  eapply wp_lift; [done|]. apply wp_kput. by apply HΦ.
Qed.

Lemma wp_qtop h (Q : gmap qhead (list ptr)) xs (Φ : option ptr -> kstate -> Prop) s :
  rep (links s) Q -> Q !! h = Some xs -> Φ (last xs) s -> wp (qtop h) Φ s.
Proof.
  intros Hrep HQ HΦ. unfold qtop. apply wp_bind, wp_gets. eapply wp_lift; [by eapply queue_top_rep|done].
Qed.

Lemma wp_qempty h (Q : gmap qhead (list ptr)) xs (Φ : bool -> kstate -> Prop) s :
  rep (links s) Q -> Q !! h = Some xs -> Φ (bool_decide (xs = [])) s -> wp (qempty h) Φ s.
Proof.
  intros Hrep HQ HΦ. unfold qempty. apply wp_bind, wp_gets. eapply wp_lift; [by eapply queue_empty_rep|done].
Qed.

Lemma wp_qout h (Q : gmap qhead (list ptr)) xs p (Φ : option ptr -> kstate -> Prop) s :
  rep (links s) Q -> Q !! h = Some (xs ++ [p]) ->
  (forall l, dom l = dom (links s) -> rep l (<[h := xs]> Q) -> Φ (Some p) (s <| links := l |>)) ->
  wp (qout h) Φ s.
Proof.
  intros Hrep HQ HΦ. unfold qout. apply wp_bind, wp_gets, wp_bind.
  destruct (queue_out_rep (links s) Q h xs p) as (l & El & Hd & Hr); [done..|].
  eapply wp_lift; [done|]. apply wp_bind, wp_kput, wp_ret. by apply HΦ.
Qed.

Lemma wp_qout_empty h (Q : gmap qhead (list ptr)) (Φ : option ptr -> kstate -> Prop) s :
  rep (links s) Q -> Q !! h = Some [] -> Φ None (s <| links := links s |>) -> wp (qout h) Φ s.
Proof.
  intros Hrep HQ HΦ. unfold qout. apply wp_bind, wp_gets, wp_bind.
  eapply wp_lift; [by eapply queue_out_rep_empty|]. by apply wp_bind, wp_kput, wp_ret.
Qed.

(** [queue_out] only reads the links. *)
Lemma qout_frame h o l s s' :
  qout h s = Ok (o, s <| links := l |>) -> links s' = links s -> qout h s' = Ok (o, s' <| links := l |>).
Proof.
  intros Hq El. unfold qout, mbind, M_bind, gets, lift, kput, modify in *. rewrite El.
  destruct (queue_out h (links s)) as [[o' l']|]; [|done]. by injection Hq as -> ->.
Qed.

Lemma wp_qdel h (Q : gmap qhead (list ptr)) xs p ys (Φ : unit -> kstate -> Prop) s :
  rep (links s) Q -> Q !! h = Some (xs ++ p :: ys) ->
  (forall l, dom l = dom (links s) -> rep l (<[h := xs ++ ys]> Q) -> Φ tt (s <| links := l |>)) ->
  wp (qdel (Some p)) Φ s.
Proof.
  intros Hrep HQ HΦ. unfold qdel. apply wp_bind. eapply wp_lift; [done|]. apply wp_bind, wp_gets, wp_bind.
  destruct (queue_del_rep (links s) Q h xs ys p) as (l & El & Hd & Hr); [done..|].
  eapply wp_lift; [done|]. apply wp_kput. by apply HΦ.
Qed.

(** ** Table lookups *)

Lemma wp_get_process id (Φ : option ptr -> kstate -> Prop) s :
  Φ (pid_process_hash_table s !! id) s -> wp (get_process_struct_of_pid id) Φ s.
Proof. intros HΦ. by apply wp_bind, wp_gets, wp_ret. Qed.

Lemma wp_get_current (Φ : option ptr -> kstate -> Prop) s :
  Φ (pid_process_hash_table s !! current_running_process_pid s) s -> wp get_current_process Φ s.
Proof. intros HΦ. by apply wp_bind, wp_gets, wp_get_process. Qed.

Lemma wp_setpid id p (Φ : Z -> kstate -> Prop) s :
  pid_process_hash_table s !! id = Some p -> Φ id (s <| current_running_process_pid := id |>) ->
  wp (setpid id) Φ s.
Proof. intros Hp HΦ. unfold setpid. apply wp_bind, wp_get_process. rewrite Hp. by apply wp_bind, wp_kput, wp_ret. Qed.

Lemma wp_in_frames {A} (m : M fmem A) (Φ : A -> kstate -> Prop) s :
  wp m (fun a t => Φ a (s <| frame_mem := t |>)) (frame_mem s) -> wp (in_frames m) Φ s.
Proof. intros H. by apply wp_zoom. Qed.

Lemma wp_malloc {A} (heap : kstate -> gmap ptr A) `{!Upd heap} v (Φ : option ptr -> kstate -> Prop) s p :
  next_block s = p -> malloc_ok p = true ->
  Φ (Some p) (s <| next_block ::= Pos.succ |> <| heap ::= <[p := v p]> |>) -> wp (malloc heap v) Φ s.
Proof.
  intros Hp Hok HΦ. unfold malloc. apply wp_bind, wp_gets, wp_bind, wp_modify. rewrite Hp, Hok.
  by apply wp_bind, wp_modify, wp_ret.
Qed.

(** Every object of the heap was handed out by the allocator. *)
Definition allocated {A} (h : gmap ptr A) s : Prop := forall p, is_Some (h !! p) -> (p < next_block s)%positive.

Lemma wp_or_fail (m k : K Z) (Φ : Z -> kstate -> Prop) s :
  wp m (fun v s' => 0 <= v /\ wp k Φ s') s -> wp (or_fail m k) Φ s.
Proof.
  intros Hm. unfold or_fail. apply wp_bind. eapply wp_mono; [exact Hm|]. intros v s' [Hv Hk].
  by destruct (Z.ltb_spec v 0); [lia|].
Qed.

(** ** Representation and the maps of queues *)

Lemma queued_insert (Q : gmap qhead (list ptr)) h xs ys p :
  Q !! h = Some xs -> queued (<[h := ys]> Q) p -> queued Q p \/ p ∈ ys.
Proof.
  intros HQ (h' & zs & Hz & Hp). rewrite lookup_insert in Hz. case_decide.
  - simplify_eq. by right.
  - left. by exists h', zs.
Qed.

Lemma queued_in (Q : gmap qhead (list ptr)) h xs p : Q !! h = Some xs -> p ∈ xs -> queued Q p.
Proof. intros ? ?. by exists h, xs. Qed.

Lemma not_queued_del l (Q : gmap qhead (list ptr)) h xs p ys :
  rep l Q -> Q !! h = Some (xs ++ p :: ys) -> ~ queued (<[h := xs ++ ys]> Q) p.
Proof.
  intros Hrep HQ (h' & zs & Hz & Hp). rewrite lookup_insert in Hz. case_decide as Eh.
  - simplify_eq. destruct (rep_ring _ _ Hrep _ _ HQ) as [_ Hnd]. rewrite <- Permutation_middle, NoDup_cons in Hnd. tauto.
  - apply Eh. eapply (rep_disj _ _ Hrep h h' _ _ p HQ Hz); [|done]. rewrite elem_of_app, elem_of_cons. tauto.
Qed.

Lemma not_queued_out l (Q : gmap qhead (list ptr)) h xs p :
  rep l Q -> Q !! h = Some (xs ++ [p]) -> ~ queued (<[h := xs]> Q) p.
Proof. intros Hrep HQ. rewrite <- (app_nil_r xs). by eapply (not_queued_del l _ _ _ _ []). Qed.

Lemma elem_of_insert_prio (f : ptr -> Z) p xs x : x ∈ insert_prio f p xs <-> x = p \/ x ∈ xs.
Proof. rewrite insert_prio_perm, elem_of_cons. done. Qed.

Lemma insert_prio_ext (f g : ptr -> Z) p xs :
  (forall x, x ∈ p :: xs -> f x = g x) -> insert_prio f p xs = insert_prio g p xs.
Proof.
  induction xs as [|x xs IH]; intros Hfg; [done|]. simpl. rewrite !Hfg, IH; [done|..]; set_solver.
Qed.

End Rules.
