(* ===== verification/ProcessMemory.v ===== *)
(** * ProcessMemory: the memory of a process, [src/kernel/process/process_memory.c]

    A process has a level-2 table (a copy of the kernel's), one level-1 table
    for the user gigabyte and, linked under it, the level-0 tables of its
    stack and code, heap and shared pages.  This file translates the
    allocation of these tables and frames; freeing them is in
    [ProcessFree.v]. *)

From S2P Require Import Prelude.
From S2P Require Import Queue.
From S2P Require Import FrameDist.
From S2P Require Import Pages.
From S2P Require Import Kernel.
#[local] Open Scope Z_scope.

Inductive page_t : Type := STACK_CODE_PAGE | HEAP_PAGE | SHARED_PAGE.
#[export] Instance page_t_eq_dec : EqDecision page_t.
Proof. solve_decision. Defined.

Definition STACK_FRAME_SIZE : Z := 128.
Definition HEAP_FRAME_SIZE : Z := 128.
Definition SHARED_FRAME_SIZE : Z := 256.
Definition STACK_CODE_SPACE_START : Z := 0.
Definition STACK_CODE_SPACE_END : Z := 127.
Definition HEAP_SPACE_START : Z := 128.
Definition HEAP_SPACE_END : Z := 255.
Definition SHARED_MEMORY_START : Z := 256.
Definition SHARED_MEMORY_END : Z := 511.
Definition GIGAPAGE_SIZE : Z := Z.shiftl 1 30.

Section ProcessMemory.
Context `{E : KEnv}.

Definition set_index (i : Z) (n : page_table_link_list_t) : page_table_link_list_t := n <| index := i |>.
Definition inc_usage (n : page_table_link_list_t) : page_table_link_list_t :=
  n <| usage ::= fun u => wrapU 16 (u + 1) |>.

(** [configure_page_table_linked_list_entry]; [old] is the value of
    [*link_to_configure] before the call, the second result its value after. *)
Definition configure_page_table_linked_list_entry (old : option ptr) (table : Z)
    (parent_page head_page tail_page next_page : option ptr) (page_type : page_t) (custom_index : Z) :
    K (Z * option ptr) :=
  if table =? 0 then mret (-1, old)
  else
    node_conf ← malloc pt_nodes (fun _ =>
      mk_pt_link table parent_page head_page tail_page next_page 0 0 0 0 0);
    match node_conf with
    | None => mret (-1, None)
    | Some _ =>
        _ ← match parent_page with
            | Some _ =>
                parent ← rd pt_nodes parent_page;
                _ ← match page_type with
                    | STACK_CODE_PAGE =>
                        _ ← wr pt_nodes node_conf (set_index (STACK_CODE_SPACE_START + stack_usage parent));
                        wr pt_nodes parent_page (fun n => n <| stack_usage ::= fun u => wrapU 16 (u + 1) |>)
                    | HEAP_PAGE =>
                        _ ← wr pt_nodes node_conf (set_index (HEAP_SPACE_START + heap_usage parent));
                        wr pt_nodes parent_page (fun n => n <| heap_usage ::= fun u => wrapU 16 (u + 1) |>)
                    | SHARED_PAGE =>
                        _ ← wr pt_nodes node_conf (set_index (SHARED_MEMORY_START + shared_memory_usage parent));
                        wr pt_nodes parent_page (fun n => n <| shared_memory_usage ::= fun u => wrapU 16 (u + 1) |>)
                    end;
                wr pt_nodes parent_page inc_usage
            | None => wr pt_nodes node_conf (set_index custom_index)
            end;
        mret (0, node_conf)
    end.

(** [add_child_node_page_table] (its process argument is not used) *)
Definition add_child_node_page_table (parent_page_w : option ptr) (page_type : page_t) : K Z :=
  parent ← rd pt_nodes parent_page_w;
  if (PT_SIZE <=? usage parent) || (STACK_FRAME_SIZE <=? stack_usage parent)
     || (HEAP_FRAME_SIZE <=? heap_usage parent) || (SHARED_FRAME_SIZE <=? shared_memory_usage parent)
  then mret (-1)
  else
    user_page_table_level_0 ← in_frames create_page_table;
    if user_page_table_level_0 =? 0 then mret (-1)
    else
      '(code, new_node) ← configure_page_table_linked_list_entry None user_page_table_level_0
        parent_page_w None None None page_type (-1);
      if code <? 0 then mret (-1)
      else
        parent ← rd pt_nodes parent_page_w;
        _ ← match head_page parent, tail_page parent with
            | None, None =>
                wr pt_nodes parent_page_w (fun n => n <| head_page := new_node |> <| tail_page := new_node |>)
            | _, tail =>
                _ ← wr pt_nodes tail (fun n => n <| next_page := new_node |>);
                wr pt_nodes parent_page_w (fun n => n <| tail_page := new_node |>)
            end;
        mret 0.

(** The search of [link_lvl1_table_shared_page] for the node of the gigabyte. *)
Fixpoint find_lvl1_node (fuel : nat) (node : option ptr) (lvl2_index : Z) : K (option ptr) :=
  match fuel with
  | O => fail OutOfFuel
  | S fuel =>
      match node with
      | None => mret None
      | Some _ =>
          n ← rd pt_nodes node;
          if index n =? lvl2_index then mret node else find_lvl1_node fuel (next_page n) lvl2_index
      end
  end.

Definition link_lvl1_table_shared_page (proc_conf : option ptr) (lvl2_index lvl1_index lvl0_table : Z) : K Z :=
  lvl_1_list ← pget proc_conf page_tables_lvl_1_list;
  match lvl_1_list with
  | None => mret (-1)
  | Some _ =>
      if lvl0_table =? 0 then mret (-1)
      else
        fuel ← gets (walk_fuel pt_nodes);
        lvl_1_node ← find_lvl1_node fuel lvl_1_list lvl2_index;
        n ← rd pt_nodes lvl_1_node;
        _ ← in_frames (configure_page_entry (pte_at (pt_table n) lvl1_index) lvl0_table
                         false false false true KILO);
        mret 0
  end.

(** The tail of the list of shared pages gets its position in the tables. *)
Definition record_shared_position (proc_conf : option ptr) (lvl0 lvl1 table : Z) : K Z :=
  w ← pget proc_conf shared_pages;
  match w with
  | None => mret (-1)
  | Some w =>
      match tail_shared_page w with
      | None => mret (-1)
      | Some _ =>
          _ ← wr shared_nodes (tail_shared_page w) (fun n =>
                n <| lvl0_index := wrapU 16 lvl0 |> <| lvl1_index := wrapU 16 lvl1 |>
                  <| lvl2_index := USERSPACE |> <| page_table := table |>);
          mret 0
      end
  end.

(** The first [while] loop of [add_frame_to_process]: a level-0 table of the
    right part of the address space that has room. *)
Fixpoint find_lvl0_room (fuel : nat) (it : option ptr) (index_start index_end : Z) : K (option ptr) :=
  match fuel with
  | O => fail OutOfFuel
  | S fuel =>
      match it with
      | None => mret None
      | Some _ =>
          n ← rd pt_nodes it;
          if (index_start <=? index n) && (index n <=? index_end) && (usage n <? PT_SIZE) then mret it
          else find_lvl0_room fuel (next_page n) index_start index_end
      end
  end.

Definition page_bounds (page_type : page_t) : Z * Z :=
  match page_type with
  | STACK_CODE_PAGE => (STACK_CODE_SPACE_START, STACK_CODE_SPACE_END)
  | HEAP_PAGE => (HEAP_SPACE_START, HEAP_SPACE_END)
  | SHARED_PAGE => (SHARED_MEMORY_START, SHARED_MEMORY_END)
  end.

Definition add_frame_to_process (proc_conf : option ptr) (page_type : page_t) : K Z :=
  node_lvl1 ← pget proc_conf page_tables_lvl_1_list;
  match node_lvl1 with
  | None => mret (-1)
  | Some _ =>
      n1 ← rd pt_nodes node_lvl1;
      let '(index_start, index_end) := page_bounds page_type in
      fuel ← gets (walk_fuel pt_nodes);
      it ← find_lvl0_room fuel (head_page n1) index_start index_end;
      match it with
      | Some _ =>
          n0 ← rd pt_nodes it;
          let finish := _ ← wr pt_nodes it inc_usage; mret 0 in
          if bool_decide (page_type = SHARED_PAGE)
          then or_fail (record_shared_position proc_conf (usage n0) (index n0) (pt_table n0)) finish
          else finish
      | None =>
          or_fail (add_child_node_page_table node_lvl1 page_type) (
            n1 ← rd pt_nodes node_lvl1;
            n0 ← rd pt_nodes (tail_page n1);
            let finish := _ ← wr pt_nodes (tail_page n1) inc_usage; mret 0 in
            if bool_decide (page_type = SHARED_PAGE)
            then or_fail (record_shared_position proc_conf (usage n0) (index n0) (pt_table n0))
                   (or_fail (link_lvl1_table_shared_page proc_conf USERSPACE (index n0) (pt_table n0)) finish)
            else finish)
      end
  end.

(** The locals [writing_data], [data_pointer], [data_left] of
    [allocate_memory_final]. *)
Record data_cursor : Type := mk_cursor { writing_data : bool; data_pointer : Z; data_left : Z }.

(** One frame of [allocate_memory_final]: fetched, filled and linked at
    [kilo_table_entry]; [None] is [return -1]. *)
Definition allocate_frame (kilo_table_entry : Z) (c : data_cursor) : K (option data_cursor) :=
  frame_pointer ← in_frames get_frame;
  if frame_pointer =? 0 then mret None
  else
    c ← (if writing_data c then
           if data_left c <? 0 then mret (mk_cursor false (data_pointer c) (data_left c))
           else
             _ ← in_frames (memcpy_words FRAME_WORDS frame_pointer (data_pointer c));
             mret (mk_cursor true (data_pointer c + FRAME_SIZE) (wrapS 32 (data_left c - FRAME_SIZE)))
         else _ ← in_frames (memset_words FRAME_WORDS frame_pointer); mret c);
    _ ← in_frames (configure_page_entry kilo_table_entry frame_pointer true true (writing_data c) true KILO);
    mret (Some c).

(** The inner [for] loop: entries [i], ..., [i + k - 1] of a level-0 table. *)
Fixpoint allocate_kilo_pages (k : nat) (table i : Z) (c : data_cursor) : K (option data_cursor) :=
  match k with
  | O => mret (Some c)
  | S k =>
      r ← allocate_frame (pte_at table i) c;
      match r with
      | None => mret None
      | Some c => allocate_kilo_pages k table (i + 1) c
      end
  end.

(** The outer [for] loop: the level-0 tables from index [i] on. *)
Fixpoint allocate_mega_pages (k : nat) (lvl1_table i : Z) (lvl_0_node : option ptr) (c : data_cursor) : K Z :=
  match k with
  | O => mret 0
  | S k =>
      n ← rd pt_nodes lvl_0_node;
      _ ← lift (assert_ (index n =? i));
      if pt_table n =? 0 then mret (-1)
      else
        _ ← in_frames (configure_page_entry (pte_at lvl1_table i) (pt_table n) false false false true KILO);
        r ← allocate_kilo_pages (Z.to_nat (usage n)) (pt_table n) 0 c;
        match r with
        | None => mret (-1)
        | Some c => allocate_mega_pages k lvl1_table (i + 1) (next_page n) c
        end
  end.

Definition allocate_memory_final (proc_conf : option ptr) (start_index end_index : Z)
    (data : Z) (data_size : Z) : K Z :=
  lvl_1_node ← pget proc_conf page_tables_lvl_1_list;
  match lvl_1_node with
  | None => mret (-1)
  | Some _ =>
      let c := if negb (data =? 0) && negb (data_size =? 0)
               then mk_cursor true data data_size else mk_cursor false 0 0 in
      n1 ← rd pt_nodes lvl_1_node;
      fuel ← gets (walk_fuel pt_nodes);
      it ← find_lvl1_node fuel (head_page n1) start_index;
      match it with
      | None => mret (-1)
      | Some _ => allocate_mega_pages (Z.to_nat (end_index - start_index)) (pt_table n1) start_index it c
      end
  end.

(** [process_frames_alloc], with user processes configured in. *)
Definition code_size_of (app : uapps) : Z := wrapS 32 (app_end app - app_start app).

Definition process_frames_alloc (process_conf : option ptr) : K Z :=
  app ← pget process_conf app_pointer;
  app ← lift (deref app);
  l1 ← pget process_conf page_tables_lvl_1_list;
  n1 ← rd pt_nodes l1;
  or_fail (allocate_memory_final process_conf STACK_CODE_SPACE_START
             (STACK_CODE_SPACE_START + stack_usage n1) (app_start app) (code_size_of app)) (
  n1 ← rd pt_nodes l1;
  or_fail (allocate_memory_final process_conf HEAP_SPACE_START (HEAP_SPACE_START + heap_usage n1) 0 0)
    (mret 0)).

(** The [do { ... } while (left > 0)] loops of [add_frames_process]; [shift]
    says whether the loop advances [stack_shift]. *)
Fixpoint add_frames_loop (fuel : nat) (process_conf : option ptr) (page_type : page_t) (shift : bool)
    (left : Z) : K Z :=
  match fuel with
  | O => fail OutOfFuel
  | S fuel =>
      or_fail (add_frame_to_process process_conf page_type) (
        _ ← (if shift then wr procs process_conf (fun p => p <| stack_shift ::= fun k => wrapU 16 (k + 1) |>)
             else mret tt);
        let left := wrapS 32 (left - FRAME_SIZE) in
        if 0 <? left then add_frames_loop fuel process_conf page_type shift left else mret 0)
  end.

(** Iterations of such a loop. *)
Definition pages_of (size : Z) : nat := S (Z.to_nat ((size - 1) / FRAME_SIZE)).

Definition add_frames_process (process_conf : option ptr) (temp_code_size heap_size size_stack : Z) : K Z :=
  or_fail (add_frames_loop (pages_of temp_code_size) process_conf STACK_CODE_PAGE true temp_code_size) (
  or_fail (add_frames_loop (pages_of size_stack) process_conf STACK_CODE_PAGE true size_stack) (
  or_fail (add_frames_loop (pages_of heap_size) process_conf HEAP_PAGE false heap_size)
    (mret 0))).

Definition process_memory_allocator (process_conf : option ptr) (size : Z) : K Z :=
  if GIGAPAGE_SIZE <? size then mret (-1)
  else
    _ ← pset process_conf stack_shift 0;
    let heap_size := 1 in
    user_page_table_level_2 ← in_frames create_page_table;
    if user_page_table_level_2 =? 0 then mret (-1)
    else
      _ ← pset process_conf page_table_level_2 user_page_table_level_2;
      kernel_base_page_table ← gets kernel_table;
      _ ← in_frames (memcpy_words FRAME_WORDS user_page_table_level_2 kernel_base_page_table);
      user_page_table_level_1 ← in_frames create_page_table;
      if user_page_table_level_1 =? 0 then mret (-1)
      else
        old ← pget process_conf page_tables_lvl_1_list;
        '(_, node) ← configure_page_table_linked_list_entry old user_page_table_level_1
          None None None None STACK_CODE_PAGE USERSPACE;
        _ ← pset process_conf page_tables_lvl_1_list node;
        _ ← in_frames (configure_page_entry (pte_at user_page_table_level_2 USERSPACE)
              user_page_table_level_1 false false false true KILO);
        app ← pget process_conf app_pointer;
        match app with
        | None => mret (-1)
        | Some app =>
            or_fail (add_frames_process process_conf (code_size_of app) heap_size (wrapS 32 size))
              (or_fail (process_frames_alloc process_conf) (mret 0))
        end.

End ProcessMemory.
