(* ===== verification/PageFilling.v ===== *)
(** * PageFilling: the writes of the allocation of a process's memory

    The loops of [allocate_memory_final] described as a list of jobs, one per
    page (which entry of which table maps which frame, filled from where), and
    of links from the level-1 table to the level-0 tables.  [mapped] relates
    the memory before and after such a run; runs compose. *)

From S2P Require Import Prelude.
From S2P Require Import Queue.
From S2P Require Import FrameDist.
From S2P Require Import Pages.
From S2P Require Import Kernel.
From S2P Require Import KernelRules.
From S2P Require Import ProcessMemory.
#[local] Open Scope Z_scope.

(** ** The copy of the program *)

Section Filling.
Context `{E : KEnv}.
Implicit Types (m : fmem) (c : data_cursor).

(** The cursor after a page. *)
Definition next_cursor c : data_cursor :=
  if writing_data c then
    if data_left c <? 0 then mk_cursor false (data_pointer c) (data_left c)
    else mk_cursor true (data_pointer c + FRAME_SIZE) (wrapS 32 (data_left c - FRAME_SIZE))
  else c.
Definition cursor_at c (g : nat) : data_cursor := Nat.iter g next_cursor c.

(** Word [i] of the page that cursor [c] puts in frame [f]. *)
Definition frame_content m c (f i : Z) : Z :=
  if writing_data c then
    if data_left c <? 0 then word m (pte_at f i) else word m (pte_at (data_pointer c) i)
  else 0.

(** The program the cursor reads lies in the kernel image, below the frames. *)
Definition cursor_ok c : Prop :=
  writing_data c = true ->
  ram_start <= data_pointer c /\ data_pointer c mod 8 = 0 /\ - FRAME_SIZE <= data_left c < 2 ^ 31 /\
  (0 <= data_left c -> data_pointer c + data_left c + FRAME_SIZE <= free_memory_start).

Lemma next_cursor_ok c : cursor_ok c -> cursor_ok (next_cursor c).
Proof.
  unfold cursor_ok, next_cursor. intros Hc. destruct (writing_data c) eqn:W; [|by rewrite W].
  destruct (Hc eq_refl) as (Hp & Hm & Hl & Ht). rewrite FRAME_SIZE_eq in *.
  destruct (Z.ltb_spec (data_left c) 0); simpl; [done|]. intros _. rewrite wrapS_id by lia.
  split_and!; [lia| |lia|lia|lia]. rewrite Z.add_mod, Hm by lia. done.
Qed.

Lemma cursor_at_ok c g : cursor_ok c -> cursor_ok (cursor_at c g).
Proof. intros Hc. induction g as [|g IH]; [done|]. by apply next_cursor_ok. Qed.

Lemma cursor_at_add c g h : cursor_at (cursor_at c g) h = cursor_at c (g + h).
Proof. unfold cursor_at. by rewrite Nat.add_comm, Nat.iter_add. Qed.

Lemma below_not_frame a : a < free_memory_start -> ~ is_frame (frame_of a).
Proof.
  intros Ha [[Hf _] _]. unfold frame_of in Hf. pose proof layout_align_start. mlia.
Qed.

Lemma frame_of_at f i : is_frame f -> 0 <= i < 512 -> frame_of (pte_at f i) = f.
Proof. apply pte_at_frame. Qed.

(** Copying a frame from memory that is not in it. *)
Lemma memcpy_words_spec k : forall f src i m,
  is_frame f -> 0 <= i -> i + Z.of_nat k <= 512 ->
  (forall j, i <= j < 512 -> addr_ok (pte_at src j) = true /\ frame_of (pte_at src j) <> f) ->
  wp (memcpy_words k (pte_at f i) (pte_at src i)) (fun _ m' => mem_ptr m' = mem_ptr m /\
    (forall j, i <= j < i + Z.of_nat k -> word m' (pte_at f j) = word m (pte_at src j)) /\
    (forall a, (forall j, i <= j < i + Z.of_nat k -> a <> pte_at f j) -> word m' a = word m a)) m.
Proof.
  induction k as [|k IH]; intros f src i m Hf Hi Hk Hs; simpl.
  - apply wp_ret. split; [done|]. split; [lia|done].
  - destruct (Hs i ltac:(lia)) as [Hok Hne]. apply wp_bind, wp_load; [done|].
    apply wp_bind, wp_store; [apply pte_at_addr; [done|lia]|].
    replace (pte_at f i + 8) with (pte_at f (i + 1)) by (unfold pte_at; lia).
    replace (pte_at src i + 8) with (pte_at src (i + 1)) by (unfold pte_at; lia).
    eapply wp_mono; [apply IH; [done|lia|lia|]; intros j Hj; apply Hs; lia|].
    intros [] m' (Hp & Hw & Ho). split; [done|]. split.
    + intros j Hj. destruct (decide (j = i)) as [->|Hn].
      * rewrite Ho; [by rewrite word_insert, decide_True|]. intros j' Hj' Eq. unfold pte_at in Eq. lia.
      * rewrite Hw by lia. rewrite word_insert, decide_False; [done|]. intros Eq.
        destruct (Hs j ltac:(lia)) as [_ Hj']. apply Hj'. rewrite <- Eq. apply frame_of_at; [done|lia].
    + intros a Ha. rewrite Ho by (intros j Hj; apply Ha; lia). rewrite word_insert, decide_False; [done|].
      intros Eq. apply (Ha i); [lia|done].
Qed.

Lemma memcpy_frame_spec f src m :
  is_frame f -> (forall j, 0 <= j < 512 -> addr_ok (pte_at src j) = true /\ frame_of (pte_at src j) <> f) ->
  wp (memcpy_words FRAME_WORDS f src) (fun _ m' => mem_ptr m' = mem_ptr m /\ only_in f m m' /\
    forall j, 0 <= j < 512 -> word m' (pte_at f j) = word m (pte_at src j)) m.
Proof.
  intros Hf Hs. replace f with (pte_at f 0) at 1 by (unfold pte_at; lia).
  replace src with (pte_at src 0) at 1 by (unfold pte_at; lia).
  eapply wp_mono; [apply (memcpy_words_spec 512 f src 0); [done|lia|lia|exact Hs]|].
  intros [] m' (Hp & Hw & Ho). split_and!; [done| |intros j Hj; apply Hw; lia].
  intros a Ha. apply Ho. intros j Hj ->. apply Ha. apply frame_of_at; [done|lia].
Qed.

(** Every address the cursor reads. *)
Lemma cursor_source c j :
  cursor_ok c -> writing_data c = true -> 0 <= data_left c -> 0 <= j < 512 ->
  addr_ok (pte_at (data_pointer c) j) = true /\ ~ is_frame (frame_of (pte_at (data_pointer c) j)).
Proof.
  intros Hc W Hl Hj. destruct (Hc W) as (Hp & Hm & _ & Ht). specialize (Ht Hl). rewrite FRAME_SIZE_eq in Ht.
  pose proof layout_free. split; [|apply below_not_frame; unfold pte_at; lia].
  unfold addr_ok, pte_at. assert ((data_pointer c + 8 * j) mod 8 = 0) as ->.
  { rewrite Z.mul_comm, Z.mod_add by lia. done. }
  rewrite Z.eqb_refl. lia.
Qed.

(** *** One page *)

(** A page the allocation loops make: entry [j_index] of the table [j_table]
    maps the frame [j_frame], filled at the cursor [j_cursor]. *)
Record job : Type := mk_job { j_table : Z; j_index : Z; j_frame : Z; j_cursor : data_cursor }.
Definition job_entry (b : job) : Z := pte_at (j_table b) (j_index b).

Record job_done m m' (b : job) : Prop := {
  jd_entry : table_entry m' (j_table b) (j_index b) =
    kilo_entry (table_entry m (j_table b) (j_index b)) (j_frame b) true true
      (writing_data (next_cursor (j_cursor b))) true;
  jd_content : forall i, 0 <= i < 512 -> word m' (pte_at (j_frame b) i) = frame_content m (j_cursor b) (j_frame b) i
}.

Record job_ok (b : job) : Prop := {
  jo_table : is_frame (j_table b);
  jo_index : 0 <= j_index b < 512;
  jo_frame : is_frame (j_frame b);
  jo_cursor : cursor_ok (j_cursor b)
}.

Lemma fill_frame_spec c f m :
  is_frame f -> cursor_ok c ->
  wp (if writing_data c then
        if data_left c <? 0 then mret (mk_cursor false (data_pointer c) (data_left c))
        else
          _ ← memcpy_words FRAME_WORDS f (data_pointer c);
          mret (mk_cursor true (data_pointer c + FRAME_SIZE) (wrapS 32 (data_left c - FRAME_SIZE)))
      else _ ← memset_words FRAME_WORDS f; mret c)
    (fun c' m' => c' = next_cursor c /\ mem_ptr m' = mem_ptr m /\ only_in f m m' /\
      forall i, 0 <= i < 512 -> word m' (pte_at f i) = frame_content m c f i) m.
Proof.
  intros Hf Hc. unfold next_cursor, frame_content. destruct (writing_data c) eqn:W.
  - destruct (Z.ltb_spec (data_left c) 0); [by apply wp_ret|].
    apply wp_bind. eapply wp_mono; [apply memcpy_frame_spec; [done|]|].
    { intros j Hj. destruct (cursor_source c j) as [Hok Hn]; [done..|]. split; [done|]. intros Eq. by rewrite Eq in Hn. }
    intros [] m' (Hp & Ho & Hw). by apply wp_ret.
  - apply wp_bind. eapply wp_mono; [by apply memset_frame_spec|]. intros [] m' (Hp & Ho & Hw). by apply wp_ret.
Qed.

Implicit Types (s : kstate).

Lemma allocate_frame_spec (b : job) free s :
  job_ok b -> j_table b <> j_frame b -> j_table b ∉ free -> free <> [] ->
  free_ok (frame_mem s) (j_frame b :: free) ->
  wp (allocate_frame (job_entry b) (j_cursor b)) (fun r s' => r = Some (next_cursor (j_cursor b)) /\
    exists m', s' = s <| frame_mem := m' |> /\ free_ok m' free /\ job_done (frame_mem s) m' b /\
      forall a, frame_of a <> j_frame b -> a <> job_entry b -> word m' a = word (frame_mem s) a) s.
Proof.
  destruct b as [t j f c]. unfold job_entry. simpl. intros [Ht Hj Hf Hc] Htf Htfree Hn Hok. simpl in *.
  unfold allocate_frame. apply wp_bind, wp_in_frames.
  eapply wp_intro; [rewrite (get_frame_spec _ _ _ Hok), decide_False by done; done|].
  pose proof (get_frame_ok _ _ _ Hok Hn) as Hok1. pose proof (is_frame_pos f Hf).
  destruct (Z.eqb_spec f 0); [lia|]. set (m1 := mk_fmem _ _) in *. apply wp_bind.
  assert (Hnf : f ∉ free) by (by apply fo_nodup, NoDup_cons in Hok as [? _]).
  eapply wp_mono with (P := fun c' s' => exists m', s' = s <| frame_mem := m' |> /\ c' = next_cursor c /\
    mem_ptr m' = mem_ptr m1 /\ only_in f m1 m' /\
    forall i, 0 <= i < 512 -> word m' (pte_at f i) = frame_content m1 c f i).
  { pose proof (fill_frame_spec c f m1 Hf Hc) as Hfill. destruct (writing_data c).
    - destruct (data_left c <? 0).
      + apply wp_ret. eexists. split; [done|exact Hfill].
      + apply wp_bind, wp_in_frames. apply wp_bind_inv in Hfill. eapply wp_mono; [exact Hfill|].
        intros [] m' Hw. apply wp_ret. by exists m'.
    - apply wp_bind, wp_in_frames. apply wp_bind_inv in Hfill. eapply wp_mono; [exact Hfill|].
      intros [] m' Hw. apply wp_ret. by exists m'. }
  intros c' s' (m2 & -> & -> & Hp & Ho & Hw). apply wp_bind, wp_in_frames. simpl.
  eapply wp_configure; [by apply pte_at_addr|apply configured_kilo|]. apply wp_ret. split; [done|].
  eexists. split; [done|]. fold (table_entry m2 t j).
  assert (Et : forall i, 0 <= i < 512 -> word m2 (pte_at t i) = word (frame_mem s) (pte_at t i)).
  { intros i Hi. rewrite Ho; [done|]. by rewrite frame_of_at. }
  split; [|split; [split|]]; simpl.
  - apply free_ok_store; [|by rewrite pte_at_frame]. by eapply free_ok_only_in.
  - unfold table_entry. rewrite word_insert, decide_True by done. rewrite Et by done.
    apply pte_of_word_of_pte. auto with xinul.
  - intros i Hi. rewrite word_insert, decide_False; [by apply Hw|]. intros Eq.
    apply (pte_at_inj t f) in Eq as [Eq _]; done.
  - intros a Hfa Ha. rewrite word_insert, decide_False by done. by rewrite Ho.
Qed.

(** *** Many pages

    A run of the allocation loops writes links from the level-1 table [l1] to
    level-0 tables and does jobs. *)
Definition link_entry (l1 : Z) (k : Z * Z) : Z := pte_at l1 k.1.

Definition outside (l1 : Z) (links : list (Z * Z)) (jobs : list job) (a : Z) : Prop :=
  frame_of a ∉ (j_frame <$> jobs) /\ a ∉ (job_entry <$> jobs) /\ a ∉ (link_entry l1 <$> links).

Record mapped m m' (l1 : Z) (links : list (Z * Z)) (jobs : list job) : Prop := {
  mp_links : forall i t, (i, t) ∈ links ->
    table_entry m' l1 i = kilo_entry (table_entry m l1 i) t false false false true;
  mp_jobs : forall b, b ∈ jobs -> job_done m m' b;
  mp_rest : forall a, outside l1 links jobs a -> word m' a = word m a
}.

(** No write of the run hits what another one needs. *)
Record plan_ok (l1 : Z) (links : list (Z * Z)) (jobs : list job) : Prop := {
  po_l1 : is_frame l1;
  po_links : Forall (fun k => 0 <= k.1 < 512) links;
  po_links_nodup : NoDup links.*1;
  po_jobs : Forall job_ok jobs;
  po_entries : NoDup (job_entry <$> jobs);
  po_frames : NoDup (j_frame <$> jobs);
  po_tables : Forall (fun b => j_table b <> l1 /\ j_table b ∉ (j_frame <$> jobs)) jobs;
  po_l1_frames : l1 ∉ (j_frame <$> jobs)
}.

#[export] Instance plan_ok_proper l1 : Proper ((≡ₚ) ==> (≡ₚ) ==> iff) (plan_ok l1).
Proof.
  assert (Himp : forall k k' b b', k ≡ₚ k' -> b ≡ₚ b' -> plan_ok l1 k b -> plan_ok l1 k' b').
  { intros k k' b b' Hk Hb [H1 H2 H3 H4 H5 H6 H7 H8]. split; [done|rewrite <- Hk; done|..].
    - by rewrite <- Hk.
    - by rewrite <- Hb.
    - by rewrite <- Hb.
    - by rewrite <- Hb.
    - rewrite <- Hb. eapply Forall_impl; [exact H7|]. intros x [? ?]. split; [done|]. by rewrite <- Hb.
    - by rewrite <- Hb. }
  intros k k' Hk b b' Hb. split; apply Himp; done.
Qed.

Lemma plan_ok_app_l l1 k1 k2 b1 b2 : plan_ok l1 (k1 ++ k2) (b1 ++ b2) -> plan_ok l1 k1 b1.
Proof.
  intros [H1 H2 H3 H4 H5 H6 H7 H8]. rewrite !fmap_app in *.
  apply Forall_app in H2 as [H2 _]. apply Forall_app in H4 as [H4 _].
  apply NoDup_app in H3 as (H3 & _). apply NoDup_app in H5 as (H5 & _). apply NoDup_app in H6 as (H6 & _).
  apply Forall_app in H7 as [H7 _]. rewrite elem_of_app in H8. split; try tauto.
  eapply Forall_impl; [exact H7|]. intros x [? Hx]. rewrite elem_of_app in Hx. tauto.
Qed.

(** A later run leaves alone what an earlier one wrote or will write. *)
Lemma outside_link l1 k1 k2 b1 b2 k :
  plan_ok l1 (k1 ++ k2) (b1 ++ b2) -> k ∈ k1 -> outside l1 k2 b2 (link_entry l1 k).
Proof.
  intros [H1 H2 H3 H4 _ _ H7 H8] Hk. rewrite !fmap_app in *. apply Forall_app in H2 as [H2 H2'].
  rewrite Forall_forall in H2. rewrite Forall_forall in H2'. pose proof (H2 _ Hk) as Hi. unfold link_entry. split_and!.
  - rewrite frame_of_at by done. rewrite elem_of_app in H8. tauto.
  - intros (b & Eq & Hb)%list_elem_of_fmap. rewrite Forall_forall in H7. rewrite Forall_forall in H4.
    assert (Hb' : b ∈ b1 ++ b2) by (apply elem_of_app; by right). destruct (H4 _ Hb') as [Ht Hj _ _].
    apply pte_at_inj in Eq as [Eq _]; [|done..]. by destruct (H7 _ Hb').
  - intros (k' & Eq & Hk')%list_elem_of_fmap. apply pte_at_inj in Eq as [_ Eq]; [|by auto..].
    apply NoDup_app in H3 as (_ & H3 & _). apply (H3 k.1); [by apply list_elem_of_fmap_2|].
    rewrite Eq. by apply list_elem_of_fmap_2.
Qed.

Lemma outside_job l1 k1 k2 b1 b2 b :
  plan_ok l1 (k1 ++ k2) (b1 ++ b2) -> b ∈ b1 ->
  outside l1 k2 b2 (job_entry b) /\ forall i, 0 <= i < 512 -> outside l1 k2 b2 (pte_at (j_frame b) i).
Proof.
  intros [H1 H2 H3 H4 H5 H6 H7 H8] Hb. rewrite !fmap_app in *. apply Forall_app in H2 as [_ H2].
  rewrite Forall_forall in H2. rewrite Forall_forall in H4. rewrite Forall_forall in H7. assert (Hb' : b ∈ b1 ++ b2) by (apply elem_of_app; by left).
  destruct (H4 _ Hb') as [Ht Hj Hf _], (H7 _ Hb') as [Hl Hn]. rewrite elem_of_app in Hn, H8.
  apply NoDup_app in H5 as (_ & H5 & _). apply NoDup_app in H6 as (_ & H6 & _).
  assert (Hl1 : forall k, k ∈ k2 -> 0 <= k.1 < 512) by auto.
  split; [split_and!|intros i Hi; split_and!].
  - unfold job_entry. rewrite frame_of_at by done. tauto.
  - apply H5. by apply list_elem_of_fmap_2.
  - intros (k & Eq & Hk)%list_elem_of_fmap. apply pte_at_inj in Eq as [Eq _]; [done|done|done|done|by auto].
  - rewrite frame_of_at by done. apply H6. by apply list_elem_of_fmap_2.
  - intros (b' & Eq & Hb2)%list_elem_of_fmap. assert (Hin : b' ∈ b1 ++ b2) by (apply elem_of_app; by right).
    destruct (H4 _ Hin) as [Ht' Hj' _ _], (H7 _ Hin) as [_ Hn'].
    apply pte_at_inj in Eq as [Eq _]; [|done..]. apply Hn'. rewrite <- Eq, elem_of_app. left. by apply list_elem_of_fmap_2.
  - intros (k & Eq & Hk)%list_elem_of_fmap. apply pte_at_inj in Eq as [Eq _]; [|done|done|done|by auto].
    apply H8. left. rewrite <- Eq. by apply list_elem_of_fmap_2.
Qed.

(** The program that is copied is not written either. *)
Lemma outside_program l1 links jobs a :
  plan_ok l1 links jobs -> ~ is_frame (frame_of a) -> outside l1 links jobs a.
Proof.
  intros [H1 H2 _ H4 _ _ _ _] Ha. rewrite Forall_forall in H2. rewrite Forall_forall in H4. split_and!.
  - intros (b & Eq & Hb)%list_elem_of_fmap. apply Ha. rewrite Eq. by apply H4.
  - intros (b & -> & Hb)%list_elem_of_fmap. apply Ha. destruct (H4 _ Hb). unfold job_entry. by rewrite frame_of_at.
  - intros (k & -> & Hk)%list_elem_of_fmap. apply Ha. unfold link_entry. rewrite frame_of_at; [done|done|by auto].
Qed.

Lemma outside_frames l1 links jobs a :
  plan_ok l1 links jobs -> frame_of a <> l1 ->
  (forall b, b ∈ jobs -> frame_of a <> j_table b /\ frame_of a <> j_frame b) -> outside l1 links jobs a.
Proof.
  intros [H1 H2 _ H4 _ _ _ _] Ha Hb. rewrite Forall_forall in H2. rewrite Forall_forall in H4. split_and!.
  - intros (b & Eq & Hin)%list_elem_of_fmap. by apply (Hb b Hin).
  - intros (b & -> & Hin)%list_elem_of_fmap. destruct (H4 _ Hin), (Hb b Hin) as [Hx _]. apply Hx. unfold job_entry. by apply frame_of_at.
  - intros (k & -> & Hk)%list_elem_of_fmap. apply Ha. unfold link_entry. apply frame_of_at; [done|by auto].
Qed.

Lemma outside_app l1 k1 k2 b1 b2 a :
  outside l1 (k1 ++ k2) (b1 ++ b2) a <-> outside l1 k1 b1 a /\ outside l1 k2 b2 a.
Proof. unfold outside. rewrite !fmap_app, !elem_of_app. tauto. Qed.

Lemma mapped_nil l1 m : mapped m m l1 [] [].
Proof. by split; [intros ? ? []%not_elem_of_nil|intros ? []%not_elem_of_nil|]. Qed.

Lemma mapped_trans l1 m1 m2 m3 k1 k2 b1 b2 :
  mapped m1 m2 l1 k1 b1 -> mapped m2 m3 l1 k2 b2 -> plan_ok l1 (k1 ++ k2) (b1 ++ b2) ->
  mapped m1 m3 l1 (k1 ++ k2) (b1 ++ b2).
Proof.
  intros [HL1 HJ1 HR1] [HL2 HJ2 HR2] Hp.
  assert (Hq : plan_ok l1 (k2 ++ k1) (b2 ++ b1)) by (by rewrite (Permutation_app_comm k2), (Permutation_app_comm b2)).
  split.
  - intros i t [Hi|Hi]%elem_of_app.
    + rewrite <- (HL1 _ _ Hi). unfold table_entry. f_equal. exact (HR2 _ (outside_link _ _ _ _ _ _ Hp Hi)).
    + rewrite (HL2 _ _ Hi). unfold table_entry. do 2 f_equal. exact (HR1 _ (outside_link _ _ _ _ _ _ Hq Hi)).
  - intros b [Hb|Hb]%elem_of_app.
    + destruct (outside_job _ _ _ _ _ _ Hp Hb) as [He Hc], (HJ1 _ Hb) as [J1 J2]. split.
      * rewrite <- J1. unfold table_entry. f_equal. exact (HR2 _ He).
      * intros i Hi. rewrite (HR2 _ (Hc i Hi)). by apply J2.
    + destruct (outside_job _ _ _ _ _ _ Hq Hb) as [He Hc], (HJ2 _ Hb) as [J1 J2]. split.
      * rewrite J1. unfold table_entry. do 2 f_equal. exact (HR1 _ He).
      * intros i Hi. rewrite J2 by done. unfold frame_content.
        destruct (writing_data (j_cursor b)) eqn:W; [|done]. destruct (Z.ltb_spec (data_left (j_cursor b)) 0).
        -- by rewrite (HR1 _ (Hc i Hi)).
        -- apply HR1. eapply outside_program; [by eapply plan_ok_app_l|].
           pose proof (po_jobs _ _ _ Hq) as Hok. rewrite Forall_forall in Hok.
           destruct (Hok b) as [_ _ _ Hcur]; [apply elem_of_app; by left|]. by apply cursor_source.
  - intros a [Ha1 Ha2]%outside_app. by rewrite HR2, HR1.
Qed.

(** *** The loops of [allocate_memory_final] *)

Definition kilo_jobs (t i : Z) c (fs : list Z) : list job :=
  imap (fun j f => mk_job t (i + Z.of_nat j) f (cursor_at c j)) fs.

Fixpoint mega_jobs c (blocks : list (Z * list Z)) : list job :=
  match blocks with
  | [] => []
  | (t, fs) :: blocks => kilo_jobs t 0 c fs ++ mega_jobs (cursor_at c (length fs)) blocks
  end.
Definition mega_links (i : Z) (blocks : list (Z * list Z)) : list (Z * Z) :=
  imap (fun j b => (i + Z.of_nat j, b.1)) blocks.

Lemma kilo_jobs_cons t i c f fs :
  kilo_jobs t i c (f :: fs) = mk_job t i f c :: kilo_jobs t (i + 1) (next_cursor c) fs.
Proof.
  unfold kilo_jobs. simpl. f_equal; [f_equal; lia|]. apply imap_ext. intros j g _. simpl. f_equal; [lia|].
  unfold cursor_at. by rewrite <- Nat.iter_succ_r.
Qed.

Lemma mega_links_cons i b blocks : mega_links i (b :: blocks) = (i, b.1) :: mega_links (i + 1) blocks.
Proof.
  unfold mega_links. simpl. f_equal; [f_equal; lia|]. apply imap_ext. intros j g _. simpl. f_equal. lia.
Qed.

Lemma kilo_jobs_frames t i c fs : j_frame <$> kilo_jobs t i c fs = fs.
Proof. revert i c. induction fs as [|f fs IH]; intros i c; [done|]. rewrite kilo_jobs_cons. csimpl. by rewrite IH. Qed.

Lemma mega_jobs_frames c blocks : j_frame <$> mega_jobs c blocks = concat blocks.*2.
Proof.
  revert c. induction blocks as [|[t fs] blocks IH]; intros c; [done|].
  csimpl. by rewrite fmap_app, kilo_jobs_frames, IH.
Qed.

Lemma allocate_job_spec l1 b free s :
  plan_ok l1 [] [b] -> j_table b ∉ free -> free <> [] -> free_ok (frame_mem s) (j_frame b :: free) ->
  wp (allocate_frame (job_entry b) (j_cursor b)) (fun r s' => r = Some (next_cursor (j_cursor b)) /\
    exists m', s' = s <| frame_mem := m' |> /\ free_ok m' free /\ mapped (frame_mem s) m' l1 [] [b]) s.
Proof.
  intros Hp Ht Hn Hok. pose proof (po_jobs _ _ _ Hp) as [Hb _]%Forall_cons.
  pose proof (po_tables _ _ _ Hp) as [[_ Htf] _]%Forall_cons. csimpl in Htf. rewrite list_elem_of_singleton in Htf.
  eapply wp_mono; [by apply allocate_frame_spec|]. intros r s' (-> & m' & -> & Hok' & Hd & Hr).
  split; [done|]. exists m'. split; [done|]. split; [done|]. split.
  - intros ? ? []%not_elem_of_nil.
  - by intros ? ->%list_elem_of_singleton.
  - intros a (H1 & H2 & _). csimpl in *. rewrite list_elem_of_singleton in *. by apply Hr.
Qed.

Lemma allocate_kilo_pages_spec l1 t fs : forall i c free s,
  plan_ok l1 [] (kilo_jobs t i c fs) -> t ∉ free -> free <> [] -> free_ok (frame_mem s) (fs ++ free) ->
  wp (allocate_kilo_pages (length fs) t i c) (fun r s' => r = Some (cursor_at c (length fs)) /\
    exists m', s' = s <| frame_mem := m' |> /\ free_ok m' free /\
      mapped (frame_mem s) m' l1 [] (kilo_jobs t i c fs)) s.
Proof.
  induction fs as [|f fs IH]; intros i c free s Hp Ht Hn Hok; simpl.
  - apply wp_ret. split; [done|]. exists (frame_mem s). split; [by destruct s|]. split; [done|]. apply mapped_nil.
  - rewrite kilo_jobs_cons in *. apply wp_bind.
    pose proof (plan_ok_app_l l1 [] [] [_] _ Hp) as Hp1.
    assert (Hp2 : plan_ok l1 [] (kilo_jobs t (i + 1) (next_cursor c) fs)).
    { apply (plan_ok_app_l l1 [] [] _ [mk_job t i f c]). by rewrite (Permutation_app_comm _ [_]). }
    pose proof (po_tables _ _ _ Hp) as [[_ Htf] _]%Forall_cons. csimpl in Htf.
    rewrite kilo_jobs_frames in Htf. rewrite elem_of_cons in Htf.
    eapply wp_mono; [eapply (allocate_job_spec l1 (mk_job t i f c) (fs ++ free) s); [done| |by destruct fs|done]|].
    { rewrite elem_of_app. simpl. tauto. }
    intros r s' (-> & m' & -> & Hok' & Hm). simpl.
    eapply wp_mono; [apply IH; [done|done|done|exact Hok']|]. intros r s' (-> & m2 & -> & Hok2 & Hm2).
    split; [f_equal; unfold cursor_at; by rewrite <- Nat.iter_succ_r|]. exists m2. split; [done|]. split; [done|].
    by apply (mapped_trans l1 _ m' _ [] [] [_]).
Qed.

(** The nodes of the tables, from pointer [h] up to pointer [e]. *)
Fixpoint nseg (ns : gmap ptr page_table_link_list_t) (h : option ptr) (l : list (ptr * page_table_link_list_t))
    (e : option ptr) : Prop :=
  match l with
  | [] => h = e
  | (p, n) :: l => h = Some p /\ ns !! p = Some n /\ nseg ns (next_page n) l e
  end.

(** What matters of a node: its index, its table and the number of its pages. *)
Definition view (n : page_table_link_list_t) : Z * Z * Z := (index n, pt_table n, usage n).
Definition block_view (i : Z) (b : Z * list Z) : Z * Z * Z := (i, b.1, Z.of_nat (length b.2)).

Lemma link_spec l1 i t free (Q : unit -> kstate -> Prop) s :
  is_frame l1 -> 0 <= i < 512 -> l1 ∉ free -> free_ok (frame_mem s) free ->
  (forall m', free_ok m' free -> mapped (frame_mem s) m' l1 [(i, t)] [] -> Q tt (s <| frame_mem := m' |>)) ->
  wp (in_frames (configure_page_entry (pte_at l1 i) t false false false true KILO)) Q s.
Proof.
  intros Hl Hi Hn Hok HQ. apply wp_in_frames. eapply wp_configure; [by apply pte_at_addr|apply configured_kilo|].
  apply HQ; [by apply free_ok_store; rewrite ?pte_at_frame|]. split.
  - intros ? ? [= -> ->]%list_elem_of_singleton. unfold table_entry at 1. rewrite word_insert, decide_True by done.
    apply pte_of_word_of_pte, kilo_entry_wf, pte_of_word_wf.
  - intros ? []%not_elem_of_nil.
  - intros a (_ & _ & Ha). rewrite word_insert, decide_False; [done|]. intros <-. apply Ha. csimpl. by left.
Qed.

Lemma allocate_mega_pages_spec l1 blocks : forall i h nds e c free s,
  nseg (pt_nodes s) h nds e -> view <$> nds.*2 = imap (fun j b => block_view (i + Z.of_nat j) b) blocks ->
  Forall is_frame blocks.*1 -> Forall (fun t => t ∉ free) blocks.*1 -> l1 ∉ free -> free <> [] ->
  Forall (fun b => b.1 ∉ concat blocks.*2) blocks ->
  plan_ok l1 (mega_links i blocks) (mega_jobs c blocks) -> free_ok (frame_mem s) (concat blocks.*2 ++ free) ->
  wp (allocate_mega_pages (length blocks) l1 i h c) (fun r s' => r = 0 /\
    exists m', s' = s <| frame_mem := m' |> /\ free_ok m' free /\
      mapped (frame_mem s) m' l1 (mega_links i blocks) (mega_jobs c blocks)) s.
Proof.
  induction blocks as [|[t fs] blocks IH]; intros i h nds e c free s Hseg Hv Hf Ht Hl Hn Hsep Hp Hok; simpl.
  { apply wp_ret. split; [done|]. exists (frame_mem s). split; [by destruct s|]. split; [done|]. apply mapped_nil. }
  destruct nds as [|[p n] nds]; [done|]. simpl in Hseg, Hv. destruct Hseg as (-> & Hpn & Hseg).
  injection Hv as Hi Htab Hu Hv. csimpl in *. rewrite Z.add_0_r in Hi.
  apply Forall_cons in Hf as [Hft Hf], Ht as [Htn Ht]. apply Forall_cons in Hsep as [Hst Hsep]. simpl in *.
  rewrite mega_links_cons in *. simpl in *. pose proof (po_l1_frames _ _ _ Hp) as Hlf.
  pose proof (po_links _ _ _ Hp) as [Hir _]%Forall_cons. simpl in Hir.
  rewrite fmap_app, kilo_jobs_frames, mega_jobs_frames, elem_of_app in Hlf.
  apply wp_bind. eapply wp_rd; [done|]. apply wp_bind. eapply wp_lift; [by rewrite Hi, Z.eqb_refl|].
  pose proof (is_frame_pos t Hft). rewrite Htab. destruct (Z.eqb_spec t 0); [lia|]. apply wp_bind.
  eapply link_spec; [apply Hp|done| |exact Hok|]. { rewrite !elem_of_app. tauto. }
  intros m1 Hok1 Hm1. apply wp_bind. rewrite Hu, Nat2Z.id.
  set (J1 := kilo_jobs t 0 c fs) in *. set (J2 := mega_jobs _ blocks) in *.
  assert (HpJ1 : plan_ok l1 [] J1) by (by apply (plan_ok_app_l l1 [] ((i, t) :: mega_links (i + 1) blocks) J1 J2)).
  assert (Hp2 : plan_ok l1 (mega_links (i + 1) blocks) J2).
  { apply (plan_ok_app_l l1 _ [(i, t)] J2 J1). rewrite (Permutation_app_comm _ [_]).
    by rewrite (Permutation_app_comm J2). }
  assert (Hp1 : plan_ok l1 [(i, t)] J1).
  { by apply (plan_ok_app_l l1 _ (mega_links (i + 1) blocks) J1 J2). }
  rewrite <- app_assoc in Hok1. rewrite elem_of_app in Hst. eapply wp_mono.
  { apply (allocate_kilo_pages_spec l1 t fs 0 c (concat blocks.*2 ++ free)); [done| | |exact Hok1].
    - rewrite elem_of_app. tauto.
    - intros [_ ?]%app_nil. done. }
  intros r s' (-> & m2 & -> & Hok2 & Hm2). simpl in Hm2. eapply wp_mono.
  { apply (IH (i + 1) (next_page n) nds e (cursor_at c (length fs)) free); try done.
    - etrans; [exact Hv|]. apply imap_ext. intros j b _. simpl. f_equal. lia.
    - eapply Forall_impl; [exact Hsep|]. intros b Hb. simpl in Hb. rewrite elem_of_app in Hb. tauto. }
  intros r s' (-> & m3 & -> & Hok3 & Hm3). split; [done|]. exists m3. split; [done|]. split; [done|].
  apply (mapped_trans l1 _ m2 _ [(i, t)] (mega_links (i + 1) blocks)); [|done|done].
  by apply (mapped_trans l1 _ m1 _ [(i, t)] [] []).
Qed.

End Filling.
