(* ===== verification/TableList.v ===== *)
(** * TableList: the list of the page tables of a process

    A process keeps the level-0 tables of its user gigabyte in a linked list
    under the node of its level-1 table.  [user_tables] describes that list by
    views (index, table, number of pages); the lemmas say how
    [add_frame_to_process] and the loops of [add_frames_process] grow it. *)

From S2P Require Import Prelude.
From S2P Require Import Queue.
From S2P Require Import FrameDist.
From S2P Require Import Pages.
From S2P Require Import Kernel.
From S2P Require Import KernelRules.
From S2P Require Import ProcessMemory.
From S2P Require Import PageFilling.
#[local] Open Scope Z_scope.

Abbreviation tview := (Z * Z * Z)%type.

Section TableList.
Context `{E : KEnv}.
Implicit Types (s : kstate) (ns : gmap ptr page_table_link_list_t) (l : list (ptr * page_table_link_list_t)).

(** ** Segments of nodes *)

Lemma nseg_app ns h l1 l2 e : nseg ns h (l1 ++ l2) e <-> exists m, nseg ns h l1 m /\ nseg ns m l2 e.
Proof.
  revert h. induction l1 as [|[p n] l1 IH]; intros h; simpl.
  - split; [by eauto|]. by intros (m & -> & ?).
  - rewrite IH. naive_solver.
Qed.

Lemma nseg_frame ns ns' h l e : (forall p, p ∈ l.*1 -> ns' !! p = ns !! p) -> nseg ns h l e -> nseg ns' h l e.
Proof.
  revert h. induction l as [|[p n] l IH]; intros h Hf; [done|]. intros (-> & Hp & Hl). csimpl in *.
  split; [done|]. split; [rewrite Hf; [done|by left]|]. apply IH; [|done]. intros q Hq. apply Hf. by right.
Qed.

Lemma nseg_head ns h l : nseg ns h l None -> h = fst <$> head l.
Proof. destruct l as [|[p n] l]; [done|]. by intros [-> _]. Qed.

Lemma nseg_length ns h l e : NoDup l.*1 -> nseg ns h l e -> (length l <= base.size ns)%nat.
Proof.
  intros Hnd Hl. rewrite <- (length_fmap fst), <- size_dom, <- (size_list_to_set (C := gset ptr)) by done.
  apply subseteq_size. intros p. rewrite elem_of_list_to_set. clear Hnd. revert h Hl.
  induction l as [|[q n] l IH]; intros h Hl Hp; csimpl in *; [by apply not_elem_of_nil in Hp|].
  destruct Hl as (-> & Hq & Hl). apply elem_of_cons in Hp as [->|Hp]; [by apply elem_of_dom|by eapply IH].
Qed.

(** The loops over the nodes skip those that do not fit. *)
Definition fits_in (a b : Z) (v : tview) : Prop := a <= v.1.1 <= b /\ v.2 < PT_SIZE.

Lemma find_room_skip a b pre : forall fuel h m s,
  nseg (pt_nodes s) h pre m -> Forall (fun v => ~ fits_in a b v) (view <$> pre.*2) ->
  find_lvl0_room (length pre + fuel) h a b s = find_lvl0_room fuel m a b s.
Proof.
  induction pre as [|[p n] pre IH]; intros fuel h m s Hl Hf; csimpl in *; [by subst|].
  destruct Hl as (-> & Hp & Hl). apply Forall_cons in Hf as [Hn Hf]. unfold fits_in in Hn. simpl in Hn.
  rewrite (run_bind _ _ s n s) by (by apply wp_run, wp_rd with n).
  destruct (Z.leb_spec a (index n)); simpl; [|by apply IH].
  destruct (Z.leb_spec (index n) b); simpl; [|by apply IH].
  destruct (Z.ltb_spec (usage n) PT_SIZE); [lia|by apply IH].
Qed.

Lemma find_room_here a b fuel p n s :
  pt_nodes s !! p = Some n -> fits_in a b (view n) -> find_lvl0_room (S fuel) (Some p) a b s = Ok (Some p, s).
Proof.
  intros Hp [Hi Hu]. simpl in *. rewrite (run_bind _ _ s n s) by (by apply wp_run, wp_rd with n).
  destruct (Z.leb_spec a (index n)); [|lia]. destruct (Z.leb_spec (index n) b); [|lia].
  by destruct (Z.ltb_spec (usage n) PT_SIZE); [|lia].
Qed.

Lemma find_index_skip i pre : forall fuel h m s,
  nseg (pt_nodes s) h pre m -> Forall (fun v : tview => v.1.1 <> i) (view <$> pre.*2) ->
  find_lvl1_node (length pre + fuel) h i s = find_lvl1_node fuel m i s.
Proof.
  induction pre as [|[p n] pre IH]; intros fuel h m s Hl Hf; csimpl in *; [by subst|].
  destruct Hl as (-> & Hp & Hl). apply Forall_cons in Hf as [Hn Hf]. simpl in Hn.
  rewrite (run_bind _ _ s n s) by (by apply wp_run, wp_rd with n).
  destruct (Z.eqb_spec (index n) i); [done|by apply IH].
Qed.

Lemma find_index_here i fuel p n s :
  pt_nodes s !! p = Some n -> index n = i -> find_lvl1_node (S fuel) (Some p) i s = Ok (Some p, s).
Proof.
  intros Hp Hi. simpl. rewrite (run_bind _ _ s n s) by (by apply wp_run, wp_rd with n). by rewrite Hi, Z.eqb_refl.
Qed.

(** ** The tables of a process *)

Record tables_rep s (l1p : ptr) (n1 : page_table_link_list_t) l : Prop := {
  tr_l1 : pt_nodes s !! l1p = Some n1;
  tr_seg : nseg (pt_nodes s) (head_page n1) l None;
  tr_tail : tail_page n1 = fst <$> last l;
  tr_nodup : NoDup (l1p :: l.*1)
}.

(** The level-1 table [t1], the views of the level-0 tables and the numbers
    of tables of the stack and code and of the heap.  A level-0 table counts
    pages only, and its node was allocated after the one of the level-1 table. *)
Definition plain (n : page_table_link_list_t) : Prop :=
  stack_usage n = 0 /\ heap_usage n = 0 /\ shared_memory_usage n = 0.
Definition user_tables s (l1p : ptr) (t1 : Z) (vs : list tview) (su hu : Z) : Prop :=
  exists n1 l, tables_rep s l1p n1 l /\ view <$> l.*2 = vs /\ pt_table n1 = t1 /\
    stack_usage n1 = su /\ heap_usage n1 = hu /\ shared_memory_usage n1 = 0 /\ usage n1 = su + hu /\
    Forall plain l.*2 /\ Forall (Pos.lt l1p) l.*1.
(** The nodes allocated before [p] are as they were. *)
Definition older_kept (p : ptr) s s' : Prop := forall r, (r < p)%positive -> pt_nodes s' !! r = pt_nodes s !! r.

Lemma view_inc n : 0 <= usage n < 512 -> view (inc_usage n) = (index n, pt_table n, usage n + 1).
Proof. intros Hu. unfold view, inc_usage. simpl. by rewrite wrapU_id by lia. Qed.

Lemma nseg_insert ns h pre p n post n' e :
  nseg ns h (pre ++ (p, n) :: post) e -> NoDup (pre ++ (p, n) :: post).*1 -> next_page n' = next_page n ->
  nseg (<[p := n']> ns) h (pre ++ (p, n') :: post) e.
Proof.
  rewrite fmap_app. csimpl. intros (m & Hpre & -> & Hp & Hpost)%nseg_app (_ & Hd & [Hn _]%NoDup_cons)%NoDup_app Hnx.
  apply nseg_app. exists (Some p). split.
  - eapply nseg_frame; [|exact Hpre]. intros q Hq. rewrite lookup_insert_ne; [done|]. intros ->. eapply Hd; [done|by left].
  - simpl. rewrite lookup_insert_eq, Hnx. split_and!; [done..|].
    eapply nseg_frame; [|exact Hpost]. intros q Hq. rewrite lookup_insert_ne; [done|]. by intros ->.
Qed.

Lemma tables_rep_insert s l1p n1 pre p n post n' :
  tables_rep s l1p n1 (pre ++ (p, n) :: post) -> next_page n' = next_page n ->
  tables_rep (s <| pt_nodes ::= <[p := n']> |>) l1p n1 (pre ++ (p, n') :: post).
Proof.
  intros [H1 H2 H3 H4] Hnx. assert (Hp : l1p <> p).
  { intros ->. apply NoDup_cons in H4 as [H4 _]. apply H4. rewrite fmap_app, elem_of_app. csimpl. right. by left. }
  pose proof H4 as [_ Hnd]%NoDup_cons. split; simpl.
  - by rewrite lookup_insert_ne.
  - by eapply nseg_insert.
  - rewrite H3. destruct (list_snoc_inv post) as [->|(post' & [q nq] & ->)].
    + by rewrite !last_snoc.
    + by rewrite !app_comm_cons, !app_assoc, !last_snoc.
  - rewrite fmap_app in *. exact H4.
Qed.

Lemma rep_fuel s l1p n1 l : tables_rep s l1p n1 l -> exists k, walk_fuel pt_nodes s = (length l + S k)%nat.
Proof.
  intros [_ Hs _ [_ Hn]%NoDup_cons]. pose proof (nseg_length _ _ _ _ Hn Hs). unfold walk_fuel.
  exists (base.size (pt_nodes s) - length l)%nat. lia.
Qed.

(** *** A page in a table that has room *)
Lemma add_frame_room s q x l1p t1 pre i t u post su hu ty (Q : Z -> kstate -> Prop) :
  ty <> SHARED_PAGE -> procs s !! q = Some x -> page_tables_lvl_1_list x = Some l1p ->
  user_tables s l1p t1 (pre ++ (i, t, u) :: post) su hu ->
  Forall (fun v => ~ fits_in (page_bounds ty).1 (page_bounds ty).2 v) pre ->
  fits_in (page_bounds ty).1 (page_bounds ty).2 (i, t, u) -> 0 <= u ->
  (forall ns, dom ns = dom (pt_nodes s) -> older_kept l1p s (s <| pt_nodes := ns |>) ->
    user_tables (s <| pt_nodes := ns |>) l1p t1 (pre ++ (i, t, u + 1) :: post) su hu -> Q 0 (s <| pt_nodes := ns |>)) ->
  wp (add_frame_to_process (Some q) ty) Q s.
Proof.
  intros Hty Hx Hl1 (n1 & l & Hrep & Hv & Ht & Hsu & Hhu & Hsh & Hus & Hpl & Hol) Hpre Hfit Hu HQ.
  pose proof (tr_l1 _ _ _ _ Hrep) as H1. pose proof (tr_seg _ _ _ _ Hrep) as Hseg.
  unfold add_frame_to_process. apply wp_bind. eapply wp_pget; [done|]. rewrite Hl1. apply wp_bind.
  eapply wp_rd; [exact H1|]. destruct (page_bounds ty) as [a b]. simpl in *. apply wp_bind, wp_gets.
  destruct (rep_fuel _ _ _ _ Hrep) as [k ->].
  apply fmap_app_inv in Hv as (v1 & v2 & -> & Hv2 & Ev). apply fmap_app_inv in Ev as (l1 & l2 & -> & -> & ->).
  symmetry in Hv2. apply fmap_cons_inv in Hv2 as (n & v3 & Hn & -> & Ev).
  apply fmap_cons_inv in Ev as ([p n'] & l3 & -> & -> & ->). simpl in *.
  apply nseg_app in Hseg as (m & Hpre' & -> & Hp & Hpost). apply wp_bind.
  rewrite length_app, <- Nat.add_assoc. eapply wp_intro.
  { rewrite (find_room_skip a b l1 _ _ _ _ Hpre' Hpre). simpl. rewrite Nat.add_succ_r.
    apply (find_room_here a b _ _ _ _ Hp). by rewrite <- Hn. }
  apply wp_bind. eapply wp_rd; [exact Hp|]. rewrite bool_decide_eq_false_2 by done.
  apply wp_bind. eapply (wp_wr pt_nodes); [exact Hp|]. apply wp_ret.
  apply (HQ (<[p := inc_usage n']> (pt_nodes s))).
  - rewrite dom_insert_L. apply elem_of_dom_2 in Hp. set_solver.
  - intros r Hr. simpl. rewrite lookup_insert_ne; [done|]. intros <-. rewrite fmap_app, Forall_app in Hol. csimpl in *.
    destruct Hol as [_ [Hol _]%Forall_cons]. lia.
  - exists n1, (l1 ++ (p, inc_usage n') :: l3). split; [by eapply tables_rep_insert|]. split.
    + rewrite !fmap_app. csimpl. injection Hn as -> -> ->. destruct Hfit as [_ Hfit]. simpl in Hfit. unfold PT_SIZE in Hfit.
      by rewrite view_inc by lia.
    + rewrite !fmap_app in *. csimpl in *. rewrite Forall_app, Forall_cons in *. repeat (split; [done|]). done.
Qed.

(** *** A new table

    The list after a node was linked at its end. *)
Lemma tables_rep_snoc s s' l1p n1 n1' l p n' :
  tables_rep s l1p n1 l -> p ∉ l1p :: l.*1 ->
  pt_nodes s' !! l1p = Some n1' -> pt_nodes s' !! p = Some n' -> next_page n' = None -> tail_page n1' = Some p ->
  match last l with
  | None => head_page n1' = Some p
  | Some (q, nq) => head_page n1' = head_page n1 /\ pt_nodes s' !! q = Some (nq <| next_page := Some p |>)
  end ->
  (forall r, r <> l1p -> r <> p -> Some r <> fst <$> last l -> pt_nodes s' !! r = pt_nodes s !! r) ->
  exists l', tables_rep s' l1p n1' (l' ++ [(p, n')]) /\ view <$> l'.*2 = view <$> l.*2 /\ l'.*1 = l.*1 /\
    (Forall plain l.*2 -> Forall plain l'.*2).
Proof.
  intros [H1 Hs Ht Hnd] Hp H1' Hp' Hnx Ht' Hlast Ho.
  rewrite not_elem_of_cons in Hp. destruct Hp as [Hpl Hp]. apply NoDup_cons in Hnd as [Hl1 Hnd].
  destruct (list_snoc_inv l) as [->|(pre & [q nq] & ->)].
  - exists []. split; [|done]. split; [done|by rewrite Hlast|done|]. repeat constructor; set_solver.
  - rewrite last_snoc in Hlast, Ho. destruct Hlast as [Hh Hq]. exists (pre ++ [(q, nq <| next_page := Some p |>)]).
    rewrite fmap_app in Hl1, Hp, Hnd. csimpl in *. pose proof Hnd as (_ & Hd & _)%NoDup_app.
    rewrite elem_of_app, list_elem_of_singleton in Hl1, Hp. split; [|by rewrite !fmap_app; csimpl; rewrite !Forall_app, !Forall_cons]. split.
    + done.
    + rewrite Hh. apply nseg_app in Hs as (m & Hpre & -> & _). rewrite <- app_assoc. apply nseg_app.
      exists (Some q). split; [|done]. eapply nseg_frame; [|exact Hpre]. intros r Hr.
      apply Ho; [naive_solver..|]. intros [= ->]. apply (Hd q); [done|by left].
    + by rewrite last_snoc.
    + rewrite !fmap_app. csimpl. constructor.
      * rewrite !elem_of_app, !list_elem_of_singleton. naive_solver.
      * apply NoDup_app. split; [done|]. split; [|repeat constructor; set_solver].
        intros r Hr ->%list_elem_of_singleton. rewrite elem_of_app, list_elem_of_singleton in Hr. naive_solver.
Qed.

(** The place of a new table of each kind, and the counters of the parent
    after it. *)
Definition kind_index (ty : page_t) (n1 : page_table_link_list_t) : Z :=
  match ty with
  | STACK_CODE_PAGE => stack_usage n1
  | HEAP_PAGE => HEAP_SPACE_START + heap_usage n1
  | SHARED_PAGE => SHARED_MEMORY_START + shared_memory_usage n1
  end.
Definition one_if (b : bool) : Z := if b then 1 else 0.
Definition su_after (ty : page_t) (su : Z) : Z := su + one_if (bool_decide (ty = STACK_CODE_PAGE)).
Definition hu_after (ty : page_t) (hu : Z) : Z := hu + one_if (bool_decide (ty = HEAP_PAGE)).
Definition sh_after (ty : page_t) (sh : Z) : Z := sh + one_if (bool_decide (ty = SHARED_PAGE)).
Definition one_more (ty : page_t) (n1 : page_table_link_list_t) : page_table_link_list_t :=
  n1 <| usage := usage n1 + 1 |> <| stack_usage := su_after ty (stack_usage n1) |>
     <| heap_usage := hu_after ty (heap_usage n1) |> <| shared_memory_usage := sh_after ty (shared_memory_usage n1) |>.
Definition new_node (ty : page_t) (t : Z) (l1p : ptr) (n1 : page_table_link_list_t) : page_table_link_list_t :=
  mk_pt_link t (Some l1p) None None None 0 0 0 0 (kind_index ty n1).

(** The parent has room for one more table of any kind. *)
Record has_room (n1 : page_table_link_list_t) : Prop := {
  hr_stack : 0 <= stack_usage n1 < 128;
  hr_heap : 0 <= heap_usage n1 < 128;
  hr_shared : 0 <= shared_memory_usage n1 < 256;
  hr_usage : 0 <= usage n1 < 512
}.

Lemma pt_nodes_twice s f g : s <| pt_nodes ::= f |> <| pt_nodes ::= g |> = s <| pt_nodes ::= fun x => g (f x) |>.
Proof. done. Qed.
Lemma pt_nodes_const s f : s <| pt_nodes ::= f |> = s <| pt_nodes := f (pt_nodes s) |>.
Proof. done. Qed.

(** The node of the parent and the new node after
    [configure_page_table_linked_list_entry]. *)
Lemma configure_node_spec s l1p n1 t ty old (Q : Z * option ptr -> kstate -> Prop) :
  t <> 0 -> malloc_ok (next_block s) = true -> l1p <> next_block s ->
  pt_nodes s !! l1p = Some n1 -> has_room n1 ->
  (forall ns, let p := next_block s in
    ns = <[p := new_node ty t l1p n1]> (<[l1p := one_more ty n1]> (pt_nodes s)) ->
    Q (0, Some p) (s <| next_block ::= Pos.succ |> <| pt_nodes := ns |>)) ->
  wp (configure_page_table_linked_list_entry old t (Some l1p) None None None ty (-1)) Q s.
Proof.
  intros Ht Hok Hne H1 [Hsu Hhu Hsh Hu] HQ. unfold configure_page_table_linked_list_entry.
  destruct (Z.eqb_spec t 0); [done|]. apply wp_bind. eapply (wp_malloc pt_nodes); [done|done|].
  set (p := next_block s) in *. apply wp_bind, wp_bind. eapply wp_rd; [by simpl; rewrite lookup_insert_ne|].
  assert (Hfin : forall F, F (pt_nodes s) = <[p := new_node ty t l1p n1]> (<[l1p := one_more ty n1]> (pt_nodes s)) ->
    Q (0, Some p) (s <| next_block ::= Pos.succ |> <| pt_nodes ::= F |>)).
  { intros F HF. rewrite pt_nodes_const. by apply HQ. }
  assert (Hstep : forall g h : page_table_link_list_t -> page_table_link_list_t,
    g (mk_pt_link t (Some l1p) None None None 0 0 0 0 0) = new_node ty t l1p n1 ->
    inc_usage (h n1) = one_more ty n1 ->
    wp (_ ← wr pt_nodes (Some p) g; wr pt_nodes (Some l1p) h) (fun _ s' =>
      wp (wr pt_nodes (Some l1p) inc_usage) (fun _ s' => wp (mret (0, Some p)) Q s') s')
      (s <| next_block ::= Pos.succ |> <| pt_nodes ::= <[p := mk_pt_link t (Some l1p) None None None 0 0 0 0 0]> |>)).
  { intros g h Hg Hh. apply wp_bind. eapply (wp_wr pt_nodes); [by simpl; rewrite lookup_insert_eq|].
    eapply (wp_wr pt_nodes); [by simpl; rewrite !lookup_insert_ne|].
    eapply (wp_wr pt_nodes); [by simpl; rewrite lookup_insert_eq|]. apply wp_ret.
    rewrite !pt_nodes_twice. apply Hfin. rewrite Hg, Hh, !insert_insert_eq, insert_insert_ne by done. done. }
  destruct ty; apply wp_bind; (apply Hstep; [done|]);
    unfold inc_usage, one_more, su_after, hu_after, sh_after, upd; simpl; rewrite !wrapU_id by lia; by rewrite !Z.add_0_r.
Qed.

(** The node of a level-1 table. *)
Lemma configure_root_spec s t old i (Q : Z * option ptr -> kstate -> Prop) :
  t <> 0 -> malloc_ok (next_block s) = true ->
  Q (0, Some (next_block s)) (s <| next_block ::= Pos.succ |>
    <| pt_nodes ::= <[next_block s := mk_pt_link t None None None None 0 0 0 0 i]> |>) ->
  wp (configure_page_table_linked_list_entry old t None None None None STACK_CODE_PAGE i) Q s.
Proof.
  intros Ht Hok HQ. unfold configure_page_table_linked_list_entry. destruct (Z.eqb_spec t 0); [done|].
  apply wp_bind. eapply (wp_malloc pt_nodes); [done|done|]. apply wp_bind.
  eapply (wp_wr pt_nodes); [by simpl; rewrite lookup_insert_eq|]. apply wp_ret.
  rewrite pt_nodes_twice, pt_nodes_const. cbn beta. by rewrite insert_insert_eq.
Qed.

(** What a new table does to the state: frame [f] is taken and cleared, a node
    is allocated. *)
Record new_table s s' (f : Z) (free : list Z) : Prop := {
  nt_state : exists m ns, dom ns = {[next_block s]} ∪ dom (pt_nodes s) /\
    s' = s <| frame_mem := m |> <| next_block ::= Pos.succ |> <| pt_nodes := ns |>;
  nt_free : free_ok (frame_mem s') free;
  nt_frame : is_frame f /\ f ∉ free;
  nt_only : only_in f (frame_mem s) (frame_mem s');
  nt_zero : forall j, 0 <= j < 512 -> word (frame_mem s') (pte_at f j) = 0
}.

Lemma link_child_spec s l1p n1 n1' l p n' (Q : Z -> kstate -> Prop) :
  (forall ns, pt_nodes s = <[p := n']> (<[l1p := n1']> ns) -> tables_rep (s <| pt_nodes := ns |>) l1p n1 l ->
    p ∉ l1p :: l.*1 -> head_page n1' = head_page n1 -> tail_page n1' = tail_page n1 -> next_page n' = None ->
    (forall ns' n1'' l', dom ns' = dom (pt_nodes s) -> tables_rep (s <| pt_nodes := ns' |>) l1p n1'' (l' ++ [(p, n')]) ->
      view <$> l'.*2 = view <$> l.*2 /\ l'.*1 = l.*1 /\ (Forall plain l.*2 -> Forall plain l'.*2) ->
      (forall r, r ∉ l1p :: l.*1 -> ns' !! r = pt_nodes s !! r) -> (exists h, n1'' = n1' <| head_page := h |> <| tail_page := Some p |>) ->
      Q 0 (s <| pt_nodes := ns' |>)) ->
    wp (parent ← rd pt_nodes (Some l1p);
        _ ← match head_page parent, tail_page parent with
            | None, None => wr pt_nodes (Some l1p) (fun n => n <| head_page := Some p |> <| tail_page := Some p |>)
            | _, tail =>
                _ ← wr pt_nodes tail (fun n => n <| next_page := Some p |>);
                wr pt_nodes (Some l1p) (fun n => n <| tail_page := Some p |>)
            end;
        mret 0) Q s).
Proof.
  intros ns Hns Hrep Hp Hh Ht Hnx HQ. pose proof Hrep as [H1 Hs Htl Hnd]. simpl in *.
  rewrite not_elem_of_cons in Hp. destruct Hp as [Hpl Hp]. apply NoDup_cons in Hnd as [Hl1 Hnd].
  apply wp_bind. eapply wp_rd; [by rewrite Hns, lookup_insert_ne, lookup_insert_eq|]. rewrite Hh, Ht.
  destruct (list_snoc_inv l) as [->|(pre & [q nq] & ->)].
  - simpl in Hs, Htl. rewrite Hs, Htl. apply wp_bind. eapply (wp_wr pt_nodes).
    { by rewrite Hns, lookup_insert_ne, lookup_insert_eq. }
    apply wp_ret. rewrite pt_nodes_const. eapply (HQ _ _ []); [|split|done| |by eexists]; simpl.
    + rewrite dom_insert_L, Hns, !dom_insert_L. set_solver.
    + by rewrite lookup_insert_eq.
    + simpl. rewrite lookup_insert_ne by done. by rewrite Hns, lookup_insert_eq.
    + done.
    + repeat constructor; set_solver.
    + intros r Hr. rewrite lookup_insert_ne by set_solver. done.
  - rewrite last_snoc in Htl. rewrite Htl. apply nseg_app in Hs as (m & Hpre & -> & Hq & _).
    assert (Hm : exists x, head_page n1 = Some x) by (destruct pre as [|[a b] pre]; [by eexists|destruct Hpre; by eexists]).
    destruct Hm as [x Hx]. rewrite Hx. rewrite fmap_app in Hl1, Hp. csimpl in *.
    rewrite elem_of_app, list_elem_of_singleton in Hl1, Hp. simpl.
    assert (Hql : q <> l1p) by naive_solver. assert (Hqp : q <> p) by naive_solver.
    apply wp_bind, wp_bind. eapply (wp_wr pt_nodes). { rewrite Hns, !lookup_insert_ne by done. exact Hq. }
    eapply (wp_wr pt_nodes). { simpl. by rewrite Hns, lookup_insert_ne, lookup_insert_ne, lookup_insert_eq. }
    apply wp_ret. rewrite pt_nodes_twice, pt_nodes_const.
    match goal with |- Q 0 (_ <| pt_nodes := ?N |>) => set (ns' := N) end.
    destruct (tables_rep_snoc (s <| pt_nodes := ns |>) (s <| pt_nodes := ns' |>) l1p n1
      (n1' <| tail_page := Some p |>) (pre ++ [(q, nq)]) p n') as (l' & Hl' & Hv').
    + done.
    + rewrite fmap_app. csimpl. rewrite not_elem_of_cons, elem_of_app, list_elem_of_singleton. naive_solver.
    + simpl. subst ns'. by rewrite lookup_insert_eq.
    + simpl. subst ns'. by rewrite Hns, lookup_insert_ne, lookup_insert_ne, lookup_insert_eq.
    + done.
    + done.
    + rewrite last_snoc. split; [exact Hh|]. simpl. subst ns'. by rewrite lookup_insert_ne, lookup_insert_eq.
    + intros r Hr1 Hr2 Hr3. rewrite last_snoc in Hr3. simpl in *. subst ns'.
      rewrite Hns, !lookup_insert_ne; [done|congruence..].
    + eapply HQ; [|exact Hl'|done| |].
      * subst ns'. simpl. rewrite !dom_insert_L, Hns, !dom_insert_L. apply elem_of_dom_2 in Hq. set_solver.
      * intros r Hr. rewrite fmap_app in Hr. csimpl in *. rewrite not_elem_of_cons, not_elem_of_app, list_elem_of_singleton in Hr.
        subst ns'. rewrite !lookup_insert_ne by naive_solver. done.
      * exists (head_page n1'). by destruct n1'.
Qed.

Lemma user_tables_ext s s' l1p t1 vs su hu :
  pt_nodes s' = pt_nodes s -> user_tables s l1p t1 vs su hu -> user_tables s' l1p t1 vs su hu.
Proof.
  intros Hs (n1 & l & [H1 H2 H3 H4] & Hrest). exists n1, l. split; [|done]. by split; rewrite ?Hs.
Qed.

Lemma add_child_spec s l1p n1 l f free ty (Q : Z -> kstate -> Prop) :
  tables_rep s l1p n1 l -> has_room n1 ->
  free_ok (frame_mem s) (f :: free) -> free <> [] -> malloc_ok (next_block s) = true ->
  pt_nodes s !! next_block s = None ->
  (forall s' n1' l' h, new_table s s' f free ->
    tables_rep s' l1p n1' (l' ++ [(next_block s, new_node ty f l1p n1)]) ->
    view <$> l'.*2 = view <$> l.*2 /\ l'.*1 = l.*1 /\ (Forall plain l.*2 -> Forall plain l'.*2) ->
    (forall r, r ∉ next_block s :: l1p :: l.*1 -> pt_nodes s' !! r = pt_nodes s !! r) ->
    n1' = one_more ty n1 <| head_page := h |> <| tail_page := Some (next_block s) |> -> Q 0 s') ->
  wp (add_child_node_page_table (Some l1p) ty) Q s.
Proof.
  intros Hrep Hroom Hok Hn Hm Hfresh HQ. pose proof Hroom as [Hsr Hhr Hshr Hur].
  unfold add_child_node_page_table. pose proof (tr_l1 _ _ _ _ Hrep) as H1. apply wp_bind. eapply wp_rd; [exact H1|].
  unfold PT_SIZE, STACK_FRAME_SIZE, HEAP_FRAME_SIZE, SHARED_FRAME_SIZE.
  destruct (Z.leb_spec 512 (usage n1)); [lia|]. destruct (Z.leb_spec 128 (stack_usage n1)); [lia|].
  destruct (Z.leb_spec 128 (heap_usage n1)); [lia|]. destruct (Z.leb_spec 256 (shared_memory_usage n1)); [lia|].
  simpl. apply wp_bind, wp_in_frames.
  eapply wp_mono; [by apply create_page_table_spec|]. intros t m' Ht. cbn beta in Ht.
  rewrite decide_False in Ht by done. destruct Ht as (-> & Hff & Hnin & Hfree & Honly & Hz).
  pose proof (is_frame_pos f Hff). destruct (Z.eqb_spec f 0); [lia|]. apply wp_bind.
  assert (Hpl : next_block s ∉ l1p :: l.*1).
  { rewrite not_elem_of_cons. split; [congruence|]. intros ([p nd] & Ep & Hin)%list_elem_of_fmap. simpl in Ep.
    pose proof (tr_seg _ _ _ _ Hrep) as Hseg. apply list_elem_of_split in Hin as (l1 & l2 & El). rewrite El in Hseg.
    apply nseg_app in Hseg as (m & _ & _ & Hp & _). congruence. }
  apply (configure_node_spec _ _ n1); [lia|done|set_solver|done|done|].
  intros ns p Ens. simpl in Ens. simpl.
  eapply (link_child_spec _ _ n1 _ l p _); [exact Ens|by destruct Hrep|exact Hpl|done..|].
  intros ns' n1'' l' Hdom Hrep' Hv' Ho [h Hn1]. eapply HQ; [|exact Hrep'|exact Hv'| |exact Hn1].
  - split; [|done|done|done|done]. exists m', ns'. split; [|done]. rewrite Hdom. simpl. rewrite Ens, !dom_insert_L.
    apply elem_of_dom_2 in H1. set_solver.
  - intros r Hr. rewrite !not_elem_of_cons in Hr. simpl. rewrite Ho by (rewrite not_elem_of_cons; tauto). simpl.
    destruct Hr as (Hr1 & Hr2 & _). rewrite Ens, !lookup_insert_ne; [done|by intros <-..].
Qed.

(** *** A page in a new table *)
Definition kind_place (ty : page_t) (su hu : Z) : Z :=
  match ty with STACK_CODE_PAGE => su | HEAP_PAGE => HEAP_SPACE_START + hu | SHARED_PAGE => SHARED_MEMORY_START end.

Lemma add_frame_new s q x l1p t1 vs su hu f free ty (Q : Z -> kstate -> Prop) :
  ty <> SHARED_PAGE -> procs s !! q = Some x -> page_tables_lvl_1_list x = Some l1p ->
  user_tables s l1p t1 vs su hu -> Forall (fun v => ~ fits_in (page_bounds ty).1 (page_bounds ty).2 v) vs ->
  0 <= su < 128 -> 0 <= hu < 128 ->
  free_ok (frame_mem s) (f :: free) -> free <> [] -> malloc_ok (next_block s) = true ->
  pt_nodes s !! next_block s = None -> (l1p < next_block s)%positive ->
  (forall s', new_table s s' f free -> older_kept l1p s s' ->
    user_tables s' l1p t1 (vs ++ [(kind_place ty su hu, f, 1)]) (su_after ty su) (hu_after ty hu) -> Q 0 s') ->
  wp (add_frame_to_process (Some q) ty) Q s.
Proof.
  intros Hty Hx Hl1 (n1 & l & Hrep & Hv & Ht1 & Hsu & Hhu & Hsh & Hus & Hpl & Hol) Hvs Hsr Hhr Hok Hn Hm Hfresh Hlow HQ.
  pose proof (tr_l1 _ _ _ _ Hrep) as H1. pose proof (tr_seg _ _ _ _ Hrep) as Hseg.
  unfold add_frame_to_process. apply wp_bind. eapply wp_pget; [done|]. rewrite Hl1. apply wp_bind.
  eapply wp_rd; [exact H1|]. destruct (page_bounds ty) as [a b]. simpl in *. apply wp_bind, wp_gets.
  destruct (rep_fuel _ _ _ _ Hrep) as [k ->]. apply wp_bind. rewrite <- Hv in Hvs. eapply wp_intro.
  { by rewrite (find_room_skip a b l _ _ _ _ Hseg Hvs). }
  apply wp_or_fail. eapply (add_child_spec _ _ n1 l); [done|split; lia|done..|].
  intros s' n1' l' h [Hst Hf1 Hf2 Hf3 Hf4] Hrep' (Hv' & Hfst & Hpl') Hkept Hn1. split; [done|].
  apply wp_bind. eapply wp_rd; [by apply (tr_l1 _ _ _ _ Hrep')|]. rewrite (tr_tail _ _ _ _ Hrep'), last_snoc. simpl.
  set (p := next_block s) in *. set (n' := new_node ty f l1p n1) in *.
  assert (Hp : pt_nodes s' !! p = Some n').
  { pose proof (tr_seg _ _ _ _ Hrep') as (m & _ & -> & Hp & _)%nseg_app. done. }
  apply wp_bind. eapply wp_rd; [exact Hp|]. rewrite bool_decide_eq_false_2 by done.
  apply wp_bind. eapply (wp_wr pt_nodes); [exact Hp|]. apply wp_ret. apply HQ.
  - split; [|done..]. destruct Hst as (m & ns & Hd & Es). exists m, (<[p := inc_usage n']> ns).
    assert (Hns : pt_nodes s' = ns) by (by rewrite Es). split; [|by rewrite pt_nodes_const, Es].
    rewrite dom_insert_L. fold p. rewrite <- Hd, <- Hns. apply elem_of_dom_2 in Hp. set_solver.
  - intros r Hr. simpl. rewrite lookup_insert_ne by (intros <-; unfold p in *; lia). apply Hkept.
    rewrite !not_elem_of_cons. split_and!; [unfold p in *; lia|lia|]. rewrite Forall_forall in Hol. intros Hin. specialize (Hol _ Hin). lia.
  - exists n1', (l' ++ [(p, inc_usage n')]). split; [by eapply tables_rep_insert|]. split.
    + rewrite !fmap_app, Hv', Hv. csimpl. f_equal. rewrite view_inc by done. subst n'. simpl.
      destruct ty; simpl; by rewrite ?Hsu, ?Hhu.
    + rewrite Hn1. simpl. unfold su_after, hu_after, sh_after. rewrite !fmap_app, Hfst, !Forall_app. csimpl.
      rewrite !Forall_singleton. destruct ty; simpl; split_and!; (done || lia || auto).
Qed.

(** ** Reserving the pages of the program and of the stack

    The views of the tables [T], the first one at index [i], when they hold
    [n] pages: full tables, then one that is not, then none. *)
Fixpoint views_of (i : Z) (T : list Z) (n : Z) : list tview :=
  match T with
  | [] => []
  | t :: T => if n <=? 0 then [] else (i, t, Z.min 512 n) :: views_of (i + 1) T (n - 512)
  end.

Definition full (v : tview) : Prop := v.2 = 512.

Lemma views_index T : forall i n, Forall (fun v => i <= v.1.1 < i + Z.of_nat (length T)) (views_of i T n).
Proof.
  induction T as [|t T IH]; intros i n; simpl; [constructor|]. destruct (n <=? 0); constructor; simpl; [lia|].
  eapply Forall_impl; [apply IH|]. intros v Hv. simpl in Hv. lia.
Qed.

Lemma views_length T : forall i n, (length (views_of i T n) <= length T)%nat.
Proof. induction T as [|t T IH]; intros i n; simpl; [done|]. destruct (n <=? 0); simpl; [lia|]. specialize (IH (i + 1) (n - 512)). lia. Qed.

Lemma views_of_none i T n : n <= 0 -> views_of i T n = [].
Proof. intros Hn. destruct T; [done|]. simpl. by destruct (Z.leb_spec n 0); [|lia]. Qed.

(** One more page goes to a new table, or to the last one. *)
Lemma views_step T : forall i n, 0 <= n < 512 * Z.of_nat (length T) ->
  (Forall full (views_of i T n) /\ exists t, T !! length (views_of i T n) = Some t /\
     views_of i T (n + 1) = views_of i T n ++ [(i + Z.of_nat (length (views_of i T n)), t, 1)]) \/
  (exists pre j t u, views_of i T n = pre ++ [(j, t, u)] /\ views_of i T (n + 1) = pre ++ [(j, t, u + 1)] /\
     Forall full pre /\ 0 < u < 512).
Proof.
  induction T as [|t T IH]; intros i n Hn; cbn [length views_of] in *; [lia|].
  destruct (Z.leb_spec n 0) as [H0|H0].
  - left. split; [constructor|]. exists t. assert (n = 0) as -> by lia. simpl. rewrite Z.add_0_r. split; [done|].
    destruct T; [done|]. simpl. done.
  - destruct (Z.leb_spec (n + 1) 0); [lia|]. destruct (Z.ltb_spec n 512) as [Hs|Hs].
    + right. exists [], i, t, n. rewrite !Z.min_r by lia.
      rewrite !views_of_none by lia. split_and!; try done; lia.
    + rewrite !Z.min_l by lia. replace (n + 1 - 512) with (n - 512 + 1) by lia.
      destruct (IH (i + 1) (n - 512)) as [[Hf (t' & Ht' & Ev)]|(pre & j & t' & u & Ev & Ev' & Hf & Hu)]; [lia| |].
      * left. split; [by constructor|]. exists t'. split; [done|]. rewrite Ev. simpl. do 3 f_equal.
        do 2 f_equal. lia.
      * right. exists ((i, t, 512) :: pre), j, t', u. rewrite Ev, Ev'. split_and!; try done; [by constructor|lia..].
Qed.

Lemma views_of_all T : forall i n,
  512 * (Z.of_nat (length T) - 1) < n <= 512 * Z.of_nat (length T) -> length (views_of i T n) = length T.
Proof.
  induction T as [|t T IH]; intros i n Hn; cbn [length views_of] in *; [done|].
  destruct (Z.leb_spec n 0); [lia|]. cbn [length]. f_equal. destruct T; [done|]. apply IH. cbn [length] in *. lia.
Qed.

Lemma fresh_block {A} (h : gmap ptr A) s : allocated h s -> h !! next_block s = None.
Proof. intros Ha. destruct (h !! next_block s) eqn:Eh; [|done]. pose proof (Ha (next_block s)) as Hlt. rewrite Eh in Hlt. specialize (Hlt ltac:(by eexists)). lia. Qed.

Lemma allocated_new {A} (h h' : gmap ptr A) s s' :
  allocated h s -> dom h' = {[next_block s]} ∪ dom h -> next_block s' = Pos.succ (next_block s) -> allocated h' s'.
Proof.
  intros Ha Hd Eb p Hp. rewrite <- elem_of_dom, Hd, elem_of_union, elem_of_singleton, elem_of_dom in Hp. rewrite Eb.
  destruct Hp as [->|Hp]; [lia|]. specialize (Ha p Hp). lia.
Qed.

Context (s0 : kstate) (q l1p : ptr) (x : process) (t1 : Z) (T rest : list Z).
Hypothesis Hmalloc : forall p, malloc_ok p = true.
Hypothesis Hx : page_tables_lvl_1_list x = Some l1p.
Hypothesis HT : Z.of_nat (length T) < 128.
Hypothesis HTn : NoDup T.
Hypothesis HTf : Forall is_frame T.
Hypothesis Hrest : rest <> [].

(** Blocks were only handed out. *)
Definition grown s s' : Prop := allocated (pt_nodes s') s' /\ (next_block s <= next_block s')%positive.

(** The state when [n] pages are reserved for the program and the stack. *)
Record reserving (n : Z) s : Prop := {
  rs_state : exists m b ns, s = s0 <| procs := <[q := x <| stack_shift := n |>]> (procs s0) |>
    <| frame_mem := m |> <| next_block := b |> <| pt_nodes := ns |>;
  rs_tables : user_tables s l1p t1 (views_of 0 T n) (Z.of_nat (length (views_of 0 T n))) 0;
  rs_free : free_ok (frame_mem s) (drop (length (views_of 0 T n)) T ++ rest);
  rs_grown : grown s0 s;
  rs_older : older_kept l1p s0 s;
  rs_low : (l1p < next_block s)%positive;
  rs_only : forall a, frame_of a ∉ T -> word (frame_mem s) a = word (frame_mem s0) a;
  rs_zero : forall t j, t ∈ take (length (views_of 0 T n)) T -> 0 <= j < 512 -> word (frame_mem s) (pte_at t j) = 0
}.

(** The fields the reservation writes, written again. *)
Lemma state_again s a f m b ns m' g ns' :
  s <| procs := a |> <| frame_mem := m |> <| next_block := b |> <| pt_nodes := ns |>
    <| frame_mem := m' |> <| next_block ::= g |> <| pt_nodes := ns' |> <| procs ::= f |> =
  s <| procs := f a |> <| frame_mem := m' |> <| next_block := g b |> <| pt_nodes := ns' |>.
Proof. done. Qed.
Lemma state_again' s a f m b ns ns' :
  s <| procs := a |> <| frame_mem := m |> <| next_block := b |> <| pt_nodes := ns |>
    <| pt_nodes := ns' |> <| procs ::= f |> =
  s <| procs := f a |> <| frame_mem := m |> <| next_block := b |> <| pt_nodes := ns' |>.
Proof. done. Qed.

Lemma reserve_page n s :
  reserving n s -> 0 <= n < 512 * Z.of_nat (length T) ->
  wp (add_frame_to_process (Some q) STACK_CODE_PAGE) (fun r s' => r = 0 /\
    procs s' !! q = Some (x <| stack_shift := n |>) /\
    forall s'', s'' = s' <| procs ::= <[q := x <| stack_shift := n + 1 |>]> |> -> reserving (n + 1) s'') s.
Proof.
  intros [(m & b & ns & ->) Htab Hfree [Hfresh Hmono] Hold Hlow Honly Hzero] Hn. simpl in Hfree, Honly, Hzero.
  match goal with |- wp _ _ ?S => set (s := S) in * end.
  assert (Hq : procs s !! q = Some (x <| stack_shift := n |>)) by (simpl; by rewrite lookup_insert_eq).
  destruct (views_step T 0 n Hn) as [[Hfull (t & Ht & Ev)]|(pre & j & t & u & Ev & Ev' & Hfull & Hu)].
  - set (k := length (views_of 0 T n)) in *. pose proof (drop_S _ _ _ Ht) as Ed. rewrite Ed in Hfree.
    pose proof (lookup_lt_Some _ _ _ Ht) as Hk.
    eapply (add_frame_new s q (x <| stack_shift := n |>) l1p t1); [done|exact Hq|exact Hx|exact Htab| |lia|lia|exact Hfree| |by apply Hmalloc| |exact Hlow|].
    { eapply Forall_impl; [exact Hfull|]. unfold full, fits_in, PT_SIZE. intros v ->. lia. }
    { by intros [_ ?]%app_nil. }
    { by apply fresh_block. }
    intros s' [(m' & ns' & Hd & ->) Hf1 [Hf2 Hf3] Hf4 Hf5] Hold' Htab'. simpl in *. split; [done|]. split; [exact Hq|]. intros s'' ->.
    assert (Hlen : length (views_of 0 T (n + 1)) = S k) by (rewrite Ev, length_app; simpl; lia).
    split; rewrite ?Hlen; simpl.
    + exists m', (Pos.succ b), ns'. subst s. by rewrite state_again, insert_insert_eq.
    + rewrite Ev. eapply user_tables_ext; [|replace (Z.of_nat (S k)) with (Z.of_nat k + 1) by lia; exact Htab']. done.
    + exact Hf1.
    + split; [|simpl in *; lia]. by eapply allocated_new; [exact Hfresh|exact Hd|].
    + intros r Hr. specialize (Hold' r Hr). simpl in Hold'. rewrite <- (Hold r Hr). exact Hold'.
    + simpl in *. lia.
    + intros a Ha. rewrite Hf4; [by apply Honly|]. intros <-. apply Ha. by eapply list_elem_of_lookup_2.
    + intros t' j Ht' Hj. rewrite (take_S_r _ _ _ Ht), elem_of_app, list_elem_of_singleton in Ht'.
      destruct Ht' as [Ht'| ->]; [|by apply Hf5]. rewrite Hf4; [by apply Hzero|].
      rewrite Forall_forall in HTf. apply elem_of_take in Ht' as (i & Ht' & Hi).
      rewrite pte_at_frame by (done || by eapply HTf, list_elem_of_lookup_2). intros ->.
      pose proof (NoDup_lookup _ _ _ _ HTn Ht Ht'). lia.
  - rewrite Ev in *. assert (Hlen : length (views_of 0 T (n + 1)) = length (pre ++ [(j, t, u)])) by (by rewrite Ev', !length_app).
    pose proof (views_index T 0 n) as Hidx. rewrite Ev, Forall_app, Forall_singleton in Hidx. destruct Hidx as [_ Hidx]. simpl in Hidx.
    eapply (add_frame_room s q (x <| stack_shift := n |>) l1p t1 pre j t u []); [done|exact Hq|exact Hx|exact Htab| | |lia|].
    { eapply Forall_impl; [exact Hfull|]. unfold full, fits_in, PT_SIZE. intros v ->. lia. }
    { unfold fits_in, PT_SIZE, page_bounds, STACK_CODE_SPACE_START, STACK_CODE_SPACE_END. simpl. lia. }
    intros ns' Hd Hold' Htab'. split; [done|]. split; [exact Hq|]. intros s'' ->. split; rewrite ?Hlen; simpl.
    + exists m, b, ns'. subst s. by rewrite state_again', insert_insert_eq.
    + rewrite Ev'. by eapply user_tables_ext; [|exact Htab'].
    + exact Hfree.
    + split; [|done]. intros p Hp. simpl in *. rewrite <- elem_of_dom, Hd, elem_of_dom in Hp. by apply Hfresh.
    + intros r Hr. rewrite <- (Hold r Hr). exact (Hold' r Hr).
    + exact Hlow.
    + exact Honly.
    + exact Hzero.
Qed.

Lemma shift_inc n :
  0 <= n < 65535 -> x <| stack_shift := n |> <| stack_shift ::= fun k => wrapU 16 (k + 1) |> = x <| stack_shift := n + 1 |>.
Proof. intros Hn. unfold upd. simpl. by rewrite wrapU_id by lia. Qed.

Lemma reserve_loop k : forall left n s,
  reserving n s -> 0 <= n -> FRAME_SIZE * Z.of_nat k < left <= FRAME_SIZE * Z.of_nat (S k) -> left < 2 ^ 31 ->
  n + Z.of_nat (S k) <= 512 * Z.of_nat (length T) ->
  wp (add_frames_loop (S k) (Some q) STACK_CODE_PAGE true left)
    (fun r s' => r = 0 /\ reserving (n + Z.of_nat (S k)) s') s.
Proof.
  rewrite FRAME_SIZE_eq. induction k as [|k IH]; intros left n s Hs Hn Hl Hl' Hb; cbn [add_frames_loop];
    (apply wp_or_fail; eapply wp_mono; [apply (reserve_page n s); [done|lia]|]; intros r s' (-> & Hq & Hs');
     split; [done|]; apply wp_bind; rewrite FRAME_SIZE_eq, (wrapS_id 32) by lia).
  all: eapply (wp_wr procs); [exact Hq|].
  all: cbn beta; rewrite shift_inc by lia.
  - destruct (Z.ltb_spec 0 (left - 4096)); [lia|]. apply wp_ret. split; [done|]. apply Hs'. done.
  - destruct (Z.ltb_spec 0 (left - 4096)); [|lia].
    eapply wp_mono; [apply (IH (left - 4096) (n + 1)); [by apply Hs'|lia..]|].
    intros r s'' [-> Hr]. split; [done|]. by replace (n + Z.of_nat (S (S k))) with (n + 1 + Z.of_nat (S k)) by lia.
Qed.

(** The only page of the heap needs a table of its own. *)
Lemma reserve_heap n s ht rest' :
  reserving n s -> length (views_of 0 T n) = length T -> rest = ht :: rest' -> rest' <> [] -> ht ∉ T ->
  wp (add_frames_loop 1 (Some q) HEAP_PAGE false 1) (fun r s' => r = 0 /\
    exists m b ns, s' = s0 <| procs := <[q := x <| stack_shift := n |>]> (procs s0) |>
      <| frame_mem := m |> <| next_block := b |> <| pt_nodes := ns |> /\
    user_tables s' l1p t1 (views_of 0 T n ++ [(HEAP_SPACE_START, ht, 1)]) (Z.of_nat (length T)) 1 /\
    free_ok m rest' /\
    (forall a, frame_of a ∉ T ++ [ht] -> word m a = word (frame_mem s0) a) /\
    (forall t j, t ∈ T ++ [ht] -> 0 <= j < 512 -> word m (pte_at t j) = 0) /\ grown s0 s' /\ older_kept l1p s0 s') s.
Proof.
  intros [(m & b & ns & ->) Htab Hfree [Hfresh Hmono] Hold Hlow Honly Hzero] Hlen -> Hn Hht. simpl in Hfree, Honly, Hzero.
  rewrite Hlen in Htab, Hfree, Hzero. rewrite drop_all in Hfree. rewrite take_ge in Hzero by done. simpl in Hfree.
  match goal with |- wp _ _ ?S => set (s := S) in * end.
  assert (Hq : procs s !! q = Some (x <| stack_shift := n |>)) by (simpl; by rewrite lookup_insert_eq).
  cbn [add_frames_loop]. apply wp_or_fail.
  eapply (add_frame_new s q (x <| stack_shift := n |>) l1p t1); [done|exact Hq|exact Hx|exact Htab| |lia|lia|exact Hfree|done|by apply Hmalloc| |exact Hlow|].
  { eapply Forall_impl; [apply views_index|]. intros v Hv [Hi _].
    simpl in Hi, Hv. unfold HEAP_SPACE_START, HEAP_SPACE_END in Hi. lia. }
  { by apply fresh_block. }
  intros s' [(m' & ns' & Hd & ->) Hf1 [Hf2 Hf3] Hf4 Hf5] Hold' Htab'. simpl in *. split; [done|].
  apply wp_bind, wp_ret. simpl. apply wp_ret. split; [done|]. exists m', (Pos.succ b), ns'. split; [done|].
  split.
  { unfold su_after in Htab'. simpl in Htab'. by rewrite !Z.add_0_r in Htab'. }
  split; [done|]. split; [|split].
  - intros a Ha. rewrite elem_of_app, list_elem_of_singleton in Ha. rewrite Hf4 by tauto. apply Honly. tauto.
  - intros t j [Ht| ->%list_elem_of_singleton]%elem_of_app Hj; [|by apply Hf5].
    rewrite Hf4; [by apply Hzero|]. rewrite pte_at_frame by (done || (by eapply Forall_forall)).
    by intros ->.
  - split; [split; [|simpl in *; lia]; by eapply allocated_new; [exact Hfresh|exact Hd|]|].
    intros r Hr. rewrite <- (Hold r Hr). exact (Hold' r Hr).
Qed.

End TableList.
