(* ===== verification/ProcessMemorySpec.v ===== *)
(** * ProcessMemorySpec: the address space a new process gets

    What [process_memory_allocator] builds, as the hardware sees it through
    the Sv39 walk: the pages of the program, of the stack and of the heap are
    mapped to frames of their own, everything else of the user gigabyte is
    unmapped, and the rest of the directory is the kernel's. *)

From S2P Require Import Prelude.
From S2P Require Import Queue.
From S2P Require Import FrameDist.
From S2P Require Import Pages.
From S2P Require Import Kernel.
From S2P Require Import KernelRules.
From S2P Require Import ProcessMemory.
From S2P Require Import PageFilling.
From S2P Require Import TableList.
#[local] Open Scope Z_scope.

Section AddressSpace.
Context `{E : KEnv}.
Implicit Types (m : fmem) (c : data_cursor) (s : kstate).

(** ** Pages cut into tables *)

Definition TABLE : nat := Z.to_nat PT_SIZE.
Lemma TABLE_eq : Z.of_nat TABLE = 512. Proof. done. Qed.
#[local] Opaque TABLE.

Fixpoint blocks_of (T fs : list Z) : list (Z * list Z) :=
  match T with
  | [] => []
  | t :: T => (t, take TABLE fs) :: blocks_of T (drop TABLE fs)
  end.

Definition enough (T fs : list Z) : Prop :=
  512 * (Z.of_nat (length T) - 1) < Z.of_nat (length fs) <= 512 * Z.of_nat (length T).

Lemma enough_tail t T fs : enough (t :: T) fs -> T <> [] -> enough T (drop TABLE fs).
Proof.
  unfold enough. rewrite length_drop. pose proof TABLE_eq. destruct T; [done|]. intros Hn _. cbn [length] in *. lia.
Qed.

Lemma blocks_length T fs : length (blocks_of T fs) = length T.
Proof. revert fs. induction T as [|t T IH]; intros fs; simpl; [done|]. by rewrite IH. Qed.

Lemma blocks_tables T fs : (blocks_of T fs).*1 = T.
Proof. revert fs. induction T as [|t T IH]; intros fs; csimpl; [done|]. by rewrite IH. Qed.

Lemma blocks_frames T fs : Z.of_nat (length fs) <= 512 * Z.of_nat (length T) -> concat (blocks_of T fs).*2 = fs.
Proof.
  revert fs. induction T as [|t T IH]; intros fs Hl; csimpl.
  - destruct fs; [done|]. cbn [length] in Hl. lia.
  - rewrite IH; [by rewrite take_drop|]. rewrite length_drop. pose proof TABLE_eq. cbn [length] in Hl. lia.
Qed.

Lemma blocks_views T : forall fs i, enough T fs ->
  views_of i T (Z.of_nat (length fs)) = imap (fun j b => block_view (i + Z.of_nat j) b) (blocks_of T fs).
Proof.
  pose proof TABLE_eq. induction T as [|t T IH]; intros fs i Hn; [done|]. cbn [views_of blocks_of imap].
  pose proof Hn as [Hn1 Hn2]. cbn [length] in Hn1, Hn2. destruct (Z.leb_spec (Z.of_nat (length fs)) 0); [lia|].
  f_equal.
  - unfold block_view. simpl. rewrite length_take. f_equal; [f_equal; lia|]. lia.
  - destruct T as [|t' T]; [done|]. etrans; [|etrans; [apply (IH (drop TABLE fs) (i + 1))|]].
    + f_equal. rewrite length_drop. cbn [length] in Hn1. lia.
    + by apply (enough_tail t).
    + apply imap_ext. intros j b _. simpl. f_equal. lia.
Qed.

(** The jobs of the pages [fs] spread over the tables [T], read from cursor [c] on. *)
Definition page_jobs (T : list Z) c (fs : list Z) : list job :=
  imap (fun v f => mk_job (T !!! (v / TABLE)%nat) (Z.of_nat (v mod TABLE)) f (cursor_at c v)) fs.

Lemma page_jobs_cons t T c fs :
  page_jobs (t :: T) c fs = kilo_jobs t 0 c (take TABLE fs) ++ page_jobs T (cursor_at c TABLE) (drop TABLE fs).
Proof.
  pose proof TABLE_eq. apply list_eq. intros v. unfold page_jobs, kilo_jobs. rewrite list_lookup_imap.
  destruct (decide (v < TABLE)%nat) as [Hv|Hv].
  - destruct (fs !! v) as [f|] eqn:Ef; simpl.
    + pose proof (lookup_lt_Some _ _ _ Ef). rewrite lookup_app_l by (rewrite length_imap, length_take; lia).
      rewrite list_lookup_imap, lookup_take_lt, Ef by done. simpl. rewrite Nat.div_small, Nat.mod_small by done. done.
    + apply lookup_ge_None in Ef. symmetry. apply lookup_ge_None. rewrite length_app, !length_imap, length_take, length_drop. lia.
  - destruct (fs !! v) as [f|] eqn:Ef; simpl.
    + pose proof (lookup_lt_Some _ _ _ Ef). rewrite lookup_app_r by (rewrite length_imap, length_take; lia).
      rewrite length_imap, length_take, list_lookup_imap, lookup_drop.
      replace (TABLE `min` length fs)%nat with TABLE by lia. replace (TABLE + (v - TABLE))%nat with v by lia.
      rewrite Ef. simpl. replace v with ((v - TABLE) + 1 * TABLE)%nat at 1 2 by lia.
      rewrite Nat.div_add, Nat.Div0.mod_add, Nat.add_1_r by lia. simpl. rewrite cursor_at_add.
      by replace (TABLE + (v - TABLE))%nat with v by lia.
    + apply lookup_ge_None in Ef. symmetry. apply lookup_ge_None. rewrite length_app, !length_imap, length_take, length_drop. lia.
Qed.

Lemma blocks_jobs T : forall c fs, enough T fs -> mega_jobs c (blocks_of T fs) = page_jobs T c fs.
Proof.
  pose proof TABLE_eq. induction T as [|t T IH]; intros c fs Hn.
  - destruct Hn as [_ Hn]. destruct fs; [done|]. cbn [length] in Hn. lia.
  - rewrite page_jobs_cons. cbn [blocks_of mega_jobs]. f_equal. rewrite length_take.
    destruct T as [|t' T].
    + destruct Hn as [_ Hn]. cbn [length] in Hn. rewrite drop_ge by lia. done.
    + rewrite <- IH by (by apply (enough_tail t)). destruct Hn as [Hn _]. cbn [length] in Hn.
      by replace (TABLE `min` length fs)%nat with TABLE by lia.
Qed.

Lemma blocks_links i T fs : mega_links i (blocks_of T fs) = imap (fun j t => (i + Z.of_nat j, t)) T.
Proof.
  unfold mega_links. rewrite <- (blocks_tables T fs) at 2. apply list_eq. intros v.
  rewrite !list_lookup_imap, list_lookup_fmap. by destruct (blocks_of T fs !! v).
Qed.

(** ** The whole allocation does not clash with itself *)

Definition user_links (T : list Z) (ht : Z) : list (Z * Z) :=
  imap (fun j t => (0 + Z.of_nat j, t)) T ++ [(HEAP_SPACE_START, ht)].
Definition user_jobs (T : list Z) (ht : Z) c (fs : list Z) (hf : Z) : list job :=
  page_jobs T c fs ++ [mk_job ht 0 hf (mk_cursor false 0 0)].

Lemma page_job_lookup T c fs v b :
  page_jobs T c fs !! v = Some b <->
  exists f, fs !! v = Some f /\ b = mk_job (T !!! (v / TABLE)%nat) (Z.of_nat (v mod TABLE)) f (cursor_at c v).
Proof. unfold page_jobs. rewrite list_lookup_imap. destruct (fs !! v); simpl; naive_solver. Qed.

Lemma page_jobs_frames T c fs : j_frame <$> page_jobs T c fs = fs.
Proof.
  apply list_eq. intros v. rewrite list_lookup_fmap. unfold page_jobs. rewrite list_lookup_imap. by destruct (fs !! v).
Qed.

Lemma page_table_lookup (T fs : list Z) v f :
  enough T fs -> fs !! v = Some f -> T !! (v / TABLE)%nat = Some (T !!! (v / TABLE)%nat).
Proof.
  intros [_ Hn] Hv. pose proof TABLE_eq. apply lookup_lt_Some in Hv. apply list_lookup_lookup_total_lt.
  apply Nat.Div0.div_lt_upper_bound. lia.
Qed.


(** The tables of an address space with the frames they map. *)
Definition user_blocks (T : list Z) (ht : Z) (fs : list Z) (hf : Z) : list (Z * list Z) := blocks_of T fs ++ [(ht, [hf])].
Definition user_views (T : list Z) (ht n : Z) : list tview := views_of 0 T n ++ [(HEAP_SPACE_START, ht, 1)].

Lemma blocks_short T fs t gs : (t, gs) ∈ blocks_of T fs -> (length gs <= TABLE)%nat.
Proof.
  revert fs. induction T as [|t' T IH]; intros fs; simpl; [by intros ?%elem_of_nil|].
  intros [[= -> ->]|Hin]%elem_of_cons; [rewrite length_take; lia|by eapply IH].
Qed.

Lemma mega_jobs_in blocks t gs j f : forall c, (t, gs) ∈ blocks -> gs !! j = Some f ->
  exists c', mk_job t (Z.of_nat j) f c' ∈ mega_jobs c blocks.
Proof.
  induction blocks as [|[t' gs'] blocks IH]; intros c; [by intros ?%elem_of_nil|]. cbn [mega_jobs].
  intros [[= <- <-]|Hin]%elem_of_cons Hj.
  - exists (cursor_at c j). apply elem_of_app. left. apply list_elem_of_lookup. exists j. unfold kilo_jobs.
    by rewrite list_lookup_imap, Hj.
  - destruct (IH (cursor_at c (length gs')) Hin Hj) as [c' Hc]. exists c'. apply elem_of_app. by right.
Qed.

Section Plan.
Context (l1 : Z) (T : list Z) (ht : Z) (c : data_cursor) (fs : list Z) (hf : Z).
Hypothesis Hn : enough T fs.
Hypothesis HT : Z.of_nat (length T) < 128.
Hypothesis Hc : cursor_ok c.
Hypothesis Hframes : Forall is_frame (l1 :: T ++ ht :: fs ++ [hf]).
Hypothesis Hnodup : NoDup (l1 :: T ++ ht :: fs ++ [hf]).

Lemma plan_frame f : f ∈ l1 :: T ++ ht :: fs ++ [hf] -> is_frame f.
Proof. intros Hf. by eapply Forall_forall. Qed.

Lemma page_job_in b : b ∈ page_jobs T c fs ->
  exists v f t, fs !! v = Some f /\ T !! (v / TABLE)%nat = Some t /\
    b = mk_job t (Z.of_nat (v mod TABLE)) f (cursor_at c v).
Proof.
  intros (v & (f & Hf & ->)%page_job_lookup)%list_elem_of_lookup. exists v, f. eexists.
  split; [done|]. split; [by eapply page_table_lookup|done].
Qed.

Lemma mod_table v : 0 <= Z.of_nat (v mod TABLE) < 512.
Proof. pose proof TABLE_eq. pose proof (Nat.mod_upper_bound v TABLE). lia. Qed.

Lemma user_jobs_in b : b ∈ user_jobs T ht c fs hf -> job_ok b /\ j_table b ∈ T ++ [ht] /\ j_frame b ∈ fs ++ [hf].
Proof.
  unfold user_jobs. intros [Hb| ->%list_elem_of_singleton]%elem_of_app.
  - apply page_job_in in Hb as (v & f & t & Hf & Ht & ->). simpl.
    apply list_elem_of_lookup_2 in Hf, Ht. split; [split; simpl|set_solver].
    + apply plan_frame. set_solver.
    + apply mod_table.
    + apply plan_frame. set_solver.
    + by apply cursor_at_ok.
  - split; [split; simpl|set_solver].
    + apply plan_frame. set_solver.
    + lia.
    + apply plan_frame. set_solver.
    + by intros [=].
Qed.

Lemma user_entries_nodup : NoDup (job_entry <$> user_jobs T ht c fs hf).
Proof.
  pose proof TABLE_eq. unfold user_jobs. rewrite fmap_app. csimpl. apply NoDup_app. split_and!.
  - apply NoDup_alt. intros v w a Hv Hw. rewrite list_lookup_fmap in Hv, Hw.
    destruct (page_jobs T c fs !! v) as [b|] eqn:Eb, (page_jobs T c fs !! w) as [b'|] eqn:Eb'; [|done..].
    apply page_job_lookup in Eb as (f & Hf & ->), Eb' as (f' & Hf' & ->). simpl in Hv, Hw. simplify_eq.
    pose proof (page_table_lookup _ _ _ _ Hn Hf) as Ht. pose proof (page_table_lookup _ _ _ _ Hn Hf') as Ht'.
    unfold job_entry in Hv. cbn [j_table j_index] in Hv. apply pte_at_inj in Hv as [Et Ei].
    + rewrite Et in Ht. assert (HTn : NoDup T) by (apply NoDup_cons in Hnodup as [_ Hd]; by apply NoDup_app in Hd as [? _]).
      pose proof (NoDup_lookup _ _ _ _ HTn Ht Ht') as Ed.
      rewrite (Nat.div_mod_eq v TABLE), (Nat.div_mod_eq w TABLE), Ed. lia.
    + apply plan_frame. apply list_elem_of_lookup_2 in Ht, Ht'. set_solver.
    + apply plan_frame. apply list_elem_of_lookup_2 in Ht, Ht'. set_solver.
    + apply mod_table.
    + apply mod_table.
  - intros a (b & -> & Hb)%list_elem_of_fmap Eh%list_elem_of_singleton.
    apply page_job_in in Hb as (v & f & t & Hf & Ht & ->). unfold job_entry in Eh. simpl in Eh.
    apply list_elem_of_lookup_2 in Ht. apply pte_at_inj in Eh as [-> _]; [|apply plan_frame; set_solver..|apply mod_table|lia].
    apply NoDup_cons in Hnodup as [_ Hd]. apply NoDup_app in Hd as (_ & Hd & _). apply (Hd ht); [done|by left].
  - repeat constructor. set_solver.
Qed.

Lemma user_plan_ok : plan_ok l1 (user_links T ht) (user_jobs T ht c fs hf).
Proof.
  pose proof Hnodup as [Hl1 Hd]%NoDup_cons. pose proof Hd as (HTn & Hd1 & [Hht Hd2]%NoDup_cons)%NoDup_app.
  assert (Hfr : j_frame <$> user_jobs T ht c fs hf = fs ++ [hf]).
  { unfold user_jobs. by rewrite fmap_app, page_jobs_frames. }
  split; rewrite ?Hfr.
  - apply plan_frame. by left.
  - apply Forall_app. split; [|by repeat constructor]. apply Forall_forall. intros k (j & t & -> & Ht)%elem_of_lookup_imap.
    apply lookup_lt_Some in Ht. simpl. lia.
  - unfold user_links. rewrite fmap_app, fmap_imap. csimpl. apply NoDup_app. split_and!; [|..|repeat constructor; set_solver].
    + apply NoDup_alt. intros v w a. rewrite !list_lookup_imap. destruct (T !! v), (T !! w); simpl; naive_solver lia.
    + intros a (j & t & -> & Ht)%elem_of_lookup_imap Ea%list_elem_of_singleton. apply lookup_lt_Some in Ht.
      simpl in Ea. unfold HEAP_SPACE_START in Ea. lia.
  - apply Forall_forall. intros b Hb. by apply user_jobs_in.
  - apply user_entries_nodup.
  - done.
  - apply Forall_forall. intros b (_ & Ht & _)%user_jobs_in. split.
    + intros Eb. apply Hl1. rewrite Eb in Ht. set_solver.
    + intros Hf. apply elem_of_app in Ht as [Ht|Ht].
      * apply (Hd1 (j_table b)); [done|]. by right.
      * apply list_elem_of_singleton in Ht. rewrite Ht in Hf. done.
  - intros Hf. apply Hl1. set_solver.
Qed.
End Plan.

(** ** The walk through the tables *)

Lemma find_frame p a r w x u : is_frame a -> find_pte_adress (kilo_entry p a r w x u) = a.
Proof.
  intros [Ha Hm]. pose proof layout_free. pose proof layout_top. apply find_kilo_entry; [lia|done].
Qed.

Definition links_to m (t i a : Z) : Prop := exists p, table_entry m t i = kilo_entry p a false false false true.

(** The entries of the tables of an address space address what they should. *)
Record space_entries m (l1 : Z) (T : list Z) (ht : Z) (fs : list Z) (hf : Z) : Prop := {
  se_links : forall a t, (a, t) ∈ user_links T ht -> find_pte_adress (table_entry m l1 a) = t;
  se_pages : forall t gs j f, (t, gs) ∈ user_blocks T ht fs hf -> gs !! j = Some f ->
    find_pte_adress (table_entry m t (Z.of_nat j)) = f
}.

Lemma mapped_entries m m' l1 T ht c fs hf : enough T fs -> Forall is_frame (T ++ ht :: fs ++ [hf]) ->
  mapped m m' l1 (user_links T ht) (user_jobs T ht c fs hf) -> space_entries m' l1 T ht fs hf.
Proof.
  intros Hen Hf [Hl Hj _]. rewrite Forall_forall in Hf. split.
  - intros a t Hin. rewrite (Hl _ _ Hin). apply find_frame, Hf. unfold user_links in Hin.
    rewrite elem_of_app, list_elem_of_singleton in Hin. destruct Hin as [(j & t' & [= -> ->] & Ht)%elem_of_lookup_imap|[= -> ->]]; [|set_solver].
    apply list_elem_of_lookup_2 in Ht. set_solver.
  - intros t gs j f Hin Hg. assert (Hb : exists c', mk_job t (Z.of_nat j) f c' ∈ user_jobs T ht c fs hf).
    { unfold user_blocks, user_jobs in *. rewrite elem_of_app, list_elem_of_singleton in Hin. destruct Hin as [Hin|[= -> ->]].
      - destruct (mega_jobs_in _ _ _ _ _ c Hin Hg) as [c' Hc]. exists c'. rewrite blocks_jobs in Hc by done. apply elem_of_app. by left.
      - destruct j as [|j]; [|done]. injection Hg as ->. eexists. apply elem_of_app. right. by apply list_elem_of_singleton. }
    destruct Hb as [c' Hb]. destruct (Hj _ Hb) as [He _]. simpl in He. rewrite He. apply find_frame, Hf.
    apply (list_elem_of_fmap_2 j_frame) in Hb. simpl in Hb. unfold user_jobs in Hb.
    rewrite fmap_app, page_jobs_frames in Hb. csimpl in Hb. set_solver.
Qed.

Lemma walk_unlinked m root l1 va :
  is_frame l1 -> links_to m root (vpn 2 va) l1 -> word m (pte_at l1 (vpn 1 va)) = 0 -> sv39_walk (word m) root va = None.
Proof.
  intros Hl [p2 E2] E1. unfold sv39_walk. fold (table_entry m root (vpn 2 va)). rewrite E2, find_frame by done.
  unfold pte_bad, is_leaf. simpl. by rewrite E1.
Qed.

Lemma walk_unmapped m root l1 t va :
  is_frame l1 -> links_to m root (vpn 2 va) l1 -> is_frame t -> links_to m l1 (vpn 1 va) t ->
  word m (pte_at t (vpn 0 va)) = 0 -> sv39_walk (word m) root va = None.
Proof.
  intros Hl [p2 E2] Ht [p1 E1] E0. unfold sv39_walk. fold (table_entry m root (vpn 2 va)).
  rewrite E2, find_frame by done. fold (table_entry m l1 (vpn 1 va)). rewrite E1, find_frame by done.
  unfold pte_bad, is_leaf. simpl. by rewrite E0.
Qed.

Lemma walk_mapped m root l1 t va p0 f x :
  is_frame l1 -> links_to m root (vpn 2 va) l1 -> is_frame t -> links_to m l1 (vpn 1 va) t ->
  is_frame f -> table_entry m t (vpn 0 va) = kilo_entry p0 f true true x true ->
  sv39_walk (word m) root va = Some (f + va mod 4096, kilo_entry p0 f true true x true).
Proof.
  intros Hl [p2 E2] Ht [p1 E1] Hf E0. unfold sv39_walk. fold (table_entry m root (vpn 2 va)).
  rewrite E2, find_frame by done. fold (table_entry m l1 (vpn 1 va)). rewrite E1, find_frame by done.
  fold (table_entry m t (vpn 0 va)). rewrite E0, find_frame by done. done.
Qed.

(** A walk depends on the root table only through the entry it reads. *)
Lemma walk_same_entry m root root' va :
  word m (pte_at root (vpn 2 va)) = word m (pte_at root' (vpn 2 va)) ->
  sv39_walk (word m) root va = sv39_walk (word m) root' va.
Proof. intros Ew. unfold sv39_walk. by rewrite Ew. Qed.

(** Two memories hold the same tables [S]. *)
Definition agree (S : list Z) m m' : Prop := forall t j, t ∈ S -> 0 <= j < 512 -> word m' (pte_at t j) = word m (pte_at t j).

Lemma agree_refl S m : agree S m m.
Proof. done. Qed.
Lemma agree_trans S m1 m2 m3 : agree S m1 m2 -> agree S m2 m3 -> agree S m1 m3.
Proof. intros H1 H2 t j Ht Hj. by rewrite H2, H1. Qed.
Lemma agree_sub S S' m m' : S' ⊆ S -> agree S m m' -> agree S' m m'.
Proof. intros Hs H t j Ht. apply H. by apply Hs. Qed.

Lemma links_to_agree S m m' t i a : agree S m m' -> t ∈ S -> 0 <= i < 512 -> links_to m t i a -> links_to m' t i a.
Proof. intros Ha Ht Hi [p Hp]. exists p. unfold table_entry. by rewrite Ha. Qed.

(** The parts of an address of the user gigabyte. *)
Lemma entries_agree m m' l1 T ht fs hf : Z.of_nat (length T) < 128 -> agree (l1 :: T ++ [ht]) m m' ->
  space_entries m l1 T ht fs hf -> space_entries m' l1 T ht fs hf.
Proof.
  intros HT Hag [Hl Hp]. pose proof TABLE_eq. split.
  - intros a t Hin. rewrite <- (Hl _ _ Hin). unfold table_entry. rewrite Hag; [done|by left|].
    unfold user_links in Hin. rewrite elem_of_app, list_elem_of_singleton in Hin.
    destruct Hin as [(j & t' & [= -> ->] & Ht%lookup_lt_Some)%elem_of_lookup_imap|[= -> ->]]; [lia|unfold HEAP_SPACE_START; lia].
  - intros t gs j f Hin Hg. rewrite <- (Hp _ _ _ _ Hin Hg). unfold table_entry. apply lookup_lt_Some in Hg.
    unfold user_blocks in Hin. rewrite elem_of_app, list_elem_of_singleton in Hin. destruct Hin as [Hin|[= -> ->]].
    + rewrite Hag; [done| |apply blocks_short in Hin; lia]. apply (list_elem_of_fmap_2 fst) in Hin.
      rewrite blocks_tables in Hin. simpl in Hin. set_solver.
    + rewrite Hag; [done|set_solver|simpl in Hg; lia].
Qed.

Definition user_vpn (va : Z) : Z := (va - 2 ^ 30) / 4096.

Lemma user_vpn_parts va : 2 ^ 30 <= va < 2 ^ 31 ->
  vpn 2 va = USERSPACE /\ vpn 1 va = user_vpn va / 512 /\ vpn 0 va = user_vpn va mod 512 /\
  0 <= user_vpn va / 512 < 512 /\ 0 <= user_vpn va mod 512 < 512.
Proof.
  intros Hva. unfold vpn, user_vpn, USERSPACE. change (2 ^ (12 + 9 * 2)) with (2 ^ 30).
  change (2 ^ (12 + 9 * 1)) with (2 ^ 21). change (2 ^ (12 + 9 * 0)) with (2 ^ 12). split_and!; mlia.
Qed.

(** The page a user address lies in: the program and the stack are [n] pages
    at the bottom, the heap one page at table [HEAP_SPACE_START]. *)
Definition user_page (n va : Z) : option nat :=
  if user_vpn va <? n then Some (Z.to_nat (user_vpn va))
  else if user_vpn va =? 512 * HEAP_SPACE_START then Some (Z.to_nat n) else None.

Section Walk.
Context (m m' : fmem) (root l1 : Z) (T : list Z) (ht : Z) (c : data_cursor) (fs : list Z) (hf : Z).
Hypothesis Hn : enough T fs.
Hypothesis HT : Z.of_nat (length T) < 128.
Hypothesis Hc : cursor_ok c.
Hypothesis Hframes : Forall is_frame (root :: l1 :: T ++ ht :: fs ++ [hf]).
Hypothesis Hnodup : NoDup (root :: l1 :: T ++ ht :: fs ++ [hf]).
Hypothesis Hroot : links_to m root USERSPACE l1.
Hypothesis Hzero : forall t j, t ∈ l1 :: T ++ [ht] -> 0 <= j < 512 -> word m (pte_at t j) = 0.
Hypothesis Hmapped : mapped m m' l1 (user_links T ht) (user_jobs T ht c fs hf).

Lemma walk_plan : plan_ok l1 (user_links T ht) (user_jobs T ht c fs hf).
Proof.
  apply Forall_cons in Hframes as [_ Hf]. apply NoDup_cons in Hnodup as [_ Hd]. by apply user_plan_ok.
Qed.

Lemma walk_jobs_in b :
  b ∈ user_jobs T ht c fs hf -> job_ok b /\ j_table b ∈ T ++ [ht] /\ j_frame b ∈ fs ++ [hf].
Proof.
  apply Forall_cons in Hframes as [_ Hf]. apply NoDup_cons in Hnodup as [_ Hd]. intros Hb. by eapply (user_jobs_in l1).
Qed.

(** Entries of a table that no job fills. *)
Lemma user_outside t j :
  is_frame t -> 0 <= j < 512 -> t ∉ fs ++ [hf] -> (t = l1 -> forall t', (j, t') ∉ user_links T ht) ->
  (forall b, b ∈ user_jobs T ht c fs hf -> j_table b = t -> j_index b <> j) ->
  outside l1 (user_links T ht) (user_jobs T ht c fs hf) (pte_at t j).
Proof.
  intros Ht Hj Hf Hl Hjob. pose proof walk_plan as Hp. split_and!.
  - rewrite pte_at_frame by done. unfold user_jobs. rewrite fmap_app, page_jobs_frames. done.
  - intros (b & Eb & Hb)%list_elem_of_fmap. destruct (walk_jobs_in b Hb) as ([Hb1 Hb2 _ _] & _).
    unfold job_entry in Eb. apply pte_at_inj in Eb as [E1 E2]; [|done..]. by apply (Hjob b).
  - intros ([i t'] & Eb & Hk)%list_elem_of_fmap. unfold link_entry in Eb. simpl in Eb.
    pose proof (po_links _ _ _ Hp) as Hr. rewrite Forall_forall in Hr. pose proof (Hr _ Hk) as Hi. simpl in Hi.
    apply pte_at_inj in Eb as [-> ->]; [|done|apply Hp|done|done]. by eapply Hl.
Qed.

Lemma user_link a t : (a, t) ∈ user_links T ht -> is_frame t /\ links_to m' l1 a t.
Proof.
  intros Ha. split; [|eexists; by apply (mp_links _ _ _ _ _ Hmapped)].
  rewrite Forall_forall in Hframes. apply Hframes. unfold user_links in Ha.
  apply elem_of_app in Ha as [(j & t' & [= _ ->] & Ht)%elem_of_lookup_imap|[= _ ->]%list_elem_of_singleton].
  - apply list_elem_of_lookup_2 in Ht. set_solver.
  - set_solver.
Qed.

Lemma root_kept i : 0 <= i < 512 -> word m' (pte_at root i) = word m (pte_at root i).
Proof.
  intros Hi. apply (mp_rest _ _ _ _ _ Hmapped). pose proof Hframes as [Hr _]%Forall_cons.
  pose proof Hnodup as [Hd _]%NoDup_cons. rewrite not_elem_of_cons in Hd. destruct Hd as [Hrl Hd].
  apply user_outside; [done|done|set_solver|done|]. intros b Hb Eb.
  destruct (walk_jobs_in b Hb) as (_ & Ht & _). rewrite Eb in Ht. exfalso. apply Hd. set_solver.
Qed.

Lemma root_links : links_to m' root USERSPACE l1.
Proof. destruct Hroot as [p Hp]. exists p. rewrite <- Hp. unfold table_entry. by rewrite root_kept. Qed.

Lemma link_of_page v f : fs !! v = Some f -> (Z.of_nat (v / TABLE), T !!! (v / TABLE)%nat) ∈ user_links T ht.
Proof.
  intros Hf. apply elem_of_app. left. apply elem_of_lookup_imap. eexists _, _. split; [done|by eapply page_table_lookup].
Qed.

(** The tables as they are in the memory [m''], which may have changed elsewhere. *)
Context (m'' : fmem).
Hypothesis Hagree : agree (root :: l1 :: T ++ [ht]) m' m''.

Lemma user_link_in a t : (a, t) ∈ user_links T ht -> t ∈ root :: l1 :: T ++ [ht].
Proof.
  unfold user_links. intros [(j & t' & [= _ ->] & Ht)%elem_of_lookup_imap|[= _ ->]%list_elem_of_singleton]%elem_of_app.
  - apply list_elem_of_lookup_2 in Ht. set_solver.
  - set_solver.
Qed.

Lemma later_links : links_to m'' root USERSPACE l1.
Proof. eapply links_to_agree; [exact Hagree|by left|done|exact root_links]. Qed.

Lemma later_link a t : 0 <= a < 512 -> (a, t) ∈ user_links T ht -> is_frame t /\ links_to m'' l1 a t.
Proof.
  intros Hr Ha. destruct (user_link _ _ Ha) as [Ht Hl]. split; [done|].
  eapply links_to_agree; [exact Hagree|right; by left|done|exact Hl].
Qed.

Lemma later_entry a t j : (a, t) ∈ user_links T ht -> 0 <= j < 512 -> word m'' (pte_at t j) = word m' (pte_at t j).
Proof. intros Ha Hj. apply Hagree; [by eapply user_link_in|done]. Qed.

Lemma user_walk_mapped va g f :
  2 ^ 30 <= va < 2 ^ 31 -> user_page (Z.of_nat (length fs)) va = Some g -> (fs ++ [hf]) !! g = Some f ->
  exists p b, b ∈ user_jobs T ht c fs hf /\ j_frame b = f /\
    b = (if decide (g < length fs)%nat then mk_job (j_table b) (j_index b) f (cursor_at c g)
         else mk_job (j_table b) (j_index b) f (mk_cursor false 0 0)) /\
    sv39_walk (word m'') root va =
      Some (f + va mod 4096, kilo_entry p f true true (writing_data (next_cursor (j_cursor b))) true).
Proof.
  intros Hva Hg Hf. destruct (user_vpn_parts va Hva) as (E2 & E1 & E0 & R1 & R0). pose proof TABLE_eq.
  pose proof later_links as Hr. rewrite <- E2 in Hr. unfold user_page in Hg.
  assert (Hvp : 0 <= user_vpn va) by (unfold user_vpn; mlia).
  assert (Hfr : is_frame f).
  { rewrite Forall_forall in Hframes. apply Hframes. apply list_elem_of_lookup_2 in Hf. set_solver. }
  assert (Hl1 : is_frame l1) by (apply walk_plan).
  assert (Hin : exists b, b ∈ user_jobs T ht c fs hf /\ j_frame b = f /\
    (vpn 1 va, j_table b) ∈ user_links T ht /\ vpn 0 va = j_index b /\
    b = (if decide (g < length fs)%nat then mk_job (j_table b) (j_index b) f (cursor_at c g)
         else mk_job (j_table b) (j_index b) f (mk_cursor false 0 0))).
  { destruct (Z.ltb_spec (user_vpn va) (Z.of_nat (length fs))) as [Hlt|Hge].
    - injection Hg as <-. rewrite lookup_app_l in Hf by lia.
      eexists. split; [apply elem_of_app; left; eapply list_elem_of_lookup_2, page_job_lookup; by exists f|].
      rewrite decide_True by lia. split; [done|]. cbn [j_table j_index]. split; [|split; [|done]].
      + pose proof (link_of_page _ _ Hf) as Hk. rewrite Nat2Z.inj_div, Z2Nat.id, TABLE_eq in Hk by lia. by rewrite E1.
      + rewrite Nat2Z.inj_mod, Z2Nat.id, TABLE_eq by lia. done.
    - destruct (Z.eqb_spec (user_vpn va) (512 * HEAP_SPACE_START)) as [Ev|]; [|done]. injection Hg as <-.
      rewrite Nat2Z.id, lookup_app_r, Nat.sub_diag in Hf by lia. injection Hf as ->.
      exists (mk_job ht 0 f (mk_cursor false 0 0)). rewrite decide_False by lia.
      split; [apply elem_of_app; right; by left|]. split; [done|]. cbn [j_table j_index]. rewrite E1, E0, Ev.
      split; [apply elem_of_app; right; by left|]. done. }
  destruct Hin as (b & Hb & Ef & Hk & Ei & Eb). exists (table_entry m (j_table b) (j_index b)), b.
  split_and!; [done..|]. destruct (later_link (vpn 1 va) _ ltac:(lia) Hk) as [Ht Hlk].
  eapply walk_mapped; [exact Hl1|exact Hr|exact Ht|exact Hlk|exact Hfr|]. unfold table_entry.
  rewrite (later_entry _ _ _ Hk) by lia. fold (table_entry m' (j_table b) (vpn 0 va)). rewrite Ei, <- Ef at 1.
  destruct (mp_jobs _ _ _ _ _ Hmapped b Hb) as [J1 _]. rewrite J1. by rewrite Ef.
Qed.

Lemma link_cases a t : (a, t) ∈ user_links T ht ->
  (exists j, a = Z.of_nat j /\ T !! j = Some t) \/ (a = HEAP_SPACE_START /\ t = ht).
Proof.
  intros [(j & t' & [= -> ->] & Ht)%elem_of_lookup_imap|[= -> ->]%list_elem_of_singleton]%elem_of_app; [left|by right].
  exists j. by rewrite Z.add_0_l.
Qed.

(** The job of an entry is that of the page at this place. *)
Lemma no_job_at t v b :
  Z.of_nat (length fs) <= v -> v <> 512 * HEAP_SPACE_START -> (v / 512, t) ∈ user_links T ht ->
  b ∈ user_jobs T ht c fs hf -> j_table b = t -> j_index b <> v mod 512.
Proof.
  intros Hge Hne Hk Hb Et Ei. pose proof TABLE_eq.
  pose proof Hnodup as [_ [_ Hd]%NoDup_cons]%NoDup_cons. pose proof Hd as (HTn & Hd1 & _)%NoDup_app.
  apply elem_of_app in Hb as [Hb| ->%list_elem_of_singleton].
  - apply (page_job_in T c fs Hn) in Hb as (w & f & t' & Hf & Ht & ->).
    cbn [j_table j_index] in Et, Ei. subst t'. apply lookup_lt_Some in Hf.
    destruct (link_cases _ _ Hk) as [(j & Ej & Hj)|[_ ->]].
    + pose proof (NoDup_lookup _ _ _ _ HTn Ht Hj) as <-.
      rewrite Nat2Z.inj_div, TABLE_eq in Ej. rewrite Nat2Z.inj_mod, TABLE_eq in Ei.
      assert (v = Z.of_nat w) by (rewrite (Z.div_mod v 512), (Z.div_mod (Z.of_nat w) 512); lia). lia.
    + apply list_elem_of_lookup_2 in Ht. by apply (Hd1 ht); [|left].
  - cbn [j_table j_index] in Et, Ei. subst t. destruct (link_cases _ _ Hk) as [(j & _ & Hj)|[Ev _]].
    + apply list_elem_of_lookup_2 in Hj. by apply (Hd1 ht); [|left].
    + apply Hne. rewrite (Z.div_mod v 512), Ev by lia. lia.
Qed.

Lemma user_walk_unmapped va :
  2 ^ 30 <= va < 2 ^ 31 -> user_page (Z.of_nat (length fs)) va = None -> sv39_walk (word m'') root va = None.
Proof.
  intros Hva Hg. destruct (user_vpn_parts va Hva) as (E2 & E1 & E0 & R1 & R0).
  pose proof later_links as Hr. rewrite <- E2 in Hr. unfold user_page in Hg.
  destruct (Z.ltb_spec (user_vpn va) (Z.of_nat (length fs))) as [|Hge]; [done|].
  destruct (Z.eqb_spec (user_vpn va) (512 * HEAP_SPACE_START)) as [|Hne]; [done|].
  assert (Hl1 : is_frame l1) by (apply walk_plan).
  pose proof Hnodup as [_ [Hdl Hd]%NoDup_cons]%NoDup_cons. pose proof Hd as (_ & Hd1 & [Hht _]%NoDup_cons)%NoDup_app.
  destruct (decide (user_vpn va / 512 ∈ (user_links T ht).*1)) as [Hk|Hk].
  - apply list_elem_of_fmap in Hk as ([a t] & Ea & Hk). cbn [fst] in Ea. subst a.
    destruct (later_link _ _ R1 Hk) as [Ht Hlk].
    eapply walk_unmapped; [exact Hl1|exact Hr|exact Ht|by rewrite E1|]. rewrite E0, (later_entry _ _ _ Hk) by done.
    assert (HtT : t ∈ T ++ [ht]).
    { destruct (link_cases _ _ Hk) as [(j & _ & Hj)|[_ ->]]; [|set_solver]. apply list_elem_of_lookup_2 in Hj. set_solver. }
    rewrite (mp_rest _ _ _ _ _ Hmapped); [apply Hzero; [by right|done]|].
    apply user_outside; [done|done| | |].
    + apply elem_of_app in HtT as [Ht'| ->%list_elem_of_singleton]; [|done]. intros Hf. apply (Hd1 t); [done|by right].
    + intros ->. exfalso. apply Hdl. set_solver.
    + intros b Hb Et. by apply (no_job_at t).
  - eapply walk_unlinked; [exact Hl1|exact Hr|]. rewrite E1, Hagree by (done || (right; by left)).
    rewrite (mp_rest _ _ _ _ _ Hmapped); [apply Hzero; [by left|done]|].
    apply user_outside; [done|done|set_solver| |].
    + intros _ t Ht. apply Hk. apply list_elem_of_fmap. by exists (user_vpn va / 512, t).
    + intros b Hb Et. destruct (walk_jobs_in b Hb) as (_ & Ht & _). exfalso. apply Hdl. set_solver.
Qed.
End Walk.

(** ** [allocate_memory_final] *)

Lemma allocate_final_spec s q y l1p l1 pre blocks post su hu start data data_size free :
  let c := if negb (data =? 0) && negb (data_size =? 0) then mk_cursor true data data_size else mk_cursor false 0 0 in
  procs s !! q = Some y -> page_tables_lvl_1_list y = Some l1p ->
  user_tables s l1p l1 (pre ++ imap (fun j b => block_view (start + Z.of_nat j) b) blocks ++ post) su hu ->
  Forall (fun v : tview => v.1.1 <> start) pre -> blocks <> [] ->
  Forall is_frame blocks.*1 -> Forall (fun t => t ∉ free) blocks.*1 -> l1 ∉ free -> free <> [] ->
  Forall (fun b => b.1 ∉ concat blocks.*2) blocks ->
  plan_ok l1 (mega_links start blocks) (mega_jobs c blocks) -> free_ok (frame_mem s) (concat blocks.*2 ++ free) ->
  wp (allocate_memory_final (Some q) start (start + Z.of_nat (length blocks)) data data_size) (fun r s' => r = 0 /\
    exists m', s' = s <| frame_mem := m' |> /\ free_ok m' free /\
      mapped (frame_mem s) m' l1 (mega_links start blocks) (mega_jobs c blocks)) s.
Proof.
  intros c Hq Hl1 (n1 & l & Hrep & Hv & Ht1 & _) Hpre Hb Hf Ht Hl Hn Hsep Hp Hok.
  pose proof (tr_l1 _ _ _ _ Hrep) as H1. pose proof (tr_seg _ _ _ _ Hrep) as Hseg.
  apply fmap_app_inv in Hv as (v1 & v2 & -> & Hv2 & Ev). apply fmap_app_inv in Ev as (lp & l2 & -> & -> & ->).
  symmetry in Hv2. apply fmap_app_inv in Hv2 as (v3 & v4 & Hv3 & _ & Ev).
  apply fmap_app_inv in Ev as (lb & lpost & -> & -> & ->). symmetry in Hv3.
  apply nseg_app in Hseg as (h & Hsp & Hseg). apply nseg_app in Hseg as (e & Hsb & _).
  unfold allocate_memory_final. apply wp_bind. eapply wp_pget; [done|]. rewrite Hl1. apply wp_bind.
  eapply wp_rd; [exact H1|]. apply wp_bind, wp_gets. destruct (rep_fuel _ _ _ _ Hrep) as [k ->]. apply wp_bind.
  destruct lb as [|[p n] lb]; [by destruct blocks|]. pose proof Hsb as (-> & Hpn & _). eapply wp_intro.
  { rewrite length_app, <- Nat.add_assoc. rewrite (find_index_skip start lp _ _ _ _ Hsp Hpre), Nat.add_succ_r.
    apply (find_index_here start _ p n); [done|]. destruct blocks as [|[t fs] blocks]; [done|].
    csimpl in Hv3. injection Hv3 as Hi _ _ _. lia. }
  rewrite Ht1. replace (start + Z.of_nat (length blocks) - start) with (Z.of_nat (length blocks)) by lia.
  rewrite Nat2Z.id. by eapply (allocate_mega_pages_spec l1 blocks start (Some p) ((p, n) :: lb) e c).
Qed.

(** ** The allocation of the frames *)

(** The program of a process is an image inside the kernel's. *)
Record program_ok (app : uapps) : Prop := {
  pr_start : 0 < app_start app /\ ram_start <= app_start app /\ app_start app mod 8 = 0;
  pr_size : 0 < code_size_of app;
  pr_end : app_start app + code_size_of app + FRAME_SIZE <= free_memory_start
}.

Definition program_cursor (app : uapps) : data_cursor := mk_cursor true (app_start app) (code_size_of app).

Lemma program_cursor_ok app : program_ok app -> cursor_ok (program_cursor app).
Proof.
  intros [(H1 & H2 & H3) H4 H5] _. simpl. pose proof (wrapS_range 32 (app_end app - app_start app) ltac:(lia)) as Hr.
  fold (code_size_of app) in Hr. rewrite FRAME_SIZE_eq in *. split_and!; lia.
Qed.

Section Build.
Context (root l1 : Z) (T : list Z) (ht : Z) (fs : list Z) (hf : Z) (rest : list Z).
Hypothesis Hn : enough T fs.
Hypothesis HT : Z.of_nat (length T) < 128.
Hypothesis Hframes : Forall is_frame (root :: l1 :: T ++ ht :: fs ++ [hf]).
Hypothesis Hnodup : NoDup (root :: l1 :: T ++ ht :: fs ++ hf :: rest).
Hypothesis Hrest : rest <> [].
Hypothesis Hfsne : fs <> [].

Lemma build_nodup : NoDup (root :: l1 :: T ++ ht :: fs ++ [hf]) /\ forall f, f ∈ root :: l1 :: T ++ ht :: fs ++ [hf] -> f ∉ rest.
Proof.
  assert (Ea : root :: l1 :: T ++ ht :: fs ++ hf :: rest = (root :: l1 :: T ++ ht :: fs ++ [hf]) ++ rest).
  { cbn [app]. rewrite <- app_assoc. cbn [app]. by rewrite <- app_assoc. }
  rewrite Ea in Hnodup. apply NoDup_app in Hnodup as (H1 & H2 & _). done.
Qed.

Lemma build_plan c : cursor_ok c -> plan_ok l1 (user_links T ht) (user_jobs T ht c fs hf).
Proof.
  intros Hc. pose proof build_nodup as [[_ Hd]%NoDup_cons _]. apply Forall_cons in Hframes as [_ Hf]. by apply user_plan_ok.
Qed.

Lemma frames_alloc_spec s q y app l1p :
  procs s !! q = Some y -> app_pointer y = Some app -> page_tables_lvl_1_list y = Some l1p -> program_ok app ->
  user_tables s l1p l1 (views_of 0 T (Z.of_nat (length fs)) ++ [(HEAP_SPACE_START, ht, 1)]) (Z.of_nat (length T)) 1 ->
  free_ok (frame_mem s) (fs ++ hf :: rest) ->
  wp (process_frames_alloc (Some q)) (fun r s' => r = 0 /\
    exists m', s' = s <| frame_mem := m' |> /\ free_ok m' rest /\
      mapped (frame_mem s) m' l1 (user_links T ht) (user_jobs T ht (program_cursor app) fs hf)) s.
Proof.
  intros Hq Happ Hl1 Hprog Htab Hok. pose proof (build_plan _ (program_cursor_ok _ Hprog)) as Hp.
  pose proof Hprog as [(Hs1 & _) Hs2 _]. pose proof build_nodup as [Hnd Hnr].
  pose proof Hnd as [_ [Hdl Hd]%NoDup_cons]%NoDup_cons. pose proof Hd as (_ & Hd1 & [Hht _]%NoDup_cons)%NoDup_app.
  pose proof Hframes as (_ & [_ [Hft [Hfh _]%Forall_cons]%Forall_app]%Forall_cons)%Forall_cons.
  pose proof Htab as (n1 & l & Hrep & Hv & Ht1 & Hsu & Hhu & Hrest').
  pose proof (tr_l1 _ _ _ _ Hrep) as H1. pose proof Hn as [Hn1 Hn2]. pose proof Htab as Htab0. rewrite (blocks_views _ _ _ Hn) in Htab.
  assert (Hfs : concat (blocks_of T fs).*2 = fs) by (by apply blocks_frames).
  assert (HTne : T <> []) by (intros ->; destruct fs; cbn [length] in *; [done|lia]).
  unfold process_frames_alloc. apply wp_bind. eapply wp_pget; [exact Hq|]. rewrite Happ. apply wp_bind.
  eapply wp_lift; [done|]. apply wp_bind. eapply wp_pget; [exact Hq|]. rewrite Hl1. apply wp_bind.
  eapply wp_rd; [exact H1|]. rewrite Hsu. apply wp_or_fail. rewrite <- (blocks_length T fs). eapply wp_mono.
  { apply (allocate_final_spec s q y l1p l1 [] (blocks_of T fs) [(HEAP_SPACE_START, ht, 1)]
      (Z.of_nat (length T)) 1 STACK_CODE_SPACE_START _ _ (hf :: rest)); try done; rewrite ?blocks_tables, ?Hfs; try done.
    - intros Eb. apply HTne. by rewrite <- (blocks_tables T fs), Eb.
    - apply Forall_forall. intros t Ht [->|Hr]%elem_of_cons; [apply (Hd1 hf Ht); set_solver|].
      by apply (Hnr t); [set_solver|].
    - intros [->|Hr]%elem_of_cons; [apply Hdl; set_solver|]. by apply (Hnr l1); [set_solver|].
    - apply Forall_forall. intros [t gs] Hb. simpl. assert (Ht : t ∈ T).
      { rewrite <- (blocks_tables T fs). by apply (list_elem_of_fmap_2 fst _ (t, gs)). }
      intros Hf. apply (Hd1 t Ht). set_solver.
    - destruct (Z.eqb_spec (app_start app) 0); [lia|]. destruct (Z.eqb_spec (code_size_of app) 0); [lia|]. simpl.
      rewrite blocks_jobs, blocks_links by done. by apply (plan_ok_app_l l1 _ [(HEAP_SPACE_START, ht)] _ [mk_job ht 0 hf (mk_cursor false 0 0)]). }
  intros r s' (-> & m1 & -> & Hok1 & Hm1). split; [done|]. apply wp_bind. eapply wp_rd; [exact H1|]. rewrite Hhu.
  rewrite blocks_links in Hm1. destruct (Z.eqb_spec (app_start app) 0); [lia|].
  destruct (Z.eqb_spec (code_size_of app) 0); [lia|]. simpl in Hm1. rewrite blocks_jobs in Hm1 by done.
  apply wp_or_fail. eapply wp_mono.
  { apply (allocate_final_spec (s <| frame_mem := m1 |>) q y l1p l1 (views_of 0 T (Z.of_nat (length fs)))
      [(ht, [hf])] [] (Z.of_nat (length T)) 1 HEAP_SPACE_START 0 0 rest); try done.
    - by apply (user_tables_ext s).
    - eapply Forall_impl; [apply views_index|]. intros v Hv'. simpl in Hv'. unfold HEAP_SPACE_START. lia.
    - by apply Forall_singleton.
    - apply Forall_singleton. simpl. apply Hnr. set_solver.
    - apply Hnr. set_solver.
    - apply Forall_singleton. simpl. intros Hf%list_elem_of_singleton. apply Hht. set_solver.
    - apply (plan_ok_app_l l1 _ (imap (fun j t => (0 + Z.of_nat j, t)) T) _ (page_jobs T (program_cursor app) fs)).
      rewrite (Permutation_app_comm (mega_links _ _)), (Permutation_app_comm (mega_jobs _ _)). exact Hp. }
  intros r s' (-> & m2 & -> & Hok2 & Hm2). split; [done|]. apply wp_ret. split; [done|]. exists m2.
  split; [done|]. split; [done|]. by eapply mapped_trans.
Qed.
End Build.

(** ** What the pages hold *)

Lemma cursor_program app g :
  program_ok app ->
  (4096 * (Z.of_nat g - 1) <= code_size_of app ->
     cursor_at (program_cursor app) g =
       mk_cursor true (app_start app + 4096 * Z.of_nat g) (code_size_of app - 4096 * Z.of_nat g)) /\
  (code_size_of app < 4096 * (Z.of_nat g - 1) -> writing_data (cursor_at (program_cursor app) g) = false).
Proof.
  intros [_ H2 H3]. pose proof (wrapS_range 32 (app_end app - app_start app) ltac:(lia)) as Hr.
  fold (code_size_of app) in Hr. induction g as [|g [IH1 IH2]]; (split; intros Hg; [|try lia]).
  - unfold cursor_at, program_cursor. simpl. f_equal; lia.
  - change (cursor_at (program_cursor app) (S g)) with (next_cursor (cursor_at (program_cursor app) g)).
    rewrite IH1 by lia. unfold next_cursor. simpl. rewrite FRAME_SIZE_eq.
    destruct (Z.ltb_spec (code_size_of app - 4096 * Z.of_nat g) 0); [lia|]. f_equal; [lia|]. rewrite wrapS_id; lia.
  - change (cursor_at (program_cursor app) (S g)) with (next_cursor (cursor_at (program_cursor app) g)).
    destruct (Z.leb_spec (4096 * (Z.of_nat g - 1)) (code_size_of app)).
    + rewrite IH1 by lia. unfold next_cursor. simpl.
      by destruct (Z.ltb_spec (code_size_of app - 4096 * Z.of_nat g) 0); [|lia].
    + unfold next_cursor. rewrite IH2 by lia. apply IH2. lia.
Qed.

(** Page [g] holds program text when the program reaches it; the next page is
    not written at all, the others are cleared. *)
Definition page_exec (app : uapps) (g : nat) : bool := 4096 * Z.of_nat g <=? code_size_of app.
Definition page_word m (app : uapps) (g : nat) (f i : Z) : Z :=
  if 4096 * Z.of_nat g <=? code_size_of app then word m (app_start app + 4096 * Z.of_nat g + 8 * i)
  else if 4096 * (Z.of_nat g - 1) <=? code_size_of app then word m (pte_at f i)
  else 0.

Lemma cursor_exec app g :
  program_ok app -> writing_data (next_cursor (cursor_at (program_cursor app) g)) = page_exec app g.
Proof.
  intros Hp. destruct (cursor_program app (S g) Hp) as [H1 H2]. unfold page_exec.
  destruct (cursor_program app g Hp) as [H3 H4].
  destruct (Z.leb_spec (4096 * (Z.of_nat g - 1)) (code_size_of app)).
  - rewrite H3 by lia. unfold next_cursor. simpl.
    destruct (Z.ltb_spec (code_size_of app - 4096 * Z.of_nat g) 0), (Z.leb_spec (4096 * Z.of_nat g) (code_size_of app)); done || lia.
  - destruct (Z.leb_spec (4096 * Z.of_nat g) (code_size_of app)); [lia|]. apply H2. lia.
Qed.

Lemma cursor_word m app g f i :
  program_ok app -> frame_content m (cursor_at (program_cursor app) g) f i = page_word m app g f i.
Proof.
  intros Hp. destruct (cursor_program app g Hp) as [H1 H2]. unfold frame_content, page_word.
  destruct (Z.leb_spec (4096 * (Z.of_nat g - 1)) (code_size_of app)).
  - rewrite H1 by lia. simpl.
    destruct (Z.ltb_spec (code_size_of app - 4096 * Z.of_nat g) 0), (Z.leb_spec (4096 * Z.of_nat g) (code_size_of app)); done || lia.
  - rewrite H2 by lia. by destruct (Z.leb_spec (4096 * Z.of_nat g) (code_size_of app)); [lia|].
Qed.

(** ** The allocator *)

Lemma pages_of_bound size :
  0 < size -> FRAME_SIZE * (Z.of_nat (pages_of size) - 1) < size <= FRAME_SIZE * Z.of_nat (pages_of size).
Proof. intros Hs. unfold pages_of. rewrite FRAME_SIZE_eq. rewrite Nat2Z.inj_succ, Z2Nat.id by mlia. mlia. Qed.

(** The hypotheses of an allocation: program [app] and a stack of [size]
    bytes, for which the frames are [root], [l1], the tables [T] and [ht], the
    pages [fs] and [hf], in the order of the free list. *)
Record allocation s (q : ptr) (x : process) (app : uapps) (size root l1 : Z) (T : list Z) (ht : Z) (fs : list Z)
    (hf : Z) (rest : list Z) : Prop := {
  al_process : procs s !! q = Some x;
  al_app : app_pointer x = Some app;
  al_program : program_ok app;
  al_size : 0 < size <= GIGAPAGE_SIZE;
  al_pages : length fs = (pages_of (code_size_of app) + pages_of size)%nat;
  al_tables : enough T fs;
  al_room : Z.of_nat (length T) < 128;
  al_free : free_ok (frame_mem s) (root :: l1 :: T ++ ht :: fs ++ hf :: rest);
  al_rest : rest <> [];
  al_kernel : is_frame (kernel_table s) /\ kernel_table s ∉ root :: l1 :: T ++ ht :: fs ++ hf :: rest;
  al_malloc : forall p, malloc_ok p = true;
  al_fresh : allocated (pt_nodes s) s
}.

Section Allocator.
Context (s : kstate) (q : ptr) (x : process) (app : uapps) (size root l1 : Z) (T : list Z) (ht : Z) (fs : list Z).
Context (hf : Z) (rest : list Z).
Hypothesis Hal : allocation s q x app size root l1 T ht fs hf rest.

Let n : Z := Z.of_nat (length fs).

Lemma al_frames : Forall is_frame (root :: l1 :: T ++ ht :: fs ++ [hf]) /\
  NoDup (root :: l1 :: T ++ ht :: fs ++ hf :: rest) /\ fs <> [].
Proof.
  pose proof (al_free _ _ _ _ _ _ _ _ _ _ _ _ Hal) as Hok. split_and!; [|apply Hok|].
  - pose proof (fo_frames _ _ Hok) as Hf. rewrite !Forall_cons, Forall_app, Forall_cons, Forall_app, Forall_cons in *.
    rewrite Forall_nil. tauto.
  - intros ->. pose proof (al_pages _ _ _ _ _ _ _ _ _ _ _ _ Hal). simpl in *. unfold pages_of in *. lia.
Qed.

Lemma al_tables_apart : root ∉ T ++ [ht] /\ l1 ∉ T ++ [ht].
Proof.
  destruct al_frames as (_ & [Hr [Hl _]%NoDup_cons]%NoDup_cons & _).
  rewrite !not_elem_of_cons, !not_elem_of_app, !not_elem_of_cons in *.
  pose proof (not_elem_of_nil root). pose proof (not_elem_of_nil l1). tauto.
Qed.

(** The process after the allocation, and before its pages are reserved. *)
Definition mapped_process (l1p : ptr) (shift : Z) : process :=
  x <| stack_shift := shift |> <| page_table_level_2 := root |> <| page_tables_lvl_1_list := Some l1p |>.

(** *** Program and stack *)
Lemma add_frames_spec s1 l1p :
  procs s1 !! q = Some (mapped_process l1p 0) -> allocated (pt_nodes s1) s1 ->
  user_tables s1 l1p l1 [] 0 0 -> (l1p < next_block s1)%positive -> free_ok (frame_mem s1) (T ++ ht :: fs ++ hf :: rest) ->
  wp (add_frames_process (Some q) (code_size_of app) 1 (wrapS 32 size)) (fun r s' => r = 0 /\
    exists m b ns, s' = s1 <| procs := <[q := mapped_process l1p n]> (procs s1) |>
      <| frame_mem := m |> <| next_block := b |> <| pt_nodes := ns |> /\
    user_tables s' l1p l1 (views_of 0 T n ++ [(HEAP_SPACE_START, ht, 1)]) (Z.of_nat (length T)) 1 /\
    free_ok m (fs ++ hf :: rest) /\
    (forall a, frame_of a ∉ T ++ [ht] -> word m a = word (frame_mem s1) a) /\
    (forall t j, t ∈ T ++ [ht] -> 0 <= j < 512 -> word m (pte_at t j) = 0) /\ grown s1 s' /\ older_kept l1p s1 s') s1.
Proof.
  intros Hq Hfresh Htab Hlow Hfree. pose proof al_frames as (Hf & Hnd & Hne). pose proof Hal as [_ _ [_ Hcs _] Hsize Hlen Hen Hroom _ Hrest _ Hm _].
  assert (Hshift : forall k, mapped_process l1p k = mapped_process l1p 0 <| stack_shift := k |>) by done.
  apply NoDup_cons in Hnd as [_ [_ Hnd]%NoDup_cons]. apply NoDup_app in Hnd as (HTn & Hd1 & Hnd).
  pose proof Hf as (_ & [_ [HTf _]%Forall_app]%Forall_cons)%Forall_cons.
  pose proof (pages_of_bound _ Hcs) as Hb1. pose proof (pages_of_bound size ltac:(lia)) as Hb2.
  pose proof (wrapS_range 32 (app_end app - app_start app) ltac:(lia)) as Hr. fold (code_size_of app) in Hr.
  rewrite (wrapS_id 32 size) by (unfold GIGAPAGE_SIZE in Hsize; change (Z.shiftl 1 30) with (2 ^ 30) in Hsize; lia).
  assert (H0 : reserving s1 q l1p (mapped_process l1p 0) l1 T (ht :: fs ++ hf :: rest) 0 s1).
  { split; rewrite ?views_of_none; try done.
    - exists (frame_mem s1), (next_block s1), (pt_nodes s1).
      change (mapped_process l1p 0 <| stack_shift := 0 |>) with (mapped_process l1p 0).
      rewrite insert_id by done. by destruct s1.
    - intros t j Ht. by apply not_elem_of_nil in Ht. }
  unfold add_frames_process. rewrite FRAME_SIZE_eq in Hb1, Hb2. destruct Hen as [Hen1 Hen2].
  assert (Hloop : forall sz k s2, 0 < sz < 2 ^ 31 -> 0 <= k -> k + Z.of_nat (pages_of sz) <= n ->
    reserving s1 q l1p (mapped_process l1p 0) l1 T (ht :: fs ++ hf :: rest) k s2 ->
    wp (add_frames_loop (pages_of sz) (Some q) STACK_CODE_PAGE true sz) (fun r s' => r = 0 /\
      reserving s1 q l1p (mapped_process l1p 0) l1 T (ht :: fs ++ hf :: rest) (k + Z.of_nat (pages_of sz)) s') s2).
  { intros sz k s2 Hsz Hk Hkn Hs2. pose proof (pages_of_bound sz ltac:(lia)) as Hb. unfold pages_of in *.
    apply (reserve_loop s1 q l1p (mapped_process l1p 0) l1 T (ht :: fs ++ hf :: rest)); done || lia. }
  apply wp_or_fail. eapply wp_mono; [apply (Hloop _ 0); [lia|lia|lia|exact H0]|]. intros r s2 [-> H2]. split; [done|].
  apply wp_or_fail. eapply wp_mono; [eapply (Hloop size); [|idtac..|exact H2]; [|lia|lia]|].
  { unfold GIGAPAGE_SIZE in Hsize. change (Z.shiftl 1 30) with (2 ^ 30) in Hsize. lia. }
  intros r s3 [-> H3]. split; [done|]. replace (0 + _ + _) with n in H3 by lia.
  apply wp_or_fail. eapply wp_mono.
  { apply (reserve_heap s1 q l1p (mapped_process l1p 0) l1 T (ht :: fs ++ hf :: rest)) with
      (n := n) (ht := ht) (rest' := fs ++ hf :: rest); try done.
    - by apply views_of_all.
    - by destruct fs.
    - intros Hin. apply (Hd1 ht); [done|by left]. }
  intros r s' (-> & m & b & ns & -> & Htab' & Hfree' & Ho & Hz & Hgr). split; [done|]. apply wp_ret. split; [done|].
  by exists m, b, ns.
Qed.

(** *** The whole allocation *)
Record built s' : Prop := {
  bu_state : exists l1p m b ns, s' = s <| procs := <[q := mapped_process l1p n]> (procs s) |>
    <| frame_mem := m |> <| next_block := b |> <| pt_nodes := ns |>;
  bu_free : free_ok (frame_mem s') rest;
  bu_grown : grown s s';
  bu_tables : forall y l1p, procs s' !! q = Some y -> page_tables_lvl_1_list y = Some l1p ->
    user_tables s' l1p l1 (user_views T ht n) (Z.of_nat (length T)) 1 /\ (next_block s <= l1p < next_block s')%positive /\
    older_kept l1p s s';
  bu_filled : exists m0, links_to m0 root USERSPACE l1 /\
    (forall t j, t ∈ l1 :: T ++ [ht] -> 0 <= j < 512 -> word m0 (pte_at t j) = 0) /\
    (forall a, frame_of a ∉ root :: l1 :: T ++ [ht] -> word m0 a = word (frame_mem s) a) /\
    (forall i, 0 <= i < 512 -> i <> USERSPACE -> word m0 (pte_at root i) = word (frame_mem s) (pte_at (kernel_table s) i)) /\
    mapped m0 (frame_mem s') l1 (user_links T ht) (user_jobs T ht (program_cursor app) fs hf)
}.

(** The memory once the directory and the level-1 table are there. *)
Record directory_made m : Prop := {
  dm_free : free_ok m (T ++ ht :: fs ++ hf :: rest);
  dm_only : forall a, frame_of a ∉ [root; l1] -> word m a = word (frame_mem s) a;
  dm_zero : forall j, 0 <= j < 512 -> word m (pte_at l1 j) = 0;
  dm_copy : forall i, 0 <= i < 512 -> word m (pte_at root i) = word (frame_mem s) (pte_at (kernel_table s) i)
}.

Lemma directory_spec :
  wp create_page_table (fun t m1 => t = root /\ root <> 0 /\
    wp (memcpy_words FRAME_WORDS root (kernel_table s)) (fun _ m2 =>
      wp create_page_table (fun t m3 => t = l1 /\ l1 <> 0 /\ directory_made m3) m2) m1) (frame_mem s).
Proof.
  pose proof Hal as [_ _ _ _ _ _ _ Hfree Hrest [Hk Hkn] _ _].
  eapply wp_mono; [by apply create_page_table_spec|]. intros t m1 H1. cbn beta in H1.
  rewrite decide_False in H1 by done. destruct H1 as (-> & Hroot & Hrn & Hf1 & Ho1 & _).
  split; [done|]. split; [by apply is_frame_pos in Hroot; lia|]. eapply wp_mono; [apply memcpy_frame_spec; [done|]|].
  { intros j Hj. rewrite pte_at_frame by done. split; [by apply pte_at_addr|]. intros Ek. apply Hkn. rewrite Ek. by left. }
  intros [] m2 (Hp2 & Ho2 & Hw2). assert (Hf2 : free_ok m2 (l1 :: T ++ ht :: fs ++ hf :: rest)).
  { by eapply free_ok_only_in. }
  eapply wp_mono; [by apply create_page_table_spec|]. intros t m3 H3. cbn beta in H3.
  rewrite decide_False in H3 by (by destruct T). destruct H3 as (-> & Hl1 & _ & Hf3 & Ho3 & Hz3).
  split; [done|]. split; [by apply is_frame_pos in Hl1; lia|]. split; [done| |done|].
  - intros a Ha. rewrite !not_elem_of_cons in Ha. rewrite Ho3, Ho2, Ho1 by tauto. done.
  - intros i Hi. rewrite Ho3. 2:{ rewrite pte_at_frame by done. intros ->. apply Hrn. by left. }
    rewrite Hw2 by done. apply Ho1. rewrite pte_at_frame by done. intros Ek. apply Hkn. rewrite Ek. by left.
Qed.

(** Linking the level-1 table: what the loops start from. *)
Lemma user_entry_linked m (Q : unit -> fmem -> Prop) :
  directory_made m ->
  (forall m', free_ok m' (T ++ ht :: fs ++ hf :: rest) -> links_to m' root USERSPACE l1 ->
    (forall a, frame_of a ∉ [root; l1] -> word m' a = word (frame_mem s) a) ->
    (forall j, 0 <= j < 512 -> word m' (pte_at l1 j) = 0) ->
    (forall i, 0 <= i < 512 -> i <> USERSPACE ->
      word m' (pte_at root i) = word (frame_mem s) (pte_at (kernel_table s) i)) -> Q tt m') ->
  wp (configure_page_entry (pte_at root USERSPACE) l1 false false false true KILO) Q m.
Proof.
  intros [H1 H2 H3 H4] HQ. destruct al_frames as (Hf & Hnd & _).
  apply Forall_cons in Hf as [Hr [Hl _]%Forall_cons]. pose proof Hnd as [Hrn _]%NoDup_cons.
  rewrite not_elem_of_cons in Hrn. destruct Hrn as [Hrl Hrn].
  eapply wp_configure_table; [done|unfold USERSPACE; lia|apply configured_kilo|apply kilo_entry_wf, pte_of_word_wf|].
  intros m' Hp Ho He Hw. apply HQ.
  - by eapply free_ok_only_in.
  - by eexists.
  - intros a Ha. rewrite Ho; [by apply H2|]. intros Ea. apply Ha. rewrite Ea. by left.
  - intros j Hj. rewrite Ho; [by apply H3|]. by rewrite pte_at_frame.
  - intros i Hi Hne. rewrite Hw by done. by apply H4.
Qed.

Lemma swap_frame_mem (s0 : kstate) f m : s0 <| procs ::= f |> <| frame_mem := m |> = s0 <| frame_mem := m |> <| procs ::= f |>.
Proof. done. Qed.
Lemma frame_mem_twice (s0 : kstate) m1 m2 : s0 <| frame_mem := m1 |> <| frame_mem := m2 |> = s0 <| frame_mem := m2 |>.
Proof. done. Qed.
Lemma swap_nodes (s0 : kstate) f g n0 :
  s0 <| procs ::= f |> <| next_block ::= g |> <| pt_nodes ::= n0 |> =
  s0 <| next_block ::= g |> <| pt_nodes ::= n0 |> <| procs ::= f |>.
Proof. done. Qed.

Lemma collapse_state (s0 : kstate) (y1 y2 y3 : process) m1 m2 m3 f n0 :
  s0 <| procs ::= <[q := y1]> |> <| frame_mem := m1 |> <| procs ::= <[q := y2]> |> <| frame_mem := m2 |>
    <| frame_mem := m3 |> <| next_block ::= f |> <| pt_nodes ::= n0 |> <| procs ::= <[q := y3]> |> =
  s0 <| frame_mem := m3 |> <| next_block ::= f |> <| pt_nodes ::= n0 |> <| procs ::= <[q := y3]> |>.
Proof. by rewrite !swap_frame_mem, !frame_mem_twice, procs_twice, swap_nodes, procs_twice. Qed.

Lemma final_state (s0 : kstate) m1 f g h m2 P m3 b n0 m4 :
  s0 <| frame_mem := m1 |> <| next_block ::= f |> <| pt_nodes ::= g |> <| procs ::= h |> <| frame_mem := m2 |>
    <| procs := P |> <| frame_mem := m3 |> <| next_block := b |> <| pt_nodes := n0 |> <| frame_mem := m4 |> =
  s0 <| procs := P |> <| frame_mem := m4 |> <| next_block := b |> <| pt_nodes := n0 |>.
Proof. by destruct s0. Qed.

Lemma allocator_spec : wp (process_memory_allocator (Some q) size) (fun r s' => r = 0 /\ built s') s.
Proof.
  pose proof Hal as [Hq Happ Hprog Hsize Hlen Hen Hroom Hfree Hrest _ Hm Hfresh].
  destruct al_frames as (Hf & Hnd & Hne). unfold process_memory_allocator.
  destruct (Z.ltb_spec GIGAPAGE_SIZE size); [lia|]. apply wp_bind. eapply wp_pset; [exact Hq|].
  apply wp_bind, wp_in_frames. eapply wp_mono; [exact directory_spec|]. intros t m1 (-> & Hr0 & H1). cbn beta.
  destruct (Z.eqb_spec root 0); [done|]. apply wp_bind. eapply wp_pset; [simpl; by rewrite lookup_insert_eq|].
  apply wp_bind, wp_gets. apply wp_bind, wp_in_frames. eapply wp_mono; [exact H1|]. intros [] m2 H2. cbn beta.
  apply wp_bind, wp_in_frames. eapply wp_mono; [exact H2|]. intros t m3 (-> & Hl0 & H3). cbn beta.
  destruct (Z.eqb_spec l1 0); [done|]. apply wp_bind. eapply wp_pget; [simpl; by rewrite lookup_insert_eq|].
  apply wp_bind. apply configure_root_spec; [done|by apply Hm|]. cbn beta iota.
  apply wp_bind. eapply wp_pset; [simpl; by rewrite lookup_insert_eq|]. rewrite collapse_state.
  match goal with |- context [next_block ?S] => change (next_block S) with (next_block s) end.
  set (l1p := next_block s). apply wp_bind, wp_in_frames. eapply user_entry_linked; [exact H3|].
  intros m4 Hfree4 Hlink4 Honly4 Hzero4 Hcopy4. apply wp_bind. eapply wp_pget; [simpl; by rewrite lookup_insert_eq|].
  match goal with |- context [app_pointer ?Y] => change (app_pointer Y) with (app_pointer x) end. rewrite Happ.
  match goal with |- wp _ _ ?S => set (s1 := S) end.
  assert (Hp1 : procs s1 = <[q := mapped_process l1p 0]> (procs s)) by done.
  apply wp_or_fail. eapply wp_mono.
  { apply (add_frames_spec s1 l1p); [by rewrite Hp1, lookup_insert_eq| | |change (l1p < Pos.succ l1p)%positive; lia|exact Hfree4].
    - intros p Hp. simpl in *. rewrite lookup_insert in Hp. case_decide as Ep; [lia|]. specialize (Hfresh p Hp). lia.
    - eexists _, []. split; [split; [apply lookup_insert_eq|done|done|apply NoDup_singleton]|done]. }
  intros r s2 (-> & m & b & ns & -> & Htab & Hfr & Ho & Hz & Hgr & Hold). split; [done|]. apply wp_or_fail. eapply wp_mono.
  { by apply (frames_alloc_spec root l1 T ht fs hf rest Hen Hroom Hf Hnd Hrest Hne _ q (mapped_process l1p n) app l1p);
      [apply lookup_insert_eq|..]. }
  intros r s3 (-> & m' & -> & Hfr' & Hmap). split; [done|]. apply wp_ret. split; [done|].
  destruct (proj1 (Forall_cons _ _ _) Hf) as [Hrf Hf']. apply Forall_cons in Hf' as [Hlf _].
  split; [|exact Hfr'| | |].
  - exists l1p, m', b, ns. rewrite Hp1, insert_insert_eq. apply final_state.
  - destruct Hgr as [Hg1 Hg2]. split; [exact Hg1|].
    change (Pos.succ (next_block s) <= b)%positive in Hg2. change (next_block s <= b)%positive. lia.
  - intros y l1p' Hy Hl. assert (Ey : y = mapped_process l1p n) by (simpl in Hy; rewrite lookup_insert_eq in Hy; by injection Hy).
    rewrite Ey in Hl. injection Hl as <-. split; [by eapply user_tables_ext; [|exact Htab]|]. split.
    + destruct Hgr as [_ Hg2]. change (Pos.succ l1p <= b)%positive in Hg2. change (l1p <= l1p < b)%positive. lia.
    + intros r Hr. specialize (Hold r Hr). change (ns !! r = <[l1p := mk_pt_link l1 None None None None 0 0 0 0 USERSPACE]> (pt_nodes s) !! r) in Hold.
      change (ns !! r = pt_nodes s !! r). rewrite Hold, lookup_insert_ne; [done|lia].
  - exists m. assert (Hkeep : forall a, frame_of a = root \/ frame_of a = l1 -> word m a = word m4 a).
    { intros a Ha. apply Ho. destruct Ha as [-> | ->]; apply al_tables_apart. }
    split; [|split; [|split; [|split; [|exact Hmap]]]].
    + destruct Hlink4 as [e He]. exists e. rewrite <- He. unfold table_entry. f_equal. apply Hkeep. left.
      by rewrite pte_at_frame.
    + intros t j [->|Ht]%elem_of_cons Hj; [|by apply Hz]. rewrite Hkeep by (right; by rewrite pte_at_frame). by apply Hzero4.
    + intros a Ha. rewrite !not_elem_of_cons in Ha. rewrite Ho by tauto. apply Honly4. rewrite !not_elem_of_cons.
      split_and!; [tauto|tauto|apply not_elem_of_nil].
    + intros i Hi Hne'. rewrite Hkeep by (left; by rewrite pte_at_frame). by apply Hcopy4.
Qed.

(** *** What the allocation gives *)
Section Built.
Context (s' : kstate).
Hypothesis Hb : built s'.

Lemma program_below i g :
  0 <= i < 512 -> 4096 * Z.of_nat g <= code_size_of app ->
  ~ is_frame (frame_of (app_start app + 4096 * Z.of_nat g + 8 * i)).
Proof.
  intros Hi Hg. destruct (al_program _ _ _ _ _ _ _ _ _ _ _ _ Hal) as [_ _ Hend]. rewrite FRAME_SIZE_eq in Hend.
  apply below_not_frame. lia.
Qed.

(** The content of a page, in terms of the memory before the call. *)
Lemma built_page g f i : fs !! g = Some f -> 0 <= i < 512 ->
  word (frame_mem s') (pte_at f i) = page_word (frame_mem s) app g f i.
Proof.
  intros Hf Hi. destruct Hb as [_ _ _ _ (m0 & _ & _ & Ho & _ & Hmap)].
  pose proof (al_program _ _ _ _ _ _ _ _ _ _ _ _ Hal) as Hprog. destruct al_frames as (Hfr & Hnd & _).
  assert (Hjob : mk_job (T !!! (g / TABLE)%nat) (Z.of_nat (g mod TABLE)) f (cursor_at (program_cursor app) g)
    ∈ user_jobs T ht (program_cursor app) fs hf).
  { apply elem_of_app. left. eapply list_elem_of_lookup_2, page_job_lookup. by exists f. }
  destruct (mp_jobs _ _ _ _ _ Hmap _ Hjob) as [_ Hc]. cbn [j_frame j_cursor] in Hc.
  rewrite Hc, cursor_word by done. unfold page_word.
  assert (Hin : f ∈ fs) by (by eapply list_elem_of_lookup_2). rewrite Forall_forall in Hfr.
  assert (HfF : is_frame f) by (apply Hfr; rewrite !elem_of_cons, elem_of_app, elem_of_cons, elem_of_app; tauto).
  destruct (Z.leb_spec (4096 * Z.of_nat g) (code_size_of app)) as [Hg|Hg].
  - apply Ho. intros Hin'. apply (program_below i g Hi Hg). apply Hfr. set_unfold in Hin'. set_unfold. tauto.
  - destruct (4096 * (Z.of_nat g - 1) <=? code_size_of app); [|done]. apply Ho. rewrite pte_at_frame by done.
    assert (Hft : f ∈ fs ++ hf :: rest) by (apply elem_of_app; by left).
    rewrite !NoDup_cons, NoDup_app, NoDup_cons in Hnd. destruct Hnd as (Hr & Hl & _ & Hd & Hh & _).
    rewrite !not_elem_of_cons, not_elem_of_app, not_elem_of_cons. split_and!; try (apply not_elem_of_nil).
    + intros ->. apply Hr. rewrite elem_of_cons, elem_of_app, elem_of_cons. tauto.
    + intros ->. apply Hl. rewrite elem_of_app, elem_of_cons. tauto.
    + intros HfT. apply (Hd f HfT). rewrite elem_of_cons. tauto.
    + intros ->. tauto.
Qed.

Lemma built_entries : space_entries (frame_mem s') l1 T ht fs hf.
Proof.
  destruct Hb as [_ _ _ _ (m0 & _ & _ & _ & _ & Hmap)]. destruct al_frames as (Hf & _ & _).
  apply Forall_cons in Hf as [_ [_ Hf]%Forall_cons]. by eapply mapped_entries; [apply Hal|exact Hf|exact Hmap].
Qed.

Lemma built_heap i : 0 <= i < 512 -> word (frame_mem s') (pte_at hf i) = 0.
Proof.
  intros Hi. destruct Hb as [_ _ _ _ (m0 & _ & _ & _ & _ & Hmap)].
  destruct (mp_jobs _ _ _ _ _ Hmap (mk_job ht 0 hf (mk_cursor false 0 0))) as [_ Hc]; [|by apply Hc].
  apply elem_of_app. right. by left.
Qed.

Lemma built_only a : frame_of a ∉ root :: l1 :: T ++ ht :: fs ++ [hf] -> word (frame_mem s') a = word (frame_mem s) a.
Proof.
  intros Ha. destruct Hb as [_ _ _ _ (m0 & _ & _ & Ho & _ & Hmap)]. destruct al_frames as (Hfr & Hnd & Hne).
  pose proof Hal as [_ _ Hprog _ _ Hen Hroom _ Hrest _ _ _]. set_unfold in Ha.
  rewrite (mp_rest _ _ _ _ _ Hmap).
  - apply Ho. set_unfold. tauto.
  - destruct (build_nodup root l1 T ht fs hf rest Hnd) as [Hnd' _].
    apply Forall_cons in Hfr as [_ Hfr]. apply NoDup_cons in Hnd' as [_ Hnd'].
    assert (Hpl : plan_ok l1 (user_links T ht) (user_jobs T ht (program_cursor app) fs hf)).
    { apply user_plan_ok; try done. by apply program_cursor_ok. }
    apply outside_frames; [done|tauto|]. intros b Hb'.
    destruct (user_jobs_in l1 T ht (program_cursor app) fs hf) with (b := b) as (_ & Ht & Hf); try done.
    { by apply program_cursor_ok. }
    split; intros Ea; [rewrite <- Ea in Ht|rewrite <- Ea in Hf]; set_unfold; tauto.
Qed.

(** The access a process has to a page. *)
Definition user_access (p : page_table_entry) (x : bool) : Prop :=
  Pages.read p = 1 /\ Pages.write p = 1 /\ Pages.resU p = 1 /\ Pages.exec p = b2z x.

(** ... as long as the tables are kept. *)
Lemma built_walk m va : agree (root :: l1 :: T ++ [ht]) (frame_mem s') m -> 2 ^ 30 <= va < 2 ^ 31 ->
  match user_page n va with
  | Some g => exists f p, (fs ++ [hf]) !! g = Some f /\
      sv39_walk (word m) root va = Some (f + va mod 4096, p) /\ user_access p (page_exec app g)
  | None => sv39_walk (word m) root va = None
  end.
Proof.
  intros Hag Hva. destruct Hb as [_ _ _ _ (m0 & Hlink & Hz & _ & _ & Hmap)]. destruct al_frames as (Hfr & Hnd & Hne).
  pose proof Hal as [_ _ Hprog Hsize Hlen Hen Hroom _ _ _ _ _]. pose proof (program_cursor_ok _ Hprog) as Hc.
  destruct (build_nodup root l1 T ht fs hf rest Hnd) as [Hnd' _].
  destruct (user_page n va) as [g|] eqn:Eg; [|by eapply user_walk_unmapped].
  assert (Hg : exists f, (fs ++ [hf]) !! g = Some f).
  { apply lookup_lt_is_Some. rewrite length_app. unfold user_page in Eg. simpl.
    assert (0 <= user_vpn va) by (unfold user_vpn; mlia). unfold n in Eg.
    destruct (Z.ltb_spec (user_vpn va) (Z.of_nat (length fs))); [injection Eg as <-; lia|].
    destruct (_ =? _); [injection Eg as <-; lia|done]. }
  destruct Hg as [f Hf]. exists f.
  destruct (user_walk_mapped m0 (frame_mem s') root l1 T ht (program_cursor app) fs hf Hen Hroom Hc Hfr Hnd' Hlink Hz Hmap
    m Hag va g f Hva Eg Hf) as (p & b & _ & _ & Eb & Hw).
  eexists. split; [done|]. split; [exact Hw|]. split_and!; [done..|]. cbn [kilo_entry entry exec]. f_equal.
  rewrite Eb. destruct (decide (g < length fs)%nat) as [Hlt|Hge]; cbn [j_cursor]; [by apply cursor_exec|].
  apply lookup_lt_Some in Hf. rewrite length_app in Hf. simpl in Hf. unfold page_exec.
  pose proof (pages_of_bound (code_size_of app) (pr_size _ Hprog)) as Hp. rewrite FRAME_SIZE_eq in Hp.
  unfold pages_of in Hlen at 2. by destruct (Z.leb_spec (4096 * Z.of_nat g) (code_size_of app)); [lia|].
Qed.

(** Outside the user gigabyte the walk is the kernel's. *)
Lemma built_kernel m va : agree [root; kernel_table s] (frame_mem s') m -> vpn 2 va <> USERSPACE ->
  sv39_walk (word m) root va = sv39_walk (word m) (kernel_table s) va.
Proof.
  intros Hag Hv. assert (Hr : 0 <= vpn 2 va < 512) by (unfold vpn; apply Z.mod_pos_bound; lia).
  pose proof Hal as [_ _ Hprog _ _ Hen Hroom _ _ [Hk Hkn] _ _]. destruct al_frames as (Hfr & Hnd & Hne).
  apply walk_same_entry. rewrite !Hag by (done || (left; done) || (right; by left)).
  rewrite (built_only (pte_at (kernel_table s) (vpn 2 va))).
  2:{ rewrite pte_at_frame by done. set_unfold. tauto. }
  destruct Hb as [_ _ _ _ (m0 & Hlink & Hz & _ & Hcopy & Hmap)].
  destruct (build_nodup root l1 T ht fs hf rest Hnd) as [Hnd' _].
  rewrite (root_kept m0 (frame_mem s') root l1 T ht (program_cursor app) fs hf); try done; [by apply Hcopy|].
  by apply program_cursor_ok.
Qed.
End Built.
End Allocator.

Lemma allocator_run s q x app size root l1 T ht fs hf rest :
  allocation s q x app size root l1 T ht fs hf rest ->
  exists s', process_memory_allocator (Some q) size s = Ok (0, s') /\
    built s q x app root l1 T ht fs hf rest s'.
Proof.
  intros Hal. apply allocator_spec, wp_elim in Hal as (r & s' & Hrun & -> & Hb). by exists s'.
Qed.

(** C5: the address space of a new process.  With enough memory
    [process_memory_allocator] returns 0 and the Sv39 walk from the directory
    it stores in the process maps the user gigabyte to the frames taken from
    the free list, page by page: the program and the stack at the bottom, one
    heap page at its place, readable and writable by the user, executable
    exactly up to the end of the program, and nothing else.  The program is
    copied, the heap page is cleared, every other gigabyte is mapped as the
    kernel's, and no frame but those taken from the free list is written. *)
Theorem user_address_space s q x app size root l1 T ht fs hf rest :
  allocation s q x app size root l1 T ht fs hf rest ->
  exists s', process_memory_allocator (Some q) size s = Ok (0, s') /\
    free_ok (frame_mem s') rest /\
    (exists y, procs s' !! q = Some y /\ page_table_level_2 y = root /\ stack_shift y = Z.of_nat (length fs)) /\
    (forall va, 2 ^ 30 <= va < 2 ^ 31 ->
       match user_page (Z.of_nat (length fs)) va with
       | Some g => exists f p, (fs ++ [hf]) !! g = Some f /\
           sv39_walk (word (frame_mem s')) root va = Some (f + va mod 4096, p) /\ user_access p (page_exec app g)
       | None => sv39_walk (word (frame_mem s')) root va = None
       end) /\
    (forall va, vpn 2 va <> USERSPACE ->
       sv39_walk (word (frame_mem s')) root va = sv39_walk (word (frame_mem s')) (kernel_table s) va) /\
    (forall g f i, fs !! g = Some f -> 0 <= i < 512 -> 4096 * Z.of_nat g <= code_size_of app ->
       word (frame_mem s') (pte_at f i) = word (frame_mem s) (app_start app + 4096 * Z.of_nat g + 8 * i)) /\
    (forall i, 0 <= i < 512 -> word (frame_mem s') (pte_at hf i) = 0) /\
    (forall a, frame_of a ∉ root :: l1 :: T ++ ht :: fs ++ [hf] ->
       word (frame_mem s') a = word (frame_mem s) a).
Proof.
  intros Hal. destruct (allocator_run _ _ _ _ _ _ _ _ _ _ _ _ Hal) as (s' & Hrun & Hb). exists s'.
  split; [done|]. split; [apply Hb|]. split.
  { destruct Hb as [(l1p & m & b & ns & ->) _ _ _ _]. eexists. split; [simpl; apply lookup_insert_eq|done]. }
  split; [intros va; apply (built_walk _ _ _ _ _ _ _ _ _ _ _ _ Hal _ Hb _ va (agree_refl _ _))|].
  split; [intros va; apply (built_kernel _ _ _ _ _ _ _ _ _ _ _ _ Hal _ Hb _ va (agree_refl _ _))|]. split.
  { intros g f i Hf Hi Hg. erewrite built_page by done. unfold page_word. by destruct (Z.leb_spec (4096 * Z.of_nat g) (code_size_of app)); [|lia]. }
  split; [intros i Hi; by eapply built_heap|]. intros a Ha. by eapply built_only.
Qed.

(** C39: the first page after the program is not cleared.  The loop that fills
    the frames skips the page at which it notices the end of the program: a
    new process can read there what the former owner of the frame left. *)
Theorem stack_page_not_cleared s q x app size root l1 T ht fs hf rest g f :
  allocation s q x app size root l1 T ht fs hf rest ->
  Z.of_nat g = code_size_of app / 4096 + 1 -> fs !! g = Some f ->
  exists s' p, process_memory_allocator (Some q) size s = Ok (0, s') /\
    sv39_walk (word (frame_mem s')) root (2 ^ 30 + 4096 * Z.of_nat g) = Some (f, p) /\ user_access p false /\
    forall i, 0 <= i < 512 -> word (frame_mem s') (pte_at f i) = word (frame_mem s) (pte_at f i).
Proof.
  intros Hal Hg Hf. destruct (allocator_run _ _ _ _ _ _ _ _ _ _ _ _ Hal) as (s' & Hrun & Hb). exists s'.
  pose proof (lookup_lt_Some _ _ _ Hf) as Hlt. pose proof Hal as [_ _ _ _ _ [_ H6] H7 _ _ _ _ _].
  pose proof (built_walk _ _ _ _ _ _ _ _ _ _ _ _ Hal _ Hb _ (2 ^ 30 + 4096 * Z.of_nat g) (agree_refl _ _)) as Hw.
  assert (Hvp : user_vpn (2 ^ 30 + 4096 * Z.of_nat g) = Z.of_nat g) by (unfold user_vpn; mlia).
  unfold user_page in Hw. rewrite Hvp, Nat2Z.id in Hw.
  destruct (Z.ltb_spec (Z.of_nat g) (Z.of_nat (length fs))); [|lia].
  destruct Hw as (f' & p & Hf' & Hw & Hu); [lia|]. rewrite lookup_app_l in Hf' by done. simplify_eq.
  exists p. split; [done|]. replace ((2 ^ 30 + 4096 * Z.of_nat g) mod 4096) with 0 in Hw by mlia.
  rewrite Z.add_0_r in Hw. split; [done|]. unfold page_exec in Hu.
  destruct (Z.leb_spec (4096 * Z.of_nat g) (code_size_of app)); [mlia|]. split; [done|].
  intros i Hi. erewrite built_page by done. unfold page_word.
  destruct (Z.leb_spec (4096 * Z.of_nat g) (code_size_of app)); [lia|].
  destruct (Z.leb_spec (4096 * (Z.of_nat g - 1)) (code_size_of app)); [done|mlia].
Qed.

End AddressSpace.
