(* ===== verification/SharedMemory.v ===== *)
(** * SharedMemory: shared pages, [src/kernel/process/memory_api.c]

    A shared page is a frame named by a string.  The global table maps names
    to pages; each process keeps the list of the pages it maps, with their
    place in its page tables, and the list of the places it has given back. *)

From S2P Require Import Prelude.
From S2P Require Import Queue.
From S2P Require Import FrameDist.
From S2P Require Import Pages.
From S2P Require Import Kernel.
From S2P Require Import ProcessMemory.
#[local] Open Scope Z_scope.

Section SharedMemory.
Context `{E : KEnv}.

Definition get_shared_page (page_string : string) : K (option ptr) :=
  t ← gets shared_memory_hash_table; mret (t !! page_string).

Definition get_shared_page_proc (proc : option ptr) (page_string : string) : K (option ptr) :=
  match proc with
  | None => mret None
  | Some _ =>
      t ← pget proc proc_shared_hash_table;
      mret (t ≫= fun t => t !! page_string)
  end.

Definition map_address_for_process (lvl2_index lvl1_index lvl0_index : Z) : Z :=
  lvl2_index * GIGA_SIZE + lvl1_index * MEGA_SIZE + lvl0_index * KILO_SIZE.

(** [create_shared_page] *)
Definition create_shared_page (key : string) : K (option ptr) :=
  page_frame ← in_frames get_frame;
  page_info ← malloc shared_infos (fun _ => mk_shared_page key page_frame 0 0);
  match page_info with
  | None => mret None
  | Some info =>
      id ← increment_shared_page_counter;
      _ ← wr shared_infos page_info (fun i => i <| page_id := id |>);
      _ ← kupd shared_memory_hash_table <[key := info]>;
      mret page_info
  end.

(** The position of the new page: the hole a released page left, or a new one. *)
Definition place_shared_page (proc_conf : option ptr) : K Z :=
  released ← pget proc_conf released_pages_list;
  match released with
  | Some _ =>
      r ← rd released_nodes released;
      _ ← pset proc_conf released_pages_list (next_released_page r);
      w ← pget proc_conf shared_pages;
      w ← lift (deref w);
      _ ← wr shared_nodes (tail_shared_page w) (fun n =>
            n <| lvl0_index := rel_lvl0_index r |> <| lvl1_index := rel_lvl1_index r |>
              <| lvl2_index := rel_lvl2_index r |> <| page_table := rel_page_table r |>);
      mret 0
  | None => add_frame_to_process proc_conf SHARED_PAGE
  end.

(** [link_shared_page_to_process] *)
Definition link_shared_page_to_process (proc_conf page_info : option ptr) (page_name : string) : K Z :=
  match proc_conf, page_info with
  | Some _, Some _ =>
      w ← pget proc_conf shared_pages;
      match w with
      | None => mret (-1)
      | Some w =>
          node ← malloc shared_nodes junk_shared;
          node' ← lift (deref node);
          key_ok ← malloc_block;
          if negb key_ok then mret (-1)
          else
            _ ← wr shared_nodes node (fun n => n <| key := page_name |> <| next_shared_page := None |>);
            _ ← match head_shared_page w with
                | None => pset proc_conf shared_pages (Some (mk_shared_wrap node node))
                | Some _ =>
                    _ ← wr shared_nodes (tail_shared_page w) (fun n => n <| next_shared_page := node |>);
                    pset proc_conf shared_pages (Some (mk_shared_wrap (head_shared_page w) node))
                end;
            or_fail (place_shared_page proc_conf) (
              _ ← wr procs proc_conf (fun p => p <| proc_shared_hash_table ::= fmap <[page_name := node']> |>);
              _ ← wr shared_infos page_info (fun i => i <| page_usage ::= fun u => wrapS 32 (u + 1) |>);
              n ← rd shared_nodes node;
              info ← rd shared_infos page_info;
              _ ← in_frames (configure_page_entry (pte_at (page_table n) (lvl0_index n)) (page_address info)
                               true true false true KILO);
              mret 0)
      end
  | _, _ => mret (-1)
  end.

(** The search for the node before [target] in the list of shared pages. *)
Fixpoint find_before (fuel : nat) (it : option ptr) (target : ptr) : K (option ptr) :=
  match fuel with
  | O => fail OutOfFuel
  | S fuel =>
      n ← rd shared_nodes it;
      if bool_decide (next_shared_page n = Some target) then mret it
      else find_before fuel (next_shared_page n) target
  end.

(** The unlinking of [proc_page_shared] from the list of the process. *)
Definition unlink_shared_page (current_proc : option ptr) (w : shared_pages_wrap_t) (node : ptr) : K unit :=
  n ← rd shared_nodes (Some node);
  if bool_decide (head_shared_page w = Some node) && bool_decide (tail_shared_page w = Some node) then
    pset current_proc shared_pages (Some (mk_shared_wrap None None))
  else if bool_decide (head_shared_page w = Some node) then
    pset current_proc shared_pages (Some (w <| head_shared_page := next_shared_page n |>))
  else
    fuel ← gets (walk_fuel shared_nodes);
    list_iter ← find_before fuel (head_shared_page w) node;
    if bool_decide (tail_shared_page w = Some node) then
      _ ← pset current_proc shared_pages (Some (w <| tail_shared_page := list_iter |>));
      wr shared_nodes list_iter (fun m => m <| next_shared_page := None |>)
    else
      wr shared_nodes list_iter (fun m => m <| next_shared_page := next_shared_page n |>).

(** [set_invalid] on an entry in memory. *)
Definition set_invalid_at (pte : Z) : M fmem unit :=
  w ← load pte; store pte (word_of_pte (set_invalid (pte_of_word w))).

(** The last user of the page is gone. *)
Definition delete_shared_page (page_info : option ptr) (key : string) : K unit :=
  info ← rd shared_infos page_info;
  _ ← in_frames (release_frame (page_address info));
  _ ← kupd shared_memory_hash_table (delete key);
  free shared_infos page_info.

(** The process whose page [shm_release] releases: the one
    [free_process_memory] has set, else the running one. *)
Definition release_target : K (option ptr) :=
  custom ← get_custom_release_process;
  match custom with
  | None => get_current_process
  | Some _ => _ ← set_custom_release_process None; mret custom
  end.

Definition shm_release (key : option string) : K unit :=
  match key with
  | None => mret tt
  | Some key_no_c =>
      page_info ← get_shared_page key_no_c;
      match page_info with
      | None => mret tt
      | Some _ =>
          current_proc ← release_target;
          match current_proc with
          | None => mret tt
          | Some _ =>
              proc_page_shared ← get_shared_page_proc current_proc key_no_c;
              match proc_page_shared with
              | None => mret tt
              | Some node =>
                  n ← rd shared_nodes proc_page_shared;
                  old ← pget current_proc released_pages_list;
                  released ← malloc released_nodes (fun _ =>
                    mk_released (lvl2_index n) (lvl1_index n) (lvl0_index n) (page_table n) old);
                  _ ← lift (deref released);
                  _ ← pset current_proc released_pages_list released;
                  w ← pget current_proc shared_pages;
                  match w with
                  | None => mret tt
                  | Some w =>
                      _ ← unlink_shared_page current_proc w node;
                      let shared_page_entry := pte_at (page_table n) (lvl0_index n) in
                      _ ← in_frames (set_invalid_at shared_page_entry);
                      _ ← in_frames (configure_page_entry shared_page_entry 0 false false false false KILO);
                      _ ← wr procs current_proc (fun p => p <| proc_shared_hash_table ::= fmap (delete key_no_c) |>);
                      _ ← wr shared_infos page_info (fun i => i <| page_usage ::= fun u => wrapS 32 (u - 1) |>);
                      info ← rd shared_infos page_info;
                      _ ← (if page_usage info =? 0 then delete_shared_page page_info key_no_c else mret tt);
                      free shared_nodes proc_page_shared
                  end
              end
          end
      end
  end.

(** [create_hash_table_and_shared_pages_wrapper]: an allocation for the table
    object, one for its slots, one for the wrapper. *)
Definition create_hash_table_and_shared_pages_wrapper (current_proc : option ptr) : K Z :=
  let create_wrapper : K Z :=
    w ← pget current_proc shared_pages;
    match w with
    | Some _ => mret 0
    | None =>
        ok ← malloc_block;
        if negb ok then mret (-1)
        else _ ← pset current_proc shared_pages (Some (mk_shared_wrap None None)); mret 0
    end in
  t ← pget current_proc proc_shared_hash_table;
  match t with
  | Some _ => create_wrapper
  | None =>
      ok ← malloc_block;
      if negb ok then mret (-1)
      else
        _ ← pset current_proc proc_shared_hash_table (Some ∅);
        slots_ok ← malloc_block;
        if negb slots_ok then mret (-1) else create_wrapper
  end.

(** The common end of [shm_acquire] and [shm_create]. *)
Definition mapped_address_of_tail (current_proc : option ptr) : K Z :=
  w ← pget current_proc shared_pages;
  w ← lift (deref w);
  n ← rd shared_nodes (tail_shared_page w);
  mret (map_address_for_process (lvl2_index n) (lvl1_index n) (lvl0_index n)).

Definition shm_acquire (key : option string) : K Z :=
  match key with
  | None => mret 0
  | Some key_no_c =>
      page_info ← get_shared_page key_no_c;
      match page_info with
      | None => mret 0
      | Some _ =>
          current_proc ← get_current_process;
          match current_proc with
          | None => mret 0
          | Some _ =>
              c ← create_hash_table_and_shared_pages_wrapper current_proc;
              if c <? 0 then mret 0
              else
                mapped ← get_shared_page_proc current_proc key_no_c;
                match mapped with
                | Some _ => mret 0
                | None =>
                    c ← link_shared_page_to_process current_proc page_info key_no_c;
                    if c <? 0 then mret 0 else mapped_address_of_tail current_proc
                end
          end
      end
  end.

Definition shm_create (key : option string) : K Z :=
  match key with
  | None => mret 0
  | Some key_no_c =>
      copied ← malloc_block;
      if negb copied then fail NullDeref
      else
        existing ← get_shared_page key_no_c;
        match existing with
        | Some _ => mret 0
        | None =>
            page_info ← create_shared_page key_no_c;
            match page_info with
            | None => mret 0
            | Some _ =>
                current_proc ← get_current_process;
                match current_proc with
                | None => mret 0
                | Some _ =>
                    c ← create_hash_table_and_shared_pages_wrapper current_proc;
                    if c <? 0 then mret 0
                    else
                      c ← link_shared_page_to_process current_proc page_info key_no_c;
                      if c <? 0 then mret 0 else mapped_address_of_tail current_proc
                end
            end
        end
  end.

(** [initialize_share_pages_table]: the table object itself. *)
Definition initialize_share_pages_table : K Z :=
  ok ← malloc_block; if negb ok then mret (-1) else mret 0.

End SharedMemory.
