(* ===== verification/SharedTables.v ===== *)
(** * SharedTables: where a process maps its shared pages

    The level-0 tables of the shared part of the address space, how
    [add_frame_to_process] hands out their entries one after the other, and
    the addresses of the entries.  The [n]-th entry handed out is the place
    [n]: entry [n mod 512] of the table [n / 512]. *)

From S2P Require Import Prelude.
From S2P Require Import Queue.
From S2P Require Import FrameDist.
From S2P Require Import Pages.
From S2P Require Import Kernel.
From S2P Require Import KernelRules.
From S2P Require Import ProcessMemory.
From S2P Require Import PageFilling.
From S2P Require Import TableList.
From S2P Require Import ProcessMemorySpec.
From S2P Require Import SharedMemory.
#[local] Open Scope Z_scope.

(** What is known of the shared memory of a process: its directory, its
    level-1 table, the nodes of its tables, the views of its private level-0
    tables, its shared level-0 tables, the number of places handed out, the
    list of the pages it maps (node, key and place) and of the places it gave
    back. *)
Record pview : Type := mk_pview {
  pv_root : Z; pv_l1 : Z; pv_nodes : list ptr; pv_private : list tview;
  pv_tables : list Z; pv_next : Z;
  pv_pages : list (ptr * (string * Z)); pv_holes : list (ptr * Z)
}.
#[export] Instance eta_pview : Eta pview := fun r =>
  mk_pview (pv_root r) (pv_l1 r) (pv_nodes r) (pv_private r) (pv_tables r) (pv_next r) (pv_pages r) (pv_holes r).

Section SharedTables.
Context `{E : KEnv}.
Implicit Types (s : kstate) (V : pview).

Definition place_table (T : list Z) (j : Z) : Z := T !!! Z.to_nat (j / 512).
Definition place_index (j : Z) : Z := SHARED_MEMORY_START + j / 512.
Definition at_place (T : list Z) (j : Z) (n : shared_pages_proc_t) : shared_pages_proc_t :=
  n <| lvl0_index := j mod 512 |> <| lvl1_index := place_index j |> <| lvl2_index := USERSPACE |>
    <| page_table := place_table T j |>.

(** The tables in use: all but the last are full. *)
Definition in_use (T : list Z) (n : Z) : Prop :=
  0 <= n /\ 512 * (Z.of_nat (length T) - 1) < n <= 512 * Z.of_nat (length T).

Lemma place_table_cons t T j : 512 <= j -> place_table (t :: T) j = place_table T (j - 512).
Proof.
  intros Hj. unfold place_table. replace (Z.to_nat (j / 512)) with (S (Z.to_nat ((j - 512) / 512))) by mlia. done.
Qed.

Lemma place_table_lookup T j : 0 <= j < 512 * Z.of_nat (length T) -> T !! Z.to_nat (j / 512) = Some (place_table T j).
Proof. intros Hj. apply list_lookup_lookup_total_lt. mlia. Qed.

Lemma place_table_snoc T t j : 0 <= j < 512 * Z.of_nat (length T) -> place_table (T ++ [t]) j = place_table T j.
Proof. intros Hj. unfold place_table. apply lookup_total_app_l. mlia. Qed.

Lemma views_last T : forall i n, in_use T n -> n < 512 * Z.of_nat (length T) ->
  exists pre, Forall full pre /\ views_of i T n = pre ++ [(i + n / 512, place_table T n, n mod 512)] /\
    views_of i T (n + 1) = pre ++ [(i + n / 512, place_table T n, n mod 512 + 1)].
Proof.
  induction T as [|t T IH]; intros i n [H0 Hn] Hlt; cbn [length views_of] in *; [lia|].
  destruct (Z.leb_spec n 0); [lia|]. destruct (Z.leb_spec (n + 1) 0); [lia|].
  destruct (Z.ltb_spec n 512) as [Hs|Hs].
  - exists []. split; [constructor|]. rewrite !Z.min_r by lia. rewrite !views_of_none by lia.
    unfold place_table. replace (n / 512) with 0 by mlia. replace (n mod 512) with n by mlia. rewrite Z.add_0_r. done.
  - assert (n <> 512) by (destruct T; cbn [length] in *; lia).
    destruct (IH (i + 1) (n - 512)) as (pre & Hf & Ev & Ev'); [split; lia|lia|].
    exists ((i, t, 512) :: pre). rewrite !Z.min_l by lia. replace (n + 1 - 512) with (n - 512 + 1) by lia.
    rewrite Ev, Ev', place_table_cons by lia. replace (i + 1 + (n - 512) / 512) with (i + n / 512) by mlia.
    replace ((n - 512) mod 512) with (n mod 512) by mlia. split; [by constructor|done].
Qed.

Lemma views_snoc T t : forall i n, 0 <= n <= 512 * Z.of_nat (length T) -> views_of i (T ++ [t]) n = views_of i T n.
Proof.
  induction T as [|u T IH]; intros i n Hn; cbn [length views_of app] in *.
  - by destruct (Z.leb_spec n 0); [|lia].
  - destruct (n <=? 0) eqn:En; [done|]. f_equal. destruct (Z.leb_spec n 512).
    + by rewrite !views_of_none by lia.
    + apply IH. lia.
Qed.

Lemma views_full T : forall i n, n = 512 * Z.of_nat (length T) -> Forall full (views_of i T n).
Proof.
  induction T as [|u T IH]; intros i n ->; cbn [length views_of] in *; [constructor|].
  destruct (_ <=? 0); [constructor|]. constructor; [unfold full; simpl; lia|]. apply IH. lia.
Qed.

Lemma views_new T t : forall i n, n = 512 * Z.of_nat (length T) ->
  views_of i (T ++ [t]) (n + 1) = views_of i T n ++ [(i + Z.of_nat (length T), t, 1)].
Proof.
  induction T as [|u T IH]; intros i n ->; cbn [length views_of app].
  - simpl. by rewrite Z.add_0_r.
  - destruct (Z.leb_spec (512 * Z.of_nat (S (length T)) + 1) 0); [lia|].
    destruct (Z.leb_spec (512 * Z.of_nat (S (length T))) 0); [lia|]. rewrite !Z.min_l by lia. simpl. f_equal.
    replace (512 * Z.of_nat (S (length T)) + 1 - 512) with (512 * Z.of_nat (S (length T)) - 512 + 1) by lia.
    rewrite IH by lia. by replace (i + 1 + Z.of_nat (length T)) with (i + Z.of_nat (S (length T))) by lia.
Qed.

(** ** The tables of a process *)

Definition counters_ok (n1 : page_table_link_list_t) (k : Z) : Prop :=
  0 <= stack_usage n1 < 128 /\ 0 <= heap_usage n1 < 128 /\ shared_memory_usage n1 = k /\
  usage n1 = stack_usage n1 + heap_usage n1 + k.

Record nodes_ok s V : Prop := {
  no_list : exists l1p n1 l, tables_rep s l1p n1 l /\ pv_nodes V = l1p :: l.*1 /\
    view <$> l.*2 = pv_private V ++ views_of SHARED_MEMORY_START (pv_tables V) (pv_next V) /\
    pt_table n1 = pv_l1 V /\ index n1 = USERSPACE /\ counters_ok n1 (Z.of_nat (length (pv_tables V)));
  no_private : Forall (fun v : tview => v.1.1 < SHARED_MEMORY_START) (pv_private V);
  no_use : in_use (pv_tables V) (pv_next V);
  no_room : Z.of_nat (length (pv_tables V)) <= 256
}.

(** What the tables hold: the links down to the shared level-0 tables, nothing
    in the rest of the shared part. *)
Record links_ok (m : fmem) V : Prop := {
  lo_root : links_to m (pv_root V) USERSPACE (pv_l1 V);
  lo_tables : forall i t, pv_tables V !! i = Some t -> links_to m (pv_l1 V) (SHARED_MEMORY_START + Z.of_nat i) t;
  lo_beyond : forall i, Z.of_nat (length (pv_tables V)) <= i < 256 -> word m (pte_at (pv_l1 V) (SHARED_MEMORY_START + i)) = 0;
  lo_frames : Forall is_frame (pv_root V :: pv_l1 V :: pv_tables V);
  lo_nodup : NoDup (pv_root V :: pv_l1 V :: pv_tables V)
}.

(** ** A new place *)

Lemma tables_rep_ext s s' l1p n1 l : pt_nodes s' = pt_nodes s -> tables_rep s l1p n1 l -> tables_rep s' l1p n1 l.
Proof. intros Hs [H1 H2 H3 H4]. by split; rewrite ?Hs. Qed.

Lemma nodes_ok_ext s s' V : pt_nodes s' = pt_nodes s -> nodes_ok s V -> nodes_ok s' V.
Proof.
  intros Hs [(l1p & n1 & l & Hrep & Hrest) ? ? ?]. split; [|done..]. exists l1p, n1, l. split; [|done].
  by eapply tables_rep_ext.
Qed.

(** ... and on the nodes of the process only. *)
Lemma tables_rep_frame s s' l1p n1 l :
  (forall p, p ∈ l1p :: l.*1 -> pt_nodes s' !! p = pt_nodes s !! p) -> tables_rep s l1p n1 l -> tables_rep s' l1p n1 l.
Proof.
  intros Hs [H1 H2 H3 H4]. split; [by rewrite Hs by (by left)| |done|done].
  eapply nseg_frame; [|exact H2]. intros p Hp. apply Hs. by right.
Qed.

Lemma nodes_ok_frame s s' V : (forall p, p ∈ pv_nodes V -> pt_nodes s' !! p = pt_nodes s !! p) -> nodes_ok s V -> nodes_ok s' V.
Proof.
  intros Hs [(l1p & n1 & l & Hrep & En & Hrest) ? ? ?]. split; [|done..]. exists l1p, n1, l. split; [|done].
  eapply tables_rep_frame; [|exact Hrep]. by rewrite <- En.
Qed.

Lemma record_position_spec s q x w t nd l0 l1 tb (Q : Z -> kstate -> Prop) :
  procs s !! q = Some x -> shared_pages x = Some w -> tail_shared_page w = Some t -> shared_nodes s !! t = Some nd ->
  0 <= l0 < 2 ^ 16 -> 0 <= l1 < 2 ^ 16 ->
  Q 0 (s <| shared_nodes ::= <[t := nd <| lvl0_index := l0 |> <| lvl1_index := l1 |> <| lvl2_index := USERSPACE |>
                                       <| page_table := tb |>]> |>) ->
  wp (record_shared_position (Some q) l0 l1 tb) Q s.
Proof.
  intros Hx Hw Ht Hn H0 H1 HQ. unfold record_shared_position. apply wp_bind. eapply wp_pget; [done|]. rewrite Hw, Ht.
  apply wp_bind. eapply (wp_wr shared_nodes); [exact Hn|]. apply wp_ret. by rewrite !wrapU_id by done.
Qed.

(** The state in which the position of the tail page is asked for. *)
Record asking s q V (x : process) (w : shared_pages_wrap_t) (t : ptr) (nd : shared_pages_proc_t) : Prop := {
  as_proc : procs s !! q = Some x;
  as_nodes : nodes_ok s V;
  as_list : page_tables_lvl_1_list x = head (pv_nodes V);
  as_wrap : shared_pages x = Some w;
  as_tail : tail_shared_page w = Some t;
  as_node : shared_nodes s !! t = Some nd
}.

Lemma private_skip V a b : a = SHARED_MEMORY_START ->
  Forall (fun v : tview => v.1.1 < SHARED_MEMORY_START) (pv_private V) -> Forall (fun v => ~ fits_in a b v) (pv_private V).
Proof. intros -> Hp. eapply Forall_impl; [exact Hp|]. unfold fits_in. intros v Hv [? _]. lia. Qed.

Lemma full_skip a b vs : Forall full vs -> Forall (fun v => ~ fits_in a b v) vs.
Proof. intros Hp. eapply Forall_impl; [exact Hp|]. unfold fits_in, full, PT_SIZE. intros v -> [_ ?]. lia. Qed.

Lemma in_use_next T n : in_use T n -> n < 512 * Z.of_nat (length T) -> in_use T (n + 1).
Proof. intros [? ?] ?. split; lia. Qed.

Lemma place_bounds (T : list Z) j : 0 <= j < 512 * Z.of_nat (length T) -> Z.of_nat (length T) <= 256 ->
  0 <= j mod 512 < 512 /\ SHARED_MEMORY_START <= place_index j < 512.
Proof. intros Hj HT. unfold place_index, SHARED_MEMORY_START. mlia. Qed.

Lemma add_shared_room s q V x w t nd (Q : Z -> kstate -> Prop) :
  asking s q V x w t nd -> pv_next V < 512 * Z.of_nat (length (pv_tables V)) ->
  (forall ns, dom ns = dom (pt_nodes s) -> (forall r, r ∉ pv_nodes V -> ns !! r = pt_nodes s !! r) ->
    nodes_ok (s <| pt_nodes := ns |>) (V <| pv_next := pv_next V + 1 |>) ->
    Q 0 (s <| shared_nodes ::= <[t := at_place (pv_tables V) (pv_next V) nd]> |> <| pt_nodes := ns |>)) ->
  wp (add_frame_to_process (Some q) SHARED_PAGE) Q s.
Proof.
  intros [Hx [(l1p & n1 & l & Hrep & En & Hv & Ht & Hi & Hc) Hpriv Huse Hroom] Hl1 Hw Htl Hnd] Hlt HQ.
  rewrite En in Hl1. simpl in Hl1. pose proof (tr_l1 _ _ _ _ Hrep) as H1. pose proof (tr_seg _ _ _ _ Hrep) as Hseg.
  destruct (place_bounds (pv_tables V) (pv_next V)) as [Hb0 Hb1]; [by destruct Huse|done|].
  unfold add_frame_to_process. apply wp_bind. eapply wp_pget; [done|]. rewrite Hl1. apply wp_bind.
  eapply wp_rd; [exact H1|]. cbn [page_bounds]. apply wp_bind, wp_gets.
  destruct (rep_fuel _ _ _ _ Hrep) as [k ->].
  destruct (views_last (pv_tables V) SHARED_MEMORY_START (pv_next V)) as (pre & Hf & Ev & Ev'); [done..|].
  rewrite Ev, app_assoc in Hv. apply fmap_app_inv in Hv as (v1 & v2 & Hv1 & Hv2 & Ev1).
  apply fmap_app_inv in Ev1 as (l1 & l2 & -> & -> & ->).
  destruct l2 as [|[p n'] [|? ?]]; [done| |done]. injection Hv2 as Hn1 Hn2 Hn3.
  apply nseg_app in Hseg as (m & Hpre' & -> & Hp & _). apply wp_bind.
  rewrite length_app, <- Nat.add_assoc. eapply wp_intro.
  { rewrite (find_room_skip SHARED_MEMORY_START SHARED_MEMORY_END _ _ _ _ _ Hpre').
    - apply (find_room_here _ _ _ _ _ _ Hp). unfold view, fits_in, PT_SIZE, SHARED_MEMORY_END. simpl.
      rewrite <- Hn1, <- Hn3. unfold place_index in Hb1. lia.
    - rewrite <- Hv1. apply Forall_app. split; [by apply private_skip|by apply full_skip]. }
  apply wp_bind. eapply wp_rd; [exact Hp|]. cbn [bool_decide]. rewrite bool_decide_eq_true_2 by done.
  apply wp_or_fail. rewrite <- Hn1, <- Hn2, <- Hn3. eapply record_position_spec; [done..|lia|unfold place_index, SHARED_MEMORY_START in *; lia|].
  split; [done|]. apply wp_bind. eapply (wp_wr pt_nodes); [exact Hp|]. apply wp_ret.
  apply (HQ (<[p := inc_usage n']> (pt_nodes s))).
  - rewrite dom_insert_L. apply elem_of_dom_2 in Hp. set_solver.
  - intros r Hr. rewrite En, fmap_app in Hr. csimpl in *. rewrite lookup_insert_ne; [done|]. intros ->. apply Hr.
    rewrite elem_of_cons, elem_of_app. right; right. by left.
  - split; [|done|by apply in_use_next|done]. exists l1p, n1, (l1 ++ [(p, inc_usage n')]).
    split; [by eapply tables_rep_insert|]. split; [by simpl; rewrite En, !fmap_app|]. split; [|done].
    simpl. rewrite Ev', app_assoc, !fmap_app, Hv1. csimpl. rewrite view_inc by (rewrite <- Hn3; lia).
    by rewrite <- Hn1, <- Hn2, <- Hn3.
Qed.

(** *** ... in a new table *)

Definition with_table V (p : ptr) (f : Z) : pview :=
  V <| pv_nodes := pv_nodes V ++ [p] |> <| pv_tables := pv_tables V ++ [f] |> <| pv_next := pv_next V + 1 |>.

Lemma links_grow m m' V p f e :
  links_ok m V -> is_frame f -> f ∉ pv_root V :: pv_l1 V :: pv_tables V -> Z.of_nat (length (pv_tables V)) < 256 ->
  (forall a, frame_of a ∉ [f; pv_l1 V] -> word m' a = word m a) ->
  table_entry m' (pv_l1 V) (SHARED_MEMORY_START + Z.of_nat (length (pv_tables V))) = kilo_entry e f false false false true ->
  (forall i, 0 <= i < 512 -> i <> SHARED_MEMORY_START + Z.of_nat (length (pv_tables V)) ->
     word m' (pte_at (pv_l1 V) i) = word m (pte_at (pv_l1 V) i)) ->
  links_ok m' (with_table V p f).
Proof.
  intros [Hr Ht Hb Hf Hn] Hff Hnew Hlen Ho He Hk. apply Forall_cons in Hf as [Hfr Hf].
  pose proof Hf as [Hfl _]%Forall_cons. rewrite !not_elem_of_cons in Hnew. destruct Hnew as (Hn1 & Hn2 & Hn3).
  pose proof Hn as [Hrl [Hlt Hnt]%NoDup_cons]%NoDup_cons. split; simpl; unfold SHARED_MEMORY_START in *.
  - destruct Hr as [e' Hr]. exists e'. rewrite <- Hr. unfold table_entry. f_equal. apply Ho.
    rewrite pte_at_frame by done. set_solver.
  - intros i t Hi. destruct (decide (i < length (pv_tables V))%nat) as [Hlt'|Hge].
    + rewrite lookup_app_l in Hi by done. destruct (Ht i t Hi) as [e' He']. exists e'. rewrite <- He'.
      unfold table_entry. rewrite Hk by lia. done.
    + pose proof (lookup_lt_Some _ _ _ Hi) as Hi'. rewrite length_app in Hi'. simpl in Hi'.
      assert (i = length (pv_tables V)) as -> by lia. rewrite lookup_app_r, Nat.sub_diag in Hi by lia.
      injection Hi as <-. by exists e.
  - intros i Hi. rewrite length_app in Hi. simpl in Hi. rewrite Hk by lia. apply Hb. lia.
  - constructor; [done|]. apply Forall_cons in Hf as [_ Hf]. constructor; [done|]. apply Forall_app. by rewrite Forall_singleton.
  - apply NoDup_cons. split; [set_solver|]. apply NoDup_cons. split; [set_solver|]. apply NoDup_app.
    split; [done|]. split; [set_solver|]. repeat constructor. set_solver.
Qed.

Lemma link_shared_spec s q V x l1p n1 i f (Q : Z -> kstate -> Prop) :
  procs s !! q = Some x -> page_tables_lvl_1_list x = Some l1p -> pt_nodes s !! l1p = Some n1 ->
  index n1 = USERSPACE -> pt_table n1 = pv_l1 V -> f <> 0 -> is_frame (pv_l1 V) -> 0 <= i < 512 ->
  (forall m, mem_ptr m = mem_ptr (frame_mem s) -> only_in (pv_l1 V) (frame_mem s) m ->
    (exists e, table_entry m (pv_l1 V) i = kilo_entry e f false false false true) ->
    (forall j, 0 <= j < 512 -> j <> i -> word m (pte_at (pv_l1 V) j) = word (frame_mem s) (pte_at (pv_l1 V) j)) ->
    Q 0 (s <| frame_mem := m |>)) ->
  wp (link_lvl1_table_shared_page (Some q) USERSPACE i f) Q s.
Proof.
  intros Hx Hl1 H1 Hi Ht Hf Hfl Hir HQ. unfold link_lvl1_table_shared_page. apply wp_bind. eapply wp_pget; [done|].
  rewrite Hl1. destruct (Z.eqb_spec f 0); [done|]. apply wp_bind, wp_gets. unfold walk_fuel. apply wp_bind.
  eapply wp_intro; [by eapply find_index_here|]. apply wp_bind. eapply wp_rd; [done|]. rewrite Ht.
  apply wp_bind, wp_in_frames. eapply wp_configure_table; [done|done|apply configured_kilo|apply kilo_entry_wf, pte_of_word_wf|].
  intros m Hp Ho He Hk. apply wp_ret. apply HQ; [done|done|by eexists|done].
Qed.

(** What the process of the view holds and what is free. *)
Lemma add_shared_new s q V x w t nd f free (Q : Z -> kstate -> Prop) :
  asking s q V x w t nd -> links_ok (frame_mem s) V ->
  pv_next V = 512 * Z.of_nat (length (pv_tables V)) -> Z.of_nat (length (pv_tables V)) < 256 ->
  free_ok (frame_mem s) (f :: free) -> free <> [] -> malloc_ok (next_block s) = true ->
  pt_nodes s !! next_block s = None ->
  (forall g, g ∈ pv_root V :: pv_l1 V :: pv_tables V -> g ∉ f :: free) ->
  (forall m ns, dom ns = {[next_block s]} ∪ dom (pt_nodes s) ->
    (forall r, r ∉ next_block s :: pv_nodes V -> ns !! r = pt_nodes s !! r) ->
    nodes_ok (s <| pt_nodes := ns |>) (with_table V (next_block s) f) -> links_ok m (with_table V (next_block s) f) ->
    free_ok m free -> (forall a, frame_of a ∉ [f; pv_l1 V] -> word m a = word (frame_mem s) a) ->
    (forall j, 0 <= j < 512 -> word m (pte_at f j) = 0) ->
    Q 0 (s <| frame_mem := m |> <| next_block ::= Pos.succ |> <| pt_nodes := ns |>
           <| shared_nodes ::= <[t := at_place (pv_tables V ++ [f]) (pv_next V) nd]> |>)) ->
  wp (add_frame_to_process (Some q) SHARED_PAGE) Q s.
Proof.
  intros [Hx [(l1p & n1 & l & Hrep & En & Hv & Ht & Hi & Hc) Hpriv Huse Hroom] Hl1 Hw Htl Hnd] Hlinks Hnx Hlen
    Hok Hne Hm Hfresh Hdisj HQ.
  rewrite En in Hl1. simpl in Hl1. pose proof (tr_l1 _ _ _ _ Hrep) as H1. pose proof (tr_seg _ _ _ _ Hrep) as Hseg.
  unfold add_frame_to_process. apply wp_bind. eapply wp_pget; [done|]. rewrite Hl1. apply wp_bind.
  eapply wp_rd; [exact H1|]. cbn [page_bounds]. apply wp_bind, wp_gets.
  destruct (rep_fuel _ _ _ _ Hrep) as [k ->]. apply wp_bind. eapply wp_intro.
  { rewrite (find_room_skip SHARED_MEMORY_START SHARED_MEMORY_END _ _ _ _ _ Hseg); [done|].
    rewrite Hv. apply Forall_app. split; [by apply private_skip|]. by apply full_skip, views_full. }
  destruct Hc as (Hc1 & Hc2 & Hc3 & Hc4).
  apply wp_or_fail. eapply (add_child_spec _ _ n1 l); [done|split; lia|done..|].
  intros s' n1' l' h [(m1 & ns1 & Hd1 & ->) Hf1 [Hf2 Hf2'] Hf3 Hf4] Hrep' (Hv' & Hl' & _) Ho' ->. split; [done|].
  set (p := next_block s) in *. set (n' := new_node SHARED_PAGE f l1p n1) in *. simpl in *.
  pose proof (tr_l1 _ _ _ _ Hrep') as H1'. simpl in H1'.
  apply wp_bind. eapply wp_rd; [exact H1'|]. cbn [tail_page one_more].
  assert (Hp : ns1 !! p = Some n').
  { pose proof (tr_seg _ _ _ _ Hrep') as (m & _ & -> & Hp & _)%nseg_app. done. }
  apply wp_bind. eapply wp_rd; [exact Hp|].
  apply wp_or_fail. subst n'. cbn [usage index pt_table new_node kind_index]. rewrite Hc3.
  eapply record_position_spec; [exact Hx|done..|lia|unfold SHARED_MEMORY_START; lia|].
  split; [done|]. apply wp_or_fail. pose proof (lo_frames _ _ Hlinks) as [_ [Hfl _]%Forall_cons]%Forall_cons.
  pose proof (is_frame_pos f Hf2). assert (Hfn : f ∉ pv_root V :: pv_l1 V :: pv_tables V).
  { intros Hin. apply (Hdisj f Hin). by left. }
  eapply (link_shared_spec _ q V); [exact Hx|done|exact H1'|done|done|lia|done|unfold SHARED_MEMORY_START; lia|].
  intros m2 Hp2 Ho2 [e He] Hk2. simpl in *. split; [done|].
  apply wp_bind. eapply (wp_wr pt_nodes); [exact Hp|]. apply wp_ret.
  assert (Hol : forall a, frame_of a ∉ [f; pv_l1 V] -> word m2 a = word (frame_mem s) a).
  { intros a Ha. rewrite !not_elem_of_cons in Ha. destruct Ha as (Ha1 & Ha2 & _). by rewrite Ho2, Hf3. }
  assert (Hpl : p ∉ l1p :: l.*1).
  { pose proof (tr_nodup _ _ _ _ Hrep') as Hnd'. rewrite fmap_app, Hl' in Hnd'. csimpl in Hnd'.
    rewrite app_comm_cons in Hnd'. apply NoDup_app in Hnd' as (_ & Hd & _). intros Hin. apply (Hd p Hin). by left. }
  assert (Eat : at_place (pv_tables V ++ [f]) (pv_next V) nd = nd <| lvl0_index := 0 |>
    <| lvl1_index := SHARED_MEMORY_START + Z.of_nat (length (pv_tables V)) |> <| lvl2_index := USERSPACE |>
    <| page_table := f |>).
  { unfold at_place, place_index, place_table. rewrite Hnx. rewrite lookup_total_app_r by mlia.
    replace (512 * Z.of_nat (length (pv_tables V)) mod 512) with 0 by mlia.
    replace (512 * Z.of_nat (length (pv_tables V)) / 512) with (Z.of_nat (length (pv_tables V))) by mlia.
    by rewrite Nat2Z.id, Nat.sub_diag. }
  specialize (HQ m2 (<[p := inc_usage (new_node SHARED_PAGE f l1p n1)]> ns1)). rewrite Eat in HQ. apply HQ.
  - rewrite dom_insert_L, Hd1. set_solver.
  - intros r Hr. rewrite En, not_elem_of_cons in Hr. rewrite lookup_insert_ne by naive_solver. apply Ho'.
    by rewrite not_elem_of_cons.
  - split; simpl; [|done| |rewrite length_app; simpl; lia].
    + exists l1p, (one_more SHARED_PAGE n1 <| head_page := h |> <| tail_page := Some p |>), (l' ++ [(p, inc_usage (new_node SHARED_PAGE f l1p n1))]).
      split; [by eapply tables_rep_ext; [|eapply tables_rep_insert; [exact Hrep'|]]|].
      split; [by rewrite En, fmap_app, Hl'|]. split.
      * rewrite !fmap_app, Hv', Hv. csimpl. rewrite views_new by done. rewrite <- app_assoc. do 3 f_equal.
        rewrite view_inc by done. unfold new_node. simpl. by rewrite Hc3.
      * simpl. unfold counters_ok. simpl. rewrite length_app. simpl.
        change (su_after SHARED_PAGE (stack_usage n1)) with (stack_usage n1 + 0).
        change (hu_after SHARED_PAGE (heap_usage n1)) with (heap_usage n1 + 0).
        change (sh_after SHARED_PAGE (shared_memory_usage n1)) with (shared_memory_usage n1 + 1). split_and!; (done || lia).
    + unfold in_use. rewrite length_app. simpl. lia.
  - eapply links_grow; [exact Hlinks|done|done|done|exact Hol|exact He|].
    intros i Hi0 Hne0. rewrite Hk2 by done. apply Hf3. rewrite pte_at_frame by done. intros <-. set_solver.
  - eapply free_ok_only_in; [exact Hf1|done|exact Ho2|]. intros Hin. apply (Hdisj (pv_l1 V)); set_solver.
  - done.
  - intros j Hj. rewrite Ho2; [by apply Hf4|]. rewrite pte_at_frame by done. intros ->. set_solver.
Qed.

End SharedTables.
