(* ===== verification/SharedPages.v ===== *)
(** * SharedPages: the lists of shared pages of a process

    A process keeps the pages it maps in a linked list with a head and a tail,
    and the places it gave back in another one.  The file describes both lists
    and the entries of the page tables by a [pview], and says how linking and
    unlinking a page change them. *)

From S2P Require Import Prelude.
From S2P Require Import Queue.
From S2P Require Import FrameDist.
From S2P Require Import Pages.
From S2P Require Import Kernel.
From S2P Require Import KernelRules.
From S2P Require Import ProcessMemory.
From S2P Require Import PageFilling.
From S2P Require Import TableList.
From S2P Require Import ProcessMemorySpec.
From S2P Require Import SharedMemory.
From S2P Require Import SharedTables.
#[local] Open Scope Z_scope.

(** ** Singly linked lists of heap objects

    [node b next] is the object that carries the value [b] and the link. *)
Section Segments.
Context {A B : Type} (node : B -> option ptr -> A).
Implicit Types (h : gmap ptr A) (l : list (ptr * B)).

Fixpoint seg h (p : option ptr) l (e : option ptr) : Prop :=
  match l with
  | [] => p = e
  | (a, b) :: l => p = Some a /\ exists next, h !! a = Some (node b next) /\ seg h next l e
  end.

Lemma seg_app h p l1 l2 e : seg h p (l1 ++ l2) e <-> exists m, seg h p l1 m /\ seg h m l2 e.
Proof.
  revert p. induction l1 as [|[a b] l1 IH]; intros p; simpl; [naive_solver|]. setoid_rewrite IH. naive_solver.
Qed.

Lemma seg_frame h h' p l e : (forall a, a ∈ l.*1 -> h' !! a = h !! a) -> seg h p l e -> seg h' p l e.
Proof.
  revert p. induction l as [|[a b] l IH]; intros p Hf; [done|]. intros (-> & nx & Ha & Hl). csimpl in *.
  split; [done|]. exists nx. split; [rewrite Hf; [done|by left]|]. apply IH; [|done]. intros q Hq. apply Hf. by right.
Qed.

Lemma seg_head h p l : seg h p l None -> p = fst <$> head l.
Proof. destruct l as [|[a b] l]; [done|]. by intros [-> _]. Qed.

Lemma seg_in h p l e a b : seg h p l e -> (a, b) ∈ l -> exists next, h !! a = Some (node b next).
Proof.
  intros Hl (l1 & l2 & ->)%list_elem_of_split. apply seg_app in Hl as (m & _ & _ & nx & Ha & _). by exists nx.
Qed.

Lemma seg_length h p l e : NoDup l.*1 -> seg h p l e -> (length l <= base.size h)%nat.
Proof.
  intros Hnd Hl. rewrite <- (length_fmap fst), <- size_dom, <- (size_list_to_set (C := gset ptr)) by done.
  apply subseteq_size. intros a. rewrite elem_of_list_to_set, elem_of_dom. intros ([q b] & -> & Hin)%list_elem_of_fmap.
  destruct (seg_in _ _ _ _ _ _ Hl Hin) as [nx Hnx]. simpl. by rewrite Hnx.
Qed.

(** The last link is changed. *)
Lemma seg_relink h p l1 a b e e' :
  NoDup (l1 ++ [(a, b)]).*1 -> seg h p (l1 ++ [(a, b)]) e -> seg (<[a := node b e']> h) p (l1 ++ [(a, b)]) e'.
Proof.
  rewrite fmap_app. csimpl. intros (_ & Hd & _)%NoDup_app (m & H1 & -> & _)%seg_app. apply seg_app. exists (Some a).
  split; [|simpl; split; [done|]; exists e'; by rewrite lookup_insert_eq].
  eapply seg_frame; [|exact H1]. intros q Hq. rewrite lookup_insert_ne; [done|]. intros ->. apply (Hd q Hq). by left.
Qed.

End Segments.

Lemma seg_ext {A B} (node node' : B -> option ptr -> A) h p l e :
  (forall b next, b ∈ l.*2 -> node b next = node' b next) -> seg node h p l e -> seg node' h p l e.
Proof.
  revert p. induction l as [|[a b] l IH]; intros p Hn; [done|]. intros (-> & nx & Ha & Hl). csimpl in *.
  split; [done|]. exists nx. rewrite <- Hn by (by left). split; [done|]. apply IH; [|done]. intros b' nx' Hb. apply Hn. by right.
Qed.

Section SharedPages.
Context `{E : KEnv}.
Implicit Types (s : kstate) (V : pview) (T : list Z).

Definition page_node T (kj : string * Z) (next : option ptr) : shared_pages_proc_t :=
  at_place T kj.2 (mk_shared_proc kj.1 0 0 0 0 next).
Definition hole_node T (j : Z) (next : option ptr) : released_pages_t :=
  mk_released USERSPACE (place_index j) (j mod 512) (place_table T j) next.

Definition pages_table (L : list (ptr * (string * Z))) : gmap string ptr := list_to_map ((fun e => (e.2.1, e.1)) <$> L).
Definition page_keys V : list string := (pv_pages V).*2.*1.
Definition page_places V : list Z := (pv_pages V).*2.*2.

Record lists_ok s (x : process) V : Prop := {
  ll_pages : seg (page_node (pv_tables V)) (shared_nodes s) (fst <$> head (pv_pages V)) (pv_pages V) None;
  ll_wrap : shared_pages x = Some (mk_shared_wrap (fst <$> head (pv_pages V)) (fst <$> last (pv_pages V))) \/
    shared_pages x = None /\ pv_pages V = [];
  ll_table : default ∅ (proc_shared_hash_table x) = pages_table (pv_pages V);
  ll_holes : seg (hole_node (pv_tables V)) (released_nodes s) (released_pages_list x) (pv_holes V) None;
  ll_pages_nodup : NoDup (pv_pages V).*1;
  ll_holes_nodup : NoDup (pv_holes V).*1;
  ll_keys : NoDup (page_keys V);
  ll_places : NoDup (page_places V ++ (pv_holes V).*2);
  ll_given : Forall (fun j => 0 <= j < pv_next V) (page_places V ++ (pv_holes V).*2)
}.

(** An entry the processor does not follow. *)
Definition vacant (e : page_table_entry) : Prop := pte_bad e || negb (is_leaf e) = true.
Definition place_entry (m : fmem) T (j : Z) : page_table_entry := table_entry m (place_table T j) (j mod 512).

(** What the entries hold, [F] giving the frames of the named pages. *)
Record pages_ok (m : fmem) (F : gmap string Z) V : Prop := {
  po_mapped : forall k j, (k, j) ∈ (pv_pages V).*2 -> exists f e, F !! k = Some f /\
    place_entry m (pv_tables V) j = kilo_entry e f true true false true;
  po_vacant : forall j, 0 <= j < 512 * Z.of_nat (length (pv_tables V)) -> j ∉ page_places V ->
    vacant (place_entry m (pv_tables V) j)
}.

(** ** Linking a page at the end of the list *)

Lemma pages_keys L : ((fun e : ptr * (string * Z) => (e.2.1, e.1)) <$> L).*1 = L.*2.*1.
Proof. induction L as [|[a [k j]] L IH]; [done|]. csimpl. by f_equal. Qed.

Lemma pages_lookup L k : NoDup L.*2.*1 -> forall a, pages_table L !! k = Some a <-> exists j, (a, (k, j)) ∈ L.
Proof.
  intros Hnd a. unfold pages_table. rewrite <- elem_of_list_to_map by (by rewrite pages_keys).
  rewrite list_elem_of_fmap. split.
  - intros ([b [k' j]] & [= -> ->] & Hin). by exists j.
  - intros [j Hin]. by exists (a, (k, j)).
Qed.

Lemma pages_not_mapped L k : k ∉ L.*2.*1 <-> pages_table L !! k = None.
Proof.
  unfold pages_table. by rewrite <- not_elem_of_list_to_map, pages_keys.
Qed.

Lemma pages_table_snoc L a k j : k ∉ L.*2.*1 -> pages_table (L ++ [(a, (k, j))]) = <[k := a]> (pages_table L).
Proof.
  intros Hk. unfold pages_table. rewrite fmap_app. csimpl. apply list_to_map_snoc. by rewrite pages_keys.
Qed.

Lemma pages_table_remove L1 L2 a k j : NoDup (L1 ++ (a, (k, j)) :: L2).*2.*1 ->
  pages_table (L1 ++ L2) = delete k (pages_table (L1 ++ (a, (k, j)) :: L2)).
Proof.
  intros Hnd. rewrite !fmap_app in Hnd. csimpl in Hnd. apply NoDup_app in Hnd as (_ & Hd & [Hk _]%NoDup_cons).
  assert (Hk1 : k ∉ L1.*2.*1) by (intros Hin; apply (Hd k Hin); by left).
  unfold pages_table. rewrite !fmap_app. csimpl. rewrite !list_to_map_app. csimpl. rewrite delete_union, delete_insert_eq.
  rewrite !delete_id; [done|..]; by apply not_elem_of_list_to_map; rewrite pages_keys.
Qed.

(** What the node of a new page holds before it has its place. *)
Record appended s (L : list (ptr * (string * Z))) (k : string) (h : gmap ptr shared_pages_proc_t)
    (nd : shared_pages_proc_t) : Prop := {
  ap_node : h !! next_block s = Some nd;
  ap_key : key nd = k;
  ap_dom : dom h = {[next_block s]} ∪ dom (shared_nodes s);
  ap_rest : forall r, r ∉ next_block s :: L.*1 -> h !! r = shared_nodes s !! r;
  ap_list : forall T j, seg (page_node T) (shared_nodes s) (fst <$> head L) L None ->
    let L' := L ++ [(next_block s, (k, j))] in
    seg (page_node T) (<[next_block s := at_place T j nd]> h) (fst <$> head L') L' None
}.

Definition wrap_of (L : list (ptr * (string * Z))) : shared_pages_wrap_t :=
  mk_shared_wrap (fst <$> head L) (fst <$> last L).

Lemma at_place_page T j nd : next_shared_page nd = None -> at_place T j nd = page_node T (key nd, j) None.
Proof. destruct nd. simpl. intros ->. done. Qed.

Lemma appended_empty s k nd : key nd = k -> next_shared_page nd = None ->
  appended s [] k (<[next_block s := nd]> (shared_nodes s)) nd.
Proof.
  intros Hk Hn. split.
  - by rewrite lookup_insert_eq.
  - done.
  - by rewrite dom_insert_L.
  - intros r Hr. rewrite lookup_insert_ne by set_solver. done.
  - intros T j _. simpl. split; [done|]. exists None. rewrite lookup_insert_eq, at_place_page, Hk by done. done.
Qed.

Lemma seg_none {A B} (node : B -> option ptr -> A) (h : gmap ptr A) p l r :
  seg node h p l None -> h !! r = None -> r ∉ l.*1.
Proof.
  intros Hl Hr ([a b] & -> & Hin)%list_elem_of_fmap. destruct (seg_in _ _ _ _ _ _ _ Hl Hin) as [nx Hnx].
  simpl in Hr. congruence.
Qed.

Lemma appended_last s T0 L0 t kt k nd n0 :
  seg (page_node T0) (shared_nodes s) (fst <$> head (L0 ++ [(t, kt)])) (L0 ++ [(t, kt)]) None ->
  NoDup (L0 ++ [(t, kt)]).*1 -> shared_nodes s !! next_block s = None -> shared_nodes s !! t = Some n0 ->
  key nd = k -> next_shared_page nd = None ->
  appended s (L0 ++ [(t, kt)]) k
    (<[t := n0 <| next_shared_page := Some (next_block s) |>]> (<[next_block s := nd]> (shared_nodes s))) nd.
Proof.
  intros Hl Hnd Hfresh Ht Hk Hn. pose proof (seg_none _ _ _ _ _ Hl Hfresh) as Hb.
  rewrite fmap_app, elem_of_app in Hb. csimpl in Hb. rewrite list_elem_of_singleton in Hb.
  assert (Htb : t <> next_block s) by naive_solver. split.
  - by rewrite lookup_insert_ne, lookup_insert_eq.
  - done.
  - rewrite !dom_insert_L. apply elem_of_dom_2 in Ht. set_solver.
  - intros r Hr. rewrite fmap_app in Hr. csimpl in Hr.
    rewrite not_elem_of_cons, not_elem_of_app, list_elem_of_singleton in Hr.
    rewrite !lookup_insert_ne by naive_solver. done.
  - intros T j Hl'. cbn zeta. rewrite <- app_assoc.
    assert (Hh : fst <$> head (L0 ++ [(t, kt)] ++ [(next_block s, (k, j))]) = fst <$> head (L0 ++ [(t, kt)])) by (by destruct L0).
    rewrite Hh, app_assoc. apply seg_app. exists (Some (next_block s)). split.
    + eapply seg_frame.
      2:{ eapply (seg_relink (page_node T) _ _ L0 t kt None (Some (next_block s))); [exact Hnd|exact Hl']. }
      intros r Hr. rewrite fmap_app, elem_of_app in Hr. csimpl in Hr. rewrite list_elem_of_singleton in Hr.
      rewrite (lookup_insert_ne _ (next_block s)) by naive_solver. destruct (decide (r = t)) as [->|Hne].
      * rewrite !lookup_insert_eq. apply seg_app in Hl' as (m & _ & -> & nx & Ht' & _).
        rewrite Ht in Ht'. by injection Ht' as ->.
      * rewrite !lookup_insert_ne by naive_solver. done.
    + simpl. split; [done|]. exists None. rewrite lookup_insert_eq, at_place_page, Hk by done. done.
Qed.

Lemma next_key_eq n k : key (n <| key := k |> <| next_shared_page := None |>) = k.
Proof. done. Qed.

(** The rest of [link_shared_page_to_process] once the node is in the list. *)
Definition link_rest (q info : ptr) (k : string) (node : ptr) : K Z :=
  or_fail (place_shared_page (Some q)) (
    _ ← wr procs (Some q) (fun p => p <| proc_shared_hash_table ::= fmap <[k := node]> |>);
    _ ← wr shared_infos (Some info) (fun i => i <| page_usage ::= fun u => wrapS 32 (u + 1) |>);
    n ← rd shared_nodes (Some node);
    info ← rd shared_infos (Some info);
    _ ← in_frames (configure_page_entry (pte_at (page_table n) (lvl0_index n)) (page_address info)
                     true true false true KILO);
    mret 0).

Lemma wrap_of_snoc L t a : wrap_of (L ++ [(a, t)]) = mk_shared_wrap (Some (default a (fst <$> head L))) (Some a).
Proof. unfold wrap_of. rewrite last_snoc. by destruct L as [|[b u] L]. Qed.

Lemma link_starts s q x V k info (Q : Z -> kstate -> Prop) :
  procs s !! q = Some x -> shared_pages x = Some (wrap_of (pv_pages V)) ->
  seg (page_node (pv_tables V)) (shared_nodes s) (fst <$> head (pv_pages V)) (pv_pages V) None ->
  NoDup (pv_pages V).*1 -> shared_nodes s !! next_block s = None -> (forall p, malloc_ok p = true) ->
  (forall h nd, let node := next_block s in appended s (pv_pages V) k h nd -> forall x',
    x' = x <| shared_pages := Some (wrap_of (pv_pages V ++ [(node, (k, 0))])) |> ->
    wp (link_rest q info k node) Q
      (s <| next_block ::= fun b => Pos.succ (Pos.succ b) |> <| shared_nodes := h |> <| procs ::= <[q := x']> |>)) ->
  wp (link_shared_page_to_process (Some q) (Some info) k) Q s.
Proof.
  intros Hx Hw Hl Hnd Hfresh Hm HQ. unfold link_shared_page_to_process. apply wp_bind. eapply wp_pget; [done|]. rewrite Hw.
  apply wp_bind. eapply (wp_malloc shared_nodes); [done|by apply Hm|]. apply wp_bind. eapply wp_lift; [done|].
  apply wp_bind, wp_bind, wp_gets, wp_bind, wp_kupd, wp_ret. rewrite Hm. cbn [negb]. apply wp_bind.
  eapply (wp_wr shared_nodes); [simpl; by rewrite lookup_insert_eq|]. cbn beta. apply wp_bind.
  set (nd := junk_shared (next_block s) <| key := k |> <| next_shared_page := None |>).
  assert (Hnode : forall u, <[next_block s := nd]> (<[next_block s := u]> (shared_nodes s)) = <[next_block s := nd]> (shared_nodes s)).
  { intros u. by rewrite insert_insert_eq. }
  specialize (Hnode (junk_shared (next_block s))).
  destruct (list_snoc_inv (pv_pages V)) as [El|(L0 & [t kt] & El)]; rewrite El in *.
  - cbn. eapply wp_pset; [exact Hx|]. pose proof (appended_empty s k nd eq_refl eq_refl) as Hap.
    rewrite <- Hnode in Hap. exact (HQ _ _ Hap _ eq_refl).
  - rewrite wrap_of_snoc. cbn [head_shared_page tail_shared_page].
    pose proof Hl as (m & _ & -> & nx & Ht & _)%seg_app. apply wp_bind. eapply (wp_wr shared_nodes).
    { simpl. rewrite insert_insert_eq, lookup_insert_ne; [exact Ht|]. intros <-. congruence. }
    eapply wp_pset; [exact Hx|].
    assert (Hap := appended_last s _ L0 t kt k nd _ Hl Hnd Hfresh Ht eq_refl eq_refl). rewrite <- Hnode in Hap.
    specialize (HQ _ _ Hap _ eq_refl). rewrite wrap_of_snoc in HQ.
    replace (default (next_block s) (fst <$> head (L0 ++ [(t, kt)]))) with (default t (fst <$> head L0)) in HQ
      by (by destruct L0 as [|[? ?] ?]). exact HQ.
Qed.

(** ** Unlinking a page *)

Lemma find_before_spec T L1 : forall s p b kb a ka L2 e fuel,
  seg (page_node T) (shared_nodes s) p (L1 ++ (b, kb) :: (a, ka) :: L2) e -> NoDup (L1 ++ (b, kb) :: (a, ka) :: L2).*1 ->
  find_before (length L1 + S fuel) p a s = Ok (Some b, s).
Proof.
  induction L1 as [|[c kc] L1 IH]; intros s p b kb a ka L2 e fuel; simpl.
  - intros (-> & nx & Hb & -> & _) _. rewrite (run_bind _ _ s _ s) by (by apply wp_run, (wp_rd shared_nodes _ _ _ _ Hb)).
    simpl. by rewrite bool_decide_eq_true_2.
  - intros (-> & nx & Hc & Hl) [Hnc Hnd]%NoDup_cons.
    rewrite (run_bind _ _ s _ s) by (by apply wp_run, (wp_rd shared_nodes _ _ _ _ Hc)). simpl.
    rewrite bool_decide_eq_false_2; [by eapply IH|]. intros ->. rewrite fmap_app in Hnd. csimpl in Hnd.
    apply NoDup_app in Hnd as (_ & Hd & [Hn _]%NoDup_cons). destruct L1 as [|[d kd] L1]; simpl in Hl.
    + destruct Hl as [[= ->] _]. apply Hn. by left.
    + destruct Hl as [[= ->] _]. apply (Hd d); [by left|]. right. by left.
Qed.

Lemma same_wrap s q x w : procs s !! q = Some x -> shared_pages x = Some w ->
  s = s <| procs ::= <[q := x <| shared_pages := Some w |>]> |>.
Proof.
  intros Hx Hw. replace (x <| shared_pages := Some w |>) with x by (destruct x; simpl in *; by rewrite Hw).
  destruct s. unfold upd. simpl in *. by rewrite insert_id.
Qed.

Lemma last_cons_app {A} (l1 l2 : list A) x : last (l1 ++ x :: l2) = Some (default x (last l2)).
Proof.
  destruct (list_snoc_inv l2) as [->|(l & y & ->)]; [by rewrite last_snoc|].
  by rewrite app_comm_cons, app_assoc, !last_snoc.
Qed.

(** The node [a] of the list [L1 ++ (a, ka) :: L2] is taken out. *)
Lemma unlink_spec s q x T L1 a ka L2 (Q : unit -> kstate -> Prop) :
  let L := L1 ++ (a, ka) :: L2 in
  procs s !! q = Some x -> shared_pages x = Some (wrap_of L) ->
  seg (page_node T) (shared_nodes s) (fst <$> head L) L None -> NoDup L.*1 ->
  (forall h, dom h = dom (shared_nodes s) -> (forall r, r ∉ L1.*1 -> h !! r = shared_nodes s !! r) ->
    seg (page_node T) h (fst <$> head (L1 ++ L2)) (L1 ++ L2) None ->
    Q tt (s <| shared_nodes := h |> <| procs ::= <[q := x <| shared_pages := Some (wrap_of (L1 ++ L2)) |>]> |>)) ->
  wp (unlink_shared_page (Some q) (wrap_of L) a) Q s.
Proof.
  intros L Hx Hw Hl Hnd HQ. pose proof Hl as (m & Hl1 & -> & nx & Ha & Hl2)%seg_app.
  pose proof (seg_head _ _ _ _ Hl2) as Hnx. unfold unlink_shared_page. apply wp_bind. eapply (wp_rd shared_nodes); [exact Ha|].
  change (next_shared_page (page_node T ka nx)) with nx. subst L.
  assert (Htl : tail_shared_page (wrap_of (L1 ++ (a, ka) :: L2)) = Some (default a (fst <$> last L2))).
  { unfold wrap_of. rewrite last_cons_app. simpl. by destruct (last L2) as [[b kb]|]. }
  rewrite fmap_app in Hnd. csimpl in Hnd. apply NoDup_app in Hnd as (Hnd1 & Hd & [Hna Hnd2]%NoDup_cons).
  assert (HtlN : L2 <> [] -> tail_shared_page (wrap_of (L1 ++ (a, ka) :: L2)) <> Some a).
  { intros Hne. rewrite Htl. destruct (list_snoc_inv L2) as [->|(L3 & [b kb] & ->)]; [done|]. rewrite last_snoc. simpl.
    intros [= ->]. apply Hna. rewrite fmap_app, elem_of_app. right. by left. }
  destruct (list_snoc_inv L1) as [->|(L0 & [b kb] & ->)].
  - simpl in *. rewrite (bool_decide_eq_true_2 (Some a = Some a)) by done. destruct L2 as [|[c kc] L2].
    + rewrite bool_decide_eq_true_2 by done. eapply wp_pset; [exact Hx|]. exact (HQ _ eq_refl (fun _ _ => eq_refl) eq_refl).
    + rewrite bool_decide_eq_false_2 by (by apply HtlN). eapply wp_pset; [exact Hx|].
      assert (E1 : wrap_of ((a, ka) :: (c, kc) :: L2) <| head_shared_page := nx |> = wrap_of ((c, kc) :: L2)).
      { unfold wrap_of. simpl. by rewrite Hnx. }
      rewrite E1. apply (HQ _ eq_refl (fun _ _ => eq_refl)). simpl in Hnx. subst nx. exact Hl2.
  - assert (Hb : exists n0, shared_nodes s !! b = Some (page_node T kb n0) /\ n0 = Some a).
    { apply seg_app in Hl1 as (m & _ & -> & nb & Hb & ->). by eexists. }
    destruct Hb as (_ & Hb & ->). pose proof Hnd1 as Hnd1'. rewrite fmap_app in Hnd1'. csimpl in Hnd1'.
    assert (Hba : b <> a).
    { intros ->. apply (Hd a); [rewrite fmap_app, elem_of_app; right; by left|by left]. }
    assert (Hhd : head_shared_page (wrap_of ((L0 ++ [(b, kb)]) ++ (a, ka) :: L2)) <> Some a).
    { rewrite <- app_assoc. destruct L0 as [|[d kd] L0]; simpl; intros [= ->]; [done|].
      apply (Hd a); [csimpl; by left|by left]. }
    rewrite (bool_decide_eq_false_2 (head_shared_page _ = Some a)) by done. cbn [andb].
    apply wp_bind, wp_gets. apply wp_bind.
    assert (Hsp : seg (page_node T) (shared_nodes s) (head_shared_page (wrap_of ((L0 ++ [(b, kb)]) ++ (a, ka) :: L2)))
      (L0 ++ (b, kb) :: (a, ka) :: L2) None).
    { rewrite <- app_assoc in Hl. cbn [wrap_of head_shared_page]. by rewrite <- app_assoc. }
    assert (HndL : NoDup (L0 ++ (b, kb) :: (a, ka) :: L2).*1).
    { change ((b, kb) :: (a, ka) :: L2) with ([(b, kb)] ++ (a, ka) :: L2). rewrite app_assoc, fmap_app. csimpl.
      apply NoDup_app. split; [done|]. split; [done|]. by apply NoDup_cons. }
    pose proof (seg_length _ _ _ _ _ HndL Hsp) as Hlen. rewrite length_app in Hlen. simpl in Hlen.
    assert (Hfu : exists k, walk_fuel shared_nodes s = (length L0 + S k)%nat).
    { unfold walk_fuel. exists (base.size (shared_nodes s) - length L0)%nat. lia. }
    destruct Hfu as [k ->]. eapply wp_intro; [by eapply find_before_spec|]. cbn beta.
    assert (Hh : fst <$> head ((L0 ++ [(b, kb)]) ++ L2) = fst <$> head ((L0 ++ [(b, kb)]) ++ (a, ka) :: L2)).
    { rewrite <- !app_assoc. by destruct L0 as [|[? ?] ?]. }
    assert (Hseg : seg (page_node T) (<[b := page_node T kb nx]> (shared_nodes s)) (fst <$> head ((L0 ++ [(b, kb)]) ++ L2))
      ((L0 ++ [(b, kb)]) ++ L2) None).
    { rewrite Hh. apply seg_app. exists nx. split; [by eapply seg_relink|]. eapply seg_frame; [|exact Hl2].
      intros r Hr. rewrite lookup_insert_ne; [done|]. intros ->. apply (Hd r); [rewrite fmap_app, elem_of_app; right; by left|by right]. }
    assert (Hdom : dom (<[b := page_node T kb nx]> (shared_nodes s)) = dom (shared_nodes s)).
    { rewrite dom_insert_L. apply elem_of_dom_2 in Hb. set_solver. }
    assert (Hrest : forall r, r ∉ (L0 ++ [(b, kb)]).*1 -> <[b := page_node T kb nx]> (shared_nodes s) !! r = shared_nodes s !! r).
    { intros r Hr. rewrite lookup_insert_ne; [done|]. intros ->. apply Hr. rewrite fmap_app, elem_of_app. right. by left. }
    specialize (HQ _ Hdom Hrest Hseg). destruct L2 as [|[c kc] L2].
    + rewrite bool_decide_eq_true_2 by (by rewrite Htl). apply wp_bind. eapply wp_pset; [exact Hx|].
      eapply (wp_wr shared_nodes); [exact Hb|].
      assert (E1 : wrap_of ((L0 ++ [(b, kb)]) ++ [(a, ka)]) <| tail_shared_page := Some b |> = wrap_of ((L0 ++ [(b, kb)]) ++ [])).
      { unfold wrap_of. rewrite Hh, app_nil_r, !last_snoc. done. }
      rewrite E1. simpl in Hnx. subst nx. exact HQ.
    + rewrite bool_decide_eq_false_2 by (by apply HtlN). eapply (wp_wr shared_nodes); [exact Hb|].
      assert (E1 : wrap_of ((L0 ++ [(b, kb)]) ++ (c, kc) :: L2) = wrap_of ((L0 ++ [(b, kb)]) ++ (a, ka) :: (c, kc) :: L2)).
      { unfold wrap_of. rewrite Hh. f_equal. rewrite !last_cons_app, last_cons. by destruct (last L2). }
      rewrite E1 in HQ. rewrite (same_wrap s q x _ Hx Hw). exact HQ.
Qed.

End SharedPages.
