(* ===== verification/SharedMemorySpec.v ===== *)
(** * SharedMemorySpec: what the calls on shared pages do

    [shm_create], [shm_acquire] and [shm_release] refine an abstract
    description: named frames, and for each process the places at which it maps
    them.  The invariant [shm_ok] ties the lists, the tables, the counters and
    the page tables of all processes to it. *)

From S2P Require Import Prelude.
From S2P Require Import Queue.
From S2P Require Import FrameDist.
From S2P Require Import Pages.
From S2P Require Import Kernel.
From S2P Require Import KernelRules.
From S2P Require Import ProcessMemory.
From S2P Require Import PageFilling.
From S2P Require Import TableList.
From S2P Require Import ProcessMemorySpec.
From S2P Require Import SharedMemory.
From S2P Require Import SharedTables.
From S2P Require Import SharedPages.
#[local] Open Scope Z_scope.

(** The views of the processes, the named pages (descriptor and frame) and the
    free frames. *)
Record world : Type := mk_world {
  w_procs : gmap ptr pview; w_names : gmap string (ptr * Z); w_free : list Z
}.
#[export] Instance eta_world : Eta world := fun r => mk_world (w_procs r) (w_names r) (w_free r).

Definition own_tables (V : pview) : list Z := pv_root V :: pv_l1 V :: pv_tables V.
Definition users (W : world) (k : string) : Z :=
  Z.of_nat (base.size (filter (fun e : ptr * pview => k ∈ page_keys e.2) (w_procs W))).

Section SharedMemorySpec.
Context `{E : KEnv}.
Implicit Types (s : kstate) (V : pview) (W : world).

Record proc_ok s (F : gmap string Z) (q : ptr) V (x : process) : Prop := {
  pk_proc : procs s !! q = Some x;
  pk_root : page_table_level_2 x = pv_root V;
  pk_list : page_tables_lvl_1_list x = head (pv_nodes V);
  pk_nodes : nodes_ok s V;
  pk_links : links_ok (frame_mem s) V;
  pk_lists : lists_ok s x V;
  pk_pages : pages_ok (frame_mem s) F V
}.

Record apart V V' : Prop := {
  ap_nodes : forall r, r ∈ pv_nodes V -> r ∉ pv_nodes V';
  ap_pages : forall r, r ∈ (pv_pages V).*1 -> r ∉ (pv_pages V').*1;
  ap_holes : forall r, r ∈ (pv_holes V).*1 -> r ∉ (pv_holes V').*1;
  ap_tables : forall t, t ∈ own_tables V -> t ∉ own_tables V'
}.

Record heaps_ok s : Prop := {
  ho_nodes : allocated (pt_nodes s) s;
  ho_pages : allocated (shared_nodes s) s;
  ho_holes : allocated (released_nodes s) s;
  ho_infos : allocated (shared_infos s) s
}.

Definition named s W k (p : ptr) (f : Z) : Prop := exists id, shared_infos s !! p = Some (mk_shared_page k f (users W k) id).

Record shm_ok s W : Prop := {
  so_free : free_ok (frame_mem s) (w_free W);
  so_table : shared_memory_hash_table s = fst <$> w_names W;
  so_frame : forall k p f, w_names W !! k = Some (p, f) -> is_frame f /\ f ∉ w_free W;
  so_named : forall k p f, w_names W !! k = Some (p, f) -> named s W k p f;
  so_distinct : forall k k' p p' f, w_names W !! k = Some (p, f) -> w_names W !! k' = Some (p', f) -> k = k';
  so_procs : forall q V, w_procs W !! q = Some V -> exists x, proc_ok s (snd <$> w_names W) q V x;
  so_held : forall q V t, w_procs W !! q = Some V -> t ∈ own_tables V ->
    (t ∉ w_free W) /\ (forall k p f, w_names W !! k = Some (p, f) -> t <> f);
  so_apart : forall q q' V V', q <> q' -> w_procs W !! q = Some V -> w_procs W !! q' = Some V' -> apart V V';
  so_heaps : heaps_ok s;
  so_size : Z.of_nat (base.size (w_procs W)) < 2 ^ 31
}.

(** ** What a call may change *)

Definition heap_step {A} (b : ptr) (h h' : gmap ptr A) (own own' : list ptr) : Prop :=
  (forall r, r ∉ own -> (r < b)%positive -> h' !! r = h !! r) /\
  (forall r, r ∈ own' -> r ∈ own \/ (b <= r)%positive).

Lemma heap_step_refl {A} b (h : gmap ptr A) l : heap_step b h h l l.
Proof. split; [done|]. by left. Qed.

Record changed_by s s' (q : ptr) V V' (G : list Z) : Prop := {
  cb_procs : forall q', q' <> q -> procs s' !! q' = procs s !! q';
  cb_nodes : heap_step (next_block s) (pt_nodes s) (pt_nodes s') (pv_nodes V) (pv_nodes V');
  cb_pages : heap_step (next_block s) (shared_nodes s) (shared_nodes s') (pv_pages V).*1 (pv_pages V').*1;
  cb_holes : heap_step (next_block s) (released_nodes s) (released_nodes s') (pv_holes V).*1 (pv_holes V').*1;
  cb_words : forall a, frame_of a ∉ own_tables V ++ G -> word (frame_mem s') a = word (frame_mem s) a;
  cb_tables : forall t, t ∈ own_tables V' -> t ∈ own_tables V ++ G
}.

Lemma nodes_present s V r : nodes_ok s V -> r ∈ pv_nodes V -> is_Some (pt_nodes s !! r).
Proof.
  intros [(l1p & n1 & l & [H1 Hs _ _] & -> & _) _ _ _] [->|Hr]%elem_of_cons; [by rewrite H1|].
  clear H1. revert Hs. generalize (head_page n1). induction l as [|[p n] l IH]; intros h; csimpl in *.
  - by apply not_elem_of_nil in Hr.
  - intros (_ & Hp & Hl). apply elem_of_cons in Hr as [->|Hr]; [by rewrite Hp|]. by eapply IH.
Qed.

Lemma seg_present {A B} (node : B -> option ptr -> A) (h : gmap ptr A) p l e r :
  seg node h p l e -> r ∈ l.*1 -> is_Some (h !! r).
Proof.
  intros Hl ([a b] & -> & Hin)%list_elem_of_fmap. destruct (seg_in _ _ _ _ _ _ _ Hl Hin) as [nx Hnx]. by eexists.
Qed.

Lemma heap_step_other {A} b (h h' : gmap ptr A) own own' (other : list ptr) :
  heap_step b h h' own own' -> (forall r, r ∈ own -> r ∉ other) -> (forall r, r ∈ other -> (r < b)%positive) ->
  (forall r, r ∈ other -> h' !! r = h !! r) /\ (forall r, r ∈ own' -> r ∉ other).
Proof.
  intros [H1 H2] Ha Hb. split.
  - intros r Hr. apply H1; [|by apply Hb]. intros Ho. by apply (Ha r).
  - intros r Ho Hr. destruct (H2 r Ho) as [Ho'|Hle]; [by apply (Ha r)|]. specialize (Hb r Hr). lia.
Qed.

Lemma links_ok_agree m m' V V' :
  links_ok m V -> agree [pv_root V; pv_l1 V] m m' -> Z.of_nat (length (pv_tables V)) <= 256 ->
  pv_root V' = pv_root V -> pv_l1 V' = pv_l1 V -> pv_tables V' = pv_tables V -> links_ok m' V'.
Proof.
  intros [L1 L2 L3 L4 L5] Hm Hroom E1 E2 E3. split; rewrite ?E1, ?E2, ?E3; [| | |done|done].
  - eapply links_to_agree; [exact Hm|by left|done|done].
  - intros i t Hi. pose proof (lookup_lt_Some _ _ _ Hi). unfold SHARED_MEMORY_START in *.
    eapply links_to_agree; [exact Hm|right; by left|lia|by apply L2].
  - intros i Hi. unfold SHARED_MEMORY_START in *. rewrite Hm by (try lia; right; by left). by apply L3.
Qed.

Lemma proc_ok_frame s s' F F' q V x :
  proc_ok s F q V x -> procs s' !! q = procs s !! q ->
  (forall r, r ∈ pv_nodes V -> pt_nodes s' !! r = pt_nodes s !! r) ->
  (forall r, r ∈ (pv_pages V).*1 -> shared_nodes s' !! r = shared_nodes s !! r) ->
  (forall r, r ∈ (pv_holes V).*1 -> released_nodes s' !! r = released_nodes s !! r) ->
  agree (own_tables V) (frame_mem s) (frame_mem s') ->
  (forall k f, k ∈ page_keys V -> F !! k = Some f -> F' !! k = Some f) ->
  proc_ok s' F' q V x.
Proof.
  intros [H1 H2 H3 H4 H5 H6 H7] Hx Hn Hp Hh Hm HF. pose proof (no_use _ _ H4) as [Hu1 Hu2].
  assert (HT : forall j, 0 <= j < 512 * Z.of_nat (length (pv_tables V)) ->
    place_entry (frame_mem s') (pv_tables V) j = place_entry (frame_mem s) (pv_tables V) j).
  { intros j Hj. unfold place_entry, table_entry. rewrite Hm; [done| |mlia].
    right. right. eapply list_elem_of_lookup_2. by apply place_table_lookup. }
  split; [by rewrite Hx|done|done|by eapply nodes_ok_frame| | |].
  - eapply links_ok_agree; [exact H5| |apply H4|done..]. eapply agree_sub; [|exact Hm]. unfold own_tables. set_solver.
  - destruct H6. split; [|done|done| |done..]; (eapply seg_frame; [|done]); done.
  - destruct H7 as [P1 P2]. split.
    + intros k j Hin. destruct (P1 k j Hin) as (f & e & Hf & He). exists f, e. split.
      * apply HF; [|done]. unfold page_keys. apply list_elem_of_fmap. by exists (k, j).
      * rewrite HT; [done|]. pose proof (ll_given _ _ _ H6) as Hg. rewrite Forall_app, Forall_forall in Hg.
        destruct Hg as [Hg _]. assert (Hjin : j ∈ page_places V) by (apply list_elem_of_fmap; by exists (k, j)).
        specialize (Hg j Hjin). lia.
    + intros j Hj Hn'. rewrite HT by done. by apply P2.
Qed.

Lemma heap_step_le {A} b b' (h h' : gmap ptr A) own own' : (b' <= b)%positive -> heap_step b h h' own own' -> heap_step b' h h' own own'.
Proof. intros Hb [H1 H2]. split; [intros r Hr Hlt; apply H1; [done|lia]|]. intros r Hr. destruct (H2 r Hr); [by left|right; lia]. Qed.

Lemma allocated_later {A} (h h' : gmap ptr A) s s' :
  allocated h s -> (next_block s <= next_block s')%positive -> dom h' = dom h -> allocated h' s'.
Proof. intros Ha Hb Hd p Hp. rewrite <- elem_of_dom, Hd, elem_of_dom in Hp. specialize (Ha p Hp). lia. Qed.

(** The call of one process leaves the others alone. *)
Lemma others_kept s s' W q V V' G q' U x F :
  shm_ok s W -> w_procs W !! q = Some V -> changed_by s s' q V V' G ->
  (forall t, t ∈ own_tables U -> t ∉ G) -> q' <> q -> w_procs W !! q' = Some U ->
  (forall k f, k ∈ page_keys U -> (snd <$> w_names W) !! k = Some f -> F !! k = Some f) ->
  proc_ok s (snd <$> w_names W) q' U x -> proc_ok s' F q' U x /\ apart V' U.
Proof.
  intros Hok HV [C1 C2 C3 C4 C5 C6] HG Hne HU HF Hx. pose proof Hx as [H1 _ _ H4 H5 H6 _].
  destruct (so_apart _ _ Hok q q' V U) as [A1 A2 A3 A4]; [done..|]. destruct (so_heaps _ _ Hok) as [B1 B2 B3 _].
  destruct (heap_step_other _ _ _ _ _ (pv_nodes U) C2) as [D1 E1]; [done| |].
  { intros r Hr. by eapply B1, nodes_present. }
  destruct (heap_step_other _ _ _ _ _ (pv_pages U).*1 C3) as [D2 E2]; [done| |].
  { intros r Hr. eapply B2, seg_present; [apply (ll_pages _ _ _ H6)|done]. }
  destruct (heap_step_other _ _ _ _ _ (pv_holes U).*1 C4) as [D3 E3]; [done| |].
  { intros r Hr. eapply B3, seg_present; [apply (ll_holes _ _ _ H6)|done]. }
  assert (Ht : forall t, t ∈ own_tables U -> t ∉ own_tables V ++ G).
  { intros t Ht [Hin|Hin]%elem_of_app; [by apply (A4 t)|by apply (HG t)]. }
  split.
  - eapply proc_ok_frame; [exact Hx|by apply C1|done..| |done]. intros t j Hin Hj. apply C5. rewrite pte_at_frame; [by apply Ht| |done].
    pose proof (lo_frames _ _ H5) as Hfr. rewrite Forall_forall in Hfr. by apply Hfr.
  - split; [done..|]. intros t Hin Ht'. by apply (Ht t), C6.
Qed.

Lemma process_changed s s' W W' q V V' x G :
  shm_ok s W -> w_procs W !! q = Some V -> changed_by s s' q V V' G ->
  w_procs W' = <[q := V']> (w_procs W) -> w_names W' = w_names W ->
  (forall g, g ∈ G -> g ∈ w_free W /\ g ∉ w_free W') -> (forall g, g ∈ w_free W' -> g ∈ w_free W) ->
  free_ok (frame_mem s') (w_free W') -> shared_memory_hash_table s' = shared_memory_hash_table s ->
  (forall k p f, w_names W !! k = Some (p, f) -> named s' W' k p f) ->
  proc_ok s' (snd <$> w_names W) q V' x -> heaps_ok s' -> shm_ok s' W'.
Proof.
  intros Hok HV Hc HP HN HG HF Hfree Htab Hnamed Hq Hheaps. pose proof Hc as [_ _ _ _ _ C6].
  assert (Hother : forall q' U, q' <> q -> w_procs W !! q' = Some U ->
    (exists y, proc_ok s' (snd <$> w_names W) q' U y) /\ apart V' U).
  { intros q' U Hne HU. destruct (so_procs _ _ Hok q' U HU) as [y Hy].
    destruct (others_kept s s' W q V V' G q' U y (snd <$> w_names W)) as [H1 H2]; try done; [|by eauto].
    intros t Ht Hg. destruct (so_held _ _ Hok q' U t HU Ht) as [Hn _]. apply Hn. by apply HG. }
  split; rewrite ?HN, ?HP.
  - done.
  - rewrite Htab. apply Hok.
  - intros k p f Hk. destruct (so_frame _ _ Hok k p f Hk) as [H1 H2]. split; [done|]. intros Hin. by apply H2, HF.
  - done.
  - apply Hok.
  - intros q' U. rewrite lookup_insert. case_decide as Eq; [intros [= <-]; subst; by exists x|].
    intros HU. apply Hother; [done|]. done.
  - intros q' U t. rewrite lookup_insert. case_decide as Eq.
    + intros [= <-] Ht. subst q'. apply C6, elem_of_app in Ht as [Ht|Ht].
      * destruct (so_held _ _ Hok q V t HV Ht) as [H1 H2]. split; [|done]. intros Hin. by apply H1, HF.
      * destruct (HG t Ht) as [H1 H2]. split; [done|]. intros k p f Hk ->. by apply (so_frame _ _ Hok k p f Hk).
    + intros HU Ht. destruct (so_held _ _ Hok q' U t HU Ht) as [H1 H2]. split; [|done]. intros Hin. by apply H1, HF.
  - intros q1 q2 V1 V2 Hne. rewrite !lookup_insert. case_decide as E1; case_decide as E2; subst.
    + done.
    + intros [= <-] H2. by apply (Hother q2).
    + intros H1 [= <-]. destruct (Hother q1 V1) as [_ [A1 A2 A3 A4]]; [done..|].
      split; intros r Hr Hr'; [by apply (A1 r)|by apply (A2 r)|by apply (A3 r)|by apply (A4 r)].
    + by apply Hok.
  - done.
  - rewrite map_size_insert_Some by (by eexists). apply Hok.
Qed.

(** ** The place of a new page *)

Record placed s s' (q : ptr) (x : process) (t : ptr) (nd : shared_pages_proc_t) V V' (j : Z) (G free free' : list Z)
    (rl : option ptr) : Prop := {
  pd_state : exists m b ns, s' = s <| frame_mem := m |> <| next_block := b |> <| pt_nodes := ns |>
    <| shared_nodes ::= <[t := at_place (pv_tables V') j nd]> |> <| procs ::= <[q := x <| released_pages_list := rl |>]> |>;
  pd_block : (next_block s <= next_block s')%positive;
  pd_same : pv_root V' = pv_root V /\ pv_l1 V' = pv_l1 V /\ pv_pages V' = pv_pages V;
  pd_tables : pv_tables V' = pv_tables V ++ G;
  pd_head : head (pv_nodes V') = head (pv_nodes V);
  pd_nodes : nodes_ok s' V';
  pd_links : links_ok (frame_mem s') V';
  pd_taken : free = G ++ free';
  pd_free : free_ok (frame_mem s') free';
  pd_heap : heap_step (next_block s) (pt_nodes s) (pt_nodes s') (pv_nodes V) (pv_nodes V');
  pd_alloc : allocated (pt_nodes s') s';
  pd_holes : seg (hole_node (pv_tables V)) (released_nodes s) rl (pv_holes V') None;
  pd_words : forall a, frame_of a ∉ pv_l1 V :: G -> word (frame_mem s') a = word (frame_mem s) a;
  pd_zero : forall g i, g ∈ G -> 0 <= i < 512 -> word (frame_mem s') (pte_at g i) = 0;
  pd_place : (exists r, pv_holes V = (r, j) :: pv_holes V' /\ pv_next V' = pv_next V /\ G = []) \/
    pv_holes V = [] /\ pv_holes V' = [] /\ j = pv_next V /\ pv_next V' = j + 1 /\
    G = (if j mod 512 =? 0 then take 1 free else [])
}.

Lemma in_use_cases T n : in_use T n ->
  (n mod 512 = 0 /\ n = 512 * Z.of_nat (length T)) \/ (n mod 512 <> 0 /\ n < 512 * Z.of_nat (length T)).
Proof. intros [H0 H1]. destruct (Z.eq_dec (n mod 512) 0); [left|right]; (split; [done|]); mlia. Qed.

Lemma same_process s q x : procs s !! q = Some x -> s = s <| procs ::= <[q := x]> |>.
Proof. intros Hx. destruct s. unfold upd. simpl in *. by rewrite insert_id. Qed.

Lemma same_released (x : process) : x = x <| released_pages_list := released_pages_list x |>.
Proof. by destruct x. Qed.

Lemma place_spec s q V x w t nd free (Q : Z -> kstate -> Prop) :
  asking s q V x w t nd -> links_ok (frame_mem s) V ->
  seg (hole_node (pv_tables V)) (released_nodes s) (released_pages_list x) (pv_holes V) None ->
  free_ok (frame_mem s) free -> (forall g, g ∈ own_tables V -> g ∉ free) ->
  (forall p, malloc_ok p = true) -> allocated (pt_nodes s) s ->
  (pv_holes V = [] -> pv_next V < 512 * 256) -> (pv_holes V = [] -> pv_next V mod 512 = 0 -> (2 <= length free)%nat) ->
  (forall s' V' j G free' rl, placed s s' q x t nd V V' j G free free' rl -> Q 0 s') ->
  wp (place_shared_page (Some q)) Q s.
Proof.
  intros Has Hlinks Hholes Hfree Hown Hm Hal Hn1 Hn2 HQ. pose proof Has as [Hx Hnodes Hl1 Hw Htl Hnd].
  unfold place_shared_page. apply wp_bind. eapply wp_pget; [exact Hx|].
  destruct (pv_holes V) as [|[r j] H] eqn:EH; simpl in Hholes.
  - rewrite Hholes in *. pose proof (no_use _ _ Hnodes) as Huse. pose proof Huse as [Hu0 _].
    destruct (in_use_cases _ _ Huse) as [[Hmod Hnx]|[Hmod Hnx]].
    + specialize (Hn2 eq_refl Hmod). destruct free as [|f free]; [simpl in Hn2; lia|].
      assert (Hne : free <> []) by (by destruct free; [simpl in Hn2; lia|]).
      eapply add_shared_new; [exact Has|done|done|specialize (Hn1 eq_refl); lia|exact Hfree|done|by apply Hm|by apply fresh_block|exact Hown|].
      intros m ns Hd Ho Hno Hli Hfr Hwo Hz.
      eapply (HQ _ (with_table V (next_block s) f) (pv_next V) [f] free None). split; simpl; try done.
      * exists m, (Pos.succ (next_block s)), ns. rewrite (same_process s q x Hx) at 1. rewrite <- Hholes, <- same_released. done.
      * lia.
      * by destruct Hnodes as [(l1p & n1 & l & _ & -> & _) _ _ _].
      * by eapply nodes_ok_ext; [|exact Hno].
      * split.
        -- intros a Ha Hlt. apply Ho. rewrite not_elem_of_cons. split; [|done]. intros ->. lia.
        -- intros a [Ha| ->%list_elem_of_singleton]%elem_of_app; [by left|right; lia].
      * eapply allocated_new; [exact Hal|exact Hd|done].
      * by rewrite EH.
      * intros a Ha. apply Hwo. set_solver.
      * intros g i ->%list_elem_of_singleton Hi. by apply Hz.
      * right. rewrite EH. split_and!; try done. rewrite Hmod. done.
    + eapply add_shared_room; [exact Has|done|]. intros ns Hd Ho Hno.
      eapply (HQ _ (V <| pv_next := pv_next V + 1 |>) (pv_next V) [] free None). split; simpl; try done.
      * exists (frame_mem s), (next_block s), ns. rewrite (same_process s q x Hx) at 1. rewrite <- Hholes, <- same_released. by destruct s.
      * by rewrite app_nil_r.
      * by eapply nodes_ok_ext; [|exact Hno].
      * by destruct Hlinks.
      * split; [intros a Ha Hlt; by apply Ho|]. by left.
      * intros a Ha. simpl in *. rewrite <- elem_of_dom, Hd, elem_of_dom in Ha. by apply Hal.
      * by rewrite EH.
      * intros g i []%not_elem_of_nil.
      * right. rewrite EH. split_and!; try done. by destruct (Z.eqb_spec (pv_next V mod 512) 0).
  - destruct Hholes as (Hr & nx & Hrn & Hrest). rewrite Hr. apply wp_bind. eapply (wp_rd released_nodes); [exact Hrn|].
    apply wp_bind. eapply wp_pset; [exact Hx|]. apply wp_bind. eapply wp_pget; [simpl; by rewrite lookup_insert_eq|].
    apply wp_bind. eapply wp_lift; [simpl; by rewrite Hw|]. rewrite Htl. apply wp_bind.
    eapply (wp_wr shared_nodes); [exact Hnd|]. apply wp_ret.
    eapply (HQ _ (V <| pv_holes := H |>) j [] free nx). split; simpl; try done.
    + exists (frame_mem s), (next_block s), (pt_nodes s). by destruct s.
    + by rewrite app_nil_r.
    + destruct Hnodes as [(l1p & n1 & l & Hrep & Hr') ? ? ?]. split; [|done..]. exists l1p, n1, l.
      split; [|done]. by eapply tables_rep_ext; [|exact Hrep].
    + by destruct Hlinks.
    + by apply heap_step_refl.
    + intros g i []%not_elem_of_nil.
    + left. exists r. by rewrite EH.
Qed.

(** ** Counting the users of a page *)

Definition count_users (P : gmap ptr pview) (k : string) : nat :=
  base.size (filter (fun e : ptr * pview => k ∈ page_keys e.2) P).

Lemma count_insert P q U k : P !! q = None ->
  count_users (<[q := U]> P) k = (count_users P k + if decide (k ∈ page_keys U) then 1 else 0)%nat.
Proof.
  intros Hq. unfold count_users. case_decide as Hk.
  - rewrite map_filter_insert_True by done. rewrite map_size_insert_None; [lia|]. apply map_lookup_filter_None. by left.
  - rewrite map_filter_insert_False, delete_id by done. lia.
Qed.

Lemma count_replace P q V V' k : P !! q = Some V ->
  (count_users (<[q := V']> P) k + (if decide (k ∈ page_keys V) then 1 else 0) =
   count_users P k + if decide (k ∈ page_keys V') then 1 else 0)%nat.
Proof.
  intros Hq. rewrite <- (insert_delete_id P q V Hq) at 2. rewrite <- (insert_delete_eq P q V').
  rewrite !count_insert by apply lookup_delete_eq. lia.
Qed.

Lemma count_le P k : (count_users P k <= base.size P)%nat.
Proof. unfold count_users. apply map_size_filter. Qed.

Lemma users_count W k : users W k = Z.of_nat (count_users (w_procs W) k).
Proof. done. Qed.

Lemma users_range s W k : shm_ok s W -> 0 <= users W k < 2 ^ 31.
Proof. intros Hok. pose proof (so_size _ _ Hok). pose proof (count_le (w_procs W) k). rewrite users_count. lia. Qed.

Lemma users_room s W q V k : shm_ok s W -> w_procs W !! q = Some V -> k ∉ page_keys V -> 0 <= users W k /\ users W k + 1 < 2 ^ 31.
Proof.
  intros Hok HV Hk. pose proof (so_size _ _ Hok) as Hs. rewrite users_count. split; [lia|].
  rewrite <- (insert_delete_id _ _ _ HV) in Hs |- *. rewrite map_size_insert_None in Hs by apply lookup_delete_eq.
  rewrite count_insert, decide_False by (done || apply lookup_delete_eq).
  pose proof (count_le (delete q (w_procs W)) k). lia.
Qed.

(** ** Linking a named page to a process *)

Lemma page_node_tables T G kj next : 0 <= kj.2 < 512 * Z.of_nat (length T) -> page_node (T ++ G) kj next = page_node T kj next.
Proof.
  intros Hj. unfold page_node, at_place, place_table. rewrite lookup_total_app_l by mlia. done.
Qed.

Lemma hole_node_tables T G j next : 0 <= j < 512 * Z.of_nat (length T) -> hole_node (T ++ G) j next = hole_node T j next.
Proof. intros Hj. unfold hole_node, place_table. rewrite lookup_total_app_l by mlia. done. Qed.

Lemma given_places s V x : nodes_ok s V -> lists_ok s x V ->
  forall j, j ∈ page_places V ++ (pv_holes V).*2 -> 0 <= j < 512 * Z.of_nat (length (pv_tables V)).
Proof.
  intros Hn Hl j Hj. pose proof (ll_given _ _ _ Hl) as Hg. rewrite Forall_forall in Hg. specialize (Hg j Hj).
  pose proof (no_use _ _ Hn) as [_ Hu]. lia.
Qed.

Lemma nodes_ok_view s s' V V' : nodes_ok s V -> pt_nodes s' = pt_nodes s -> pv_nodes V' = pv_nodes V ->
  pv_private V' = pv_private V -> pv_tables V' = pv_tables V -> pv_next V' = pv_next V -> pv_l1 V' = pv_l1 V -> nodes_ok s' V'.
Proof.
  intros Hn E0 E1 E2 E3 E4 E5. eapply nodes_ok_ext in Hn; [|exact E0].
  destruct V as [a1 a2 a3 a4 a5 a6 a7 a8], V' as [b1 b2 b3 b4 b5 b6 b7 b8]. simpl in *. subst.
  destruct Hn as [N1 N2 N3 N4]. by split.
Qed.

(** How the view of a process changes when it maps [k]. *)
Record mapped_at V V' (k : string) (a : ptr) (j : Z) (G free free' : list Z) : Prop := {
  ma_same : pv_root V' = pv_root V /\ pv_l1 V' = pv_l1 V;
  ma_pages : pv_pages V' = pv_pages V ++ [(a, (k, j))];
  ma_tables : pv_tables V' = pv_tables V ++ G;
  ma_taken : free = G ++ free';
  ma_place : (exists r, pv_holes V = (r, j) :: pv_holes V' /\ pv_next V' = pv_next V /\ G = []) \/
    pv_holes V = [] /\ pv_holes V' = [] /\ j = pv_next V /\ pv_next V' = j + 1 /\
    G = (if j mod 512 =? 0 then take 1 free else [])
}.

Lemma new_place V V' k a j G free free' s x :
  mapped_at V V' k a j G free free' -> nodes_ok s V -> lists_ok s x V ->
  0 <= j < pv_next V' /\ pv_next V <= pv_next V' /\ (j ∉ page_places V) /\ NoDup (page_places V' ++ (pv_holes V').*2) /\
  Forall (fun i => 0 <= i < pv_next V') (page_places V' ++ (pv_holes V').*2).
Proof.
  intros [_ Hp _ _ Hpl] Hn Hl. pose proof (ll_places _ _ _ Hl) as Hnd. pose proof (ll_given _ _ _ Hl) as Hg.
  pose proof (no_use _ _ Hn) as [Hu _]. assert (Ep : page_places V' = page_places V ++ [j]).
  { unfold page_places. by rewrite Hp, !fmap_app. }
  rewrite Ep. destruct Hpl as [(r & Hh & Hnx & _)|(Hh & Hh' & -> & Hnx & _)].
  - rewrite Hh in Hnd, Hg. csimpl in *. rewrite <- app_assoc. csimpl. rewrite Forall_app, Forall_cons in Hg.
    apply NoDup_app in Hnd as Hnd'. destruct Hnd' as (_ & Hd & _). rewrite Hnx. split_and!; [lia..|lia| |done|].
    + intros Hin. apply (Hd j Hin). by left.
    + rewrite Forall_app, Forall_cons. tauto.
  - rewrite Hh in Hnd, Hg. rewrite Hh'. csimpl in *. rewrite !app_nil_r in *. rewrite Hnx.
    assert (Hnin : pv_next V ∉ page_places V). { intros Hin. rewrite Forall_forall in Hg. specialize (Hg _ Hin). lia. }
    split_and!; [lia..|lia|done| |].
    + apply NoDup_app. split; [done|]. split; [|repeat constructor; set_solver].
      by intros i Hi ->%list_elem_of_singleton.
    + apply Forall_app. split; [|apply Forall_singleton; lia]. eapply Forall_impl; [exact Hg|]. simpl. lia.
Qed.

(** The lists after the page is linked. *)
Lemma lists_linked s s' x x' V V' k j G free free' h nd :
  let a := next_block s in
  mapped_at V V' k a j G free free' -> nodes_ok s V -> lists_ok s x V -> k ∉ page_keys V ->
  appended s (pv_pages V) k h nd -> shared_nodes s !! a = None -> shared_nodes s' = <[a := at_place (pv_tables V') j nd]> h ->
  shared_pages x' = Some (wrap_of (pv_pages V ++ [(a, (k, 0))])) -> is_Some (proc_shared_hash_table x) ->
  proc_shared_hash_table x' = <[k := a]> <$> proc_shared_hash_table x ->
  seg (hole_node (pv_tables V)) (released_nodes s') (released_pages_list x') (pv_holes V') None ->
  NoDup (pv_holes V').*1 -> lists_ok s' x' V'.
Proof.
  intros a Hma Hn Hl Hk Hap Hfresh Hs' Hw [t Ht] Htab Hh Hhn.
  destruct (new_place _ _ _ _ _ _ _ _ _ _ Hma Hn Hl) as (Hj & Hnx & Hjn & Hnd & Hg).
  pose proof (given_places _ _ _ Hn Hl) as Hgp. destruct Hma as [_ Ep Et _ Hpl]. destruct Hl as [L1 L2 L3 L4 L5 L6 L7 L8 L9].
  rewrite Ht in L3, Htab. simpl in L3. split; rewrite ?Ep.
  - rewrite Hs'. apply (ap_list _ _ _ _ _ Hap). rewrite Et. eapply seg_ext; [|exact L1].
    intros [k' i] next Hi. symmetry. apply page_node_tables. simpl.
    apply Hgp, elem_of_app. left. apply list_elem_of_fmap. by exists (k', i).
  - left. rewrite Hw, !wrap_of_snoc. fold (wrap_of (pv_pages V ++ [(a, (k, j))])). by rewrite wrap_of_snoc.
  - rewrite Htab. simpl. by rewrite pages_table_snoc, L3.
  - rewrite Et. eapply seg_ext; [|exact Hh].
    intros i next Hi. symmetry. apply hole_node_tables.
    apply Hgp, elem_of_app. right. destruct Hpl as [(r & -> & _)|(_ & Hh' & _)]; [csimpl; by right|].
    rewrite Hh' in Hi. by apply not_elem_of_nil in Hi.
  - rewrite fmap_app. csimpl. apply NoDup_app. split; [done|]. split; [|repeat constructor; set_solver].
    intros r Hr ->%list_elem_of_singleton. eapply seg_none; [exact L1|exact Hfresh|exact Hr].
  - done.
  - unfold page_keys. rewrite Ep, !fmap_app. csimpl. apply NoDup_app. split; [done|]. split; [|repeat constructor; set_solver].
    by intros r Hr ->%list_elem_of_singleton.
  - done.
  - done.
Qed.

(** *** The entries *)

(** Entry [j] of the shared part was written. *)
Record entry_written (m m' : fmem) (T : list Z) (j : Z) : Prop := {
  ew_ptr : mem_ptr m' = mem_ptr m;
  ew_only : only_in (place_table T j) m m';
  ew_rest : forall i, 0 <= i < 512 -> i <> j mod 512 -> word m' (pte_at (place_table T j) i) = word m (pte_at (place_table T j) i)
}.

Lemma place_entry_other m m' T i j :
  Forall is_frame T -> NoDup T -> entry_written m m' T j -> i <> j ->
  0 <= i < 512 * Z.of_nat (length T) -> 0 <= j < 512 * Z.of_nat (length T) ->
  place_entry m' T i = place_entry m T i.
Proof.
  intros Hf Hnd [_ Ho Hk] Hne Hi Hj. pose proof (place_table_lookup T i Hi) as Ti. pose proof (place_table_lookup T j Hj) as Tj.
  rewrite Forall_forall in Hf. unfold place_entry, table_entry. f_equal.
  destruct (decide (place_table T i = place_table T j)) as [Et|Et].
  - rewrite Et in *. pose proof (NoDup_lookup _ _ _ _ Hnd Ti Tj). apply Hk; mlia.
  - apply Ho. rewrite pte_at_frame; [done|by eapply Hf, list_elem_of_lookup_2|mlia].
Qed.

Lemma vacant_zero m T j : word m (pte_at (place_table T j) (j mod 512)) = 0 -> vacant (place_entry m T j).
Proof. intros Hz. unfold vacant, place_entry, table_entry. by rewrite Hz. Qed.

Lemma table_in T j : 0 <= j < 512 * Z.of_nat (length T) -> place_table T j ∈ T.
Proof. intros Hj. eapply list_elem_of_lookup_2. by apply place_table_lookup. Qed.

Lemma pages_linked m m2 m3 F V V' k a j G free free' s x f e :
  mapped_at V V' k a j G free free' -> nodes_ok s V -> in_use (pv_tables V') (pv_next V') ->
  lists_ok s x V -> pages_ok m F V -> links_ok m V -> links_ok m2 V' -> F !! k = Some f ->
  (forall b, frame_of b ∉ pv_l1 V :: G -> word m2 b = word m b) ->
  (forall g i, g ∈ G -> 0 <= i < 512 -> word m2 (pte_at g i) = 0) ->
  entry_written m2 m3 (pv_tables V') j -> place_entry m3 (pv_tables V') j = kilo_entry e f true true false true ->
  pages_ok m3 F V'.
Proof.
  intros Hma Hn Hu Hl [P1 P2] Hli Hli' HF Hw Hz Hew He.
  destruct (new_place _ _ _ _ _ _ _ _ _ _ Hma Hn Hl) as (Hj & Hnx & Hjn & Hnd & Hg).
  pose proof (given_places _ _ _ Hn Hl) as Hgp. destruct Hma as [[Er El] Ep Et _ _]. destruct Hu as [_ Hu].
  pose proof (lo_frames _ _ Hli') as Hf. pose proof (lo_nodup _ _ Hli') as Hnd'. rewrite Er, El in *.
  apply Forall_cons in Hf as [_ Hf]. apply Forall_cons in Hf as [_ Hf].
  apply NoDup_cons in Hnd' as [_ Hnd']. apply NoDup_cons in Hnd' as [Hl1 HndT].
  assert (Hold : forall i, 0 <= i < 512 * Z.of_nat (length (pv_tables V)) -> i <> j ->
    place_entry m3 (pv_tables V') i = place_entry m (pv_tables V) i).
  { intros i Hi Hne. rewrite (place_entry_other m2 m3 _ i j) by (done || (rewrite ?Et, ?length_app; lia) || lia).
    unfold place_entry, table_entry. rewrite Et. unfold place_table. rewrite lookup_total_app_l by mlia.
    fold (place_table (pv_tables V) i). f_equal. pose proof (table_in _ _ Hi) as Hin. rewrite Et in Hf, Hl1, HndT.
    apply Forall_app in Hf as [Hf _]. rewrite Forall_forall in Hf. apply Hw. rewrite pte_at_frame by (try mlia; by apply Hf).
    rewrite elem_of_app in Hl1. rewrite not_elem_of_cons. split; [intros E1; rewrite E1 in Hin; tauto|].
    apply NoDup_app in HndT as (_ & Hd & _). by apply Hd. }
  split.
  - rewrite Ep, fmap_app. csimpl. intros k' i [Hin|[= -> ->]%list_elem_of_singleton]%elem_of_app; [|by exists f, e].
    assert (Hip : i ∈ page_places V) by (apply list_elem_of_fmap; by exists (k', i)).
    destruct (P1 k' i Hin) as (f' & e' & HF' & He'). exists f', e'. split; [done|]. rewrite Hold; [done| |].
    + apply Hgp, elem_of_app. by left.
    + by intros ->.
  - intros i Hi Hni. unfold page_places in Hni. rewrite Ep, !fmap_app, not_elem_of_app in Hni. csimpl in Hni.
    rewrite list_elem_of_singleton in Hni. destruct Hni as [Hni Hne].
    destruct (decide (i < 512 * Z.of_nat (length (pv_tables V)))) as [Hlt|Hge].
    + rewrite Hold by (done || lia). apply P2; [lia|done].
    + rewrite (place_entry_other m2 m3 _ i j) by (done || lia). apply vacant_zero, Hz; [|mlia].
      unfold place_table. rewrite Et, length_app in *. rewrite lookup_total_app_r by mlia.
      apply list_elem_of_lookup_total_2. mlia.
Qed.

(** *** The whole call *)

(** The table and the wrapper of the process exist. *)
Definition ready s (q : ptr) : Prop :=
  exists x, procs s !! q = Some x /\ is_Some (proc_shared_hash_table x) /\ is_Some (shared_pages x).

Definition same_pids s s' : Prop :=
  pid_process_hash_table s' = pid_process_hash_table s /\
  current_running_process_pid s' = current_running_process_pid s /\
  custom_release_process s' = custom_release_process s.

Lemma same_pids_trans s1 s2 s3 : same_pids s1 s2 -> same_pids s2 s3 -> same_pids s1 s3.
Proof. intros (A1 & A2 & A3) (B1 & B2 & B3). split_and!; congruence. Qed.

(** There is a place for one more page. *)
Definition room W V : Prop :=
  pv_holes V = [] -> pv_next V < 512 * 256 /\ (pv_next V mod 512 = 0 -> (2 <= length (w_free W))%nat).

(** The descriptors when the keys of one process change at [k]. *)
Lemma users_changed W W' q V V' k : w_procs W !! q = Some V -> w_procs W' = <[q := V']> (w_procs W) ->
  users W' k + (if decide (k ∈ page_keys V) then 1 else 0) = users W k + (if decide (k ∈ page_keys V') then 1 else 0).
Proof.
  intros HV HP. rewrite !users_count, HP. pose proof (count_replace (w_procs W) q V V' k HV) as Hc. repeat case_decide; lia.
Qed.

Lemma named_changed s s' W W' q V V' k info f :
  shm_ok s W -> w_procs W !! q = Some V -> w_names W !! k = Some (info, f) ->
  (forall k', k' <> k -> k' ∈ page_keys V' <-> k' ∈ page_keys V) -> w_procs W' = <[q := V']> (w_procs W) ->
  (exists id, shared_infos s' = <[info := mk_shared_page k f (users W' k) id]> (shared_infos s)) ->
  forall k' p' f', w_names W !! k' = Some (p', f') -> named s' W' k' p' f'.
Proof.
  intros Hok HV Hk Hkeys HP [id Hi] k' p' f' Hk'. destruct (so_named _ _ Hok _ _ _ Hk) as [id0 Hid0].
  destruct (so_named _ _ Hok _ _ _ Hk') as [id1 Hid1]. unfold named. rewrite Hi, lookup_insert. case_decide as Ep.
  - subst p'. rewrite Hid0 in Hid1. injection Hid1 as -> -> _ _. by exists id.
  - assert (Hne : k' <> k) by (intros ->; congruence). exists id1. rewrite Hid1.
    pose proof (users_changed W W' q V V' k' HV HP) as Hu. specialize (Hkeys k' Hne).
    replace (users W' k') with (users W k'); [done|]. repeat case_decide; tauto || lia.
Qed.

Lemma keys_mapped V V' k a j G free free' k' : mapped_at V V' k a j G free free' ->
  k' ∈ page_keys V' <-> k' ∈ page_keys V \/ k' = k.
Proof.
  intros Hma. unfold page_keys. rewrite (ma_pages _ _ _ _ _ _ _ _ Hma), !fmap_app, elem_of_app. csimpl.
  by rewrite list_elem_of_singleton.
Qed.

Lemma wrap_ready s x V : lists_ok s x V -> is_Some (shared_pages x) -> shared_pages x = Some (wrap_of (pv_pages V)).
Proof. intros Hl [w Hw]. destruct (ll_wrap _ _ _ Hl) as [H|[H _]]; [done|congruence]. Qed.

Lemma link_page_spec s W q V k info f :
  shm_ok s W -> w_procs W !! q = Some V -> w_names W !! k = Some (info, f) -> k ∉ page_keys V -> ready s q ->
  (forall p, malloc_ok p = true) -> room W V ->
  wp (link_shared_page_to_process (Some q) (Some info) k) (fun r s' => r = 0 /\ same_pids s s' /\
    exists V' a j G free', mapped_at V V' k a j G (w_free W) free' /\
      shm_ok s' (W <| w_procs := <[q := V']> (w_procs W) |> <| w_free := free' |>)) s.
Proof.
  intros Hok HV Hk Hnk (x & Hx & Hht & Hsp) Hm Hroom. destruct (so_procs _ _ Hok q V HV) as (x0 & [K1 K2 K3 K4 K5 K6 K7]).
  rewrite Hx in K1. injection K1 as <-. pose proof (wrap_ready _ _ _ K6 Hsp) as Hw.
  pose proof (so_heaps _ _ Hok) as [B1 B2 B3 B4]. pose proof (fresh_block _ _ B2) as Hfresh.
  eapply link_starts; [exact Hx|exact Hw|apply K6|apply K6|exact Hfresh|exact Hm|].
  intros h nd node Hap x' Hx'. unfold link_rest. apply wp_or_fail. set (s1 := s <| next_block ::= _ |> <| shared_nodes := h |> <| procs ::= _ |>).
  assert (Has : asking s1 q V x' (wrap_of (pv_pages V ++ [(node, (k, 0))])) node nd).
  { split; [simpl; by rewrite lookup_insert_eq|by eapply nodes_ok_ext; [|exact K4]|by subst x'|by subst x'|by rewrite wrap_of_snoc|apply Hap]. }
  eapply (place_spec s1 q V x' _ node nd (w_free W) _ Has K5); [|apply Hok| |exact Hm| |by apply Hroom|intros Hh; by apply Hroom|].
  { subst x'. apply K6. }
  { intros g Hg. by eapply (so_held _ _ Hok q V). }
  { intros p Hp. specialize (B1 p Hp). simpl. lia. }
  intros s2 V2 j G free' rl [(m & b & ns & ->) P2 (P3 & P3' & P3'') P4 P5 P6 P7 P8 P9 P10 P11 P12 P13 P14 P15]. split; [done|].
  set (s2 := s1 <| frame_mem := m |> <| next_block := b |> <| pt_nodes := ns |> <| shared_nodes ::= _ |> <| procs ::= _ |>) in *.
  apply wp_bind. eapply (wp_wr procs); [simpl; by rewrite lookup_insert_eq|]. cbn beta.
  destruct (so_named _ _ Hok _ _ _ Hk) as [id Hid]. apply wp_bind. eapply (wp_wr shared_infos); [exact Hid|]. cbn beta.
  apply wp_bind. eapply (wp_rd shared_nodes); [simpl; by rewrite lookup_insert_eq|]. apply wp_bind.
  eapply (wp_rd shared_infos); [simpl; by rewrite lookup_insert_eq|].
  set (V' := V2 <| pv_pages := pv_pages V ++ [(node, (k, j))] |>).
  assert (Hma : mapped_at V V' k node j G (w_free W) free') by (by split).
  destruct (new_place _ _ _ _ _ _ _ _ _ _ Hma K4 K6) as (Hj & _).
  pose proof (no_use _ _ P6) as Huse. assert (Hjt : 0 <= j < 512 * Z.of_nat (length (pv_tables V2))) by (destruct Huse; simpl in Hj; lia).
  pose proof (table_in _ _ Hjt) as Htin. pose proof (lo_frames _ _ P7) as Hfr. rewrite Forall_forall in Hfr.
  assert (Htf : is_frame (place_table (pv_tables V2) j)) by (apply Hfr; right; by right).
  apply wp_bind, wp_in_frames. eapply (wp_configure_table (place_table (pv_tables V2) j) (j mod 512)).
  { done. } { mlia. } { apply configured_kilo. } { apply kilo_entry_wf, pte_of_word_wf. }
  intros m3 M1 M2 M3 M4. apply wp_ret. split; [done|]. split; [done|]. exists V', node, j, G, free'. split; [done|].
  assert (Hew : entry_written m m3 (pv_tables V2) j) by (by split).
  assert (Hb : (Pos.succ (Pos.succ (next_block s)) <= b)%positive) by exact P2. subst node.
  assert (Hhn : forall r, r ∈ (pv_holes V').*1 -> r ∈ (pv_holes V).*1).
  { intros r Hr. destruct (ma_place _ _ _ _ _ _ _ _ Hma) as [(r' & -> & _)|(_ & Hh & _)]; [csimpl; by right|].
    rewrite Hh in Hr. by apply not_elem_of_nil in Hr. }
  match goal with |- shm_ok ?S _ => set (s3 := S) end.
  set (W' := W <| w_procs := <[q := V']> (w_procs W) |> <| w_free := free' |>).
  assert (Hus : users W' k = users W k + 1).
  { pose proof (users_changed W W' q V V' k HV eq_refl) as Hu. pose proof (keys_mapped _ _ _ _ _ _ _ _ k Hma).
    repeat case_decide; tauto || lia. }
  assert (Hnamed : forall k' p' f', w_names W !! k' = Some (p', f') -> named s3 W' k' p' f').
  { eapply (named_changed s s3 W W' q V V'); [done..| |done|].
    { intros k' Hne. rewrite (keys_mapped _ _ _ _ _ _ _ _ k' Hma). naive_solver. }
    exists id. rewrite Hus. unfold s3, s2, s1. simpl. f_equal. destruct (users_room _ _ _ _ _ Hok HV Hnk). unfold upd. simpl. by rewrite wrapS_id by lia. }
  assert (Hl3 : links_ok m3 V').
  { eapply links_ok_agree; [exact P7| |apply P6|done..]. intros t i Ht Hi. apply M2.
    pose proof (lo_nodup _ _ P7) as Hnd. rewrite !NoDup_cons, not_elem_of_cons in Hnd. destruct Hnd as ([H1 H2] & H3 & _).
    rewrite pte_at_frame; [| |done].
    - rewrite !elem_of_cons in Ht. destruct Ht as [->|[->|Ht%not_elem_of_nil]]; [| |done]; intros E1; rewrite <- E1 in Htin; done.
    - apply Hfr. rewrite !elem_of_cons in Ht. destruct Ht as [->|[->|Ht%not_elem_of_nil]]; [by left|right; by left|done]. }
  assert (Hown : forall t, t ∈ own_tables V' -> t ∈ own_tables V ++ G).
  { intros t. change (own_tables V') with (own_tables V2). unfold own_tables. rewrite P3, P3', P4. rewrite !elem_of_cons, !elem_of_app, !elem_of_cons. tauto. }
  eapply (process_changed s s3 W W' q V V'); [exact Hok|exact HV| |done|done| | | |done|exact Hnamed| |].
  - split.
    + intros q' Hq. simpl. by rewrite !lookup_insert_ne.
    + eapply heap_step_le; [|exact P10]. simpl. lia.
    + split; simpl.
      * intros r Hr Hlt. rewrite lookup_insert_ne by (intros <-; lia). apply (ap_rest _ _ _ _ _ Hap).
        rewrite not_elem_of_cons. split; [|done]. intros ->. lia.
      * intros r. rewrite fmap_app, elem_of_app. csimpl. rewrite list_elem_of_singleton. intros [?| ->]; [by left|right; lia].
    + split; [done|]. intros r Hr. left. by apply Hhn.
    + intros r Hr. simpl. rewrite M2.
      * apply P13. intros Hin. apply Hr, elem_of_app. apply elem_of_cons in Hin as [Hin|Hin]; [left; rewrite Hin; right; by left|by right].
      * intros Eq. apply Hr, Hown. rewrite Eq. right. by right.
    + exact Hown.
  - intros g Hg. pose proof (so_free _ _ Hok) as Hf. rewrite P8 in *. split; [apply elem_of_app; by left|].
    apply fo_nodup, NoDup_app in Hf as (_ & Hd & _). by apply Hd.
  - intros g Hg. rewrite P8. apply elem_of_app. by right.
  - eapply free_ok_only_in; [exact P9|done|exact M2|]. simpl. intros Hin.
    assert (Hin' : place_table (pv_tables V2) j ∈ own_tables V ++ G) by (apply Hown; right; by right).
    pose proof (so_free _ _ Hok) as Hf. rewrite P8 in Hf. apply elem_of_app in Hin' as [Hin'|Hin'].
    + destruct (so_held _ _ Hok q V _ HV Hin') as [Hn _]. apply Hn. rewrite P8. apply elem_of_app. by right.
    + apply fo_nodup, NoDup_app in Hf as (_ & Hd & _). by eapply Hd.
  - split.
    + simpl. by rewrite lookup_insert_eq.
    + subst x'. simpl. by rewrite P3.
    + subst x'. simpl. by rewrite P5.
    + by eapply nodes_ok_view; [exact P6|..].
    + exact Hl3.
    + destruct Hht as [t Ht]. eapply (lists_linked s s3 x _ V V' k j G (w_free W) free' h nd Hma K4 K6 Hnk Hap Hfresh).
      * done.
      * by subst x'.
      * by exists t.
      * by subst x'.
      * exact P12.
      * eapply sublist_NoDup; [apply (ll_holes_nodup _ _ _ K6)|].
        destruct (ma_place _ _ _ _ _ _ _ _ Hma) as [(r' & -> & _)|(_ & -> & _)]; [csimpl; by apply sublist_cons|by apply sublist_nil_l].
    + eapply (pages_linked (frame_mem s) m m3 _ V V' k); [exact Hma|exact K4|exact Huse|exact K6|exact K7|exact K5| | |exact P13|exact P14|exact Hew|exact M3].
      * eapply links_ok_agree; [exact P7|by apply agree_refl|apply P6|done..].
      * by rewrite lookup_fmap, Hk.
  - split; simpl.
    + exact P11.
    + intros r. rewrite lookup_insert. case_decide as Er; [intros _; subst r; simpl; lia|]. intros Hr.
      rewrite <- elem_of_dom, (ap_dom _ _ _ _ _ Hap), elem_of_union, elem_of_singleton, elem_of_dom in Hr.
      destruct Hr as [->|Hr]; [done|]. specialize (B2 r Hr). simpl. lia.
    + eapply allocated_later; [exact B3|simpl; lia|done].
    + eapply allocated_later; [exact B4|simpl; lia|]. rewrite dom_insert_L. apply elem_of_dom_2 in Hid. simpl. set_solver.
Qed.

(** ** The table and the wrapper of the process *)

Lemma shm_ok_fields s W q V x x' b :
  shm_ok s W -> w_procs W !! q = Some V -> proc_ok s (snd <$> w_names W) q V x -> lists_ok s x' V ->
  page_table_level_2 x' = page_table_level_2 x -> page_tables_lvl_1_list x' = page_tables_lvl_1_list x ->
  (next_block s <= b)%positive ->
  shm_ok (s <| procs ::= <[q := x']> |> <| next_block := b |>) W.
Proof.
  intros Hok HV [K1 K2 K3 K4 K5 K6 K7] Hl E1 E2 Hb. pose proof (so_heaps _ _ Hok) as [B1 B2 B3 B4].
  eapply (process_changed s _ W W q V V x' []); [exact Hok|exact HV| |by rewrite insert_id|done| |done|apply Hok|done|apply Hok| |].
  - split; try (by apply heap_step_refl); [|done|].
    + intros q' Hq. simpl. by rewrite lookup_insert_ne.
    + intros t Ht. by rewrite app_nil_r.
  - intros g []%not_elem_of_nil.
  - split; [simpl; by rewrite lookup_insert_eq|by rewrite E1|by rewrite E2|by eapply nodes_ok_ext; [|exact K4]|exact K5| |exact K7].
    by destruct Hl.
  - split; (eapply allocated_later; [| |done]); try done; simpl; done.
Qed.

Lemma create_wrapper_spec s W q V :
  shm_ok s W -> w_procs W !! q = Some V -> (forall p, malloc_ok p = true) ->
  wp (create_hash_table_and_shared_pages_wrapper (Some q)) (fun r s' => r = 0 /\ same_pids s s' /\
    ready s' q /\ shm_ok s' W) s.
Proof.
  intros Hok HV Hm. destruct (so_procs _ _ Hok q V HV) as (x & Hpk). pose proof Hpk as [K1 K2 K3 K4 K5 K6 K7].
  unfold create_hash_table_and_shared_pages_wrapper. apply wp_bind. eapply wp_pget; [exact K1|].
  pose proof (ll_table _ _ _ K6) as Htab.
  assert (Hwrap : forall s1 x1, shm_ok s1 W -> proc_ok s1 (snd <$> w_names W) q V x1 -> same_pids s s1 ->
    is_Some (proc_shared_hash_table x1) ->
    wp (w ← pget (Some q) shared_pages;
        match w with
        | Some _ => mret 0
        | None => ok ← malloc_block;
            if negb ok then mret (-1) else _ ← pset (Some q) shared_pages (Some (mk_shared_wrap None None)); mret 0
        end) (fun r s' => r = 0 /\ same_pids s s' /\ ready s' q /\ shm_ok s' W) s1).
  { intros s1 x1 Hok1 Hpk1 Hs1 Ht1. pose proof Hpk1 as [J1 J2 J3 J4 J5 J6 J7]. apply wp_bind. eapply wp_pget; [exact J1|].
    destruct (shared_pages x1) as [w|] eqn:Ew.
    - apply wp_ret. split; [done|]. split; [done|]. split; [|done]. exists x1. rewrite Ew. split; [done|]. split; [done|by eexists].
    - apply wp_bind, wp_bind, wp_gets, wp_bind, wp_kupd, wp_ret. rewrite Hm. simpl. apply wp_bind.
      eapply wp_pset; [exact J1|]. apply wp_ret. split; [done|]. split; [by destruct Hs1 as (? & ? & ?)|]. split.
      + eexists. split; [simpl; by rewrite lookup_insert_eq|]. split; [done|by eexists].
      + destruct (ll_wrap _ _ _ J6) as [Hc|[_ He]]; [congruence|].
        eapply (shm_ok_fields s1 W q V x1 _ (Pos.succ (next_block s1))); [done|done|exact Hpk1| |done|done|lia].
        destruct J6 as [L1 L2 L3 L4 L5 L6 L7 L8 L9]. split; try done. left. by rewrite He. }
  destruct (proc_shared_hash_table x) as [t|] eqn:Et.
  - apply (Hwrap s x); [done|done|done|by rewrite Et].
  - apply wp_bind, wp_bind, wp_gets, wp_bind, wp_kupd, wp_ret. rewrite Hm. simpl. apply wp_bind.
    eapply wp_pset; [exact K1|]. apply wp_bind, wp_bind, wp_gets, wp_bind, wp_kupd, wp_ret. rewrite Hm. simpl.
    set (x1 := x <| proc_shared_hash_table := Some ∅ |>).
    assert (Hl1 : lists_ok s x1 V).
    { destruct K6 as [L1 L2 L3 L4 L5 L6 L7 L8 L9]. split; done. }
    assert (Hok1 := shm_ok_fields s W q V x x1 (Pos.succ (Pos.succ (next_block s))) Hok HV Hpk Hl1 eq_refl eq_refl ltac:(lia)).
    destruct (so_procs _ _ Hok1 q V HV) as (x2 & Hpk2). pose proof (pk_proc _ _ _ _ _ Hpk2) as Hx2. simpl in Hx2.
    rewrite lookup_insert_eq in Hx2. injection Hx2 as <-. eapply Hwrap; [exact Hok1|exact Hpk2|done|by eexists].
Qed.

(** ** A new named page *)

Lemma mapped_named s W q V k : shm_ok s W -> w_procs W !! q = Some V -> k ∈ page_keys V -> is_Some (w_names W !! k).
Proof.
  intros Hok HV ([k' j] & -> & Hin)%list_elem_of_fmap. destruct (so_procs _ _ Hok q V HV) as (x & [_ _ _ _ _ _ [P1 _]]).
  destruct (P1 _ _ Hin) as (f & e & Hf & _). rewrite lookup_fmap in Hf. simpl. by destruct (w_names W !! k').
Qed.

Lemma no_users s W k : shm_ok s W -> w_names W !! k = None -> users W k = 0.
Proof.
  intros Hok Hk. rewrite users_count. unfold count_users. rewrite map_empty_filter_2; [done|].
  intros q V HV Hin. simpl in Hin. destruct (mapped_named _ _ _ _ _ Hok HV Hin) as [y Hy]. congruence.
Qed.

Lemma users_names W n f k : users (W <| w_names := n |> <| w_free := f |>) k = users W k.
Proof. done. Qed.

Lemma named_new s s' W k f free id :
  shm_ok s W -> w_names W !! k = None -> w_free W = f :: free -> free <> [] ->
  let p := next_block s in
  s' = s <| frame_mem := mk_fmem (default 0 (head free)) (words (frame_mem s)) |> <| next_block ::= Pos.succ |>
         <| shared_infos := <[p := mk_shared_page k f 0 id]> (shared_infos s) |> <| page_id_counter := id |>
         <| shared_memory_hash_table ::= <[k := p]> |> ->
  shm_ok s' (W <| w_names := <[k := (p, f)]> (w_names W) |> <| w_free := free |>).
Proof.
  intros Hok Hk Hf Hne p ->. pose proof (so_free _ _ Hok) as Hfree. rewrite Hf in Hfree.
  pose proof (so_heaps _ _ Hok) as [B1 B2 B3 B4].
  pose proof (fo_frames _ _ Hfree) as Hfr. apply Forall_cons in Hfr as [Hff _].
  pose proof (fo_nodup _ _ Hfree) as Hnd. apply NoDup_cons in Hnd as [Hnf _].
  assert (Hold : forall k' p' f', w_names W !! k' = Some (p', f') -> p' <> p /\ f' <> f).
  { intros k' p' f' Hk'. split; [|intros ->; apply (so_frame _ _ Hok _ _ _ Hk'); rewrite Hf; by left].
    intros ->. destruct (so_named _ _ Hok _ _ _ Hk') as [id' Hid]. specialize (B4 _ (mk_is_Some _ _ Hid)). subst p. lia. }
  split; simpl.
  - by eapply get_frame_ok.
  - by rewrite fmap_insert, (so_table _ _ Hok).
  - intros k' p' f'. rewrite lookup_insert. case_decide; [intros [= <- <-]; done|]. intros Hk'.
    destruct (so_frame _ _ Hok _ _ _ Hk') as [H1 H2]. split; [done|]. intros Hin. apply H2. rewrite Hf. by right.
  - intros k' p' f'. rewrite lookup_insert. unfold named. rewrite users_names. case_decide as Ek.
    + intros [= <- <-]. subst k'. exists id. simpl. by rewrite lookup_insert_eq, (no_users _ _ _ Hok Hk).
    + intros Hk'. destruct (Hold _ _ _ Hk') as [Hp _]. destruct (so_named _ _ Hok _ _ _ Hk') as [id' Hid]. exists id'.
      simpl. by rewrite lookup_insert_ne.
  - intros k1 k2 p1 p2 g. rewrite !lookup_insert. repeat case_decide; subst; intros Hk1 Hk2; simplify_eq; try done.
    + by destruct (Hold _ _ _ Hk2).
    + by destruct (Hold _ _ _ Hk1).
    + by eapply (so_distinct _ _ Hok).
  - intros q V HV. destruct (so_procs _ _ Hok q V HV) as [x Hx]. exists x. eapply proc_ok_frame; [exact Hx|done..|].
    intros k' f' Hin Hf'. rewrite fmap_insert, lookup_insert_ne; [done|]. intros <-.
    destruct (mapped_named _ _ _ _ _ Hok HV Hin) as [y Hy]. congruence.
  - intros q V t HV Ht. destruct (so_held _ _ Hok q V t HV Ht) as [H1 H2]. rewrite Hf in H1. split.
    + intros Hin. apply H1. by right.
    + intros k' p' f'. rewrite lookup_insert. case_decide; [|by apply H2]. intros [= _ <-] ->. apply H1. by left.
  - apply Hok.
  - split; simpl; try (eapply allocated_later; [| |done]); try done; try (simpl; lia).
    eapply allocated_new; [exact B4|by rewrite dom_insert_L|done].
  - apply Hok.
Qed.

Lemma infos_twice s m b c (p : ptr) v w t :
  s <| frame_mem := m |> <| next_block ::= b |> <| shared_infos ::= <[p := v]> |> <| page_id_counter ::= c |>
    <| shared_infos ::= <[p := w]> |> <| shared_memory_hash_table ::= t |> =
  s <| frame_mem := m |> <| next_block ::= b |> <| shared_infos := <[p := w]> (shared_infos s) |>
    <| page_id_counter := c (page_id_counter s) |> <| shared_memory_hash_table ::= t |>.
Proof. rewrite <- (insert_insert_eq (shared_infos s) p w v). reflexivity. Qed.

Lemma create_page_spec s W k f free :
  shm_ok s W -> w_names W !! k = None -> w_free W = f :: free -> free <> [] -> (forall p, malloc_ok p = true) ->
  wp (create_shared_page k) (fun r s' => exists p, r = Some p /\ same_pids s s' /\
    shm_ok s' (W <| w_names := <[k := (p, f)]> (w_names W) |> <| w_free := free |>)) s.
Proof.
  intros Hok Hk Hf Hne Hm. pose proof (so_free _ _ Hok) as Hfree. rewrite Hf in Hfree.
  unfold create_shared_page. apply wp_bind, wp_in_frames.
  eapply wp_intro; [rewrite (get_frame_spec _ _ _ Hfree), decide_False by done; done|].
  apply wp_bind. eapply (wp_malloc shared_infos); [done|by apply Hm|]. apply wp_bind, wp_bind, wp_kupd, wp_gets.
  apply wp_bind. eapply (wp_wr shared_infos); [simpl; by rewrite lookup_insert_eq|]. apply wp_bind, wp_kupd, wp_ret.
  eexists. split; [done|]. split; [done|]. rewrite infos_twice.
  exact (named_new s _ W k f free _ Hok Hk Hf Hne eq_refl).
Qed.

(** ** Releasing a page *)

(** How the view of a process changes when it gives back the page [k]. *)
Record given_back V V' (k : string) (a r : ptr) (j : Z) : Prop := {
  gb_same : pv_root V' = pv_root V /\ pv_l1 V' = pv_l1 V /\ pv_nodes V' = pv_nodes V /\ pv_private V' = pv_private V /\
    pv_tables V' = pv_tables V /\ pv_next V' = pv_next V;
  gb_pages : exists L1 L2, pv_pages V = L1 ++ (a, (k, j)) :: L2 /\ pv_pages V' = L1 ++ L2;
  gb_holes : pv_holes V' = (r, j) :: pv_holes V
}.

Lemma given_back_places V V' k a r j : given_back V V' k a r j ->
  page_places V' ++ (pv_holes V').*2 ≡ₚ page_places V ++ (pv_holes V).*2 /\
  page_places V ≡ₚ j :: page_places V' /\ page_keys V ≡ₚ k :: page_keys V' /\ (pv_pages V).*1 ≡ₚ a :: (pv_pages V').*1.
Proof.
  intros [_ (L1 & L2 & E1 & E2) Eh]. unfold page_places, page_keys. rewrite E1, E2, Eh, !fmap_app. csimpl.
  split_and!; [|by rewrite <- Permutation_middle..].
  rewrite <- Permutation_middle. rewrite <- (Permutation_middle (L1.*2.*2)). done.
Qed.

Lemma pages_given_back s m m' F V V' k a r j x :
  given_back V V' k a r j -> nodes_ok s V -> lists_ok s x V -> pages_ok m F V -> links_ok m V ->
  entry_written m m' (pv_tables V) j -> vacant (place_entry m' (pv_tables V) j) -> pages_ok m' F V'.
Proof.
  intros Hgb Hn Hl [P1 P2] Hli Hew Hv. destruct (given_back_places _ _ _ _ _ _ Hgb) as (_ & Epl & _).
  pose proof (given_places _ _ _ Hn Hl) as Hgp. pose proof (ll_places _ _ _ Hl) as Hnd. apply NoDup_app in Hnd as [Hnd _].
  rewrite Epl in Hnd. apply NoDup_cons in Hnd as [Hj Hnd].
  pose proof (lo_frames _ _ Hli) as Hf. apply Forall_cons in Hf as [_ Hf]. apply Forall_cons in Hf as [_ Hf].
  pose proof (lo_nodup _ _ Hli) as Hnt. apply NoDup_cons in Hnt as [_ Hnt]. apply NoDup_cons in Hnt as [_ Hnt].
  assert (Hjr : 0 <= j < 512 * Z.of_nat (length (pv_tables V))).
  { apply Hgp, elem_of_app. left. rewrite Epl. by left. }
  destruct Hgb as [(_ & _ & _ & _ & ET & _) (L1 & L2 & E1 & E2) _]. split; rewrite ?ET.
  - intros k' i Hin. assert (Hin' : (k', i) ∈ (pv_pages V).*2).
    { rewrite E2, fmap_app, elem_of_app in Hin. rewrite E1, fmap_app, elem_of_app. csimpl. rewrite elem_of_cons. tauto. }
    assert (Hi : i ∈ page_places V') by (apply list_elem_of_fmap; by exists (k', i)).
    destruct (P1 k' i Hin') as (f & e & HF & He). exists f, e. split; [done|].
    rewrite (place_entry_other m m' _ i j); [done|done|done|done|by intros ->| |done].
    apply Hgp, elem_of_app. left. rewrite Epl. by right.
  - intros i Hi Hni. destruct (decide (i = j)) as [->|Hne]; [done|].
    rewrite (place_entry_other m m' _ i j) by done. apply P2; [done|]. rewrite Epl. by intros [->|?]%elem_of_cons.
Qed.

Lemma lists_given_back s s' x x' V V' k a r j old h :
  given_back V V' k a r j -> lists_ok s x V -> NoDup (r :: (pv_holes V).*1) -> old = released_pages_list x ->
  seg (page_node (pv_tables V)) h (fst <$> head (pv_pages V')) (pv_pages V') None -> shared_nodes s' = delete a h ->
  released_nodes s' = <[r := hole_node (pv_tables V) j old]> (released_nodes s) ->
  shared_pages x' = Some (wrap_of (pv_pages V')) -> released_pages_list x' = Some r ->
  proc_shared_hash_table x' = delete k <$> proc_shared_hash_table x -> lists_ok s' x' V'.
Proof.
  intros Hgb [L1 L2 L3 L4 L5 L6 L7 L8 L9] Hr -> Hh Hsn Hrn Hw Hrl Htab.
  destruct (given_back_places _ _ _ _ _ _ Hgb) as (Epl & _ & Eke & Epa).
  pose proof Hgb as [(_ & _ & _ & _ & ET & En) (M1 & M2 & E1 & E2) Eh].
  rewrite Epa in L5. apply NoDup_cons in L5 as [Ha L5]. unfold page_keys in *.
  assert (Ht : pages_table (pv_pages V') = delete k (pages_table (pv_pages V))).
  { rewrite E1, E2. apply (pages_table_remove M1 M2 a k j). by rewrite <- E1. }
  rewrite Eke in L7. apply NoDup_cons in L7 as [_ L7]. rewrite <- Epl in L8, L9. split; rewrite ?ET, ?En.
  - rewrite Hsn. eapply seg_frame; [|exact Hh]. intros b Hb. rewrite lookup_delete_ne; [done|]. by intros ->.
  - by left.
  - rewrite Htab, Ht, <- L3. destruct (proc_shared_hash_table x); [done|]. simpl. by rewrite delete_empty.
  - rewrite Eh, Hrl. split; [done|]. exists (released_pages_list x). rewrite Hrn, lookup_insert_eq. split; [done|].
    eapply seg_frame; [|exact L4]. intros b Hb. rewrite lookup_insert_ne; [done|]. intros ->.
    apply NoDup_cons in Hr as [Hr _]. done.
  - done.
  - by rewrite Eh.
  - done.
  - done.
  - done.
Qed.

(** The last user of a page is gone. *)
Lemma name_deleted s s' W k info f :
  shm_ok s W -> w_names W !! k = Some (info, f) -> users W k = 0 ->
  s' = s <| frame_mem := mk_fmem f (<[f := mem_ptr (frame_mem s)]> (words (frame_mem s))) |>
         <| shared_memory_hash_table ::= delete k |> <| shared_infos ::= delete info |> ->
  shm_ok s' (W <| w_names := delete k (w_names W) |> <| w_free := f :: w_free W |>).
Proof.
  intros Hok Hk Hu ->. destruct (so_frame _ _ Hok _ _ _ Hk) as [Hf Hnf]. pose proof (so_heaps _ _ Hok) as [B1 B2 B3 B4].
  assert (Hnm : forall q V, w_procs W !! q = Some V -> k ∉ page_keys V).
  { intros q V HV Hin. rewrite users_count in Hu. unfold count_users in Hu.
    assert (He : filter (fun e : ptr * pview => k ∈ page_keys e.2) (w_procs W) = ∅).
    { apply map_size_empty_inv. lia. }
    by apply (map_empty_filter_1 _ _ He q V HV). }
  split; simpl.
  - apply release_frame_ok; [apply Hok|done|done].
  - by rewrite fmap_delete, (so_table _ _ Hok).
  - intros k' p' f' [Hne Hk']%lookup_delete_Some. destruct (so_frame _ _ Hok _ _ _ Hk') as [H1 H2]. split; [done|].
    intros [->|Hin]%elem_of_cons; [|done]. apply Hne. by eapply (so_distinct _ _ Hok).
  - intros k' p' f' [Hne Hk']%lookup_delete_Some. unfold named. rewrite users_names.
    destruct (so_named _ _ Hok _ _ _ Hk') as [id Hid]. exists id. simpl. rewrite lookup_delete_ne; [done|]. intros ->.
    destruct (so_named _ _ Hok _ _ _ Hk) as [id' Hid']. congruence.
  - intros k1 k2 p1 p2 g [_ H1]%lookup_delete_Some [_ H2]%lookup_delete_Some. by eapply (so_distinct _ _ Hok).
  - intros q V HV. destruct (so_procs _ _ Hok q V HV) as [x Hx]. exists x. eapply proc_ok_frame; [exact Hx|done..| |].
    + intros t i Ht Hi. simpl. rewrite word_insert, decide_False; [done|]. intros Eq.
      destruct (so_held _ _ Hok q V t HV Ht) as [_ Hn]. apply (Hn _ _ _ Hk).
      assert (Hft : is_frame t).
      { pose proof (lo_frames _ _ (pk_links _ _ _ _ _ Hx)) as Hfr. rewrite Forall_forall in Hfr. by apply Hfr. }
      rewrite <- (pte_at_frame t i Hft Hi), <- Eq. by apply is_frame_of.
    + intros k' f' Hin Hf'. rewrite fmap_delete, lookup_delete_ne; [done|]. intros <-. by apply (Hnm q V HV).
  - intros q V t HV Ht. destruct (so_held _ _ Hok q V t HV Ht) as [H1 H2]. split.
    + intros [->|Hin]%elem_of_cons; [by apply (H2 _ _ _ Hk)|done].
    + intros k' p' f' [_ Hk']%lookup_delete_Some. by eapply H2.
  - apply Hok.
  - split; simpl; try done. intros p Hp. apply B4. simpl in *. destruct Hp as [y Hp].
    apply lookup_delete_Some in Hp as [_ Hp]. by exists y.
  - apply Hok.
Qed.

(** *** The whole call *)

(** The invariant does not depend on who runs. *)
Lemma shm_ok_pids s W c i : shm_ok s W -> shm_ok (s <| custom_release_process := c |> <| current_running_process_pid := i |>) W.
Proof.
  intros [H1 H2 H3 H4 H5 H6 H7 H8 [B1 B2 B3 B4] H10]. split; try done. intros q V HV. destruct (H6 q V HV) as [x Hx].
  exists x. by eapply proc_ok_frame; [exact Hx|..].
Qed.

Definition target_of s : option ptr :=
  match custom_release_process s with
  | Some p => Some p
  | None => pid_process_hash_table s !! current_running_process_pid s
  end.

Lemma release_target_spec s q (Q : option ptr -> kstate -> Prop) :
  target_of s = Some q -> Q (Some q) (s <| custom_release_process := None |>) -> wp release_target Q s.
Proof.
  unfold target_of, release_target. intros Ht HQ. apply wp_bind, wp_gets. destruct (custom_release_process s) as [p|] eqn:Ec.
  - injection Ht as ->. by apply wp_bind, wp_kput, wp_ret.
  - apply wp_get_current. rewrite Ht. replace s with (s <| custom_release_process := None |>); [done|].
    destruct s. simpl in *. by rewrite Ec.
Qed.

(** The entry of the page is made invalid, then configured again as a link to
    nothing: valid, but no leaf, at the last level of the walk. *)
Lemma clear_entry_spec m T j (Q : unit -> fmem -> Prop) :
  is_frame (place_table T j) ->
  (forall m', entry_written m m' T j -> vacant (place_entry m' T j) -> Q tt m') ->
  wp (set_invalid_at (pte_at (place_table T j) (j mod 512))) (fun _ m1 =>
    wp (configure_page_entry (pte_at (place_table T j) (j mod 512)) 0 false false false false KILO) Q m1) m.
Proof.
  intros Hf HQ. set (t := place_table T j) in *. assert (Hi : 0 <= j mod 512 < 512) by mlia.
  unfold set_invalid_at. apply wp_bind, wp_load; [by apply pte_at_addr|]. apply wp_store; [by apply pte_at_addr|].
  eapply (wp_configure_table t (j mod 512)); [done|done|apply configured_kilo|apply kilo_entry_wf, pte_of_word_wf|].
  intros m' M1 M2 M3 M4. apply HQ.
  - split; [done| |].
    + intros a Ha. rewrite M2 by done. rewrite word_insert, decide_False; [done|]. intros <-. apply Ha. by apply pte_at_frame.
    + intros i Hi' Hne. rewrite M4 by done. rewrite word_insert, decide_False; [done|]. intros Eq.
      apply (pte_at_inj t t) in Eq as [_ Eq]; [by rewrite Eq in Hne|done..].
  - unfold vacant, place_entry. fold t. rewrite M3. by rewrite orb_true_r.
Qed.

Definition without (W : world) (q : ptr) V' (k : string) (f : Z) : world :=
  let W1 := W <| w_procs := <[q := V']> (w_procs W) |> in
  if users W1 k =? 0 then W1 <| w_names := delete k (w_names W) |> <| w_free := f :: w_free W |> else W1.

(** [shm_release] after the page was taken out of the list. *)
Definition release_rest (q info : ptr) (k : string) (node : ptr) (n : shared_pages_proc_t) : K unit :=
  let shared_page_entry := pte_at (page_table n) (lvl0_index n) in
  _ ← in_frames (set_invalid_at shared_page_entry);
  _ ← in_frames (configure_page_entry shared_page_entry 0 false false false false KILO);
  _ ← wr procs (Some q) (fun p => p <| proc_shared_hash_table ::= fmap (delete k) |>);
  _ ← wr shared_infos (Some info) (fun i => i <| page_usage ::= fun u => wrapS 32 (u - 1) |>);
  info' ← rd shared_infos (Some info);
  _ ← (if page_usage info' =? 0 then delete_shared_page (Some info) k else mret tt);
  free shared_nodes (Some node).

(** The page is out of the list and its place is in the list of holes. *)
Lemma release_rest_spec s s1 W q V x x1 k info f a j L1 L2 h :
  shm_ok s W -> w_procs W !! q = Some V -> proc_ok s (snd <$> w_names W) q V x -> w_names W !! k = Some (info, f) ->
  pv_pages V = L1 ++ (a, (k, j)) :: L2 -> dom h = dom (shared_nodes s) ->
  (forall b, b ∉ L1.*1 -> h !! b = shared_nodes s !! b) ->
  seg (page_node (pv_tables V)) h (fst <$> head (L1 ++ L2)) (L1 ++ L2) None ->
  let r := next_block s in
  x1 = x <| released_pages_list := Some r |> <| shared_pages := Some (wrap_of (L1 ++ L2)) |> ->
  s1 = s <| next_block ::= Pos.succ |> <| released_nodes ::= <[r := hole_node (pv_tables V) j (released_pages_list x)]> |>
         <| shared_nodes := h |> <| procs ::= <[q := x1]> |> ->
  wp (release_rest q info k a (page_node (pv_tables V) (k, j) None)) (fun _ s' => same_pids s s' /\
    exists V', given_back V V' k a r j /\ shm_ok s' (without W q V' k f)) s1.
Proof.
  intros Hok HV Hpk Hk EL Hdom Hrest Hseg r Ex1 ->. pose proof Hpk as [K1 K2 K3 K4 K5 K6 K7].
  pose proof (so_heaps _ _ Hok) as [B1 B2 B3 B4]. pose proof (fresh_block _ _ B3) as Hfresh.
  set (V' := V <| pv_pages := L1 ++ L2 |> <| pv_holes := (r, j) :: pv_holes V |>).
  assert (Hgb : given_back V V' k a r j) by (split; [done|by exists L1, L2|done]).
  destruct (given_back_places _ _ _ _ _ _ Hgb) as (_ & Epl & Eke & Epa).
  assert (Hjr : 0 <= j < 512 * Z.of_nat (length (pv_tables V))).
  { apply (given_places _ _ _ K4 K6), elem_of_app. left. rewrite Epl. by left. }
  pose proof (table_in _ _ Hjr) as Htin. pose proof (lo_frames _ _ K5) as Hfr. rewrite Forall_forall in Hfr.
  pose proof (ll_keys _ _ _ K6) as Hnk. rewrite Eke in Hnk. apply NoDup_cons in Hnk as [Hnk _].
  pose proof (ll_pages_nodup _ _ _ K6) as Hna. rewrite Epa in Hna. apply NoDup_cons in Hna as [Hna _].
  unfold release_rest. apply wp_bind, wp_in_frames. eapply wp_mono.
  { apply clear_entry_spec with (Q := fun _ m => entry_written (frame_mem s) m (pv_tables V) j /\ vacant (place_entry m (pv_tables V) j)).
    - apply Hfr. right. by right.
    - done. }
  intros [] m1 Hm1. apply wp_bind, wp_in_frames. simpl frame_mem. eapply wp_mono; [exact Hm1|]. intros [] m [Hew Hvac].
  apply wp_bind. eapply (wp_wr procs); [simpl; by rewrite lookup_insert_eq|].
  destruct (so_named _ _ Hok _ _ _ Hk) as [id Hid]. apply wp_bind. eapply (wp_wr shared_infos); [exact Hid|].
  apply wp_bind. eapply (wp_rd shared_infos); [simpl; by rewrite lookup_insert_eq|].
  set (W1 := W <| w_procs := <[q := V']> (w_procs W) |>).
  assert (Hus : users W k = users W1 k + 1).
  { pose proof (users_changed W W1 q V V' k HV eq_refl) as Hu. rewrite decide_True in Hu by (rewrite Eke; by left).
    rewrite decide_False in Hu by done. lia. }
  pose proof (users_range _ _ k Hok) as Hur. assert (Hu1 : 0 <= users W1 k) by (rewrite users_count; lia).
  replace (page_usage _) with (users W1 k) by (unfold upd; simpl; rewrite wrapS_id by lia; lia).
  match goal with |- wp _ _ ?S => set (s2 := S) end.
  assert (Ha : exists n, h !! a = Some n).
  { apply elem_of_dom. rewrite Hdom. apply elem_of_dom. eapply seg_present; [apply (ll_pages _ _ _ K6)|].
    rewrite Epa. by left. }
  destruct Ha as [n Ha]. set (s3 := s2 <| shared_nodes ::= delete a |>).
  assert (Hok1 : shm_ok s3 W1).
  { eapply (process_changed s s3 W W1 q V V'); [exact Hok|exact HV| |done|done| |done| |done| | |].
    - split; simpl.
      + intros q' Hq. by rewrite !lookup_insert_ne.
      + by apply heap_step_refl.
      + split.
        * intros b Hb _. rewrite lookup_delete_ne by (intros ->; apply Hb; rewrite Epa; by left). apply Hrest. intros Hin.
          apply Hb. rewrite EL, fmap_app. apply elem_of_app. by left.
        * intros b Hb. left. rewrite Epa. by right.
      + split.
        * intros b _ Hlt. rewrite lookup_insert_ne; [done|]. intros <-. subst r. lia.
        * intros b [->|Hb]%elem_of_cons; [right; subst r; lia|by left].
      + intros b Hb. apply (ew_only _ _ _ _ Hew). rewrite app_nil_r in Hb. intros Eq. apply Hb. rewrite Eq. right. by right.
      + intros t Ht. rewrite app_nil_r. exact Ht.
    - intros g []%not_elem_of_nil.
    - eapply free_ok_only_in; [apply Hok|apply Hew|apply Hew|]. apply (so_held _ _ Hok q V _ HV); right; by right.
    - eapply (named_changed s s3 W W1 q V V'); [done..| |done|].
      + intros k' Hne. rewrite Eke, elem_of_cons. tauto.
      + exists id. unfold s3, s2. simpl. f_equal. unfold upd. simpl. f_equal. rewrite wrapS_id by lia. lia.
    - split.
      + simpl. by rewrite lookup_insert_eq.
      + subst x1. exact K2.
      + subst x1. exact K3.
      + by eapply nodes_ok_view; [exact K4|..].
      + eapply links_ok_agree; [exact K5| |apply K4|done..]. intros t i Ht Hi. apply (ew_only _ _ _ _ Hew).
        pose proof (lo_nodup _ _ K5) as Hnd. rewrite !NoDup_cons, not_elem_of_cons in Hnd. destruct Hnd as ([H1 H2] & H3 & _).
        rewrite !elem_of_cons in Ht. rewrite pte_at_frame; [| |done].
        * destruct Ht as [->|[->|Ht%not_elem_of_nil]]; [| |done]; intros E1; rewrite <- E1 in Htin; done.
        * apply Hfr. destruct Ht as [->|[->|Ht%not_elem_of_nil]]; [by left|right; by left|done].
      + eapply (lists_given_back s s3 x _ V V' k a r j _ h Hgb K6); try (subst x1; done).
        constructor; [|apply K6]. intros Hin. eapply seg_none; [apply (ll_holes _ _ _ K6)|exact Hfresh|exact Hin].
      + eapply pages_given_back; [exact Hgb|exact K4|exact K6|exact K7|exact K5|exact Hew|exact Hvac].
    - split; simpl.
      + eapply allocated_later; [exact B1|simpl; lia|done].
      + intros p [y Hp]. simpl in Hp. apply lookup_delete_Some in Hp as [_ Hp]. apply elem_of_dom_2 in Hp. rewrite Hdom in Hp.
        apply elem_of_dom, B2 in Hp. simpl. lia.
      + eapply allocated_new; [exact B3|by rewrite dom_insert_L|done].
      + eapply allocated_later; [exact B4|simpl; lia|]. rewrite dom_insert_L. apply elem_of_dom_2 in Hid. set_solver. }
  destruct (Z.eqb_spec (users W1 k) 0) as [Hz|Hz].
  - apply wp_bind. unfold delete_shared_page. apply wp_bind. eapply (wp_rd shared_infos); [simpl; by rewrite lookup_insert_eq|].
    destruct (so_frame _ _ Hok _ _ _ Hk) as [Hff _]. apply wp_bind, wp_in_frames.
    eapply wp_intro; [by apply release_frame_spec|]. apply wp_bind, wp_kupd. unfold free. apply wp_bind.
    eapply (wp_rd shared_infos); [simpl; by rewrite lookup_insert_eq|]. apply wp_modify, wp_bind.
    eapply (wp_rd shared_nodes); [exact Ha|]. apply wp_modify. split; [done|]. exists V'. split; [done|].
    unfold without. cbn zeta. fold W1. rewrite (proj2 (Z.eqb_eq _ _) Hz).
    exact (name_deleted s3 _ W1 k info f Hok1 Hk Hz eq_refl).
  - apply wp_bind, wp_ret. unfold free. apply wp_bind. eapply (wp_rd shared_nodes); [exact Ha|]. apply wp_modify.
    split; [done|]. exists V'. split; [done|]. unfold without. cbn zeta. fold W1. by rewrite (proj2 (Z.eqb_neq _ _) Hz).
Qed.

Lemma released_twice s b g q (x1 x2 : process) h :
  s <| next_block ::= b |> <| released_nodes ::= g |> <| procs ::= <[q := x1]> |> <| shared_nodes := h |>
    <| procs ::= <[q := x2]> |> =
  s <| next_block ::= b |> <| released_nodes ::= g |> <| shared_nodes := h |> <| procs := <[q := x2]> (procs s) |>.
Proof. rewrite <- (insert_insert_eq (procs s) q x2 x1). reflexivity. Qed.

Lemma release_spec s W q V k info f a j :
  shm_ok s W -> w_procs W !! q = Some V -> w_names W !! k = Some (info, f) -> (a, (k, j)) ∈ pv_pages V ->
  target_of s = Some q -> (forall p, malloc_ok p = true) ->
  wp (shm_release (Some k)) (fun _ s' => same_pids (s <| custom_release_process := None |>) s' /\
    exists V' r, given_back V V' k a r j /\ shm_ok s' (without W q V' k f)) s.
Proof.
  intros Hok0 HV Hk Hin Ht Hm. destruct (so_procs _ _ Hok0 q V HV) as (x & Hpk0).
  assert (Hok : shm_ok (s <| custom_release_process := None |>) W) by exact (shm_ok_pids s W None (current_running_process_pid s) Hok0).
  assert (Hpk : proc_ok (s <| custom_release_process := None |>) (snd <$> w_names W) q V x) by (by eapply proc_ok_frame; [exact Hpk0|..]).
  pose proof Hpk as [K1 K2 K3 K4 K5 K6 K7].
  pose proof (so_heaps _ _ Hok) as [B1 B2 B3 B4]. apply list_elem_of_split in Hin as (L1 & L2 & EL).
  unfold shm_release. apply wp_bind, wp_bind, wp_gets, wp_ret. rewrite (so_table _ _ Hok0), lookup_fmap, Hk. simpl.
  apply wp_bind. eapply release_target_spec; [exact Ht|]. cbv beta iota. set (s0 := s <| custom_release_process := None |>) in *.
  assert (Htab : default ∅ (proc_shared_hash_table x) !! k = Some a).
  { rewrite (ll_table _ _ _ K6). apply pages_lookup; [apply K6|]. exists j. rewrite EL, elem_of_app. right. by left. }
  destruct (proc_shared_hash_table x) as [t|] eqn:Et; [|done]. simpl in Htab.
  apply wp_bind. unfold get_shared_page_proc. apply wp_bind. eapply wp_pget; [exact K1|]. rewrite Et. apply wp_ret. simpl. rewrite Htab.
  pose proof (ll_pages _ _ _ K6) as Hl. destruct (seg_in _ _ _ _ _ a (k, j) Hl) as [nx Hnx].
  { rewrite EL, elem_of_app. right. by left. }
  apply wp_bind. eapply (wp_rd shared_nodes); [exact Hnx|]. apply wp_bind. eapply wp_pget; [exact K1|].
  apply wp_bind. eapply (wp_malloc released_nodes); [done|by apply Hm|]. apply wp_bind. eapply wp_lift; [done|].
  apply wp_bind. eapply wp_pset; [exact K1|]. apply wp_bind. eapply wp_pget; [simpl; by rewrite lookup_insert_eq|].
  assert (Hw : shared_pages x = Some (wrap_of (pv_pages V))).
  { destruct (ll_wrap _ _ _ K6) as [H|[_ H]]; [done|]. rewrite H in EL. by destruct L1. }
  match goal with |- wp _ _ ?S => set (s1 := S) end.
  match goal with |- context [shared_pages ?X] => set (x1 := X); change (shared_pages x1) with (shared_pages x) end.
  rewrite Hw, EL. apply wp_bind. eapply (unlink_spec s1 q x1 (pv_tables V)).
  { simpl. by rewrite lookup_insert_eq. } { change (shared_pages x1) with (shared_pages x). by rewrite Hw, EL. }
  { rewrite <- EL. exact Hl. } { rewrite <- EL. apply K6. }
  intros h Hd Hrest Hseg. eapply wp_mono.
  { eapply (release_rest_spec s0 _ W q V x _ k info f a j L1 L2 h Hok HV Hpk Hk EL Hd Hrest Hseg); [done|].
    exact (released_twice s0 Pos.succ _ q x1 _ h). }
  intros [] s' (Hs' & V' & Hgb & Hok'). split; [done|]. by exists V', (next_block s0).
Qed.

End SharedMemorySpec.
