(* ===== verification/SharedRefinement.v ===== *)
(** * SharedRefinement: shared memory as processes see it

    The abstract description of the shared pages and the theorem that
    [shm_create], [shm_acquire] and [shm_release], called in any order by any
    processes, refine it, down to the translation of the addresses. *)

From S2P Require Import Prelude.
From S2P Require Import Queue.
From S2P Require Import FrameDist.
From S2P Require Import Pages.
From S2P Require Import Kernel.
From S2P Require Import KernelRules.
From S2P Require Import ProcessMemory.
From S2P Require Import PageFilling.
From S2P Require Import TableList.
From S2P Require Import ProcessMemorySpec.
From S2P Require Import SharedMemory.
From S2P Require Import SharedTables.
From S2P Require Import SharedPages.
From S2P Require Import SharedMemorySpec.
#[local] Open Scope Z_scope.

(** ** The abstract shared memory

    A process maps named pages at places, keeps the places it gave back and
    counts those it was given; a named page is a frame. *)
Record sharer : Type := mk_sharer { sh_maps : gmap string Z; sh_holes : list Z; sh_next : Z }.
#[export] Instance eta_sharer : Eta sharer := fun r => mk_sharer (sh_maps r) (sh_holes r) (sh_next r).
Record shared_abs : Type := mk_abs { ab_procs : gmap ptr sharer; ab_names : gmap string Z; ab_free : list Z }.
#[export] Instance eta_shared_abs : Eta shared_abs := fun r => mk_abs (ab_procs r) (ab_names r) (ab_free r).

Inductive shm_op : Type := Create (k : string) | Acquire (k : string) | Release (k : string).

(** The address of a place. *)
Definition SHARED_BASE : Z := 0x60000000.
Definition place_address (j : Z) : Z := SHARED_BASE + 4096 * j.

(** The next place of a process: the last one it gave back, else a new one,
    which takes a frame for a page table every 512 pages. *)
Definition next_place (sh : sharer) (free : list Z) : Z * sharer * list Z :=
  match sh_holes sh with
  | j :: hs => (j, sh <| sh_holes := hs |>, free)
  | [] => (sh_next sh, sh <| sh_next := sh_next sh + 1 |>, if sh_next sh mod 512 =? 0 then tail free else free)
  end.

Definition map_page (q : ptr) (sh : sharer) (k : string) (a : shared_abs) : Z * shared_abs :=
  let '(j, sh', free) := next_place sh (ab_free a) in
  (place_address j, a <| ab_procs := <[q := sh' <| sh_maps := <[k := j]> (sh_maps sh') |>]> (ab_procs a) |> <| ab_free := free |>).

Definition shm_spec (q : ptr) (op : shm_op) (a : shared_abs) : Z * shared_abs :=
  match ab_procs a !! q with
  | None => (0, a)
  | Some sh =>
      match op with
      | Create k =>
          match ab_names a !! k, ab_free a with
          | None, f :: free => map_page q sh k (a <| ab_names := <[k := f]> (ab_names a) |> <| ab_free := free |>)
          | _, _ => (0, a)
          end
      | Acquire k =>
          match ab_names a !! k, sh_maps sh !! k with
          | Some _, None => map_page q sh k a
          | _, _ => (0, a)
          end
      | Release k =>
          match ab_names a !! k, sh_maps sh !! k with
          | Some f, Some j =>
              let P := <[q := sh <| sh_maps := delete k (sh_maps sh) |> <| sh_holes := j :: sh_holes sh |>]> (ab_procs a) in
              (0, if bool_decide (map_Forall (fun _ sh => sh_maps sh !! k = None) P)
                  then mk_abs P (delete k (ab_names a)) (f :: ab_free a) else a <| ab_procs := P |>)
          | _, _ => (0, a)
          end
      end
  end.

(** Calls of several processes, one after the other. *)
Fixpoint shm_specs (l : list (ptr * shm_op)) (a : shared_abs) : list Z * shared_abs :=
  match l with
  | [] => ([], a)
  | (q, op) :: l => let '(r, a) := shm_spec q op a in let '(rs, a) := shm_specs l a in (r :: rs, a)
  end.

Section SharedRefinement.
Context `{E : KEnv}.
Implicit Types (s : kstate) (V : pview) (W : world).

Definition shm_run (op : shm_op) : K Z :=
  match op with
  | Create k => shm_create (Some k)
  | Acquire k => shm_acquire (Some k)
  | Release k => _ ← shm_release (Some k); mret 0
  end.

(** The scheduler gives the processor to the process with the given pid, then
    the process makes a call. *)
Fixpoint shm_runs (l : list (Z * shm_op)) : K (list Z) :=
  match l with
  | [] => mret []
  | (id, op) :: l =>
      _ ← kput current_running_process_pid id;
      r ← shm_run op; rs ← shm_runs l; mret (r :: rs)
  end.

Definition abs_view V : sharer := mk_sharer (list_to_map (pv_pages V).*2) (pv_holes V).*2 (pv_next V).
Definition abs W : shared_abs := mk_abs (abs_view <$> w_procs W) (snd <$> w_names W) (w_free W).

(** ** Views and their abstraction *)

Lemma abs_maps V k j : NoDup (page_keys V) -> sh_maps (abs_view V) !! k = Some j <-> (k, j) ∈ (pv_pages V).*2.
Proof. intros Hnd. symmetry. by apply elem_of_list_to_map. Qed.

Lemma abs_unmapped V k : sh_maps (abs_view V) !! k = None <-> k ∉ page_keys V.
Proof. symmetry. apply not_elem_of_list_to_map. Qed.

Lemma abs_mapped_at V V' k a j G free free' : mapped_at V V' k a j G free free' -> k ∉ page_keys V ->
  next_place (abs_view V) free =
    (j, mk_sharer (sh_maps (abs_view V)) (pv_holes V').*2 (pv_next V'), free') /\
  sh_maps (abs_view V') = <[k := j]> (sh_maps (abs_view V)).
Proof.
  intros [_ Ep _ Ef Hpl] Hk. split.
  - unfold next_place, abs_view. simpl. destruct Hpl as [(r & -> & -> & ->)|(-> & -> & -> & -> & EG)]; csimpl.
    + by rewrite Ef.
    + rewrite Ef in EG. destruct (pv_next V mod 512 =? 0); [|by rewrite Ef, EG].
      pose proof (take_drop 1 (G ++ free')) as Htd. rewrite <- EG in Htd. apply app_inv_head in Htd.
      assert (tail free = free') as ->; [|done]. rewrite Ef. etrans; [|exact Htd]. by destruct (G ++ free').
  - unfold abs_view. rewrite Ep, fmap_app. csimpl. by apply list_to_map_snoc.
Qed.

Lemma abs_given_back V V' k a r j : given_back V V' k a r j -> NoDup (page_keys V) ->
  abs_view V' = abs_view V <| sh_maps := delete k (sh_maps (abs_view V)) |> <| sh_holes := j :: sh_holes (abs_view V) |>.
Proof.
  intros [(_ & _ & _ & _ & _ & En) (L1 & L2 & E1 & E2) Eh] Hnd. unfold abs_view, page_keys in *. rewrite En, E1, E2, Eh in *.
  simpl. f_equal. rewrite !fmap_app in *. csimpl in *. apply NoDup_app in Hnd as (_ & Hd & [Hk _]%NoDup_cons).
  rewrite !list_to_map_app. csimpl. rewrite delete_union, delete_insert_eq.
  rewrite !delete_id; [done|..]; apply not_elem_of_list_to_map; [done|]. intros Hin. apply (Hd k Hin). by left.
Qed.

Lemma abs_insert W q V fr : abs (W <| w_procs := <[q := V]> (w_procs W) |> <| w_free := fr |>) =
  abs W <| ab_procs := <[q := abs_view V]> (ab_procs (abs W)) |> <| ab_free := fr |>.
Proof. unfold abs. simpl. by rewrite fmap_insert. Qed.

Lemma no_users_abs W k : users W k = 0 <-> map_Forall (fun _ sh => sh_maps sh !! k = None) (ab_procs (abs W)).
Proof.
  rewrite users_count. unfold count_users. simpl. rewrite map_Forall_fmap. etrans; [|etrans].
  - instantiate (1 := filter (fun e : ptr * pview => k ∈ page_keys e.2) (w_procs W) = ∅). rewrite <- map_size_empty_iff. lia.
  - apply map_empty_filter.
  - unfold map_Forall. simpl. setoid_rewrite abs_unmapped. done.
Qed.

Lemma abs_without W q V V' k a r j f : given_back V V' k a r j -> NoDup (page_keys V) ->
  let P := <[q := abs_view V <| sh_maps := delete k (sh_maps (abs_view V)) |> <| sh_holes := j :: sh_holes (abs_view V) |>]> (ab_procs (abs W)) in
  (if bool_decide (map_Forall (fun _ sh => sh_maps sh !! k = None) P)
   then mk_abs P (delete k (ab_names (abs W))) (f :: ab_free (abs W)) else abs W <| ab_procs := P |>) =
  abs (without W q V' k f).
Proof.
  intros Hgb Hnd P. unfold P. rewrite <- (abs_given_back V V' k a r j Hgb Hnd). unfold without. cbn zeta.
  set (W1 := W <| w_procs := <[q := V']> (w_procs W) |>).
  assert (EP : <[q := abs_view V']> (ab_procs (abs W)) = ab_procs (abs W1)) by (simpl; by rewrite fmap_insert).
  rewrite EP. pose proof (no_users_abs W1 k) as Hu. case_bool_decide as Hb.
  - rewrite (proj2 (Z.eqb_eq _ _) (proj2 Hu Hb)). unfold abs. simpl. by rewrite fmap_delete.
  - rewrite (proj2 (Z.eqb_neq _ _)) by tauto. done.
Qed.

(** ** Addresses *)

Lemma address_of_place j : 0 <= j -> map_address_for_process USERSPACE (place_index j) (j mod 512) = place_address j.
Proof.
  intros Hj. unfold map_address_for_process, place_address, place_index, USERSPACE, SHARED_MEMORY_START, SHARED_BASE,
    GIGA_SIZE, MEGA_SIZE, KILO_SIZE. mlia.
Qed.

(** The place an address of the shared part lies in. *)
Definition shared_part (va : Z) : Prop := SHARED_BASE <= va < 2 ^ 31.
Definition place_at (va : Z) : Z := (va - SHARED_BASE) / 4096.

Lemma shared_vpns va : shared_part va ->
  vpn 2 va = USERSPACE /\ vpn 1 va = place_index (place_at va) /\ vpn 0 va = place_at va mod 512 /\
  0 <= place_at va < 512 * 256.
Proof.
  intros Hva. unfold shared_part, SHARED_BASE in Hva. destruct (user_vpn_parts va) as (E2 & E1 & E0 & _); [lia|].
  rewrite E2, E1, E0. unfold place_at, place_index, user_vpn, SHARED_BASE, SHARED_MEMORY_START. split_and!; mlia.
Qed.

Lemma walk_vacant m root l1 t va :
  is_frame l1 -> links_to m root (vpn 2 va) l1 -> is_frame t -> links_to m l1 (vpn 1 va) t ->
  vacant (table_entry m t (vpn 0 va)) -> sv39_walk (word m) root va = None.
Proof.
  intros Hl [p2 E2] Ht [p1 E1] E0. unfold sv39_walk. fold (table_entry m root (vpn 2 va)).
  rewrite E2, find_frame by done. fold (table_entry m l1 (vpn 1 va)). rewrite E1, find_frame by done.
  fold (table_entry m t (vpn 0 va)). unfold vacant in E0. by rewrite E0.
Qed.

(** What the processor sees of the shared part of a process. *)
Lemma shared_walk s F q V x va : proc_ok s F q V x -> shared_part va ->
  (forall k, sh_maps (abs_view V) !! k = Some (place_at va) -> exists f p, F !! k = Some f /\
     (is_frame f -> sv39_walk (word (frame_mem s)) (page_table_level_2 x) va = Some (f + va mod 4096, p)) /\ user_access p false) /\
  ((forall k, sh_maps (abs_view V) !! k <> Some (place_at va)) ->
     sv39_walk (word (frame_mem s)) (page_table_level_2 x) va = None).
Proof.
  intros [K1 K2 K3 K4 K5 K6 K7] Hva. destruct (shared_vpns va Hva) as (E2 & E1 & E0 & Hj). rewrite K2.
  pose proof K5 as [L1 L2 L3 L4 _]. apply Forall_cons in L4 as [_ L4]. apply Forall_cons in L4 as [Hl1 L4].
  rewrite Forall_forall in L4. rewrite <- E2 in L1. set (j := place_at va) in *. set (T := pv_tables V) in *.
  assert (Ht : 0 <= j < 512 * Z.of_nat (length T) -> is_frame (place_table T j) /\ links_to (frame_mem s) (pv_l1 V) (vpn 1 va) (place_table T j)).
  { intros Hjt. pose proof (place_table_lookup T j Hjt) as Hlk. split; [by eapply L4, list_elem_of_lookup_2|].
    apply L2 in Hlk. rewrite E1. unfold place_index. by rewrite Z2Nat.id in Hlk by mlia. }
  split.
  - intros k Hk. apply (abs_maps V k j (ll_keys _ _ _ K6)) in Hk. destruct K7 as [P1 _]. destruct (P1 k j Hk) as (f & e & Hf & He).
    exists f, (kilo_entry e f true true false true). split; [done|]. split; [|done].
    assert (Hjt : 0 <= j < 512 * Z.of_nat (length T)).
    { apply (given_places _ _ _ K4 K6), elem_of_app. left. apply list_elem_of_fmap. by exists (k, j). }
    destruct (Ht Hjt) as [Htf Htl]. intros Hff. eapply walk_mapped; [exact Hl1|exact L1|exact Htf|exact Htl|exact Hff|].
    rewrite E0. exact He.
  - intros Hn. destruct (decide (j < 512 * Z.of_nat (length T))) as [Hlt|Hge].
    + destruct (Ht ltac:(lia)) as [Htf Htl]. eapply walk_vacant; [exact Hl1|exact L1|exact Htf|exact Htl|]. rewrite E0.
      destruct K7 as [_ P2]. apply (P2 j); [fold T; lia|]. intros ([k i] & Ei & Hin)%list_elem_of_fmap. simpl in Ei. subst i.
      apply (Hn k). by apply (abs_maps V k j (ll_keys _ _ _ K6)).
    + eapply walk_unlinked; [exact Hl1|exact L1|]. rewrite E1. unfold place_index.
      apply L3. fold T. mlia.
Qed.

(** ** The calls *)

Lemma tail_address_spec s W q V k a j (Q : Z -> kstate -> Prop) L :
  shm_ok s W -> w_procs W !! q = Some V -> pv_pages V = L ++ [(a, (k, j))] -> Q (place_address j) s ->
  wp (mapped_address_of_tail (Some q)) Q s.
Proof.
  intros Hok HV EL HQ. destruct (so_procs _ _ Hok q V HV) as (x & [K1 K2 K3 K4 K5 K6 K7]).
  assert (Hw : shared_pages x = Some (wrap_of (pv_pages V))).
  { destruct (ll_wrap _ _ _ K6) as [H|[_ H]]; [exact H|]. rewrite H in EL. by destruct L. }
  unfold mapped_address_of_tail. apply wp_bind. eapply wp_pget; [exact K1|]. rewrite Hw.
  apply wp_bind. eapply wp_lift; [done|]. rewrite EL, wrap_of_snoc. cbn [tail_shared_page].
  destruct (seg_in _ _ _ _ _ a (k, j) (ll_pages _ _ _ K6)) as [nx Hnx]; [rewrite EL, elem_of_app; right; by left|].
  apply wp_bind. eapply (wp_rd shared_nodes); [exact Hnx|]. apply wp_ret. cbn [page_node at_place lvl2_index lvl1_index lvl0_index].
  assert (Hj : 0 <= j).
  { apply (given_places _ _ _ K4 K6), elem_of_app. left. apply list_elem_of_fmap. exists (k, j). split; [done|].
    rewrite EL, fmap_app, elem_of_app. right. by left. }
  simpl. by rewrite (address_of_place j Hj).
Qed.

(** The outcome of a call of the process [q]. *)
Definition refines s W (q : ptr) (op : shm_op) (r : Z) s' : Prop :=
  same_pids s s' /\ exists W', shm_ok s' W' /\ shm_spec q op (abs W) = (r, abs W').

Lemma map_page_spec s W q V k info f :
  shm_ok s W -> w_procs W !! q = Some V -> w_names W !! k = Some (info, f) -> k ∉ page_keys V -> ready s q ->
  (forall p, malloc_ok p = true) -> room W V ->
  wp (c ← link_shared_page_to_process (Some q) (Some info) k;
      if c <? 0 then mret 0 else mapped_address_of_tail (Some q))
    (fun r s' => same_pids s s' /\ exists W', shm_ok s' W' /\ map_page q (abs_view V) k (abs W) = (r, abs W')) s.
Proof.
  intros Hok HV Hk Hnk Hready Hm Hroom. apply wp_bind. eapply wp_mono; [by eapply (link_page_spec s W q V k info f)|].
  intros r s2 (-> & Hs2 & V' & a & j & G & free' & Hma & Hok2). cbn [Z.ltb Z.compare].
  eapply (tail_address_spec s2 _ q V' k a j); [exact Hok2|simpl; by rewrite lookup_insert_eq|by apply Hma|].
  split; [exact Hs2|]. eexists. split; [exact Hok2|].
  destruct (abs_mapped_at _ _ _ _ _ _ _ _ Hma Hnk) as [En Em]. unfold map_page. cbn [ab_free abs]. rewrite En.
  assert (Ev : mk_sharer (<[k := j]> (sh_maps (abs_view V))) (pv_holes V').*2 (pv_next V') = abs_view V') by (by rewrite <- Em).
  rewrite abs_insert, <- Ev. reflexivity.
Qed.

Section Calls.
Context (s : kstate) (W : world) (q : ptr) (V : pview).
Hypothesis Hok : shm_ok s W.
Hypothesis HV : w_procs W !! q = Some V.
Hypothesis Hcur : pid_process_hash_table s !! current_running_process_pid s = Some q.
Hypothesis Hcustom : custom_release_process s = None.
Hypothesis Hm : forall p, malloc_ok p = true.
Hypothesis Hfree : (3 <= length (w_free W))%nat.
Hypothesis Hnext : pv_next V < 512 * 256.

Lemma abs_proc : ab_procs (abs W) !! q = Some (abs_view V).
Proof. simpl. by rewrite lookup_fmap, HV. Qed.
Lemma abs_name k : ab_names (abs W) !! k = snd <$> w_names W !! k.
Proof. apply lookup_fmap. Qed.

Lemma get_page_spec k (Q : option ptr -> kstate -> Prop) s1 :
  shared_memory_hash_table s1 = shared_memory_hash_table s -> Q (fst <$> w_names W !! k) s1 -> wp (get_shared_page k) Q s1.
Proof. intros E1 HQ. apply wp_bind, wp_gets, wp_ret. by rewrite E1, (so_table _ _ Hok), lookup_fmap. Qed.

Lemma run_acquire k : wp (shm_run (Acquire k)) (refines s W q (Acquire k)) s.
Proof.
  cbn [shm_run]. unfold shm_acquire, refines, shm_spec. rewrite abs_proc, abs_name. apply wp_bind, get_page_spec; [done|].
  destruct (w_names W !! k) as [[info f]|] eqn:Ek; cbn [fmap option_fmap option_map fst snd].
  2:{ apply wp_ret. split; [done|]. by exists W. }
  apply wp_bind, wp_get_current. rewrite Hcur. destruct (decide (k ∈ page_keys V)) as [Hin|Hnin].
  - assert (Hmap : is_Some (sh_maps (abs_view V) !! k)).
    { apply not_eq_None_Some. intros He. by apply abs_unmapped in He. }
    destruct Hmap as [j Hj]. rewrite Hj. apply wp_bind. eapply wp_mono; [by eapply (create_wrapper_spec s W q V)|].
    intros r s1 (-> & Hs1 & _ & Hok1). cbn [Z.ltb Z.compare]. destruct (so_procs _ _ Hok1 q V HV) as (x & [K1 _ _ _ _ K6 _]).
    apply wp_bind. unfold get_shared_page_proc. apply wp_bind. eapply wp_pget; [exact K1|]. apply wp_ret.
    apply (abs_maps V k j (ll_keys _ _ _ K6)), list_elem_of_fmap in Hj as ([a ?] & [= <-] & Hj).
    pose proof (proj2 (pages_lookup _ k (ll_keys _ _ _ K6) a) (ex_intro _ j Hj)) as Hp.
    rewrite <- (ll_table _ _ _ K6) in Hp. destruct (proc_shared_hash_table x) as [t|]; [|done]. simpl in Hp |- *. rewrite Hp.
    apply wp_ret. split; [done|]. by exists W.
  - rewrite (proj2 (abs_unmapped V k) Hnin). apply wp_bind. eapply wp_mono; [by eapply (create_wrapper_spec s W q V)|].
    intros r s1 (-> & Hs1 & Hready & Hok1). cbn [Z.ltb Z.compare].
    destruct (so_procs _ _ Hok1 q V HV) as (x & [K1 _ _ _ _ K6 _]).
    apply wp_bind. unfold get_shared_page_proc. apply wp_bind. eapply wp_pget; [exact K1|]. apply wp_ret.
    assert (Ht : (proc_shared_hash_table x ≫= fun t => t !! k) = None).
    { pose proof (proj1 (pages_not_mapped _ _) Hnin) as Hp. rewrite <- (ll_table _ _ _ K6) in Hp.
      by destruct (proc_shared_hash_table x). }
    rewrite Ht. eapply wp_mono; [eapply (map_page_spec s1 W q V k info f); [done..|]|].
    + intros _. split; [exact Hnext|]. intros _. lia.
    + intros r s2 (Hs2 & HW). split; [by eapply same_pids_trans|exact HW].
Qed.

Lemma run_create k : wp (shm_run (Create k)) (refines s W q (Create k)) s.
Proof.
  cbn [shm_run]. unfold shm_create, refines, shm_spec. rewrite abs_proc, abs_name.
  apply wp_bind, wp_bind, wp_gets, wp_bind, wp_kupd, wp_ret. rewrite Hm. cbn [negb].
  assert (Hok0 : shm_ok (s <| next_block ::= Pos.succ |>) W).
  { destruct (so_procs _ _ Hok q V HV) as (x & Hx).
    pose proof (shm_ok_fields s W q V x x (Pos.succ (next_block s)) Hok HV Hx (pk_lists _ _ _ _ _ Hx) eq_refl eq_refl ltac:(lia)) as H.
    rewrite <- (same_process s q x (pk_proc _ _ _ _ _ Hx)) in H. exact H. }
  apply wp_bind, get_page_spec; [done|].
  destruct (w_names W !! k) as [[info f]|] eqn:Ek; cbn [fmap option_fmap option_map fst snd].
  { apply wp_ret. split; [done|]. by exists W. }
  change (ab_free (abs W)) with (w_free W). destruct (w_free W) as [|f free] eqn:Ef; [cbn [length] in Hfree; lia|]. cbn [length] in Hfree.
  assert (Hne : free <> []) by (intros ->; cbn [length] in Hfree; lia).
  apply wp_bind. eapply wp_mono; [by eapply (create_page_spec _ W k f free)|]. intros r s1 (p & -> & Hs1 & Hok1).
  set (W1 := W <| w_names := <[k := (p, f)]> (w_names W) |> <| w_free := free |>) in *.
  apply wp_bind, wp_get_current. destruct Hs1 as (E1 & E2 & E3). rewrite E1, E2. cbn. rewrite Hcur.
  apply wp_bind. eapply wp_mono; [by eapply (create_wrapper_spec s1 W1 q V)|].
  intros r s2 (-> & Hs2 & Hready & Hok2). cbn [Z.ltb Z.compare].
  assert (Hnk : k ∉ page_keys V).
  { intros Hin. destruct (mapped_named _ _ _ _ _ Hok HV Hin) as [y Hy]. congruence. }
  eapply wp_mono; [eapply (map_page_spec s2 W1 q V k p f); [exact Hok2|done| |done..|]|].
  - simpl. by rewrite lookup_insert_eq.
  - intros _. split; [exact Hnext|]. intros _. simpl. lia.
  - intros r s3 (Hs3 & W' & HW & Hmap). split.
    + eapply same_pids_trans; [|exact Hs3]. eapply same_pids_trans; [|exact Hs2]. by split_and!.
    + exists W'. split; [exact HW|]. rewrite <- Hmap. unfold abs, W1. simpl. by rewrite fmap_insert.
Qed.

Lemma run_release k : wp (shm_run (Release k)) (refines s W q (Release k)) s.
Proof.
  cbn [shm_run]. unfold refines, shm_spec. rewrite abs_proc, abs_name. apply wp_bind.
  destruct (so_procs _ _ Hok q V HV) as (x & [K1 _ _ _ _ K6 _]). pose proof (ll_keys _ _ _ K6) as Hkeys.
  assert (Hreset : s <| custom_release_process := None |> = s) by (destruct s; simpl in *; by rewrite Hcustom).
  assert (Htarget : target_of s = Some q) by (unfold target_of; by rewrite Hcustom).
  destruct (w_names W !! k) as [[info f]|] eqn:Ek; cbn [fmap option_fmap option_map fst snd].
  2:{ unfold shm_release. apply wp_bind, get_page_spec; [done|]. rewrite Ek. apply wp_ret, wp_ret. split; [done|]. by exists W. }
  destruct (sh_maps (abs_view V) !! k) as [j|] eqn:Ej.
  - apply (abs_maps V k j Hkeys), list_elem_of_fmap in Ej as ([a ?] & [= <-] & Hin).
    eapply wp_mono; [by eapply (release_spec s W q V k info f a j)|]. intros [] s' (Hs' & V' & r & Hgb & Hok').
    apply wp_ret. rewrite Hreset in Hs'. split; [exact Hs'|]. eexists. split; [exact Hok'|]. f_equal.
    exact (abs_without W q V V' k a r j f Hgb Hkeys).
  - unfold shm_release. apply wp_bind, get_page_spec; [done|]. rewrite Ek. cbn [fmap option_fmap option_map fst].
    apply wp_bind. eapply release_target_spec; [exact Htarget|]. rewrite Hreset. cbv beta iota.
    apply wp_bind. unfold get_shared_page_proc. apply wp_bind. eapply wp_pget; [exact K1|]. apply wp_ret.
    assert (Ht : (proc_shared_hash_table x ≫= fun t => t !! k) = None).
    { apply (abs_unmapped V k), pages_not_mapped in Ej. rewrite <- (ll_table _ _ _ K6) in Ej. by destruct (proc_shared_hash_table x). }
    rewrite Ht. apply wp_ret, wp_ret. split; [done|]. by exists W.
Qed.

Lemma shm_run_refines op : wp (shm_run op) (refines s W q op) s.
Proof. destruct op as [k|k|k]; [apply run_create|apply run_acquire|apply run_release]. Qed.
End Calls.

(** ** Sequences of calls *)

(** Frames and places for [n] more calls. *)
Definition enough_for (a : shared_abs) (n : nat) : Prop :=
  (2 * n < length (ab_free a))%nat /\ map_Forall (fun _ sh => sh_next sh + Z.of_nat n <= 512 * 256) (ab_procs a).

Lemma next_place_cost sh free j sh' free' : next_place sh free = (j, sh', free') ->
  (length free <= S (length free'))%nat /\ sh_next sh' <= sh_next sh + 1.
Proof.
  unfold next_place. destruct (sh_holes sh) as [|i hs]; intros [= <- <- <-]; simpl; [|lia].
  split; [|lia]. destruct (_ =? 0); [|lia]. destruct free; simpl; lia.
Qed.

(** A process gets a place more, the others keep theirs. *)
Lemma enough_insert a a' q sh sh' n : enough_for a (S n) -> ab_procs a !! q = Some sh -> sh_next sh' <= sh_next sh + 1 ->
  ab_procs a' = <[q := sh']> (ab_procs a) -> (length (ab_free a) <= 2 + length (ab_free a'))%nat -> enough_for a' n.
Proof.
  intros [H1 H2] Hq Hs EP Hl. split; [lia|]. rewrite EP. intros q' u. rewrite lookup_insert. case_decide as Eq.
  - intros [= <-]. subst q'. specialize (H2 q sh Hq). simpl in H2. lia.
  - intros Hu. specialize (H2 q' u Hu). simpl in H2. lia.
Qed.

Lemma enough_less a n : enough_for a (S n) -> enough_for a n.
Proof. intros [H1 H2]. split; [lia|]. intros q u Hu. specialize (H2 q u Hu). simpl in H2. lia. Qed.

Lemma spec_enough q op a n : enough_for a (S n) -> enough_for (shm_spec q op a).2 n.
Proof.
  intros He. pose proof (enough_less a n He) as Hn. unfold shm_spec, map_page. destruct (ab_procs a !! q) as [sh|] eqn:Eq; [|done].
  destruct op as [k|k|k].
  - destruct (ab_names a !! k); [done|]. destruct (ab_free a) as [|f free] eqn:Ef; [done|].
    destruct (next_place sh _) as [[j sh'] free'] eqn:En. apply next_place_cost in En as [Hl Hs].
    eapply enough_insert; [exact He|exact Eq| |simpl; reflexivity|simpl]; [exact Hs|]. rewrite Ef. simpl in *. lia.
  - destruct (ab_names a !! k); [|done]. destruct (sh_maps sh !! k); [done|].
    destruct (next_place sh _) as [[j sh'] free'] eqn:En. apply next_place_cost in En as [Hl Hs].
    eapply enough_insert; [exact He|exact Eq| |simpl; reflexivity|simpl]; [exact Hs|lia].
  - destruct (ab_names a !! k) as [f|]; [|done]. destruct (sh_maps sh !! k) as [j|]; [|done].
    case_bool_decide; (eapply enough_insert; [exact He|exact Eq| |simpl; reflexivity|simpl]; [simpl; lia|lia]).
Qed.

Lemma spec_dom q op a : dom (ab_procs (shm_spec q op a).2) = dom (ab_procs a).
Proof.
  unfold shm_spec, map_page. destruct (ab_procs a !! q) as [sh|] eqn:Eq; [|done]. apply elem_of_dom_2 in Eq.
  destruct op as [k|k|k]; repeat case_match; simpl; try done; rewrite dom_insert_L; set_solver.
Qed.

Lemma abs_dom W : dom (ab_procs (abs W)) = dom (w_procs W).
Proof. apply dom_fmap_L. Qed.

(** The pids of the callers are those of the processes. *)
Definition callers s (l : list (Z * shm_op)) (qs : list (ptr * shm_op)) : Prop :=
  Forall2 (fun c d => pid_process_hash_table s !! c.1 = Some d.1 /\ c.2 = d.2) l qs.

Lemma shm_runs_refine W l : forall s qs,
  shm_ok s W -> custom_release_process s = None -> (forall p, malloc_ok p = true) -> callers s l qs ->
  Forall (fun d => is_Some (w_procs W !! d.1)) qs -> enough_for (abs W) (length l) ->
  wp (shm_runs l) (fun rs s' => exists W', shm_ok s' W' /\ shm_specs qs (abs W) = (rs, abs W')) s.
Proof.
  revert W. induction l as [|[id op] l IH]; intros W s qs Hok Hc Hm Hcall Hin He.
  - inversion Hcall; subst. apply wp_ret. by exists W.
  - inversion Hcall as [|c [q op'] l' qs' [Hid Hop] Hcall']; subst. simpl in Hid, Hop. subst op'.
    apply Forall_cons in Hin as [[V HV] Hin]. simpl in HV. cbn [shm_runs shm_specs]. apply wp_bind, wp_kput.
    set (s0 := s <| current_running_process_pid := id |>).
    assert (Hok0 : shm_ok s0 W) by exact (shm_ok_pids s W (custom_release_process s) id Hok).
    pose proof He as [He1 He2]. cbn [length] in He1, He2.
    assert (Hnext : pv_next V < 512 * 256).
    { specialize (He2 q _ (abs_proc W q V HV)). simpl in He2. lia. }
    apply wp_bind. eapply wp_mono.
    { apply (shm_run_refines s0 W q V); [exact Hok0|exact HV|exact Hid|exact Hc|exact Hm|simpl in He1; lia|exact Hnext]. }
    intros r s1 ((E1 & E2 & E3) & W1 & Hok1 & Hspec). rewrite Hspec. apply wp_bind.
    pose proof (spec_enough q op _ _ He) as He'. rewrite Hspec in He'. simpl in He'. eapply wp_mono.
    { apply (IH W1 s1 qs'); [exact Hok1|by rewrite E3|exact Hm| | |exact He'].
      - unfold callers. rewrite E1. exact Hcall'.
      - eapply Forall_impl; [exact Hin|]. intros d HU. rewrite <- elem_of_dom in HU |- *.
        assert (Hd : dom (w_procs W1) = dom (w_procs W)).
        { pose proof (spec_dom q op (abs W)) as Hd. rewrite Hspec in Hd.
          etrans; [symmetry; apply abs_dom|]. etrans; [exact Hd|apply abs_dom]. }
        by rewrite Hd. }
    intros rs s2 (W2 & Hok2 & Hspecs). rewrite Hspecs. apply wp_ret. by exists W2.
Qed.

(** ** What the processes see *)

(** The shared part of the address space of each process is the one of the
    abstract description: an address of a mapped place leads to the frame of
    the name, in which the process reads and writes, any other address faults;
    the frames of the names are distinct and none is free. *)
Record translated s (a : shared_abs) : Prop := {
  tr_mapped : forall q sh k va, ab_procs a !! q = Some sh -> shared_part va -> sh_maps sh !! k = Some (place_at va) ->
    exists x f p, procs s !! q = Some x /\ ab_names a !! k = Some f /\
      sv39_walk (word (frame_mem s)) (page_table_level_2 x) va = Some (f + va mod 4096, p) /\ user_access p false;
  tr_unmapped : forall q sh va, ab_procs a !! q = Some sh -> shared_part va -> (forall k, sh_maps sh !! k <> Some (place_at va)) ->
    exists x, procs s !! q = Some x /\ sv39_walk (word (frame_mem s)) (page_table_level_2 x) va = None;
  tr_place : forall q sh k j, ab_procs a !! q = Some sh -> sh_maps sh !! k = Some j -> 0 <= j < 512 * 256;
  tr_distinct : forall k k' f, ab_names a !! k = Some f -> ab_names a !! k' = Some f -> k = k';
  tr_held : forall k f, ab_names a !! k = Some f -> f ∉ ab_free a
}.

Lemma shm_translated s W : shm_ok s W -> translated s (abs W).
Proof.
  intros Hok. assert (Hname : forall k f, ab_names (abs W) !! k = Some f -> exists p, w_names W !! k = Some (p, f)).
  { intros k f. rewrite abs_name. destruct (w_names W !! k) as [[p g]|]; [|done]. intros [= ->]. by exists p. }
  assert (Hproc : forall q sh, ab_procs (abs W) !! q = Some sh -> exists V x, sh = abs_view V /\ proc_ok s (snd <$> w_names W) q V x).
  { intros q sh. simpl. rewrite lookup_fmap. destruct (w_procs W !! q) as [V|] eqn:EV; [|done]. intros [= <-].
    destruct (so_procs _ _ Hok q V EV) as [x Hx]. by exists V, x. }
  split.
  - intros q sh k va Hq Hva Hk. destruct (Hproc q sh Hq) as (V & x & -> & Hx).
    destruct (shared_walk _ _ _ _ _ va Hx Hva) as [Hw _]. destruct (Hw k Hk) as (f & p & Hf & Hwalk & Hu).
    exists x, f, p. split; [apply Hx|]. split; [exact Hf|]. split; [|exact Hu]. apply Hwalk.
    destruct (Hname k f Hf) as [p' Hp']. apply (so_frame _ _ Hok _ _ _ Hp').
  - intros q sh va Hq Hva Hk. destruct (Hproc q sh Hq) as (V & x & -> & Hx).
    destruct (shared_walk _ _ _ _ _ va Hx Hva) as [_ Hw]. exists x. split; [apply Hx|]. by apply Hw.
  - intros q sh k j Hq Hk. destruct (Hproc q sh Hq) as (V & x & -> & [_ _ _ K4 _ K6 _]).
    apply (abs_maps V k j (ll_keys _ _ _ K6)) in Hk. pose proof (no_room _ _ K4).
    pose proof (given_places _ _ _ K4 K6 j) as Hj. rewrite elem_of_app in Hj.
    assert (Hin : j ∈ page_places V) by (apply list_elem_of_fmap; by exists (k, j)). specialize (Hj (or_introl Hin)). lia.
  - intros k k' f Hk Hk'. destruct (Hname _ _ Hk) as [p Hp], (Hname _ _ Hk') as [p' Hp']. by eapply (so_distinct _ _ Hok).
  - intros k f Hk. destruct (Hname _ _ Hk) as [p Hp]. apply (so_frame _ _ Hok _ _ _ Hp).
Qed.


Lemma place_offset j o : 0 <= j < 512 * 256 -> 0 <= o < 4096 ->
  shared_part (place_address j + o) /\ place_at (place_address j + o) = j /\ (place_address j + o) mod 4096 = o.
Proof. intros Hj Ho. unfold shared_part, place_at, place_address, SHARED_BASE. split_and!; mlia. Qed.

(** The words of a page a process maps. *)
Lemma seen_at s a q sh k j f : translated s a -> ab_procs a !! q = Some sh -> sh_maps sh !! k = Some j ->
  ab_names a !! k = Some f -> exists x, procs s !! q = Some x /\ forall o, 0 <= o < 4096 ->
    shared_part (place_address j + o) /\ exists p,
    sv39_walk (word (frame_mem s)) (page_table_level_2 x) (place_address j + o) = Some (f + o, p) /\ user_access p false.
Proof.
  intros Htr Hq Hk Hf. pose proof (tr_place _ _ Htr _ _ _ _ Hq Hk) as Hj.
  assert (Hall : forall o, 0 <= o < 4096 -> exists x p, procs s !! q = Some x /\
    shared_part (place_address j + o) /\
    sv39_walk (word (frame_mem s)) (page_table_level_2 x) (place_address j + o) = Some (f + o, p) /\ user_access p false).
  { intros o Ho. destruct (place_offset j o Hj Ho) as (Hs & Ep & Em). rewrite <- Ep in Hk.
    destruct (tr_mapped _ _ Htr q sh k _ Hq Hs Hk) as (x & f' & p & Hx & Hf' & Hw & Hu).
    rewrite Hf in Hf'. injection Hf' as <-. rewrite Em in Hw. by exists x, p. }
  destruct (Hall 0 ltac:(lia)) as (x & _ & Hx & _). exists x. split; [done|]. intros o Ho.
  destruct (Hall o Ho) as (x' & p & Hx' & Hs & Hw & Hu). rewrite Hx in Hx'. injection Hx' as <-. split; [done|]. by exists p.
Qed.

(** The description of a creation followed by an acquisition. *)
Lemma shared_outcome W k q1 q2 V1 V2 rs a : w_procs W !! q1 = Some V1 -> w_procs W !! q2 = Some V2 -> q1 <> q2 ->
  w_names W !! k = None -> k ∉ page_keys V2 -> enough_for (abs W) 2 ->
  shm_specs [(q1, Create k); (q2, Acquire k)] (abs W) = (rs, a) ->
  exists j1 j2 sh1 sh2 f, rs = [place_address j1; place_address j2] /\ ab_procs a !! q1 = Some sh1 /\
    ab_procs a !! q2 = Some sh2 /\ sh_maps sh1 !! k = Some j1 /\ sh_maps sh2 !! k = Some j2 /\ ab_names a !! k = Some f.
Proof.
  intros HV1 HV2 Hne Hk Hk2 [He _]. cbn [shm_specs]. unfold shm_spec at 1. rewrite (abs_proc W q1 V1 HV1), abs_name, Hk.
  destruct (ab_free (abs W)) as [|f free]; [simpl in He; lia|]. cbn [fmap option_fmap option_map]. unfold map_page at 1.
  destruct (next_place (abs_view V1) _) as [[j1 sh1] fr1]. unfold shm_spec. cbn [ab_procs ab_names].
  pose proof (abs_proc W q2 V2 HV2) as Hq2. simpl in Hq2. simpl. rewrite lookup_insert_ne, Hq2, lookup_insert_eq by done.
  rewrite (proj2 (abs_unmapped V2 k) Hk2). unfold map_page.
  destruct (next_place (abs_view V2) _) as [[j2 sh2] fr2]. intros [= <- <-]. simpl.
  eexists j1, j2, _, _, f. split; [done|]. rewrite lookup_insert_ne, !lookup_insert_eq by done.
  split; [done|]. split; [done|]. simpl. by rewrite !lookup_insert_eq.
Qed.

(** C16: two processes share a page.  When one process creates a page under a
    new name and another one acquires it, both calls return an address, and
    at each offset the two addresses lead to the same word of the same frame,
    which each of them may read and write: what one writes the other reads. *)
Theorem shared_page_is_shared s W k id1 id2 q1 q2 :
  shm_ok s W -> custom_release_process s = None -> (forall p, malloc_ok p = true) ->
  pid_process_hash_table s !! id1 = Some q1 -> pid_process_hash_table s !! id2 = Some q2 -> q1 <> q2 ->
  is_Some (w_procs W !! q1) -> is_Some (w_procs W !! q2) -> w_names W !! k = None -> enough_for (abs W) 2 ->
  exists s' va1 va2 x1 x2 f, shm_runs [(id1, Create k); (id2, Acquire k)] s = Ok ([va1; va2], s') /\
    procs s' !! q1 = Some x1 /\ procs s' !! q2 = Some x2 /\
    forall o, 0 <= o < 4096 -> shared_part (va1 + o) /\ shared_part (va2 + o) /\ exists p1 p2,
      sv39_walk (word (frame_mem s')) (page_table_level_2 x1) (va1 + o) = Some (f + o, p1) /\
      sv39_walk (word (frame_mem s')) (page_table_level_2 x2) (va2 + o) = Some (f + o, p2) /\
      user_access p1 false /\ user_access p2 false.
Proof.
  intros Hok Hc Hm H1 H2 Hne [V1 HV1] [V2 HV2] Hk He.
  assert (Hwp := shm_runs_refine W [(id1, Create k); (id2, Acquire k)] s [(q1, Create k); (q2, Acquire k)] Hok Hc Hm).
  destruct (wp_elim _ _ _ (Hwp ltac:(by repeat constructor) ltac:(repeat constructor; by eexists) He)) as (rs & s' & Hrun & W' & Hok' & Hspec).
  pose proof (shm_translated _ _ Hok') as Htr.
  destruct (shared_outcome W k q1 q2 V1 V2 rs (abs W')) as (j1 & j2 & sh1 & sh2 & f & -> & Hq1 & Hq2 & Hm1 & Hm2 & Hf); try done.
  { intros Hin. destruct (mapped_named _ _ _ _ _ Hok HV2 Hin) as [y Hy]. congruence. }
  pose proof (tr_place _ _ Htr _ _ _ _ Hq1 Hm1) as Hj1. pose proof (tr_place _ _ Htr _ _ _ _ Hq2 Hm2) as Hj2.
  destruct (seen_at _ _ _ _ _ _ _ Htr Hq1 Hm1 Hf) as (x1 & Hx1 & Hs1).
  destruct (seen_at _ _ _ _ _ _ _ Htr Hq2 Hm2 Hf) as (x2 & Hx2 & Hs2).
  exists s', (place_address j1), (place_address j2), x1, x2, f. split; [exact Hrun|]. split; [done|]. split; [done|].
  intros o Ho. destruct (Hs1 o Ho) as (Hp1 & p1 & Hw1 & Hu1), (Hs2 o Ho) as (Hp2 & p2 & Hw2 & Hu2).
  split; [done|]. split; [done|]. by exists p1, p2.
Qed.

(** ... and those of a place where it maps none. *)
Lemma seen_gone s a q sh j : translated s a -> ab_procs a !! q = Some sh -> (forall k, sh_maps sh !! k <> Some j) ->
  0 <= j < 512 * 256 -> exists x, procs s !! q = Some x /\ forall o, 0 <= o < 4096 ->
    sv39_walk (word (frame_mem s)) (page_table_level_2 x) (place_address j + o) = None.
Proof.
  intros Htr Hq Hk Hj.
  assert (Hall : forall o, 0 <= o < 4096 -> exists x, procs s !! q = Some x /\
    sv39_walk (word (frame_mem s)) (page_table_level_2 x) (place_address j + o) = None).
  { intros o Ho. destruct (place_offset j o Hj Ho) as (Hs & Ep & _). rewrite <- Ep in Hk. by eapply (tr_unmapped _ _ Htr). }
  destruct (Hall 0 ltac:(lia)) as (x & Hx & _). exists x. split; [done|]. intros o Ho.
  destruct (Hall o Ho) as (x' & Hx' & Hw). rewrite Hx in Hx'. by injection Hx' as <-.
Qed.

(** Only one name is mapped at a place. *)
Lemma place_alone s x V k j : lists_ok s x V -> sh_maps (abs_view V) !! k = Some j ->
  forall k', delete k (sh_maps (abs_view V)) !! k' <> Some j.
Proof.
  intros Hl Hk k' [Hne Hk']%lookup_delete_Some. pose proof (ll_keys _ _ _ Hl) as Hkeys.
  apply (abs_maps V k j Hkeys), list_elem_of_lookup in Hk as [i Hi].
  apply (abs_maps V k' j Hkeys), list_elem_of_lookup in Hk' as [i' Hi'].
  pose proof (ll_places _ _ _ Hl) as Hnd. apply NoDup_app in Hnd as [Hnd _].
  assert (i = i') as ->; [|congruence]. eapply (NoDup_lookup (page_places V) _ _ j Hnd); unfold page_places;
    rewrite list_lookup_fmap; [by rewrite Hi|by rewrite Hi'].
Qed.

(** C17: releasing a page.  [shm_release] makes every address of the page
    fault for the process that releases it.  When no other process maps the
    page its name is forgotten and its frame becomes the next free one; as long
    as another process maps it, the page keeps its name and its frame and the
    others reach it as before. *)
Theorem shm_release_unmaps s W q sh k j f :
  shm_ok s W -> custom_release_process s = None -> (forall p, malloc_ok p = true) ->
  pid_process_hash_table s !! current_running_process_pid s = Some q ->
  ab_procs (abs W) !! q = Some sh -> sh_maps sh !! k = Some j -> ab_names (abs W) !! k = Some f ->
  exists s' W', shm_release (Some k) s = Ok (tt, s') /\ shm_ok s' W' /\
    (exists x, procs s' !! q = Some x /\
       forall o, 0 <= o < 4096 -> sv39_walk (word (frame_mem s')) (page_table_level_2 x) (place_address j + o) = None) /\
    ((forall q' sh', q' <> q -> ab_procs (abs W) !! q' = Some sh' -> sh_maps sh' !! k = None) ->
       ab_names (abs W') !! k = None /\ ab_free (abs W') = f :: ab_free (abs W)) /\
    (forall q' sh' j', q' <> q -> ab_procs (abs W) !! q' = Some sh' -> sh_maps sh' !! k = Some j' ->
       ab_names (abs W') = ab_names (abs W) /\ ab_free (abs W') = ab_free (abs W) /\
       exists x, procs s' !! q' = Some x /\ forall o, 0 <= o < 4096 -> shared_part (place_address j' + o) /\ exists p,
         sv39_walk (word (frame_mem s')) (page_table_level_2 x) (place_address j' + o) = Some (f + o, p) /\ user_access p false).
Proof.
  intros Hok Hc Hm Hcur Hq Hk Hf. assert (HV : exists V, w_procs W !! q = Some V /\ sh = abs_view V).
  { simpl in Hq. rewrite lookup_fmap in Hq. destruct (w_procs W !! q) as [V|]; [|done]. injection Hq as <-. by exists V. }
  destruct HV as (V & HV & ->). destruct (so_procs _ _ Hok q V HV) as (x & [_ _ _ K4 _ K6 _]).
  pose proof (ll_keys _ _ _ K6) as Hkeys. rewrite abs_name in Hf. destruct (w_names W !! k) as [[info f']|] eqn:Ek; [|done].
  injection Hf as ->. pose proof Hk as Hin. apply (abs_maps V k j Hkeys), list_elem_of_fmap in Hin as ([a kj] & E1 & Hin). simpl in E1. subst kj.
  assert (Ht : target_of s = Some q) by (unfold target_of; by rewrite Hc).
  pose proof (release_spec s W q V k info f a j Hok HV Ek Hin Ht Hm) as Hwp.
  apply wp_elim in Hwp as ([] & s' & Hrun & _ & V' & r & Hgb & Hok'). exists s', (without W q V' k f).
  pose proof (shm_translated _ _ Hok') as Htr. pose proof (abs_without W q V V' k a r j f Hgb Hkeys) as Ha. cbn zeta in Ha.
  pose proof (place_alone _ _ _ k j K6 Hk) as Hgone.
  split; [exact Hrun|]. split; [exact Hok'|].
  set (sh' := abs_view V <| sh_maps := delete k (sh_maps (abs_view V)) |> <| sh_holes := j :: sh_holes (abs_view V) |>) in *.
  assert (Hq' : ab_procs (abs (without W q V' k f)) = <[q := sh']> (ab_procs (abs W))) by (rewrite <- Ha; by case_bool_decide).
  split; [|split].
  - eapply seen_gone; [exact Htr|by rewrite Hq', lookup_insert_eq|exact Hgone|].
    exact (tr_place _ _ (shm_translated _ _ Hok) q _ k j Hq Hk).
  - intros Hno. rewrite <- Ha. rewrite bool_decide_eq_true_2; [simpl; split; [apply lookup_delete_eq|done]|].
    intros q' u. rewrite lookup_insert. case_decide as Eq; [|by apply Hno]. intros [= <-]. apply lookup_delete_eq.
  - intros q' u j' Hne Hu Hk'. assert (Hu' : ab_procs (abs (without W q V' k f)) !! q' = Some u) by (by rewrite Hq', lookup_insert_ne).
    assert (Hsame : abs (without W q V' k f) = abs W <| ab_procs := <[q := sh']> (ab_procs (abs W)) |>).
    { rewrite <- Ha. rewrite bool_decide_eq_false_2; [done|]. intros Hall. specialize (Hall q' u).
      rewrite lookup_insert_ne in Hall by done. specialize (Hall Hu). simpl in Hall. congruence. }
    assert (Hf' : ab_names (abs (without W q V' k f)) !! k = Some f) by (rewrite Hsame; simpl; by rewrite lookup_fmap, Ek).
    split; [by rewrite Hsame|]. split; [by rewrite Hsame|]. exact (seen_at _ _ _ _ _ _ _ Htr Hu' Hk' Hf').
Qed.

End SharedRefinement.
