(* ===== verification/ProcessFree.v ===== *)
(** * ProcessFree: giving back the memory of a process

    [free_frames_indexed], [free_frames_page_table] and [free_process_memory]
    of [src/kernel/process/process_memory.c]. *)

From S2P Require Import Prelude.
From S2P Require Import Queue.
From S2P Require Import FrameDist.
From S2P Require Import Pages.
From S2P Require Import Kernel.
From S2P Require Import ProcessMemory.
From S2P Require Import SharedMemory.
#[local] Open Scope Z_scope.

Section ProcessFree.
Context `{E : KEnv}.

(** [free_frames_indexed]: [k] entries from [pte_index] on. *)
Fixpoint free_frames_loop (k : nat) (table pte_index : Z) : M fmem unit :=
  match k with
  | O => mret tt
  | S k =>
      w ← load (pte_at table pte_index);
      _ ← release_frame (find_pte_adress (pte_of_word w));
      free_frames_loop k table (pte_index + 1)
  end.
Definition free_frames_indexed (table start_index end_index : Z) : K Z :=
  if table =? 0 then mret (-1)
  else _ ← in_frames (free_frames_loop (Z.to_nat (end_index - start_index)) table start_index); mret 0.

Definition free_frames_page_table (page_table_link : option ptr) : K Z :=
  match page_table_link with
  | None => mret (-1)
  | Some _ =>
      n ← rd pt_nodes page_table_link;
      if (stack_usage n =? 0) && (heap_usage n =? 0) && (shared_memory_usage n =? 0) then
        if SHARED_MEMORY_START <=? index n then mret 0
        else _ ← free_frames_indexed (pt_table n) 0 (usage n); mret 0
      else
        _ ← free_frames_indexed (pt_table n) STACK_CODE_SPACE_START (STACK_CODE_SPACE_START + stack_usage n);
        _ ← free_frames_indexed (pt_table n) HEAP_SPACE_START (HEAP_SPACE_START + heap_usage n);
        _ ← free_frames_indexed (pt_table n) SHARED_MEMORY_START (SHARED_MEMORY_START + shared_memory_usage n);
        mret 0
  end.

(** The loop that releases the shared pages of the process. *)
Fixpoint release_shared_pages (fuel : nat) (proc shared_iter : option ptr) : K unit :=
  match fuel with
  | O => fail OutOfFuel
  | S fuel =>
      match shared_iter with
      | None => mret tt
      | Some _ =>
          n ← rd shared_nodes shared_iter;
          _ ← set_custom_release_process proc;
          _ ← shm_release (Some (key n));
          _ ← set_custom_release_process None;
          release_shared_pages fuel proc (next_shared_page n)
      end
  end.

(** The loop over the released pages: [released_iter_prev] stays where it is. *)
Fixpoint free_released_pages (fuel : nat) (released_iter released_iter_prev : option ptr) : K unit :=
  match fuel with
  | O => fail OutOfFuel
  | S fuel =>
      match released_iter with
      | None => mret tt
      | Some _ =>
          r ← rd released_nodes released_iter;
          _ ← free released_nodes released_iter_prev;
          free_released_pages fuel (next_released_page r) released_iter_prev
      end
  end.

(** The loop over the level-0 tables. *)
Fixpoint free_lvl0_tables (fuel : nat) (lvl0_iter : option ptr) : K unit :=
  match fuel with
  | O => fail OutOfFuel
  | S fuel =>
      match lvl0_iter with
      | None => mret tt
      | Some _ =>
          n ← rd pt_nodes lvl0_iter;
          _ ← free_frames_page_table lvl0_iter;
          _ ← free pt_nodes lvl0_iter;
          free_lvl0_tables fuel (next_page n)
      end
  end.

(** The shared pages of the process and the holes they left. *)
Definition free_process_shared (proc : option ptr) : K unit :=
  t ← pget proc proc_shared_hash_table;
  match t with
  | None => mret tt
  | Some _ =>
      w ← pget proc shared_pages;
      w ← lift (deref w);
      fuel ← gets (walk_fuel shared_nodes);
      _ ← release_shared_pages fuel proc (head_shared_page w);
      released ← pget proc released_pages_list;
      fuel ← gets (walk_fuel released_nodes);
      _ ← free_released_pages fuel released released;
      pset proc proc_shared_hash_table (Some ∅)
  end.

(** The page tables of the process, the frames they map and the frame of the
    trap stack. *)
Definition free_process_tables (proc : option ptr) : K unit :=
  l2 ← pget proc page_table_level_2;
  if l2 =? 0 then mret tt
  else
    l1 ← pget proc page_tables_lvl_1_list;
    n1 ← rd pt_nodes l1;
    fuel ← gets (walk_fuel pt_nodes);
    _ ← free_lvl0_tables fuel (head_page n1);
    _ ← free_frames_page_table l1;
    n1 ← rd pt_nodes l1;
    _ ← in_frames (release_frame (pt_table n1));
    _ ← in_frames (release_frame l2);
    sscratch ← pget proc sscratch_frame;
    _ ← in_frames (release_frame sscratch);
    free pt_nodes l1.

(** The block of a process holds its queue links. *)
Definition free_process_block (p : ptr) : K unit :=
  _ ← free procs (Some p); kupd links (delete (inr p)).

Definition free_process_memory (proc : option ptr) : K Z :=
  match proc with
  | None => mret (-1)
  | Some p =>
      _ ← kupd nb_proc_running (fun x => wrapS 32 (x - 1));
      _ ← free_process_shared proc;
      _ ← free_process_tables proc;
      id ← pget proc pid;
      _ ← kupd pid_process_hash_table (delete id);
      _ ← pset proc context_process None;
      _ ← pset proc process_name None;
      _ ← save_pid id;
      _ ← free_process_block p;
      mret 0
  end.

End ProcessFree.
