(* ===== verification/Scheduler.v ===== *)
(** * Scheduler: choosing the running process, [src/kernel/process/scheduler.c]

    [scheduler k] is a call of [scheduler()] after which the caller would go on
    with [k]; its result is the continuation that runs when it is done: [k]
    itself when no switch happens, the saved one of the chosen process
    otherwise. *)

From S2P Require Import Prelude.
From S2P Require Import Queue.
From S2P Require Import FrameDist.
From S2P Require Import Pages.
From S2P Require Import Kernel.
From S2P Require Import ProcessFree.
#[local] Open Scope Z_scope.

Section Scheduler.
Context `{E : KEnv}.

(** [current_clock] of [timer_api.c] *)
Definition current_clock : K Z := gets counter.

Definition get_next_wake_time : K Z :=
  p ← qtop asleep_process_queue;
  match p with
  | None => mret 0
  | Some _ =>
      w ← pget p wake_time;
      let minus := wrapS 64 (- w) in
      _ ← lift (assert_ (0 <=? minus));
      mret (wrapU 64 minus)
  end.

Fixpoint awake_loop (fuel : nat) (wake : Z) : K unit :=
  match fuel with
  | O => fail OutOfFuel
  | S fuel =>
      now ← current_clock;
      if negb (wake =? 0) && (wake <? now) then
        awake ← qout asleep_process_queue;
        _ ← qadd awake activatable_process_queue prio;
        wake ← get_next_wake_time;
        awake_loop fuel wake
      else mret tt
  end.
Definition awake_sleeping_process : K unit :=
  wake ← get_next_wake_time;
  fuel ← gets (walk_fuel procs);
  awake_loop fuel wake.

Fixpoint free_dead_loop (fuel : nat) : K unit :=
  match fuel with
  | O => fail OutOfFuel
  | S fuel =>
      empty ← qempty dead_process_queue;
      if (empty : bool) then mret tt
      else
        top ← qout dead_process_queue;
        _ ← free_process_memory top;
        free_dead_loop fuel
  end.
Definition free_dead_process : K unit := fuel ← gets (walk_fuel procs); free_dead_loop fuel.

(** [context_switch.S]: the running code saves where it is in the context of
    [current] and the processor goes on with the context of [future]. *)
Definition save_context (current : option ptr) (k : kont) : K unit :=
  c ← pget current context_process;
  c ← lift (deref c);
  pset current context_process (Some (mk_context (sp c) k (s1 c) (s2 c) (sscratch c) (sepc c) (ctx_satp c))).
(** [direct_context_swap.S] *)
Definition direct_context_swap (future : option ptr) : K kont :=
  c ← pget future context_process;
  c ← lift (deref c);
  mret (ra c).
Definition context_switch (current future : option ptr) (k : kont) : K kont :=
  _ ← save_context current k; direct_context_swap future.

(** The first call: no process has run yet. *)
Definition scheduler_first (k : kont) : K kont :=
  top ← qtop activatable_process_queue;
  match top with
  | None => mret k
  | Some _ =>
      _ ← qout activatable_process_queue;
      id ← pget top pid;
      r ← setpid id;
      if r <? 0 then mret k
      else
        _ ← pset top state ACTIF;
        _ ← kput started_user_process true;
        _ ← kput scheduler_main (Some k);
        direct_context_swap top
  end.

(** The first call with a process chosen by the caller. *)
Definition scheduler_custom (k : kont) : K kont :=
  id ← getpid;
  top ← get_process_struct_of_pid id;
  match top with
  | None => mret k
  | Some _ =>
      _ ← kput started_user_process true;
      _ ← kput scheduler_main (Some k);
      direct_context_swap top
  end.

(** Every later call. *)
Definition scheduler_normal (k : kont) : K kont :=
  current ← get_current_process;
  top ← qtop activatable_process_queue;
  match top, current with
  | Some _, Some _ =>
      st ← pget current state;
      id ← pget top pid;
      match st with
      | ACTIF =>
          top_prio ← pget top prio;
          current_prio ← pget current prio;
          if current_prio <=? top_prio then
            _ ← qout activatable_process_queue;
            r ← setpid id;
            if r <? 0 then mret k
            else
              _ ← pset current state ACTIVATABLE;
              _ ← pset top state ACTIF;
              _ ← qadd current activatable_process_queue prio;
              context_switch current top k
          else mret k
      | KILLED =>
          _ ← qadd current dead_process_queue prio;
          _ ← qout activatable_process_queue;
          r ← setpid id;
          if r <? 0 then mret k
          else _ ← pset top state ACTIF; direct_context_swap top
      | _ =>
          _ ← qout activatable_process_queue;
          r ← setpid id;
          if r <? 0 then mret k
          else _ ← pset top state ACTIF; context_switch current top k
      end
  | _, _ => mret k
  end.

Definition scheduler (k : kont) : K kont :=
  _ ← kput sstatus_spp false;
  _ ← awake_sleeping_process;
  _ ← free_dead_process;
  main ← gets scheduler_main;
  match main with
  | None => mret k
  | Some _ =>
      id ← getpid;
      if id =? -1 then scheduler_first k
      else
        started ← gets started_user_process;
        if (started : bool) then scheduler_normal k else scheduler_custom k
  end.

(** [wait_clock] and [sleep] of [timer_api.c] *)
Definition TIC_PER : Z := 50.

Definition wait_clock (clock : Z) : K kont :=
  current ← get_current_process;
  now ← current_clock;
  _ ← pset current wake_time (wrapS 64 (- (wrapU 64 (now + clock))));
  _ ← pset current state ASLEEP;
  _ ← qadd current asleep_process_queue wake_time;
  scheduler (KRet 0 []).

Definition sleep (nbr_ms : Z) : K kont := wait_clock (nbr_ms / TIC_PER).

End Scheduler.
