(* ===== verification/SchedulerSpec.v ===== *)
(** * SchedulerSpec: what the scheduler promises

    The scheduling invariant, the effect of [awake_sleeping_process] and
    [scheduler] on the lists of ready and sleeping processes, and the
    properties of the choice: the running process has the highest priority of
    the ready ones, equals take turns, sleepers wake when their time is past. *)

From S2P Require Import Prelude.
From S2P Require Import Queue.
From S2P Require Import FrameDist.
From S2P Require Import Pages.
From S2P Require Import Kernel.
From S2P Require Import KernelRules.
From S2P Require Import ProcessFree.
From S2P Require Import Scheduler.
#[local] Open Scope Z_scope.

Abbreviation queues := (gmap qhead (list ptr)).

(** The invariant of the scheduler's data: the links represent the queues
    [Q]; queued processes exist; the pid table and the processes agree; every
    process has a context; wake times have the sign [wait_clock] gives them. *)
Record sched_inv (s : kstate) (Q : queues) : Prop := {
  si_rep : rep (links s) Q;
  si_linked : forall p, is_Some (procs s !! p) -> linked s p;
  si_queued : forall p, queued Q p -> is_Some (procs s !! p);
  si_table : forall id p, pid_process_hash_table s !! id = Some p <->
    exists x, procs s !! p = Some x /\ pid x = id;
  si_pid : forall p x, procs s !! p = Some x -> 0 <= pid x;
  si_ctx : forall p x, procs s !! p = Some x -> is_Some (context_process x);
  si_wake : forall L p x, Q !! asleep_process_queue = Some L -> p ∈ L -> procs s !! p = Some x ->
    - 2 ^ 63 < wake_time x <= 0
}.

(** ** Waking sleepers *)

(** The sleepers, soonest first, and the ready list, after the wake-up loop. *)
Fixpoint wake_ready (wt pr : ptr -> Z) (now : Z) (rs A : list ptr) : list ptr * list ptr :=
  match rs with
  | [] => ([], A)
  | p :: rs' =>
      if negb (- wt p =? 0) && (- wt p <? now) then wake_ready wt pr now rs' (insert_prio pr p A)
      else (rs, A)
  end.

Section Spec.
Context `{E : KEnv}.
Implicit Types (s : kstate) (Q : queues) (p : ptr) (A L : list ptr).

Lemma si_length s Q h xs : sched_inv s Q -> Q !! h = Some xs -> (length xs <= base.size (procs s))%nat.
Proof.
  intros Hinv HQ. destruct (rep_ring _ _ (si_rep _ _ Hinv) _ _ HQ) as [_ Hnd].
  rewrite <- size_dom. rewrite <- (size_list_to_set (C := gset ptr)) by done.
  apply subseteq_size. intros p. rewrite elem_of_list_to_set, elem_of_dom. intros Hp.
  eapply si_queued; [done|]. by eapply queued_in.
Qed.

(** The invariant only reads the links, the processes and the table of pids. *)
Lemma sched_inv_frame s s' Q :
  links s' = links s -> procs s' = procs s -> pid_process_hash_table s' = pid_process_hash_table s ->
  sched_inv s Q -> sched_inv s' Q.
Proof.
  intros El Ep Et [Hr Hl Hq Ht Hp Hc Hw]. split; unfold linked in *; rewrite ?El, ?Ep, ?Et; try done.
Qed.

(** Links may change without the rest of the state. *)
Lemma sched_inv_links s Q l Q' :
  sched_inv s Q -> dom l = dom (links s) -> rep l Q' ->
  (forall p, queued Q' p -> is_Some (procs s !! p)) ->
  (forall L p x, Q' !! asleep_process_queue = Some L -> p ∈ L -> procs s !! p = Some x -> - 2 ^ 63 < wake_time x <= 0) ->
  sched_inv (s <| links := l |>) Q'.
Proof.
  intros [Hr Hl Hq Ht Hp Hc Hw] Hd Hr' Hq' Hw'. split; try done.
  intros p Hps. unfold linked. simpl. rewrite <- elem_of_dom, Hd, elem_of_dom. by apply Hl.
Qed.

Lemma sched_inv_relink s Q h xs ys l :
  sched_inv s Q -> Q !! h = Some xs -> dom l = dom (links s) -> rep l (<[h := ys]> Q) ->
  (forall p, p ∈ ys -> p ∈ xs \/ exists x, procs s !! p = Some x /\
    (h = asleep_process_queue -> - 2 ^ 63 < wake_time x <= 0)) ->
  sched_inv (s <| links := l |>) (<[h := ys]> Q).
Proof.
  intros Hinv HQ Hd Hr Hys. eapply sched_inv_links; [done..| |].
  - intros p Hp. apply (queued_insert _ _ _ _ _ HQ) in Hp as [Hp|Hp]; [by eapply si_queued|].
    apply Hys in Hp as [Hp|(x & Hx & _)]; [|by eexists]. eapply si_queued; [done|]. by eapply queued_in.
  - intros L p x HL Hp Hx. rewrite lookup_insert in HL. case_decide; [|by eapply (si_wake _ _ Hinv)].
    simplify_eq. apply Hys in Hp as [Hp|(x' & Hx' & Hw)]; [by eapply (si_wake _ _ Hinv)|].
    simplify_eq. by apply Hw.
Qed.

(** The queue macros under the invariant. *)
Lemma wp_qout_inv s Q h xs p (Φ : option ptr -> kstate -> Prop) :
  sched_inv s Q -> Q !! h = Some (xs ++ [p]) ->
  (forall l, sched_inv (s <| links := l |>) (<[h := xs]> Q) -> ~ queued (<[h := xs]> Q) p ->
    Φ (Some p) (s <| links := l |>)) ->
  wp (qout h) Φ s.
Proof.
  intros Hinv HQ HΦ. eapply wp_qout; [apply Hinv|done|]. intros l Hd Hr. apply HΦ.
  - eapply sched_inv_relink; [done..|]. intros q Hq. left. by apply elem_snoc_init.
  - eapply not_queued_out; [apply Hinv|done].
Qed.

Lemma wp_qadd_inv s Q h xs p x field (Φ : unit -> kstate -> Prop) :
  sched_inv s Q -> Q !! h = Some xs -> procs s !! p = Some x -> ~ queued Q p ->
  (h = asleep_process_queue -> - 2 ^ 63 < wake_time x <= 0) ->
  (forall l, sched_inv (s <| links := l |>) (<[h := insert_prio (pfield s field) p xs]> Q) ->
    Φ tt (s <| links := l |>)) ->
  wp (qadd (Some p) h field) Φ s.
Proof.
  intros Hinv HQ Hx Hnq Hw HΦ. eapply wp_qadd; [apply Hinv|done| |done| |].
  - apply (si_linked _ _ Hinv). by eexists.
  - intros q [->|Hq]%elem_of_cons; [by eexists|]. eapply si_queued; [done|]. by eapply queued_in.
  - intros l Hd Hr. apply HΦ. eapply sched_inv_relink; [done..|].
    intros q [->|Hq]%elem_of_insert_prio; [right; by eexists|by left].
Qed.

Lemma run_qout s Q h xs p :
  sched_inv s Q -> Q !! h = Some (xs ++ [p]) ->
  exists l, qout h s = Ok (Some p, s <| links := l |>) /\ sched_inv (s <| links := l |>) (<[h := xs]> Q) /\
    ~ queued (<[h := xs]> Q) p.
Proof.
  intros Hinv HQ. assert (Hwp : wp (qout h) (fun o s' => o = Some p /\ exists l, s' = s <| links := l |> /\
    sched_inv s' (<[h := xs]> Q) /\ ~ queued (<[h := xs]> Q) p) s) by (eapply wp_qout_inv; eauto).
  apply wp_elim in Hwp as (o & s' & E1 & -> & l & -> & ?). eauto.
Qed.

Lemma run_qadd s Q h xs p x field :
  sched_inv s Q -> Q !! h = Some xs -> procs s !! p = Some x -> ~ queued Q p ->
  (h = asleep_process_queue -> - 2 ^ 63 < wake_time x <= 0) ->
  exists l, qadd (Some p) h field s = Ok (tt, s <| links := l |>) /\
    sched_inv (s <| links := l |>) (<[h := insert_prio (pfield s field) p xs]> Q).
Proof.
  intros Hinv HQ Hx Hnq Hw. assert (Hwp : wp (qadd (Some p) h field) (fun _ s' => exists l, s' = s <| links := l |> /\
    sched_inv s' (<[h := insert_prio (pfield s field) p xs]> Q)) s) by (eapply wp_qadd_inv; eauto).
  apply wp_elim in Hwp as ([] & s' & E1 & l & -> & ?). eauto.
Qed.

Lemma wp_next_wake_none s Q (Φ : Z -> kstate -> Prop) :
  rep (links s) Q -> Q !! asleep_process_queue = Some [] -> Φ 0 s -> wp get_next_wake_time Φ s.
Proof. intros Hr HQ HΦ. unfold get_next_wake_time. apply wp_bind. eapply wp_qtop; [done..|]. by apply wp_ret. Qed.

Lemma wp_next_wake s Q L p (Φ : Z -> kstate -> Prop) :
  sched_inv s Q -> Q !! asleep_process_queue = Some (L ++ [p]) -> Φ (- pfield s wake_time p) s ->
  wp get_next_wake_time Φ s.
Proof.
  intros Hinv HQ HΦ. unfold get_next_wake_time. apply wp_bind. eapply wp_qtop; [apply Hinv|done|].
  rewrite last_snoc. destruct (si_queued _ _ Hinv p) as [x Hx]; [eapply queued_in; [done|auto with xinul]|].
  pose proof (si_wake _ _ Hinv _ p x HQ (elem_snoc_last _ _) Hx) as Hw. rewrite (pfield_eq _ _ _ _ Hx) in HΦ.
  apply wp_bind. eapply wp_pget; [done|]. rewrite wrapS_id by lia. apply wp_bind.
  eapply wp_lift; [by destruct (Z.leb_spec 0 (- wake_time x)); [|lia]|].
  apply wp_ret. by rewrite wrapU_id by lia.
Qed.

(** What the loop reads of the queue before its next turn. *)
Definition next_wake s L : Z := match last L with Some p => - pfield s wake_time p | None => 0 end.

Lemma wp_next_wake_time s Q L (Φ : Z -> kstate -> Prop) :
  sched_inv s Q -> Q !! asleep_process_queue = Some L -> Φ (next_wake s L) s -> wp get_next_wake_time Φ s.
Proof.
  intros Hinv HL HΦ. unfold next_wake in HΦ. destruct (list_snoc_inv L) as [->|(L' & q & ->)].
  - eapply wp_next_wake_none; [apply Hinv|done|done].
  - rewrite last_snoc in HΦ. by eapply wp_next_wake.
Qed.

Lemma awake_loop_spec fuel : forall s Q L A rs A',
  sched_inv s Q -> Q !! asleep_process_queue = Some L -> Q !! activatable_process_queue = Some A ->
  (length L < fuel)%nat ->
  wake_ready (pfield s wake_time) (pfield s prio) (counter s) (reverse L) A = (rs, A') ->
  wp (awake_loop fuel (next_wake s L)) (fun _ s' => exists l, s' = s <| links := l |> /\
    sched_inv s' (<[activatable_process_queue := A']> (<[asleep_process_queue := reverse rs]> Q))) s.
Proof.
  induction fuel as [|fuel IH]; intros s Q L A rs A' Hinv HL HA Hf Hw; [lia|]. cbn [awake_loop].
  apply wp_bind, wp_gets.
  assert (Hstay : rs = reverse L -> A' = A -> exists l, s = s <| links := l |> /\
    sched_inv s (<[activatable_process_queue := A']> (<[asleep_process_queue := reverse rs]> Q))).
  { intros -> ->. exists (links s). rewrite reverse_involutive, (insert_id Q asleep_process_queue L), (insert_id Q) by done.
    split; [by destruct s|done]. }
  destruct (list_snoc_inv L) as [->|(L' & p & ->)]; [apply wp_ret, Hstay; cbn in Hw; by simplify_eq|].
  rewrite reverse_app in Hw. cbn in Hw. unfold next_wake at 1 2. rewrite last_snoc.
  destruct (_ && _); [|apply wp_ret, Hstay; rewrite ?reverse_app; by simplify_eq].
  destruct (si_queued _ _ Hinv p) as [x Hx]; [eapply queued_in; [exact HL|auto with xinul]|].
  apply wp_bind. eapply wp_qout_inv; [done..|]. intros l1 Hinv1 Hnq.
  apply wp_bind. eapply wp_qadd_inv; [done|by rewrite lookup_insert_ne|done|done|done|]. intros l2 Hinv2.
  apply wp_bind. eapply wp_next_wake_time; [done|by rewrite lookup_insert_ne, lookup_insert_eq|].
  rewrite length_app in Hf. simpl in Hf. eapply wp_mono.
  { eapply IH; [done|by rewrite lookup_insert_ne, lookup_insert_eq|apply lookup_insert_eq|lia|exact Hw]. }
  intros [] s3 (l & -> & Hi). exists l. split; [done|].
  replace (<[activatable_process_queue:=A']> (<[asleep_process_queue:=reverse rs]> Q))
    with (<[activatable_process_queue:=A']> (<[asleep_process_queue:=reverse rs]>
      (<[activatable_process_queue:=insert_prio (pfield (s <| links := l1 |>) prio) p A]> (<[asleep_process_queue:=L']> Q)))); [done|].
  apply map_eq. intros h. rewrite !lookup_insert. by repeat case_decide.
Qed.

Lemma awake_sleeping_process_spec s Q L A rs A' :
  sched_inv s Q -> Q !! asleep_process_queue = Some L -> Q !! activatable_process_queue = Some A ->
  wake_ready (pfield s wake_time) (pfield s prio) (counter s) (reverse L) A = (rs, A') ->
  wp awake_sleeping_process (fun _ s' => exists l, s' = s <| links := l |> /\
    sched_inv s' (<[activatable_process_queue := A']> (<[asleep_process_queue := reverse rs]> Q))) s.
Proof.
  intros Hinv HL HA Ew. apply wp_bind. eapply wp_next_wake_time; [done..|]. apply wp_bind, wp_gets.
  eapply awake_loop_spec; [done..| |done]. pose proof (si_length _ _ _ _ Hinv HL). unfold walk_fuel. lia.
Qed.

Lemma free_dead_process_none s Q (Φ : unit -> kstate -> Prop) :
  rep (links s) Q -> Q !! dead_process_queue = Some [] -> Φ tt s -> wp free_dead_process Φ s.
Proof.
  intros Hr HQ HΦ. unfold free_dead_process. apply wp_bind, wp_gets. unfold walk_fuel. simpl.
  apply wp_bind. eapply wp_qempty; [done..|]. by apply wp_ret.
Qed.

(** ** The switch *)

(** A process whose context resumes at [k]. *)
Definition saved (x : process) (k : kont) : process :=
  x <| context_process ::= fmap (fun c => mk_context (sp c) k (s1 c) (s2 c) (sscratch c) (sepc c) (ctx_satp c)) |>.
Definition resume_point (x : process) : kont := from_option ra KMain (context_process x).

Lemma wp_save_context p x k (Φ : unit -> kstate -> Prop) s :
  procs s !! p = Some x -> is_Some (context_process x) ->
  Φ tt (s <| procs ::= <[p := saved x k]> |>) -> wp (save_context (Some p) k) Φ s.
Proof.
  intros Hx [c Hc] HΦ. unfold save_context. apply wp_bind. eapply wp_pget; [done|]. rewrite Hc.
  apply wp_bind. eapply wp_lift; [done|]. eapply wp_pset; [done|].
  unfold saved in HΦ. unfold upd in *. rewrite Hc in HΦ. exact HΦ.
Qed.

Lemma wp_direct_swap p x (Φ : kont -> kstate -> Prop) s :
  procs s !! p = Some x -> is_Some (context_process x) -> Φ (resume_point x) s ->
  wp (direct_context_swap (Some p)) Φ s.
Proof.
  intros Hx [c Hc] HΦ. unfold direct_context_swap. apply wp_bind. eapply wp_pget; [done|]. unfold resume_point in HΦ.
  rewrite Hc in *. apply wp_bind. by eapply wp_lift.
Qed.

(** Changing fields of a process that the invariant does not read, or reads
    the same. *)
Lemma sched_inv_proc s Q p x y :
  sched_inv s Q -> procs s !! p = Some x -> pid y = pid x -> (queued Q p -> wake_time y = wake_time x) ->
  is_Some (context_process y) ->
  sched_inv (s <| procs ::= <[p := y]> |>) Q.
Proof.
  intros [Hr Hl Hq Ht Hp Hc Hw] Hx Epid Ewake Hy. split; simpl; try done.
  - intros q. rewrite lookup_insert. case_decide; [|apply Hl]. subst. intros _. apply Hl. by eexists.
  - intros q Hqq. rewrite lookup_insert. case_decide; [by eexists|by apply Hq].
  - intros id q. rewrite Ht, lookup_insert. case_decide; [|done]. subst q.
    split; intros (z & Hz & Eid); simplify_eq; eauto with congruence.
  - intros q z. rewrite lookup_insert. case_decide; [|apply Hp]. intros [= <-]. rewrite Epid. by eapply Hp.
  - intros q z. rewrite lookup_insert. case_decide; [|apply Hc]. by intros [= <-].
  - intros L0 q z HL0 Hq0. rewrite lookup_insert. case_decide; [|by eapply Hw]. subst q. intros [= <-].
    rewrite Ewake; [by eapply Hw|by eapply queued_in].
Qed.

Lemma sched_inv_cur s Q id : sched_inv s Q -> sched_inv (s <| current_running_process_pid := id |>) Q.
Proof. by intros []. Qed.
Lemma sched_inv_spp s Q b : sched_inv s Q -> sched_inv (s <| sstatus_spp := b |>) Q.
Proof. by intros []. Qed.

Lemma saved_ctx x k : is_Some (context_process x) -> is_Some (context_process (saved x k)).
Proof. intros [c Hc]. unfold saved. simpl. rewrite Hc. by eexists. Qed.

(** ** The choice *)

(** Process [c], in state [x], is the running one; a process that blocked
    itself may already be in a queue, but not in the one of the ready ones. *)
Record running s Q (c : ptr) (x : process) : Prop := {
  ru_current : pid_process_hash_table s !! current_running_process_pid s = Some c;
  ru_proc : procs s !! c = Some x;
  ru_free : state x = ACTIF -> ~ queued Q c;
  ru_ready : forall A, Q !! activatable_process_queue = Some A -> c ∉ A
}.

(** The process the scheduler switches to when [c] runs in state [x] and [A]
    is the ready list: the last one of [A], unless [c] is still running and of
    a higher priority. *)
Definition chosen s (x : process) A : option ptr :=
  match last A with
  | None => None
  | Some t => if bool_decide (state x = ACTIF) && (pfield s prio t <? prio x) then None else Some t
  end.

(** The state of [c] after it left the processor, to resume at [k]. *)
Definition left (x : process) (k : kont) : process :=
  saved (if bool_decide (state x = ACTIF) then x <| state := ACTIVATABLE |> else x) k.

(** The ready list without the chosen process and, if it was still running,
    with [c]. *)
Definition ready_after s (c : ptr) (x : process) B : list ptr :=
  if bool_decide (state x = ACTIF) then insert_prio (pfield s prio) c B else B.

(** [s'] is [s] after the switch from [c] to [t]. *)
Record switched s Q (c : ptr) (x : process) (k : kont) B (t : ptr) (y : process) (s' : kstate) : Prop := {
  sw_procs : procs s' = <[t := y <| state := ACTIF |>]> (<[c := left x k]> (procs s));
  sw_frame : s' = s <| procs := procs s' |> <| links := links s' |> <| current_running_process_pid := pid y |>;
  sw_inv : sched_inv s' (<[activatable_process_queue := ready_after s c x B]> Q)
}.

Lemma scheduler_normal_stay k s Q A c x :
  sched_inv s Q -> Q !! activatable_process_queue = Some A -> running s Q c x -> state x <> KILLED ->
  chosen s x A = None -> scheduler_normal k s = Ok (k, s).
Proof.
  intros Hinv HA [Hcur Hx Hfree _] Hk Hch.
  assert (wp (scheduler_normal k) (fun k' s' => k' = k /\ s' = s) s) as Hwp.
  { unfold scheduler_normal. apply wp_bind, wp_get_current. rewrite Hcur.
    apply wp_bind. eapply wp_qtop; [apply Hinv|done|]. unfold chosen in Hch.
    destruct (last A) as [t|] eqn:Et; [|by apply wp_ret].
    destruct (si_queued _ _ Hinv t) as [y Hy]; [eapply queued_in; [done|]; by eapply last_Some_elem_of|].
    rewrite (pfield_eq _ _ _ _ Hy) in Hch.
    destruct (bool_decide_reflect (state x = ACTIF)) as [Ha|Ha]; simpl in Hch; [|done].
    destruct (Z.ltb_spec (prio y) (prio x)) as [Hlt|]; [|done].
    apply wp_bind. eapply wp_pget; [done|]. apply wp_bind. eapply wp_pget; [done|]. rewrite Ha.
    apply wp_bind. eapply wp_pget; [done|]. apply wp_bind. eapply wp_pget; [done|].
    destruct (Z.leb_spec (prio x) (prio y)); [lia|]. by apply wp_ret. }
  apply wp_elim in Hwp as (k' & s' & -> & -> & ->). done.
Qed.

Lemma left_ctx x k : is_Some (context_process x) -> is_Some (context_process (left x k)).
Proof. intros Hc. unfold left. apply saved_ctx. by case_bool_decide. Qed.

(** The switch from a process that is still running. *)
Lemma wp_switch_active k s Q B t c x y :
  sched_inv s Q -> Q !! activatable_process_queue = Some (B ++ [t]) -> running s Q c x -> state x = ACTIF ->
  procs s !! t = Some y -> c <> t ->
  wp (_ ← qout activatable_process_queue; r ← setpid (pid y);
      if r <? 0 then mret k
      else _ ← pset (Some c) state ACTIVATABLE; _ ← pset (Some t) state ACTIF;
           _ ← qadd (Some c) activatable_process_queue prio; context_switch (Some c) (Some t) k)
    (fun k' s' => k' = resume_point y /\ switched s Q c x k B t y s') s.
Proof.
  intros Hinv HA [Hcur Hx Hfree _] Ha Hy Hct.
  pose proof (si_ctx _ _ Hinv _ _ Hx) as Hcx. pose proof (si_ctx _ _ Hinv _ _ Hy) as Hcy.
  apply wp_bind. eapply wp_qout_inv; [done..|]. intros l1 Hinv1 _.
  apply wp_bind. eapply wp_setpid; [apply (si_table _ _ Hinv); by exists y|].
  destruct (Z.ltb_spec (pid y) 0); [pose proof (si_pid _ _ Hinv _ _ Hy); lia|].
  apply wp_bind. eapply wp_pset; [exact Hx|].
  apply wp_bind. eapply wp_pset; [simpl; rewrite lookup_insert_ne by done; exact Hy|].
  set (x1 := x <| state := ACTIVATABLE |>). set (s1 := _ <| procs ::= <[t := _]> |>).
  assert (Hx1 : procs s1 !! c = Some x1) by (simpl; by rewrite lookup_insert_ne, lookup_insert_eq).
  assert (Hinv2 : sched_inv s1 (<[activatable_process_queue := B]> Q)).
  { eapply sched_inv_proc; [|simpl; rewrite lookup_insert_ne by done; exact Hy|done..].
    eapply sched_inv_proc; [|exact Hx|done..]. by apply sched_inv_cur. }
  apply wp_bind. eapply wp_qadd_inv; [done|apply lookup_insert_eq|exact Hx1| |done|].
  { intros Hq. apply (queued_insert _ _ _ _ _ HA) in Hq as [Hq|Hq]; [by apply Hfree|].
    apply Hfree; [done|]. eapply queued_in; [exact HA|by apply elem_snoc_init]. }
  intros l2 Hinv3. unfold context_switch. apply wp_bind. eapply wp_save_context; [exact Hx1|done|].
  eapply wp_direct_swap; [simpl; rewrite lookup_insert_ne, lookup_insert_eq by done; done|done|].
  split; [done|]. split; [|done|].
  - simpl. unfold left. rewrite bool_decide_true by done. fold x1.
    by rewrite (insert_insert_ne _ c t), insert_insert_eq.
  - unfold ready_after. rewrite bool_decide_true by done. rewrite insert_insert_eq in Hinv3.
    rewrite (insert_prio_ext _ (pfield s prio)) in Hinv3.
    2:{ intros q _. unfold pfield. simpl. rewrite !lookup_insert.
        repeat case_decide; subst; simpl; [by rewrite Hy|by rewrite Hx|done]. }
    eapply sched_inv_proc; [exact Hinv3|exact Hx1|done|done|by apply saved_ctx].
Qed.

(** The switch from a process that blocked itself. *)
Lemma wp_switch_blocked k s Q B t c x y :
  sched_inv s Q -> Q !! activatable_process_queue = Some (B ++ [t]) -> running s Q c x -> state x <> ACTIF ->
  procs s !! t = Some y -> c <> t ->
  wp (_ ← qout activatable_process_queue; r ← setpid (pid y);
      if r <? 0 then mret k else _ ← pset (Some t) state ACTIF; context_switch (Some c) (Some t) k)
    (fun k' s' => k' = resume_point y /\ switched s Q c x k B t y s') s.
Proof.
  intros Hinv HA [Hcur Hx Hfree _] Ha Hy Hct.
  pose proof (si_ctx _ _ Hinv _ _ Hx) as Hcx. pose proof (si_ctx _ _ Hinv _ _ Hy) as Hcy.
  apply wp_bind. eapply wp_qout_inv; [done..|]. intros l1 Hinv1 _.
  apply wp_bind. eapply wp_setpid; [apply (si_table _ _ Hinv); by exists y|].
  destruct (Z.ltb_spec (pid y) 0); [pose proof (si_pid _ _ Hinv _ _ Hy); lia|].
  apply wp_bind. eapply wp_pset; [exact Hy|]. unfold context_switch. apply wp_bind.
  eapply wp_save_context; [simpl; rewrite lookup_insert_ne by done; exact Hx|done|].
  eapply wp_direct_swap; [simpl; rewrite lookup_insert_ne, lookup_insert_eq by done; done|done|].
  split; [done|]. split; [|done|].
  - simpl. unfold left. rewrite bool_decide_false by done. by rewrite insert_insert_ne.
  - unfold ready_after. rewrite bool_decide_false by done.
    eapply sched_inv_proc; [|simpl; rewrite lookup_insert_ne by done; exact Hx|done|done|by apply saved_ctx].
    eapply sched_inv_proc; [|exact Hy|done..]. by apply sched_inv_cur.
Qed.

Lemma scheduler_normal_switch k s Q B t c x y :
  sched_inv s Q -> Q !! activatable_process_queue = Some (B ++ [t]) -> running s Q c x -> state x <> KILLED ->
  chosen s x (B ++ [t]) = Some t -> procs s !! t = Some y ->
  wp (scheduler_normal k) (fun k' s' => k' = resume_point y /\ switched s Q c x k B t y s') s.
Proof.
  intros Hinv HA Hrun Hk Hch Hy. pose proof Hrun as [Hcur Hx _ Hready].
  assert (Hct : c <> t) by (intros ->; eapply Hready; [exact HA|apply elem_snoc_last]).
  unfold scheduler_normal. apply wp_bind, wp_get_current. rewrite Hcur.
  apply wp_bind. eapply wp_qtop; [apply Hinv|done|]. rewrite last_snoc.
  unfold chosen in Hch. rewrite last_snoc, (pfield_eq _ _ _ _ Hy) in Hch.
  apply wp_bind. eapply wp_pget; [done|]. apply wp_bind. eapply wp_pget; [done|].
  destruct (decide (state x = ACTIF)) as [Ha|Ha].
  - rewrite Ha in *. rewrite bool_decide_true in Hch by done. simpl in Hch.
    destruct (Z.ltb_spec (prio y) (prio x)) as [|Hge]; [done|].
    apply wp_bind. eapply wp_pget; [done|]. apply wp_bind. eapply wp_pget; [done|].
    destruct (Z.leb_spec (prio x) (prio y)); [|lia]. by apply wp_switch_active.
  - pose proof (wp_switch_blocked k s Q B t c x y Hinv HA Hrun Ha Hy Hct). by destruct (state x).
Qed.

(** ** The whole call *)

Lemma wake_ready_perm wt pr now rs A rs' A' :
  wake_ready wt pr now rs A = (rs', A') -> rs' ++ A' ≡ₚ rs ++ A.
Proof.
  revert A. induction rs as [|p rs IH]; intros A; simpl; [by intros [= <- <-]|].
  destruct (_ && _); [|by intros [= <- <-]]. intros Hw. rewrite (IH _ Hw), insert_prio_perm.
  by rewrite <- Permutation_middle.
Qed.

Lemma wake_ready_sorted wt pr now rs A rs' A' :
  wake_ready wt pr now rs A = (rs', A') ->
  Sorted (fun x y => pr x <= pr y) A -> Sorted (fun x y => pr x <= pr y) A'.
Proof.
  revert A. induction rs as [|p rs IH]; intros A; simpl; [by intros [= <- <-]|].
  destruct (_ && _); [|by intros [= <- <-]]. intros Hw Hs. eapply IH; [done|]. by apply insert_prio_sorted.
Qed.

Lemma wake_ready_elem wt pr now rs A rs' A' p :
  p ∈ A' -> wake_ready wt pr now rs A = (rs', A') -> p ∈ A \/ p ∈ rs /\ - wt p < now.
Proof.
  intros Hp. revert A. induction rs as [|q rs IH]; intros A; simpl; [intros [= _ <-]; by left|].
  destruct (_ && _) eqn:Ec; [|intros [= _ <-]; by left]. intros Hw.
  apply IH in Hw as [Hw|[Hw Hlt]]; [|right; split; [by right|done]].
  apply elem_of_insert_prio in Hw as [->|Hw]; [right; split; [by left|lia]|by left].
Qed.

(** What a call of the scheduler starts from, after the first one: nothing is
    waiting to be freed, and a caller that is going to sleep is not due yet. *)
Record sched_pre s Q (c : ptr) (x : process) A L : Prop := {
  sp_inv : sched_inv s Q;
  sp_running : running s Q c x;
  sp_alive : state x <> KILLED;
  sp_ready : Q !! activatable_process_queue = Some A;
  sp_asleep : Q !! asleep_process_queue = Some L;
  sp_due : c ∈ L -> counter s <= - wake_time x;
  sp_dead : Q !! dead_process_queue = Some [];
  sp_main : is_Some (scheduler_main s);
  sp_started : started_user_process s = true
}.

(** The running process may change itself before it calls the scheduler. *)
Lemma sched_pre_self s s' Q c x x' A L :
  sched_pre s Q c x A L -> state x = ACTIF ->
  links s' = links s -> procs s' = <[c := x']> (procs s) -> pid_process_hash_table s' = pid_process_hash_table s ->
  current_running_process_pid s' = current_running_process_pid s -> scheduler_main s' = scheduler_main s ->
  started_user_process s' = started_user_process s ->
  pid x' = pid x -> context_process x' = context_process x -> state x' <> KILLED ->
  sched_pre s' Q c x' A L.
Proof.
  intros [Hinv [Hcur Hx Hfree Hready] Hk HA HL Hdue Hdead Hmain Hst] Ha El Ep Et Ec Em Es Hpid Hctx Hk'.
  pose proof (Hfree Ha) as Hnq. split; rewrite ?Em, ?Es; try done.
  - eapply (sched_inv_frame (s <| procs ::= <[c := x']> |>)); [exact El|exact Ep|exact Et|]. apply (sched_inv_proc s Q c x x'); try done.
    rewrite Hctx. by eapply si_ctx.
  - split; [by rewrite Et, Ec|by rewrite Ep, lookup_insert_eq|done|done].
  - intros Hin. destruct Hnq. by eapply (queued_in Q asleep_process_queue).
Qed.

(** Other processes may change around the running one. *)
Lemma sched_pre_step s s' Q Q' c x A A' L :
  sched_pre s Q c x A L -> sched_inv s' Q' -> procs s' !! c = Some x ->
  pid_process_hash_table s' = pid_process_hash_table s ->
  current_running_process_pid s' = current_running_process_pid s -> scheduler_main s' = scheduler_main s ->
  started_user_process s' = started_user_process s -> counter s' = counter s ->
  Q' !! activatable_process_queue = Some A' -> Q' !! asleep_process_queue = Some L ->
  Q' !! dead_process_queue = Some [] -> (queued Q' c -> queued Q c) -> c ∉ A' ->
  sched_pre s' Q' c x A' L.
Proof.
  intros [Hinv [Hcur Hx Hfree Hready] Hk HA HL Hdue Hdead Hmain Hst] Hinv' Hx' Et Ec Em Es Ecnt HA' HL' Hd' Hq Hc.
  split; rewrite ?Em, ?Es, ?Ecnt; try done. split; [by rewrite Et, Ec|done| |].
  - intros Ha Hqc. by apply (Hfree Ha), Hq.
  - intros A0 HA0. by simplify_eq.
Qed.

(** The queues after the wake-up loop. *)
Definition woken Q (rs A' : list ptr) : queues :=
  <[activatable_process_queue := A']> (<[asleep_process_queue := reverse rs]> Q).

Lemma woken_not_queued Q L A rs A' p :
  Q !! asleep_process_queue = Some L -> Q !! activatable_process_queue = Some A ->
  rs ++ A' ≡ₚ reverse L ++ A -> queued (woken Q rs A') p -> queued Q p.
Proof.
  intros HL HA Hperm Hq. assert (Hin : p ∈ rs ++ A' -> queued Q p).
  { rewrite Hperm. intros [Hp|Hp]%elem_of_app; [|by eapply (queued_in Q activatable_process_queue)].
    rewrite elem_of_reverse in Hp. by eapply (queued_in Q asleep_process_queue). }
  eapply queued_insert in Hq; [|rewrite lookup_insert_ne by done; exact HA].
  destruct Hq as [Hq|Hq]; [|apply Hin, elem_of_app; by right].
  eapply queued_insert in Hq; [|exact HL]. destruct Hq as [Hq|Hq]; [done|].
  apply Hin, elem_of_app. left. by rewrite elem_of_reverse in Hq.
Qed.

Lemma scheduler_spec k s Q c x A L rs A' :
  sched_pre s Q c x A L ->
  wake_ready (pfield s wake_time) (pfield s prio) (counter s) (reverse L) A = (rs, A') ->
  wp (scheduler k) (fun k' s' => exists l,
    let s1 := s <| sstatus_spp := false |> <| links := l |> in
    sched_inv s1 (woken Q rs A') /\ running s1 (woken Q rs A') c x /\
    match chosen s x A' with
    | None => k' = k /\ s' = s1
    | Some t => exists y B, A' = B ++ [t] /\ procs s !! t = Some y /\ k' = resume_point y /\
        switched s1 (woken Q rs A') c x k B t y s'
    end) s.
Proof.
  intros [Hinv Hrun Hk HA HL Hdue Hdead [m Hmain] Hst] Hw. unfold scheduler. apply wp_bind, wp_kput.
  apply wp_bind. eapply wp_mono.
  { eapply awake_sleeping_process_spec; [by apply sched_inv_spp|exact HL|exact HA|exact Hw]. }
  intros [] s1 (l & -> & Hinv1). fold (woken Q rs A') in Hinv1.
  assert (Hrun1 : running (s <| sstatus_spp := false |> <| links := l |>) (woken Q rs A') c x).
  { destruct Hrun as [Hc Hx Hf Hn]. split; [done..| |].
    - intros Ha Hq. apply Hf; [done|]. eapply woken_not_queued; [done..| |done]. by eapply wake_ready_perm.
    - intros A0 HA0 Hin. unfold woken in HA0. rewrite lookup_insert_eq in HA0. simplify_eq.
      eapply wake_ready_elem in Hin as [Hin|[Hin Hlt]]; [by eapply Hn| |exact Hw].
      rewrite elem_of_reverse in Hin. apply Hdue in Hin. rewrite (pfield_eq _ _ _ _ Hx) in Hlt. lia. }
  apply wp_bind. eapply free_dead_process_none; [apply Hinv1| |].
  { unfold woken. by rewrite !lookup_insert_ne. }
  apply wp_bind, wp_gets. simpl. rewrite Hmain. apply wp_bind, wp_gets. simpl.
  destruct (Z.eqb_spec (current_running_process_pid s) (-1)) as [Em|_].
  { apply ru_current in Hrun as Hc. rewrite (si_table _ _ Hinv) in Hc. destruct Hc as (z & Hz & Ez).
    pose proof (si_pid _ _ Hinv _ _ Hz). lia. }
  apply wp_bind, wp_gets. simpl. rewrite Hst.
  assert (HA1 : woken Q rs A' !! activatable_process_queue = Some A') by apply lookup_insert_eq.
  destruct (chosen s x A') as [t|] eqn:Ech.
  - destruct (list_snoc_inv A') as [->|(B & t' & ->)]; [done|].
    assert (t' = t) as -> by (unfold chosen in Ech; rewrite last_snoc in Ech; by case_match; simplify_eq).
    destruct (si_queued _ _ Hinv1 t) as [y Hy]; [eapply queued_in; [done|by apply elem_snoc_last]|].
    eapply wp_mono; [by eapply scheduler_normal_switch|]. intros k' s' [-> Hsw].
    exists l. split_and!; [done..|]. by exists y, B.
  - eapply wp_intro; [by eapply scheduler_normal_stay|]. by exists l.
Qed.

Lemma left_same x k : prio (left x k) = prio x /\ wake_time (left x k) = wake_time x /\ pid (left x k) = pid x.
Proof. unfold left. by case_bool_decide. Qed.

Lemma switched_pfield s Q c x k B t y s' f :
  switched s Q c x k B t y s' -> procs s !! c = Some x -> procs s !! t = Some y ->
  f (left x k) = f x -> f (y <| state := ACTIF |>) = f y -> forall q, pfield s' f q = pfield s f q.
Proof.
  intros [Hp _ _] Hx Hy Ex Ey q. unfold pfield. rewrite Hp, !lookup_insert.
  repeat case_decide; subst; simpl; [by rewrite Hy, Ey|by rewrite Hx, Ex|done].
Qed.

Lemma switched_running s Q c x k B t y s' :
  switched s Q c x k B t y s' -> running s Q c x -> Q !! activatable_process_queue = Some (B ++ [t]) ->
  procs s !! t = Some y -> sched_inv s Q ->
  running s' (<[activatable_process_queue := ready_after s c x B]> Q) t (y <| state := ACTIF |>).
Proof.
  intros [Hp Hf _] [_ Hx Hfree Hready] HA Hy Hinv.
  assert (Hnq : ~ queued (<[activatable_process_queue := ready_after s c x B]> Q) t).
  { intros Hq. apply (not_queued_out _ _ _ _ _ (si_rep _ _ Hinv) HA).
    unfold ready_after in Hq. case_bool_decide as Ha; [|done].
    destruct Hq as (h & zs & Hz & Hin). rewrite lookup_insert in Hz.
    case_decide as Eh; [|exists h, zs; by rewrite lookup_insert_ne].
    simplify_eq. apply elem_of_insert_prio in Hin as [->|Hin].
    - exfalso. eapply Hready; [exact HA|apply elem_snoc_last].
    - eapply queued_in; [by apply lookup_insert_eq|done]. }
  split; [|by rewrite Hp, lookup_insert_eq|done|].
  - rewrite Hf. simpl. apply (si_table _ _ Hinv). by exists y.
  - intros A0 HA0 Hin. apply Hnq. by eapply queued_in.
Qed.

Lemma Sorted_snoc_le (f : ptr -> Z) B t p :
  Sorted (fun x y => f x <= f y) (B ++ [t]) -> p ∈ B -> f p <= f t.
Proof.
  intros Hs Hp. apply Sorted_StronglySorted in Hs; [|intros a b d; lia].
  induction B as [|b B IH]; [by apply not_elem_of_nil in Hp|]. simpl in Hs.
  apply StronglySorted_inv in Hs as [Hs Hall]. apply elem_of_cons in Hp as [->|Hp]; [|by apply IH].
  rewrite Forall_forall in Hall. apply Hall, elem_snoc_last.
Qed.

Lemma Sorted_init (f : ptr -> Z) B t :
  Sorted (fun x y => f x <= f y) (B ++ [t]) -> Sorted (fun x y => f x <= f y) B.
Proof.
  induction B as [|b B IH]; [done|]. simpl. intros Hs. apply Sorted_inv in Hs as [Hs Hd].
  constructor; [by apply IH|]. destruct B as [|b' B]; [constructor|]. by inversion Hd; constructor.
Qed.

Lemma Sorted_elem_ext (f g : ptr -> Z) xs :
  (forall x, x ∈ xs -> f x = g x) -> Sorted (fun x y => f x <= f y) xs -> Sorted (fun x y => g x <= g y) xs.
Proof.
  intros Efg Hs. induction Hs as [|x xs Hs IH Hd]; constructor.
  - apply IH. intros y Hy. apply Efg. by right.
  - destruct Hd as [|y ys Hxy]; constructor. rewrite <- !Efg; [done|..]; rewrite !elem_of_cons; auto.
Qed.

Lemma Sorted_ext (f g : ptr -> Z) xs :
  (forall x, f x = g x) -> Sorted (fun x y => f x <= f y) xs -> Sorted (fun x y => g x <= g y) xs.
Proof.
  intros Efg. apply Sorted_elem_ext. auto.
Qed.

(** C3: a call of [scheduler] returns without a fault, keeps the scheduling
    invariant and leaves the processor to a process of the highest priority:
    when it switches, or when the caller was still running, the process that
    runs next is active and no ready process (the sleepers just woken
    included) has a higher priority.  No process is lost or duplicated: the
    running one, the ready ones and the sleeping ones are, in total, the same
    processes as before (a caller that blocked itself left their number). *)
Theorem scheduler_highest_priority k s Q c x A L :
  sched_pre s Q c x A L -> Sorted (fun p q => pfield s prio p <= pfield s prio q) A ->
  exists k' s' Q' r z A' L', scheduler k s = Ok (k', s') /\ sched_inv s' Q' /\ running s' Q' r z /\
    Q' !! activatable_process_queue = Some A' /\ Q' !! asleep_process_queue = Some L' /\
    Sorted (fun p q => pfield s' prio p <= pfield s' prio q) A' /\
    (state x = ACTIF \/ r <> c -> state z = ACTIF /\ forall p, p ∈ A' -> pfield s' prio p <= prio z) /\
    (if bool_decide (state x = ACTIF) then r :: A' ++ L' ≡ₚ c :: A ++ L
     else if bool_decide (r = c) then A' ++ L' ≡ₚ A ++ L else r :: A' ++ L' ≡ₚ A ++ L).
Proof.
  intros Hpre Hs. destruct (wake_ready (pfield s wake_time) (pfield s prio) (counter s) (reverse L) A)
    as [rs A1] eqn:Ew.
  pose proof (scheduler_spec k _ _ _ _ _ _ _ _ Hpre Ew) as Hwp.
  apply wp_elim in Hwp as (k' & s' & Erun & l & Hinv1 & Hrun1 & Hch). rewrite Erun.
  pose proof (wake_ready_sorted _ _ _ _ _ _ _ Ew Hs) as Hs1.
  assert (HA1 : woken Q rs A1 !! activatable_process_queue = Some A1) by apply lookup_insert_eq.
  assert (HL1 : woken Q rs A1 !! asleep_process_queue = Some (reverse rs))
    by (unfold woken; by rewrite lookup_insert_ne, lookup_insert_eq).
  assert (Hperm : A1 ++ reverse rs ≡ₚ A ++ L).
  { rewrite reverse_Permutation, Permutation_app_comm, (wake_ready_perm _ _ _ _ _ _ _ Ew).
    by rewrite reverse_Permutation, Permutation_app_comm. }
  pose proof (ru_proc _ _ _ _ Hrun1) as Hx. destruct (chosen s x A1) as [t|] eqn:Ech.
  - destruct Hch as (y & B & -> & Hy & -> & Hsw).
    assert (Hct : t <> c).
    { intros ->. eapply (ru_ready _ _ _ _ Hrun1); [exact HA1|apply elem_snoc_last]. }
    pose proof (switched_running _ _ _ _ _ _ _ _ _ Hsw Hrun1 HA1 Hy Hinv1) as Hrun2.
    assert (Epr : forall q, pfield s' prio q = pfield s prio q).
    { eapply (switched_pfield _ _ _ _ _ _ _ _ _ prio Hsw); [exact Hx|exact Hy|apply left_same|done]. }
    assert (Hle : forall p, p ∈ B -> pfield s prio p <= prio y).
    { intros p Hp. rewrite <- (pfield_eq s prio t y Hy). by eapply Sorted_snoc_le. }
    eexists _, s', _, t, _, (ready_after s c x B), (reverse rs).
    split; [done|]. split; [apply Hsw|]. split; [exact Hrun2|]. split; [apply lookup_insert_eq|].
    split; [by rewrite lookup_insert_ne|]. unfold ready_after.
    split_and!.
    + eapply Sorted_ext; [by intros; symmetry; apply Epr|].
      case_bool_decide; [apply insert_prio_sorted|]; by eapply Sorted_init.
    + intros _. split; [done|]. intros p Hp. rewrite Epr. simpl. case_bool_decide as Ha; [|by apply Hle].
      apply elem_of_insert_prio in Hp as [->|Hp]; [|by apply Hle].
      unfold chosen in Ech. rewrite last_snoc, bool_decide_true in Ech by done. simpl in Ech.
      rewrite (pfield_eq s prio t y Hy) in Ech. rewrite (pfield_eq s prio c x Hx).
      destruct (Z.ltb_spec (prio y) (prio x)); [done|lia].
    + case_bool_decide as Ha; [|rewrite (bool_decide_false (t = c)) by done].
      * rewrite insert_prio_perm. simpl. rewrite <- Hperm, <- app_assoc. simpl.
        rewrite <- (Permutation_middle B (reverse rs) t). constructor.
      * rewrite <- Hperm, <- app_assoc. simpl. by rewrite <- Permutation_middle.
  - destruct Hch as [-> ->]. eexists k, _, _, c, x, A1, (reverse rs). split_and!; try done.
    + intros [Ha|]; [|done]. split; [done|]. intros p Hp.
      change (pfield _ prio p) with (pfield s prio p). unfold chosen in Ech.
      destruct (list_snoc_inv A1) as [->|(B & t & ->)]; [by apply not_elem_of_nil in Hp|].
      rewrite last_snoc, bool_decide_true in Ech by done. simpl in Ech.
      destruct (Z.ltb_spec (pfield s prio t) (prio x)); [|done].
      apply elem_of_app in Hp as [Hp|Hp%list_elem_of_singleton]; [|subst; lia].
      pose proof (Sorted_snoc_le _ _ _ _ Hs1 Hp). lia.
    + case_bool_decide; [by rewrite Hperm|]. by rewrite bool_decide_true.
Qed.



(** ** Turns *)

Lemma insert_prio_equal (f : ptr -> Z) c B v :
  (forall p, p ∈ c :: B -> f p = v) -> insert_prio f c B = c :: B.
Proof.
  intros Hf. destruct B as [|b B]; [done|]. simpl.
  rewrite (Hf b), (Hf c) by (rewrite !elem_of_cons; auto). by rewrite Z.ltb_irrefl.
Qed.

(** One turn among processes of the same priority: the last of the ready list
    runs, the one that ran goes to the front. *)
Lemma scheduler_turn k s Q c x B t v :
  sched_pre s Q c x (B ++ [t]) [] -> state x = ACTIF ->
  (forall p, p ∈ c :: B ++ [t] -> pfield s prio p = v) ->
  exists k' s' Q' y, scheduler k s = Ok (k', s') /\ sched_pre s' Q' t y (c :: B) [] /\ state y = ACTIF /\
    (forall q, pfield s' prio q = pfield s prio q) /\ (forall q, pfield s' pid q = pfield s pid q).
Proof.
  intros Hpre Ha Hv. pose proof Hpre as [Hinv Hrun Hk HA HL Hdue Hdead Hmain Hst].
  pose proof (scheduler_spec k _ _ _ _ _ _ [] _ Hpre eq_refl) as Hwp.
  apply wp_elim in Hwp as (k' & s' & Erun & l & Hinv1 & Hrun1 & Hch).
  pose proof (ru_proc _ _ _ _ Hrun) as Hx.
  assert (Evx : prio x = v) by (rewrite <- (Hv c) by (by left); symmetry; by apply pfield_eq).
  assert (Hchosen : chosen s x (B ++ [t]) = Some t).
  { unfold chosen. rewrite last_snoc, (Hv t), Evx, Z.ltb_irrefl, andb_false_r; [done|].
    right. apply elem_snoc_last. }
  rewrite Hchosen in Hch. destruct Hch as (y & B' & EB & Hy & -> & Hsw).
  apply app_inj_tail in EB as [<- _].
  assert (HA1 : woken Q [] (B ++ [t]) !! activatable_process_queue = Some (B ++ [t])) by apply lookup_insert_eq.
  pose proof (switched_running _ _ _ _ _ _ _ _ _ Hsw Hrun1 HA1 Hy Hinv1) as Hrun2.
  assert (Eready : forall s1, (forall q, pfield s1 prio q = pfield s prio q) -> ready_after s1 c x B = c :: B).
  { intros s1 E1. unfold ready_after. rewrite bool_decide_true by done. eapply (insert_prio_equal _ _ _ v).
    intros p Hp. rewrite E1. apply Hv. apply elem_of_cons in Hp as [->|Hp]; [by left|right; by apply elem_snoc_init]. }
  pose proof (sw_inv _ _ _ _ _ _ _ _ _ Hsw) as Hinv2. pose proof (sw_frame _ _ _ _ _ _ _ _ _ Hsw) as Hfr.
  rewrite (Eready (s <| sstatus_spp := false |> <| links := l |>)) in Hinv2, Hrun2 by done.
  eexists _, s', _, (y <| state := ACTIF |>). split; [done|]. split_and!.
  - split; [exact Hinv2|exact Hrun2|done|apply lookup_insert_eq|..]; try (rewrite Hfr; done).
    + unfold woken. by rewrite lookup_insert_ne, lookup_insert_ne, lookup_insert_eq.
    + intros Hin. by apply not_elem_of_nil in Hin.
    + unfold woken. by rewrite !lookup_insert_ne.
  - done.
  - eapply (switched_pfield _ _ _ _ _ _ _ _ _ prio Hsw); [exact Hx|exact Hy|apply left_same|done].
  - eapply (switched_pfield _ _ _ _ _ _ _ _ _ pid Hsw); [exact Hx|exact Hy|apply left_same|done].
Qed.

(** [n] calls of the scheduler by the timer; the pids that ran. *)
Fixpoint ticks (n : nat) : K (list Z) :=
  match n with
  | O => mret []
  | S n => _ ← scheduler KIret; id ← getpid; ids ← ticks n; mret (id :: ids)
  end.

Lemma ticks_spec n : forall s Q c x A v,
  sched_pre s Q c x A [] -> state x = ACTIF -> (forall p, p ∈ c :: A -> pfield s prio p = v) ->
  A <> [] -> (n <= S (length A))%nat ->
  wp (ticks n) (fun ids _ => ids = take n (pfield s pid <$> reverse A ++ [c])) s.
Proof.
  induction n as [|n IH]; intros s Q c x A v Hpre Ha Hv Hne Hn; [by apply wp_ret|].
  destruct (list_snoc_inv A) as [->|(B & t & ->)]; [done|]. simpl.
  destruct (scheduler_turn KIret s Q c x B t v) as (k' & s' & Q' & y & Erun & Hpre' & Ha' & Epr & Epid);
    [done..|].
  apply wp_bind. eapply wp_intro; [exact Erun|]. cbn beta. apply wp_bind, wp_gets. apply wp_bind.
  assert (Ecur : current_running_process_pid s' = pfield s pid t).
  { rewrite <- Epid. destruct Hpre' as [Hinv' [Hc' Hy' _ _] _ _ _ _ _ _ _]. rewrite (pfield_eq _ _ _ _ Hy').
    apply (si_table _ _ Hinv') in Hc' as (z & Hz & <-). congruence. }
  rewrite reverse_app. cbn [reverse rev_append app fmap list_fmap take]. rewrite Ecur.
  destruct n as [|n]; [done|].
  eapply wp_mono.
  { eapply (IH s' Q' t y (c :: B) v); [done|done| |done|].
    - intros p Hp. rewrite Epr. apply Hv. rewrite elem_of_cons, elem_of_app, list_elem_of_singleton.
      rewrite !elem_of_cons in Hp. tauto.
    - rewrite length_app in Hn. simpl in *. lia. }
  intros ids s2 ->. apply wp_ret. f_equal. rewrite reverse_cons.
  rewrite !fmap_app, <- app_assoc. rewrite (list_fmap_ext _ (pfield s pid) (reverse B)) by done.
  simpl. rewrite !Epid.
  rewrite length_app in Hn. simpl in Hn.
  rewrite !take_app. rewrite !length_fmap, !length_reverse.
  destruct (S n - length B)%nat as [|[|]] eqn:Em; simpl; [done|done|lia].
Qed.

(** C23: processes of one priority take turns.  From a state where the running
    process and the ready ones have the same priority and nobody sleeps, the
    next calls of the scheduler run the ready processes one after the other,
    from the last of the ready list to its first, and then the process that
    was running: each one exactly once in a round. *)
Theorem scheduler_round_robin s Q c x A v :
  sched_pre s Q c x A [] -> state x = ACTIF -> A <> [] ->
  (forall p, p ∈ c :: A -> pfield s prio p = v) ->
  exists s', ticks (S (length A)) s = Ok (pfield s pid <$> reverse A ++ [c], s').
Proof.
  intros Hpre Ha Hne Hv. pose proof (ticks_spec (S (length A)) s Q c x A v Hpre Ha Hv Hne ltac:(lia)) as Hwp.
  apply wp_elim in Hwp as (ids & s' & E1 & ->). exists s'. rewrite E1. do 2 f_equal.
  apply take_ge. rewrite length_fmap, length_app, length_reverse. simpl. lia.
Qed.

(** ** Sleepers *)

Lemma wake_ready_filter wt pr now rs A :
  StronglySorted (fun p q => wt q <= wt p) rs -> (forall p, p ∈ rs -> 0 < - wt p) ->
  wake_ready wt pr now rs A =
    (filter (fun p => now <= - wt p) rs,
     foldl (fun A p => insert_prio pr p A) A (filter (fun p => - wt p < now) rs)).
Proof.
  intros Hs. revert A. induction Hs as [|p rs Hs IH Hall]; intros A Hpos; [done|].
  rewrite !filter_cons. assert (0 < - wt p) by (apply Hpos; by left). cbn [wake_ready].
  destruct (Z.eqb_spec (- wt p) 0); [lia|]. simpl. destruct (Z.ltb_spec (- wt p) now) as [Hlt|Hge].
  - rewrite decide_False, decide_True by lia. simpl. apply IH. intros q Hq. apply Hpos. by right.
  - rewrite decide_True, decide_False by lia. rewrite list_filter_all.
    + replace (filter (fun q => - wt q < now) rs) with (@nil ptr); [done|]. symmetry.
      apply list_filter_none. rewrite Forall_forall in Hall. intros q Hq. pose proof (Hall q Hq). lia.
    + rewrite Forall_forall in Hall. intros q Hq. pose proof (Hall q Hq). lia.
Qed.

Lemma fold_insert_perm pr rs A : foldl (fun A p => insert_prio pr p A) A rs ≡ₚ rs ++ A.
Proof.
  revert A. induction rs as [|r rs IH]; intros A; simpl; [done|].
  by rewrite IH, insert_prio_perm, <- Permutation_middle.
Qed.

Lemma fold_insert_sorted (pr : ptr -> Z) rs A :
  Sorted (fun x y => pr x <= pr y) A -> Sorted (fun x y => pr x <= pr y) (foldl (fun A p => insert_prio pr p A) A rs).
Proof.
  revert A. induction rs as [|r rs IH]; intros A Hs; simpl; [done|]. by apply IH, insert_prio_sorted.
Qed.

(** C26: [awake_sleeping_process] wakes exactly the sleepers whose time is
    past.  From a sleep queue ordered by wake time, the processes that are
    left in it are those whose wake time is not yet passed by the clock, in
    the same order; the others have joined the ready list, which stays ordered
    by priority; nothing else of the kernel state changes but the links. *)
Theorem sleepers_wake s Q L A :
  sched_inv s Q -> Q !! asleep_process_queue = Some L -> Q !! activatable_process_queue = Some A ->
  Sorted (fun p q => pfield s wake_time p <= pfield s wake_time q) L ->
  (forall p, p ∈ L -> pfield s wake_time p < 0) ->
  Sorted (fun p q => pfield s prio p <= pfield s prio q) A ->
  exists l A', awake_sleeping_process s = Ok (tt, s <| links := l |>) /\
    sched_inv (s <| links := l |>) (<[activatable_process_queue := A']>
      (<[asleep_process_queue := filter (fun p => counter s <= - pfield s wake_time p) L]> Q)) /\
    A' ≡ₚ filter (fun p => - pfield s wake_time p < counter s) L ++ A /\
    Sorted (fun p q => pfield s prio p <= pfield s prio q) A'.
Proof.
  intros Hinv HL HA Hs Hneg Hp.
  pose proof (wake_ready_filter (pfield s wake_time) (pfield s prio) (counter s) (reverse L) A) as Ew.
  apply Sorted_StronglySorted in Hs; [|intros a b d; lia]. apply StronglySorted_reverse in Hs.
  specialize (Ew Hs ltac:(intros p Hin; rewrite elem_of_reverse in Hin; specialize (Hneg p Hin); lia)).
  destruct (wp_elim _ _ _ (awake_sleeping_process_spec s Q L A _ _ Hinv HL HA Ew)) as ([] & s' & E1 & l & -> & Hi).
  rewrite !filter_reverse, reverse_involutive in *.
  eexists l, _. split; [exact E1|]. split; [exact Hi|]. split; [|by apply fold_insert_sorted].
  by rewrite fold_insert_perm, reverse_Permutation.
Qed.

(** ** Oversleeping *)

Lemma insert_prio_top (f : ptr -> Z) p xs : (forall x, x ∈ xs -> f x < f p) -> insert_prio f p xs = xs ++ [p].
Proof.
  induction xs as [|x xs IH]; intros Hlt; [done|]. simpl.
  destruct (Z.ltb_spec (f x) (f p)) as [|Hge]; [|specialize (Hlt x ltac:(by left)); lia].
  f_equal. apply IH. intros y Hy. apply Hlt. by right.
Qed.

(** [wait_clock] up to its call of [scheduler]. *)
Definition asleep_until (x : process) (w : Z) : process := x <| wake_time := w |> <| state := ASLEEP |>.

Lemma wait_clock_enters clock s Q c x A L (w := wrapS 64 (- wrapU 64 (counter s + clock))) :
  sched_pre s Q c x A L -> state x = ACTIF ->
  exists l, wait_clock clock s = scheduler (KRet 0 []) (s <| procs ::= <[c := asleep_until x w]> |> <| links := l |>) /\
    dom l = dom (links s) /\
    rep l (<[asleep_process_queue := insert_prio (pfield (s <| procs ::= <[c := asleep_until x w]> |>) wake_time) c L]> Q).
Proof.
  intros [Hinv [Hcur Hx Hfree _] Hk HA HL Hdue Hdead Hmain Hst] Ha. fold w.
  set (s1 := s <| procs ::= <[c := asleep_until x w]> |>).
  assert (Hadd : wp (qadd (Some c) asleep_process_queue wake_time) (fun _ s' => exists l, s' = s1 <| links := l |> /\
    dom l = dom (links s) /\ rep l (<[asleep_process_queue := insert_prio (pfield s1 wake_time) c L]> Q)) s1).
  { eapply wp_qadd; [apply (si_rep _ _ Hinv)|exact HL| |exact (Hfree Ha)| |by eauto].
    - apply (si_linked _ _ Hinv). by eexists.
    - intros q Hq. simpl. rewrite lookup_insert. case_decide; [by eexists|].
      apply elem_of_cons in Hq as [->|Hq]; [done|]. apply (si_queued _ _ Hinv).
      by eapply (queued_in Q asleep_process_queue). }
  apply wp_elim in Hadd as ([] & s' & Eadd & l & -> & Hd & Hr). exists l. split; [|done].
  unfold wait_clock. run_step (apply wp_get_current; rewrite Hcur; split; reflexivity).
  run_step (by apply wp_gets). run_step (by eapply wp_pset).
  run_step (eapply wp_pset; [apply lookup_insert_eq|done]).
  eapply eq_trans; [eapply run_bind|done]. rewrite <- Eadd. f_equal. unfold s1, asleep_until, upd.
  cbn. by rewrite insert_insert_eq.
Qed.

Lemma wake_ready_suffix wt pr now rs A rs' A' : wake_ready wt pr now rs A = (rs', A') -> rs' `suffix_of` rs.
Proof.
  revert A. induction rs as [|p rs IH]; intros A; simpl; [by intros [= <- _]|].
  destruct (_ && _); [|by intros [= <- _]]. intros Hw. by apply suffix_cons_r, (IH _ Hw).
Qed.

Lemma wake_ready_length wt pr now rs A rs' A' : wake_ready wt pr now rs A = (rs', A') -> (length A <= length A')%nat.
Proof.
  revert A. induction rs as [|p rs IH]; intros A; simpl; [by intros [= _ <-]|].
  destruct (_ && _); [|by intros [= _ <-]]. intros Hw%IH. rewrite insert_prio_perm in Hw. simpl in Hw. lia.
Qed.

Lemma Sorted_reverse_suffix (R : relation ptr) xs ys :
  Transitive R -> Sorted R xs -> ys `suffix_of` reverse xs -> Sorted R (reverse ys).
Proof.
  intros HR Hs [zs Ez]. apply (f_equal reverse) in Ez. rewrite reverse_involutive, reverse_app in Ez. subst xs.
  apply Sorted_StronglySorted in Hs; [|done]. apply StronglySorted_Sorted. revert Hs.
  generalize (reverse ys). clear. intros xs. induction xs as [|x xs IH]; [constructor|]. simpl.
  intros [Hs Hall]%StronglySorted_inv. apply Forall_app in Hall as [Hall _]. constructor; auto.
Qed.

Lemma wait_clock_pre clock s Q c x A L :
  sched_pre s Q c x A L -> state x = ACTIF -> 0 <= clock -> 0 <= counter s -> counter s + clock < 2 ^ 63 ->
  let x1 := asleep_until x (- (counter s + clock)) in
  exists l, let s1 := s <| procs ::= <[c := x1]> |> <| links := l |> in
    let L1 := insert_prio (pfield s1 wake_time) c L in
    wait_clock clock s = scheduler (KRet 0 []) s1 /\
    sched_pre s1 (<[asleep_process_queue := L1]> Q) c x1 A L1.
Proof.
  intros Hpre Ha Hclk Hcnt Hov x1. destruct (wait_clock_enters clock _ _ _ _ _ _ Hpre Ha) as (l & E1 & Hd & Hr).
  rewrite wrapU_id, wrapS_id in * by lia. fold x1 in E1, Hr. exists l. split; [done|].
  destruct Hpre as [Hinv [Hcur Hx Hfree Hready] Hk HA HL Hdue Hdead Hmain Hst].
  split; try done; rewrite ?lookup_insert_ne, ?lookup_insert_eq by done; try done.
  - eapply sched_inv_relink; [eapply sched_inv_proc; [exact Hinv|exact Hx|done| |]|..]; try done.
    + intros Hq. by destruct (Hfree Ha).
    + by apply (si_ctx _ _ Hinv _ _ Hx).
    + intros q [->|Hq]%elem_of_insert_prio; [|by left]. right. exists x1. split; [apply lookup_insert_eq|].
      intros _. simpl. lia.
  - split; try done; [apply lookup_insert_eq|]. intros A0. rewrite lookup_insert_ne by done. apply Hready.
  - intros _. simpl. lia.
Qed.


(** A clock that wraps around halts the kernel.  A running process that
    asks to sleep until [u64 (now + clock)], a date past [2^63], makes the
    assertion of [get_next_wake_time] fail at once, in the scheduler call of
    its own [wait_clock]: any process can stop the system this way. *)
Theorem wait_clock_overflow clock s Q c x A L :
  sched_pre s Q c x A L -> state x = ACTIF -> 2 ^ 63 < wrapU 64 (counter s + clock) ->
  wait_clock clock s = Err AssertFailed.
Proof.
  intros Hpre Ha Hov. destruct (wait_clock_enters clock _ _ _ _ _ _ Hpre Ha) as (l & -> & Hd & Hr).
  set (w := wrapS 64 _) in *.
  assert (Hw : 0 < w < 2 ^ 63).
  { pose proof (wrapU_range 64 (counter s + clock) ltac:(lia)). unfold w, wrapS.
    set (u := wrapU 64 _) in *. clearbody u. clear -Hov H. simpl in *. mlia. }
  set (s1 := s <| procs ::= <[c := asleep_until x w]> |>) in *.
  destruct Hpre as [Hinv [Hcur Hx Hfree _] Hk HA HL Hdue Hdead Hmain Hst].
  rewrite insert_prio_top in Hr.
  2:{ intros q Hq. destruct (si_queued _ _ Hinv q) as [y Hy]; [by eapply (queued_in Q asleep_process_queue)|].
      assert (q <> c) by (intros ->; apply Hfree; [done|by eapply (queued_in Q asleep_process_queue)]).
      rewrite (pfield_eq s1 wake_time c (asleep_until x w)) by apply lookup_insert_eq.
      rewrite (pfield_eq s1 wake_time q y) by (simpl; by rewrite lookup_insert_ne).
      pose proof (si_wake _ _ Hinv _ q y HL Hq Hy). simpl. lia. }
  unfold scheduler. run_step (by apply wp_kput).
  apply run_bind_err. unfold awake_sleeping_process. apply run_bind_err. unfold get_next_wake_time.
  run_step (eapply wp_qtop; [exact Hr|apply lookup_insert_eq|rewrite last_snoc; split; reflexivity]).
  run_step (eapply wp_pget; [apply lookup_insert_eq|done]).
  apply run_bind_err. change (wake_time (asleep_until x w)) with w. rewrite wrapS_id by lia.
  destruct (Z.leb_spec 0 (- w)); [lia|done].
Qed.

(** ** A call of the scheduler, in full *)

(** How a call of the scheduler by [c] changed the state: [r] runs, at [k']. *)
Record moved (k : kont) s Q (c : ptr) (x : process) A L (k' : kont) s' Q' (r : ptr) (z : process) A' L' : Prop := {
  mv_pre : sched_pre s' Q' r z A' L';
  mv_active : state z = ACTIF;
  mv_frame : s' = s <| sstatus_spp := false |> <| procs := procs s' |> <| links := links s' |>
    <| current_running_process_pid := current_running_process_pid s' |>;
  mv_procs : (r = c /\ procs s' = procs s /\ k' = k) \/
    (r <> c /\ exists y, procs s !! r = Some y /\ k' = resume_point y /\
      procs s' = <[r := y <| state := ACTIF |>]> (<[c := left x k]> (procs s)));
  mv_ready : forall p, p ∈ A \/ p = c /\ state x = ACTIF -> p = r \/ p ∈ A';
  mv_queued : forall p, queued Q' p -> queued Q p \/ p = c /\ state x = ACTIF;
  mv_chosen : r = c \/ queued Q r;
  mv_from : r = c \/ r ∈ A \/ r ∈ L;
  mv_heads : forall h, h <> activatable_process_queue -> h <> asleep_process_queue -> Q' !! h = Q !! h
}.

Lemma wake_ready_keeps wt pr now rs A rs' A' p : wake_ready wt pr now rs A = (rs', A') -> p ∈ A -> p ∈ A'.
Proof.
  revert A. induction rs as [|q rs IH]; intros A; simpl; [by intros [= _ <-]|].
  destruct (_ && _); [|by intros [= _ <-]]. intros Hw Hp. eapply IH; [done|]. apply elem_of_insert_prio. by right.
Qed.

(** When a process is left to run, the call returns to one, and the scheduler
    can be called again. *)
Lemma scheduler_moves k s Q c x A L :
  sched_pre s Q c x A L -> state x = ACTIF \/ A <> [] ->
  exists k' s' Q' r z A' L', scheduler k s = Ok (k', s') /\ moved k s Q c x A L k' s' Q' r z A' L'.
Proof.
  intros Hpre Hor. destruct (wake_ready (pfield s wake_time) (pfield s prio) (counter s) (reverse L) A) as [rs A1] eqn:Ew.
  pose proof (scheduler_spec k _ _ _ _ _ _ _ _ Hpre Ew) as Hwp. apply wp_elim in Hwp as (k' & s' & Erun & l & Hinv1 & Hrun1 & Hch).
  pose proof Hpre as [Hinv Hrun Hk HA HL Hdue Hdead Hmain Hst].
  assert (Hkeep : forall p, p ∈ A -> p ∈ A1) by (intros p; by eapply wake_ready_keeps).
  assert (Hq1 : forall p, queued (woken Q rs A1) p -> queued Q p).
  { intros p. eapply woken_not_queued; [done..|]. by eapply wake_ready_perm. }
  assert (HfA : forall p, p ∈ A1 -> p ∈ A \/ p ∈ L).
  { intros p Hp. assert (Hin : p ∈ rs ++ A1) by (apply elem_of_app; by right). rewrite (wake_ready_perm _ _ _ _ _ _ _ Ew) in Hin.
    rewrite elem_of_app, elem_of_reverse in Hin. tauto. }
  set (s1 := s <| sstatus_spp := false |> <| links := l |>) in *. set (Q1 := woken Q rs A1) in *.
  assert (HA1 : Q1 !! activatable_process_queue = Some A1) by apply lookup_insert_eq.
  assert (HL1 : Q1 !! asleep_process_queue = Some (reverse rs)) by (unfold Q1, woken; by rewrite lookup_insert_ne, lookup_insert_eq).
  assert (HD1 : Q1 !! dead_process_queue = Some []) by (unfold Q1, woken; by rewrite !lookup_insert_ne).
  pose proof (ru_proc _ _ _ _ Hrun1) as Hx. destruct (chosen s x A1) as [t|] eqn:Ech.
  - destruct Hch as (y & B & -> & Hy & -> & Hsw). pose proof (switched_running _ _ _ _ _ _ _ _ _ Hsw Hrun1 HA1 Hy Hinv1) as Hrun2.
    assert (Htc : t <> c) by (intros ->; eapply (ru_ready _ _ _ _ Hrun1); [exact HA1|apply elem_snoc_last]).
    pose proof Hsw as [Hps Hfr Hinv2]. exists (resume_point y), s', (<[activatable_process_queue := ready_after s1 c x B]> Q1), t, (y <| state := ACTIF |>),
      (ready_after s1 c x B), (reverse rs). split; [done|].
    assert (HLn : t ∉ reverse rs).
    { intros Hin. apply (ru_free _ _ _ _ Hrun2); [done|]. eapply (queued_in _ asleep_process_queue); [|exact Hin]. by rewrite lookup_insert_ne. }
    split; [| done | | | | | | |].
    + split; try done; rewrite ?lookup_insert_ne by done; rewrite ?lookup_insert_eq; try done; by rewrite Hfr.
    + rewrite Hfr. done.
    + right. split; [done|]. by exists y.
    + intros p Hp. unfold ready_after. destruct Hp as [Hp|[-> Ha]].
      * apply Hkeep, elem_of_app in Hp as [Hp| ->%list_elem_of_singleton]; [right|by left].
        case_bool_decide; [|done]. apply elem_of_insert_prio. by right.
      * right. rewrite bool_decide_true by done. apply elem_of_insert_prio. by left.
    + intros p Hp. eapply queued_insert in Hp as [Hp|Hp]; [left; by apply Hq1| |exact HA1]. unfold ready_after in Hp.
      assert (HB : forall q, q ∈ B -> queued Q q) by (intros q Hq; apply Hq1; eapply queued_in; [exact HA1|by apply elem_snoc_init]).
      case_bool_decide; [|left; by apply HB]. apply elem_of_insert_prio in Hp as [->|Hp]; [by right|left; by apply HB].
    + right. apply Hq1. eapply queued_in; [exact HA1|apply elem_snoc_last].
    + right. apply HfA, elem_snoc_last.
    + intros h H1 H2. unfold Q1, woken. by rewrite !lookup_insert_ne.
  - destruct Hch as [-> ->]. assert (Ha : state x = ACTIF).
    { destruct Hor as [Ha|Hne]; [done|]. destruct (decide (state x = ACTIF)) as [|Hna]; [done|]. exfalso. unfold chosen in Ech.
      rewrite bool_decide_false in Ech by done. destruct (list_snoc_inv A1) as [->|(B & t & ->)]; [|by rewrite last_snoc in Ech].
      apply Hne. pose proof (wake_ready_length _ _ _ _ _ _ _ Ew). destruct A; simpl in *; [done|lia]. }
    assert (HLn : c ∉ reverse rs).
    { intros Hin. apply (ru_free _ _ _ _ Hrun1 Ha). by eapply (queued_in _ asleep_process_queue). }
    exists k, s1, Q1, c, x, A1, (reverse rs). split; [done|]. split; [by split|done|done|by left| | |by left|by left|].
    + intros p [Hp|[-> _]]; [right; by apply Hkeep|by left].
    + intros p Hp. left. by apply Hq1.
    + intros h H1 H2. unfold Q1, woken. by rewrite !lookup_insert_ne.
Qed.
End Spec.
