(* ===== verification/Demo.v ===== *)
(** * Demo: small concrete kernel states

    An environment and kernel states with three processes, on which the
    witnesses of the process components run. *)

From S2P Require Import Prelude.
From S2P Require Import Queue.
From S2P Require Import FrameDist.
From S2P Require Import Pages.
From S2P Require Import Kernel.
From S2P Require Import KernelRules.
From S2P Require Import ProcessFree.
From S2P Require Import Scheduler.
From S2P Require Import SchedulerSpec.
#[local] Open Scope Z_scope.

#[local] Program Instance demo_layout : MemLayout :=
  {| ram_start := 0x80000000; free_memory_start := 0x80010000; memory_end := 0x80110000 |}.
Solve Obligations with done.

Definition demo_context : context_t := mk_context 0 KUserEntry 0 0 0 0 0.

Definition demo_process (id pr : Z) (st : process_state) (wake : Z) : process :=
  mk_process id None st 0 pr (Some demo_context) 0 None None None None 0 0 None 0 None None None 0 wake
    (mk_message 0 ERROR None) 0 0 None.

Definition demo_env : KEnv := {|
  k_layout := demo_layout; malloc_ok := fun _ => true;
  junk_process := fun _ => demo_process 0 0 ACTIF 0;
  junk_shared := fun _ => mk_shared_proc "" 0 0 0 0 None;
  junk_queue := fun _ => mk_msg_queue None 0 0 0; junk_word := fun _ => 0;
  symbols_table := [mk_uapps "idle" 0x80001000 0x80001800; mk_uapps "shell" 0x80002000 0x80004800];
  process_call_wrapper_kernel := 0 |}.

(** Links of three processes and of the four heads, all queues empty. *)
Definition kdemo_links0 : gmap (qhead + ptr) (@link qhead ptr) :=
  INIT_LINK 3%positive (INIT_LINK 2%positive (INIT_LINK 1%positive
    (INIT_LIST_HEAD activatable_process_queue (INIT_LIST_HEAD asleep_process_queue
      (INIT_LIST_HEAD dead_process_queue (INIT_LIST_HEAD blocked_io_process_queue ∅)))))).
Definition demo_Q0 : queues :=
  <[activatable_process_queue := []]> (<[asleep_process_queue := []]>
    (<[dead_process_queue := []]> (<[blocked_io_process_queue := []]> ∅))).

(** The links after adding [A] to the ready queue and [L] to the sleep queue. *)
Definition kdemo_links (A L : list ptr) : gmap (qhead + ptr) (@link qhead ptr) :=
  match (m ← queue_add_list (fun _ => 0) (reverse A) activatable_process_queue kdemo_links0;
         queue_add_list (fun _ => 0) (reverse L) asleep_process_queue m) with
  | Ok m => m | Err _ => ∅ end.
Definition demo_Q (A L : list ptr) : queues :=
  <[activatable_process_queue := A]> (<[asleep_process_queue := L]> demo_Q0).

(** Three processes with the pids 1, 2 and 3. *)
Definition demo_state (x1 x2 x3 : process) (A L : list ptr) (now : Z) : kstate :=
  mk_kstate (mk_fmem 0 ∅) 0 (kdemo_links A L) (<[1%positive := x1]> (<[2%positive := x2]> (<[3%positive := x3]> ∅)))
    ∅ ∅ ∅ ∅ ∅ ∅ ∅ 4%positive (<[1 := 1%positive]> (<[2 := 2%positive]> (<[3 := 3%positive]> ∅))) ∅ ∅
    (replicate 100 None) 1 3 3 [] 0 None 0 0 false (Some KMain) true now false false
    (mk_console false (replicate 20 0) (-1) 0 true []).

Lemma kdemo_unqueued p : ~ queued demo_Q0 p.
Proof.
  intros (h & xs & HQ & Hp). unfold demo_Q0 in HQ.
  repeat (rewrite lookup_insert in HQ; case_decide; [simplify_eq; by apply elem_of_nil in Hp|]).
  by rewrite lookup_empty in HQ.
Qed.

Lemma demo_rep0 : rep kdemo_links0 demo_Q0.
Proof.
  unfold kdemo_links0. do 3 (apply rep_init_link; [|apply kdemo_unqueued]).
  do 4 (apply rep_init_head; [|done]). apply rep_empty.
Qed.

Lemma add_all_equal (es : list ptr) xs : add_all (fun _ : ptr => 0) es xs = reverse es ++ xs.
Proof.
  revert xs. induction es as [|e es IH]; intros xs; [done|]. simpl. rewrite IH, reverse_cons, <- app_assoc.
  f_equal. by destruct xs.
Qed.

Definition demo_ptr (p : ptr) : Prop := p = 1%positive \/ p = 2%positive \/ p = 3%positive.

Lemma demo_linked p : demo_ptr p -> is_Some (kdemo_links0 !! inr p).
Proof. intros [->|[->| ->]]; vm_compute; by eexists. Qed.

Lemma kdemo_rep A L : NoDup (A ++ L) -> (forall p, p ∈ A ++ L -> demo_ptr p) ->
  rep (kdemo_links A L) (demo_Q A L) /\ dom (kdemo_links A L) = dom kdemo_links0.
Proof.
  intros Hnd Hin. apply NoDup_app in Hnd as (HndA & Hdisj & HndL). unfold kdemo_links.
  destruct (queue_add_list_rep (fun _ => 0) (reverse A) kdemo_links0 demo_Q0 activatable_process_queue [])
    as (m1 & -> & Hd1 & Hr1); [apply demo_rep0|done|by rewrite reverse_Permutation| |].
  { intros e He. rewrite elem_of_reverse in He. split; [|apply kdemo_unqueued].
    apply demo_linked, Hin, elem_of_app. by left. }
  rewrite add_all_equal, reverse_involutive, app_nil_r in Hr1. simpl.
  destruct (queue_add_list_rep (fun _ => 0) (reverse L) m1 (<[activatable_process_queue := A]> demo_Q0) asleep_process_queue [])
    as (m2 & -> & Hd2 & Hr2); [done|done|by rewrite reverse_Permutation| |].
  { intros e He. rewrite elem_of_reverse in He. split.
    - rewrite <- elem_of_dom, Hd1, elem_of_dom. apply demo_linked, Hin, elem_of_app. by right.
    - intros Hq. apply (queued_insert demo_Q0 activatable_process_queue [] _ _ eq_refl) in Hq as [Hq|Hq]; [by apply kdemo_unqueued in Hq|].
      by eapply Hdisj. }
  rewrite add_all_equal, reverse_involutive, app_nil_r in Hr2. split; [|congruence].
  unfold demo_Q. by rewrite insert_insert_ne.
Qed.

Lemma demo_queued A L p : queued (demo_Q A L) p -> p ∈ A ++ L.
Proof.
  intros Hq. unfold demo_Q in Hq. rewrite elem_of_app.
  eapply queued_insert in Hq as [Hq|Hq]; [|by left|by rewrite lookup_insert_ne].
  apply (queued_insert demo_Q0 asleep_process_queue [] _ _ eq_refl) in Hq as [Hq|Hq]; [by apply kdemo_unqueued in Hq|by right].
Qed.

Lemma demo_procs x1 x2 x3 A L now p x :
  procs (demo_state x1 x2 x3 A L now) !! p = Some x ->
  p = 1%positive /\ x = x1 \/ p = 2%positive /\ x = x2 \/ p = 3%positive /\ x = x3.
Proof.
  simpl. rewrite !lookup_insert. repeat case_decide; intros; simplify_eq; try tauto.
Qed.

Lemma demo_sched_inv x1 x2 x3 A L now :
  pid x1 = 1 -> pid x2 = 2 -> pid x3 = 3 -> (forall x, x ∈ [x1; x2; x3] -> is_Some (context_process x)) ->
  (forall x, x ∈ [x1; x2; x3] -> - 2 ^ 63 < wake_time x <= 0) ->
  NoDup (A ++ L) -> (forall p, p ∈ A ++ L -> demo_ptr p) ->
  sched_inv (demo_state x1 x2 x3 A L now) (demo_Q A L).
Proof.
  intros H1 H2 H3 Hctx Hwake Hnd Hin. destruct (kdemo_rep A L Hnd Hin) as [Hr Hd].
  assert (Hx : forall p x, procs (demo_state x1 x2 x3 A L now) !! p = Some x -> x ∈ [x1; x2; x3]).
  { intros p x [[_ ->]|[[_ ->]|[_ ->]]]%demo_procs; rewrite !elem_of_cons; tauto. }
  split; [done|..].
  - intros p [x Hp]. unfold linked. simpl. rewrite <- elem_of_dom, Hd, elem_of_dom. apply demo_linked.
    apply demo_procs in Hp. unfold demo_ptr. tauto.
  - intros p Hq. apply demo_queued, Hin in Hq as [->|[->| ->]]; by eexists.
  - intros id p. split.
    + simpl. rewrite !lookup_insert. repeat case_decide; intros; simplify_eq; eauto.
    + intros (x & [[-> ->]|[[-> ->]|[-> ->]]]%demo_procs & <-); rewrite ?H1, ?H2, ?H3; done.
  - intros p x [[_ ->]|[[_ ->]|[_ ->]]]%demo_procs; lia.
  - intros p x Hp. by eapply Hctx, Hx.
  - intros L0 p x _ _ Hp. by eapply Hwake, Hx.
Qed.

Lemma demo_sched_pre x1 x2 x3 A L now :
  sched_inv (demo_state x1 x2 x3 A L now) (demo_Q A L) -> state x1 <> KILLED -> 1%positive ∉ A ++ L ->
  sched_pre (demo_state x1 x2 x3 A L now) (demo_Q A L) 1%positive x1 A L.
Proof.
  intros Hinv Hk H1. assert (Hnq : ~ queued (demo_Q A L) 1%positive) by (by intros Hq%demo_queued).
  assert (HA : demo_Q A L !! activatable_process_queue = Some A) by apply lookup_insert_eq.
  split; [done| |done|done| | |done|by eexists|done].
  - split; [done|done|done|]. intros A0 HA0 Hin. simplify_eq. apply H1, elem_of_app. by left.
  - unfold demo_Q. by rewrite lookup_insert_ne, lookup_insert_eq.
  - intros Hin. destruct H1. apply elem_of_app. by right.
Qed.

(** ** The scheduler on these states *)

Definition sleepy_state : kstate :=
  demo_state (demo_process 1 5 ACTIF 0) (demo_process 2 10 ACTIVATABLE 0) (demo_process 3 20 ASLEEP (-3))
    [2%positive] [3%positive] 10.
Definition equal_state : kstate :=
  demo_state (demo_process 1 5 ACTIF 0) (demo_process 2 5 ACTIVATABLE 0) (demo_process 3 5 ACTIVATABLE 0)
    [3%positive; 2%positive] [] 10.

Ltac demo_list := intros ?; rewrite ?elem_of_app, ?elem_of_cons, ?elem_of_nil; intros; destruct_or!; subst; try done.

Lemma sleepy_pre :
  sched_pre sleepy_state (demo_Q [2%positive] [3%positive]) 1%positive (demo_process 1 5 ACTIF 0) [2%positive] [3%positive].
Proof.
  apply demo_sched_pre; [|done|set_solver].
  apply demo_sched_inv; [done..| | |simpl; repeat constructor; set_solver|]; demo_list; unfold demo_ptr; auto.
Qed.

Lemma equal_pre :
  sched_pre equal_state (demo_Q [3%positive; 2%positive] []) 1%positive (demo_process 1 5 ACTIF 0) [3%positive; 2%positive] [].
Proof.
  apply demo_sched_pre; [|done|set_solver].
  apply demo_sched_inv; [done..| | |simpl; repeat constructor; set_solver|]; demo_list; unfold demo_ptr; auto.
Qed.

(** The sleeper of priority 20 is woken and gets the processor. *)
Lemma scheduler_highest_priority_witness :
  exists k' s' Q' r z A' L', @scheduler demo_env KIret sleepy_state = Ok (k', s') /\ sched_inv s' Q' /\
    running s' Q' r z /\ Q' !! activatable_process_queue = Some A' /\ Q' !! asleep_process_queue = Some L' /\
    Sorted (fun p q => pfield s' prio p <= pfield s' prio q) A' /\
    (ACTIF = ACTIF \/ r <> 1%positive -> state z = ACTIF /\ forall p, p ∈ A' -> pfield s' prio p <= prio z) /\
    r :: A' ++ L' ≡ₚ [1%positive; 2%positive; 3%positive].
Proof.
  refine (@scheduler_highest_priority demo_env KIret _ _ _ _ _ _ sleepy_pre _). repeat constructor.
Defined.

(** Three processes of priority 5: 2, 3, then 1 again. *)
Lemma scheduler_round_robin_witness : exists s', @ticks demo_env 3 equal_state = Ok ([2; 3; 1], s').
Proof.
  refine (@scheduler_round_robin demo_env _ _ _ _ _ 5 equal_pre eq_refl _ _); [done|]. demo_list.
Defined.

Lemma sleepers_wake_witness :
  exists l A', awake_sleeping_process sleepy_state = Ok (tt, sleepy_state <| links := l |>) /\
    sched_inv (sleepy_state <| links := l |>)
      (<[activatable_process_queue := A']> (<[asleep_process_queue := []]> (demo_Q [2%positive] [3%positive]))) /\
    A' ≡ₚ [3%positive; 2%positive] /\ Sorted (fun p q => pfield sleepy_state prio p <= pfield sleepy_state prio q) A'.
Proof.
  refine (@sleepers_wake _ _ _ _ (sp_inv _ _ _ _ _ _ sleepy_pre) (sp_asleep _ _ _ _ _ _ sleepy_pre)
    (sp_ready _ _ _ _ _ _ sleepy_pre) _ _ _); [repeat constructor|demo_list|repeat constructor].
Defined.


Lemma wait_clock_overflow_witness : @wait_clock demo_env (2 ^ 63) sleepy_state = Err AssertFailed.
Proof. refine (@wait_clock_overflow demo_env (2 ^ 63) _ _ _ _ _ _ sleepy_pre eq_refl _). done. Defined.
