(* ===== verification/SharedWitness.v ===== *)
(** * SharedWitness: two processes that share memory

    A state with two processes, each with a directory and a level-1 table of
    its own, on which the theorems of [SharedRefinement.v] apply. *)

From S2P Require Import Prelude.
From S2P Require Import Queue.
From S2P Require Import FrameDist.
From S2P Require Import Pages.
From S2P Require Import Kernel.
From S2P Require Import KernelRules.
From S2P Require Import ProcessMemory.
From S2P Require Import PageFilling.
From S2P Require Import TableList.
From S2P Require Import ProcessMemorySpec.
From S2P Require Import SharedMemory.
From S2P Require Import SharedTables.
From S2P Require Import SharedPages.
From S2P Require Import SharedMemorySpec.
From S2P Require Import SharedRefinement.
From S2P Require Import Demo.
#[local] Open Scope Z_scope.

#[local] Existing Instance demo_env.

(** The memory: two directories with the link to a level-1 table each. *)
Definition share_setup : M fmem unit :=
  _ ← init_frames;
  r1 ← create_page_table; t1 ← create_page_table;
  r2 ← create_page_table; t2 ← create_page_table;
  _ ← configure_page_entry (pte_at r1 USERSPACE) t1 false false false true KILO;
  configure_page_entry (pte_at r2 USERSPACE) t2 false false false true KILO.
Definition share_mem : fmem := match share_setup (mk_fmem 0 ∅) with Ok (_, m) => m | Err _ => mk_fmem 0 ∅ end.
Definition share_root (i : nat) : Z := nth_frame (2 * i).
Definition share_table (i : nat) : Z := nth_frame (2 * i + 1).
Definition share_free : list Z := drop 4 all_frames.

Lemma share_frames : all_frames = share_root 0 :: share_table 0 :: share_root 1 :: share_table 1 :: share_free.
Proof. vm_compute. reflexivity. Qed.

Record share_facts (m : fmem) : Prop := {
  sf_free : free_ok m share_free;
  sf_link : forall i, (i < 2)%nat -> links_to m (share_root i) USERSPACE (share_table i);
  sf_zero : forall i j, (i < 2)%nat -> 0 <= j < 512 -> word m (pte_at (share_table i) j) = 0
}.

(** A new table, the others kept. *)
Lemma next_table m f free : free_ok m (f :: free) -> free <> [] ->
  wp create_page_table (fun t m' => t = f /\ free_ok m' free /\ only_in f m m' /\ forall j, 0 <= j < 512 -> word m' (pte_at f j) = 0) m.
Proof.
  intros Hok Hne. eapply wp_mono; [by apply create_page_table_spec|]. intros t m' Ht. cbn beta in Ht.
  rewrite decide_False in Ht by done. by destruct Ht as (-> & _ & _ & ? & ? & ?).
Qed.

Lemma share_mem_facts : share_facts share_mem.
Proof.
  assert (Hnd : NoDup all_frames) by apply all_frames_nodup.
  assert (Hfr : Forall is_frame all_frames) by (apply Forall_forall; intros f; apply elem_of_all_frames).
  rewrite share_frames in Hnd, Hfr.
  assert (Hne : share_free <> []) by (vm_compute; discriminate).
  assert (Hwp : wp share_setup (fun _ m => share_facts m) (mk_fmem 0 ∅)).
  { unfold share_setup. apply wp_bind. eapply wp_mono; [apply init_frames_spec|]. intros [] m0 Hok0. rewrite share_frames in Hok0.
    apply wp_bind. eapply wp_mono; [by eapply next_table|]. intros t m1 (-> & Hok1 & O1 & Z1).
    apply wp_bind. eapply wp_mono; [by eapply next_table|]. intros t m2 (-> & Hok2 & O2 & Z2).
    apply wp_bind. eapply wp_mono; [by eapply next_table|]. intros t m3 (-> & Hok3 & O3 & Z3).
    apply wp_bind. eapply wp_mono; [by eapply next_table|]. intros t m4 (-> & Hok4 & O4 & Z4).
    rewrite !Forall_cons in Hfr. destruct Hfr as (F1 & F2 & F3 & F4 & _).
    rewrite !NoDup_cons, !not_elem_of_cons in Hnd. destruct Hnd as ((D1 & D2 & D3 & D4) & (D5 & D6 & D7) & (D8 & D9) & D10 & _).
    apply wp_bind. eapply (wp_configure_table (share_root 0)); [done|done|apply configured_kilo|apply kilo_entry_wf, pte_of_word_wf|].
    intros m5 P5 O5 E5 _. eapply (wp_configure_table (share_root 1)); [done|done|apply configured_kilo|apply kilo_entry_wf, pte_of_word_wf|].
    intros m6 P6 O6 E6 _. split.
    - eapply free_ok_only_in; [|exact P6|exact O6|done]. eapply free_ok_only_in; [exact Hok4|exact P5|exact O5|done].
    - intros i Hi. destruct i as [|[|i]]; [| |lia].
      + eexists. unfold table_entry in *. rewrite O6 by (rewrite pte_at_frame by done; done). exact E5.
      + eexists. exact E6.
    - intros i j Hi Hj. destruct i as [|[|i]]; [| |lia].
      + rewrite O6, O5, O4, O3 by (rewrite pte_at_frame by done; congruence). by apply Z2.
      + rewrite O6, O5 by (rewrite pte_at_frame by done; congruence). by apply Z4. }
  unfold share_mem. apply wp_elim in Hwp as ([] & m & Hrun & Hm). by rewrite Hrun.
Qed.

(** The processes with the pids 1 and 2, their views and the state. *)
Definition share_process (id : Z) (i : nat) (p : ptr) : process :=
  demo_process id 1 ACTIF 0 <| page_table_level_2 := share_root i |> <| page_tables_lvl_1_list := Some p |>.
Definition share_node (i : nat) : page_table_link_list_t := mk_pt_link (share_table i) None None None None 0 0 0 0 USERSPACE.
Definition share_state : kstate :=
  demo_state (share_process 1 0 10%positive) (share_process 2 1 11%positive) (demo_process 3 1 ACTIF 0) [] [] 0
    <| frame_mem := share_mem |> <| next_block := 20%positive |>
    <| pt_nodes := <[10%positive := share_node 0]> (<[11%positive := share_node 1]> ∅) |>.
Definition share_view (i : nat) (p : ptr) : pview := mk_pview (share_root i) (share_table i) [p] [] [] 0 [] [].
Definition share_world : world :=
  mk_world (<[1%positive := share_view 0 10%positive]> (<[2%positive := share_view 1 11%positive]> ∅)) ∅ share_free.

Lemma share_procs q V : w_procs share_world !! q = Some V ->
  exists i id p, (i < 2)%nat /\ V = share_view i p /\ procs share_state !! q = Some (share_process id i p) /\
    pt_nodes share_state !! p = Some (share_node i) /\ (q = 1%positive /\ i = 0%nat /\ p = 10%positive \/ q = 2%positive /\ i = 1%nat /\ p = 11%positive).
Proof.
  simpl. rewrite !lookup_insert. repeat case_decide; intros [= <-]; subst.
  - exists 0%nat, 1, 10%positive. split_and!; try done; [lia|by left].
  - exists 1%nat, 2, 11%positive. split_and!; try done; [lia|by right].
Qed.

Lemma share_proc_ok i id p q : (i < 2)%nat -> procs share_state !! q = Some (share_process id i p) ->
  pt_nodes share_state !! p = Some (share_node i) -> Forall is_frame [share_root i; share_table i] -> share_root i <> share_table i ->
  proc_ok share_state ∅ q (share_view i p) (share_process id i p).
Proof.
  intros Hi Hq Hp Hf Hne. destruct share_mem_facts as [F1 F2 F3]. split; [exact Hq|done|done| | | |].
  - split; [|constructor|split; simpl; lia|simpl; lia]. exists p, (share_node i), [].
    split; [split; [exact Hp|done|done|apply NoDup_singleton]|]. split; [done|]. split; [done|]. split; [done|]. split; [done|].
    by split_and!.
  - split; simpl; [by apply F2|done| |done|].
    + intros j Hj. apply F3; [done|]. unfold SHARED_MEMORY_START. lia.
    + apply NoDup_cons. split; [by rewrite list_elem_of_singleton|apply NoDup_singleton].
  - split; simpl; [done|by right|done|done|constructor..].
  - split; simpl; [|lia]. intros k j []%not_elem_of_nil.
Qed.

Lemma share_ok : shm_ok share_state share_world.
Proof.
  assert (Hnd : NoDup all_frames) by apply all_frames_nodup.
  assert (Hfr : Forall is_frame all_frames) by (apply Forall_forall; intros f; apply elem_of_all_frames).
  rewrite share_frames in Hnd, Hfr. rewrite !Forall_cons in Hfr. destruct Hfr as (G1 & G2 & G3 & G4 & _).
  rewrite !NoDup_cons, !not_elem_of_cons in Hnd. destruct Hnd as ((D1 & D2 & D3 & D4) & (D5 & D6 & D7) & (D8 & D9) & D10 & _).
  assert (Hno : forall k y, w_names share_world !! k = Some y -> False) by (intros k y; simpl; by rewrite lookup_empty).
  split.
  - apply share_mem_facts.
  - done.
  - intros k p f Hk. destruct (Hno _ _ Hk).
  - intros k p f Hk. destruct (Hno _ _ Hk).
  - intros k k' p p' f Hk. destruct (Hno _ _ Hk).
  - intros q V HV. destruct (share_procs q V HV) as (i & id & p & Hi & -> & Hq & Hp & Hc). exists (share_process id i p).
    simpl (w_names _). rewrite fmap_empty. apply share_proc_ok; [done..| |].
    + destruct Hc as [(_ & -> & _)|(_ & -> & _)]; by repeat constructor.
    + by destruct Hc as [(_ & -> & _)|(_ & -> & _)].
  - intros q V t HV Ht. split; [|intros k p f Hk; destruct (Hno _ _ Hk)].
    destruct (share_procs q V HV) as (i & id & p & Hi & -> & _ & _ & Hc). unfold own_tables in Ht. simpl in Ht |- *.
    rewrite !elem_of_cons in Ht. destruct Hc as [(_ & -> & _)|(_ & -> & _)]; destruct Ht as [->|[->|[]%not_elem_of_nil]]; done.
  - intros q q' V V' Hne HV HV'. destruct (share_procs q V HV) as (i & id & p & Hi & -> & _ & _ & Hc).
    destruct (share_procs q' V' HV') as (i' & id' & p' & Hi' & -> & _ & _ & Hc').
    assert (Hap : i <> i' /\ p <> p') by naive_solver. destruct Hap as [Hii Hpp].
    split; simpl; [set_solver| | |]; try (intros r []%not_elem_of_nil).
    unfold own_tables. simpl. intros t Ht Ht'. rewrite !elem_of_cons in Ht, Ht'.
    destruct Hc as [(_ & -> & _)|(_ & -> & _)], Hc' as [(_ & -> & _)|(_ & -> & _)]; try done;
      destruct Ht as [->|[->|[]%not_elem_of_nil]], Ht' as [Et|[Et|[]%not_elem_of_nil]]; congruence.
  - split; intros r Hr; simpl in Hr; destruct Hr as [y Hr]; [|by rewrite lookup_empty in Hr..].
    rewrite !lookup_insert in Hr. repeat case_decide; subst; simpl; try lia. by rewrite lookup_empty in Hr.
  - vm_compute. reflexivity.
Qed.

Definition share_calls : list (Z * shm_op) := [(1, Create "a"); (2, Acquire "a"); (1, Release "a"); (1, Create "a")].
Definition share_callers : list (ptr * shm_op) :=
  [(1%positive, Create "a"); (2%positive, Acquire "a"); (1%positive, Release "a"); (1%positive, Create "a")].

Lemma share_called : callers share_state share_calls share_callers.
Proof. by repeat constructor. Qed.
Lemma share_known : Forall (fun d => is_Some (w_procs share_world !! d.1)) share_callers.
Proof. repeat constructor; by eexists. Qed.
Lemma share_enough n : (n <= 100)%nat -> enough_for (abs share_world) n.
Proof.
  intros Hn. split.
  - assert (length (ab_free (abs share_world)) = 252%nat) as -> by (vm_compute; reflexivity). lia.
  - intros q sh. simpl. rewrite lookup_fmap. destruct (_ !! q) as [V|] eqn:EV; [|done]. intros [= <-].
    destruct (share_procs q V EV) as (i & _ & p & _ & -> & _). simpl. lia.
Qed.


Lemma shared_page_is_shared_witness :
  w_names share_world !! "a" = None /\
  exists s' va1 va2 x1 x2 f, shm_runs [(1, Create "a"); (2, Acquire "a")] share_state = Ok ([va1; va2], s') /\
    procs s' !! 1%positive = Some x1 /\ procs s' !! 2%positive = Some x2 /\
    forall o, 0 <= o < 4096 -> shared_part (va1 + o) /\ shared_part (va2 + o) /\ exists p1 p2,
      sv39_walk (word (frame_mem s')) (page_table_level_2 x1) (va1 + o) = Some (f + o, p1) /\
      sv39_walk (word (frame_mem s')) (page_table_level_2 x2) (va2 + o) = Some (f + o, p2) /\
      user_access p1 false /\ user_access p2 false.
Proof.
  split; [reflexivity|].
  apply (shared_page_is_shared share_state share_world "a" 1 2 1%positive 2%positive share_ok eq_refl (fun _ => eq_refl));
    [reflexivity|reflexivity|discriminate|by eexists|by eexists|reflexivity|apply share_enough; lia].
Defined.

(** The process 1 maps the page "a", alone. *)
Lemma one_mapped : exists s W sh f, shm_ok s W /\ custom_release_process s = None /\
  pid_process_hash_table s !! current_running_process_pid s = Some 1%positive /\
  ab_procs (abs W) !! 1%positive = Some sh /\ sh_maps sh !! "a" = Some 0 /\ ab_names (abs W) !! "a" = Some f /\
  forall q sh', q <> 1%positive -> ab_procs (abs W) !! q = Some sh' -> sh_maps sh' !! "a" = None.
Proof.
  assert (HV : w_procs share_world !! 1%positive = Some (share_view 0 10%positive)) by reflexivity.
  assert (Hm : forall p, malloc_ok p = true) by (intros p; reflexivity).
  assert (Hfr : (3 <= length (w_free share_world))%nat) by (vm_compute; lia).
  assert (Hwp := shm_run_refines share_state share_world 1%positive _ share_ok HV eq_refl eq_refl Hm Hfr ltac:(simpl; lia) (Create "a")).
  apply wp_elim in Hwp as (r & s & _ & (E1 & E2 & E3) & W & Hok & Hspec).
  assert (EP : ab_procs (abs W) = ab_procs (shm_spec 1%positive (Create "a") (abs share_world)).2) by (by rewrite Hspec).
  assert (EN : ab_names (abs W) = ab_names (shm_spec 1%positive (Create "a") (abs share_world)).2) by (by rewrite Hspec).
  exists s, W, (mk_sharer (<["a" := 0]> ∅) [] 1), (nth_frame 4).
  split; [exact Hok|]. split; [by rewrite E3|]. split; [by rewrite E1, E2|]. rewrite EP, EN.
  split; [vm_compute; reflexivity|]. split; [reflexivity|]. split; [vm_compute; reflexivity|].
  intros q sh' Hne.
  assert (Ep : ab_procs (shm_spec 1%positive (Create "a") (abs share_world)).2 =
    <[1%positive := mk_sharer (<["a" := 0]> ∅) [] 1]> (ab_procs (abs share_world))) by (vm_compute; reflexivity).
  rewrite Ep, lookup_insert_ne by done. simpl. rewrite lookup_fmap. destruct (_ !! q) as [V|] eqn:EV; [|done].
  intros [= <-]. destruct (share_procs q V EV) as (i & _ & p & _ & -> & _). apply lookup_empty.
Qed.

Lemma shm_release_unmaps_witness : exists s W f s' W', shm_ok s W /\ ab_names (abs W) !! "a" = Some f /\
  shm_release (Some "a") s = Ok (tt, s') /\ shm_ok s' W' /\ ab_names (abs W') !! "a" = None /\
  ab_free (abs W') = f :: ab_free (abs W).
Proof.
  destruct one_mapped as (s & W & sh & f & Hok & Hc & Hcur & Hq & Hk & Hf & Halone).
  destruct (shm_release_unmaps s W 1%positive sh "a" 0 f Hok Hc (fun _ => eq_refl) Hcur Hq Hk Hf)
    as (s' & W' & Hrun & Hok' & _ & Hlast & _).
  exists s, W, f, s', W'. split; [exact Hok|]. split; [exact Hf|]. split; [exact Hrun|]. split; [exact Hok'|]. by apply Hlast.
Defined.
