(* ===== verification/ProcessMemoryWitness.v ===== *)
(** * ProcessMemoryWitness: a process whose memory is allocated

    The kernel just booted: 256 frames, the first one holding the kernel's
    directory; process 1 is to run a program of two kilobytes with a stack of
    one page. *)

From S2P Require Import Prelude.
From S2P Require Import Queue.
From S2P Require Import FrameDist.
From S2P Require Import Pages.
From S2P Require Import Kernel.
From S2P Require Import KernelRules.
From S2P Require Import ProcessMemory.
From S2P Require Import PageFilling.
From S2P Require Import ProcessMemorySpec.
From S2P Require Import Demo.
#[local] Open Scope Z_scope.

#[local] Existing Instance demo_env.

Definition demo_app : uapps := mk_uapps "idle" 0x80001000 0x80001800.
Definition fresh_process : process := demo_process 1 1 ACTIF 0 <| app_pointer := Some demo_app |>.

(** Frame [i] of the machine, and the state with the memory [m]. *)
Definition fr (i : Z) : Z := 0x80010000 + 4096 * i.
Definition other_frames : list Z := nth_frame <$> seq 8 248.
Definition booted (m : fmem) : kstate :=
  demo_state fresh_process (demo_process 2 1 ACTIVATABLE 0) (demo_process 3 1 ACTIVATABLE 0) [] [] 0
    <| frame_mem := m |> <| kernel_table := fr 0 |>.

Lemma booted_memory : exists m, free_ok m (fr 1 :: fr 2 :: [fr 3] ++ fr 4 :: [fr 5; fr 6] ++ fr 7 :: other_frames).
Proof.
  pose proof (init_frames_spec (mk_fmem 0 ∅)) as Hwp. apply wp_elim in Hwp as ([] & s0 & _ & Hok).
  assert (El : all_frames = fr 0 :: (fr 1 :: fr 2 :: [fr 3] ++ fr 4 :: [fr 5; fr 6] ++ fr 7 :: other_frames))
    by (vm_compute; reflexivity).
  rewrite El in Hok. eexists. by apply (get_frame_ok _ _ _ Hok).
Qed.

Lemma booted_allocation m :
  free_ok m (fr 1 :: fr 2 :: [fr 3] ++ fr 4 :: [fr 5; fr 6] ++ fr 7 :: other_frames) ->
  allocation (booted m) 1%positive fresh_process demo_app 4096 (fr 1) (fr 2) [fr 3] (fr 4) [fr 5; fr 6] (fr 7) other_frames.
Proof.
  intros Hok. split; try done.
  - split; [split; [split|]; by vm_compute|].
    match goal with |- ?x ∉ ?l => apply (bool_decide_eq_false_1 (x ∈ l)) end. vm_compute. reflexivity.
  - intros p Hp. simpl in Hp. by apply is_Some_None in Hp.
Qed.

Lemma user_address_space_witness :
  exists m s' p, process_memory_allocator (Some 1%positive) 4096 (booted m) = Ok (0, s') /\
    sv39_walk (word (frame_mem s')) (fr 1) 0x40001234 = Some (fr 6 + 0x234, p) /\
    sv39_walk (word (frame_mem s')) (fr 1) 0x40002000 = None.
Proof.
  destruct booted_memory as [m Hm].
  destruct (user_address_space _ _ _ _ _ _ _ _ _ _ _ _ (booted_allocation m Hm)) as (s' & Hrun & _ & _ & Hwalk & _).
  pose proof (Hwalk 0x40001234 ltac:(lia)) as (f & p & Hf & Hw & _). pose proof (Hwalk 0x40002000 ltac:(lia)) as Hn.
  exists m, s', p. injection Hf as <-. split; [exact Hrun|]. split; [exact Hw|exact Hn].
Defined.

Lemma stack_page_not_cleared_witness :
  exists m s' p, process_memory_allocator (Some 1%positive) 4096 (booted m) = Ok (0, s') /\
    sv39_walk (word (frame_mem s')) (fr 1) 0x40001000 = Some (fr 6, p) /\
    word (frame_mem s') (pte_at (fr 6) 0) = word m (pte_at (fr 6) 0).
Proof.
  destruct booted_memory as [m Hm].
  destruct (stack_page_not_cleared _ _ _ _ _ _ _ _ _ _ _ _ 1%nat (fr 6) (booted_allocation m Hm)
    ltac:(vm_compute; reflexivity) ltac:(reflexivity)) as (s' & p & Hrun & Hw & _ & Hc).
  exists m, s', p. split; [exact Hrun|]. split; [exact Hw|]. apply Hc. lia.
Defined.
