(* ===== verification/Semaphore.v ===== *)
(** * Semaphore: counting semaphores, [src/kernel/process/semaphore_api.c]

    The waiters of a semaphore are a singly linked list of heap nodes sorted
    by priority.  The first part translates the operations as they walk and
    relink that list. *)

From S2P Require Import Prelude.
From S2P Require Import Queue.
From S2P Require Import FrameDist.
From S2P Require Import Pages.
From S2P Require Import Kernel.
From S2P Require Import ProcessFree.
From S2P Require Import Scheduler.
#[local] Open Scope Z_scope.

Definition MAX_COUNT : Z := 32767.
Definition MIN_COUNT : Z := -32768.
Definition NB_MAX_SEMS : Z := 10000.

(** [awake_signal_t]; the enumerator after [SRESET_CALL = -4] is -3. *)
Definition SIGNAL_CALL : Z := 0.
Definition SDETETE_CALL : Z := -3.
Definition SRESET_CALL : Z := -4.
Definition KILL_CALL : Z := -3.

Section Semaphore.
Context `{E : KEnv}.

Definition set_header (sem : option ptr) (h : list_semaphore_header_t) : K unit :=
  wr sems sem (fun s => s <| list_header_process := Some h |>).

(** The end of [remove_proc_queue] and [unblock_process_sem]: the process of a
    removed node becomes activatable (and is queued unless [kill]). *)
Definition awake_blocked (node : option ptr) (signal_enum : Z) (queued : bool) : K Z :=
  b ← rd blocked_nodes node;
  let p := Some (blocked_process b) in
  _ ← pset p state ACTIVATABLE;
  _ ← (if queued then qadd p activatable_process_queue prio else mret tt);
  _ ← pset p sem_signal signal_enum;
  _ ← free blocked_nodes node;
  mret 0.

Definition pid_of_node (node : option ptr) : K Z :=
  b ← rd blocked_nodes node; pget (Some (blocked_process b)) pid.

(** [while (iter->next_block_struct != tail_blocked)] *)
Fixpoint node_before_tail (fuel : nat) (iter tail : option ptr) : K (option ptr) :=
  match fuel with
  | O => fail OutOfFuel
  | S fuel =>
      b ← rd blocked_nodes iter;
      if bool_decide (next_block_struct b = tail) then mret iter
      else node_before_tail fuel (next_block_struct b) tail
  end.

(** The search of the last branch of [remove_proc_queue]: the test of the code
    is [pid != pid]. *)
Fixpoint remove_search (fuel : nat) (iter iter_prev : option ptr) (pid_ : Z) : K (option ptr * option ptr) :=
  match fuel with
  | O => fail OutOfFuel
  | S fuel =>
      match iter with
      | None => mret (None, iter_prev)
      | Some _ =>
          id ← pid_of_node iter;
          if negb (id =? pid_) then mret (iter, iter_prev)
          else b ← rd blocked_nodes iter; remove_search fuel (next_block_struct b) iter pid_
      end
  end.

Definition remove_proc_queue (sem_struct : option ptr) (signal_enum pid_ : Z) : K Z :=
  sem ← rd sems sem_struct;
  match list_header_process sem with
  | None => mret 1
  | Some h =>
      match head_blocked h with
      | None => mret 1
      | Some _ =>
          let finish node := awake_blocked node signal_enum (negb (signal_enum =? KILL_CALL)) in
          head_pid ← pid_of_node (head_blocked h);
          if bool_decide (head_blocked h = tail_blocked h) then
            if head_pid =? pid_ then
              _ ← set_header sem_struct (mk_header None None); finish (head_blocked h)
            else mret (-1)
          else if head_pid =? pid_ then
            b ← rd blocked_nodes (head_blocked h);
            _ ← set_header sem_struct (h <| head_blocked := next_block_struct b |>);
            finish (head_blocked h)
          else
            tail_pid ← pid_of_node (tail_blocked h);
            if tail_pid =? pid_ then
              fuel ← gets (walk_fuel blocked_nodes);
              iter ← node_before_tail fuel (head_blocked h) (tail_blocked h);
              _ ← wr blocked_nodes iter (fun b => b <| next_block_struct := None |>);
              _ ← set_header sem_struct (h <| tail_blocked := iter |>);
              finish (tail_blocked h)
            else
              fuel ← gets (walk_fuel blocked_nodes);
              '(iter, iter_prev) ← remove_search fuel (head_blocked h) (head_blocked h) pid_;
              match iter with
              | None => mret (-1)
              | Some _ =>
                  b ← rd blocked_nodes iter;
                  _ ← wr blocked_nodes iter_prev (fun c => c <| next_block_struct := next_block_struct b |>);
                  finish iter
              end
      end
  end.

Definition unblock_process_sem (sem_struct : option ptr) (signal_enum : Z) : K Z :=
  sem ← rd sems sem_struct;
  match list_header_process sem with
  | None => mret 1
  | Some h =>
      match head_blocked h with
      | None => mret 1
      | Some _ =>
          _ ← (if bool_decide (head_blocked h = tail_blocked h)
               then set_header sem_struct (mk_header None None)
               else b ← rd blocked_nodes (head_blocked h);
                    set_header sem_struct (h <| head_blocked := next_block_struct b |>));
          awake_blocked (head_blocked h) signal_enum true
      end
  end.

(** [while (unblock_process_sem(...) != 1);] *)
Fixpoint unblock_all (fuel : nat) (sem_struct : option ptr) (signal_enum : Z) : K unit :=
  match fuel with
  | O => fail OutOfFuel
  | S fuel =>
      r ← unblock_process_sem sem_struct signal_enum;
      if r =? 1 then mret tt else unblock_all fuel sem_struct signal_enum
  end.

Definition scount (sem : Z) : K Z :=
  sem_struct ← get_semaphore_struct sem;
  match sem_struct with
  | None => mret (-1)
  | Some _ => s ← rd sems sem_struct; mret (Z.land 0xffff (count s))
  end.

Definition screate (count_ : Z) : K Z :=
  if count_ <? 0 then mret (-1)
  else
    running ← gets currently_running_semaphores;
    if running =? NB_MAX_SEMS then mret (-1)
    else
      sem ← malloc sems (fun _ => mk_sem count_ None);
      match sem with
      | None => mret (-1)
      | Some s =>
          _ ← kput parent_block false;
          semaphore_id ← increment_semaphore_id;
          if semaphore_id <? 0 then mret (-1)
          else
            _ ← kupd semaphore_table <[semaphore_id := s]>;
            _ ← kupd currently_running_semaphores (fun x => x + 1);
            mret semaphore_id
      end.

(** The loop of [wait] that stuffs the new node before the first waiter of
    lower priority; the result says whether it did. *)
Fixpoint stuff_waiter (fuel : nat) (sem_struct node iter iter_prev : option ptr) (current_prio : Z) : K bool :=
  match fuel with
  | O => fail OutOfFuel
  | S fuel =>
      match iter with
      | None => mret false
      | Some _ =>
          b ← rd blocked_nodes iter;
          prio_ ← pget (Some (blocked_process b)) prio;
          if prio_ <? current_prio then
            sem ← rd sems sem_struct;
            h ← lift (deref (list_header_process sem));
            _ ← (if bool_decide (iter = head_blocked h) then
                   _ ← wr blocked_nodes node (fun c => c <| next_block_struct := head_blocked h |>);
                   set_header sem_struct (h <| head_blocked := node |>)
                 else
                   _ ← wr blocked_nodes node (fun c => c <| next_block_struct := iter |>);
                   wr blocked_nodes iter_prev (fun c => c <| next_block_struct := node |>));
            mret true
          else stuff_waiter fuel sem_struct node (next_block_struct b) iter current_prio
      end
  end.

(** The part of [wait] that links the process among the waiters. *)
Definition block_on_semaphore (sem_struct proc_sem : option ptr) : K unit :=
  sem ← rd sems sem_struct;
  _ ← match list_header_process sem with
      | Some _ => mret tt
      | None =>
          ok ← malloc_block;
          if negb ok then fail NullDeref else set_header sem_struct (mk_header None None)
      end;
  p ← lift (deref proc_sem);
  node ← malloc blocked_nodes (fun _ => mk_blocked p None);
  _ ← lift (deref node);
  sem ← rd sems sem_struct;
  h ← lift (deref (list_header_process sem));
  match head_blocked h, tail_blocked h with
  | None, None => set_header sem_struct (mk_header node node)
  | _, _ =>
      current_prio ← pget proc_sem prio;
      fuel ← gets (walk_fuel blocked_nodes);
      stuffed ← stuff_waiter fuel sem_struct node (head_blocked h) (head_blocked h) current_prio;
      if (stuffed : bool) then mret tt
      else
        _ ← wr blocked_nodes (tail_blocked h) (fun c => c <| next_block_struct := node |>);
        set_header sem_struct (h <| tail_blocked := node |>)
  end.

Definition wait (sem : Z) : K kont :=
  sem_struct ← get_semaphore_struct sem;
  match sem_struct with
  | None => mret (KRet (-1) [])
  | Some _ =>
      proc_sem ← get_current_process;
      match proc_sem with
      | None => mret (KRet (-1) [])
      | Some p =>
          _ ← pset proc_sem sem_signal 0;
          s ← rd sems sem_struct;
          if count s =? MIN_COUNT then mret (KRet (-2) [])
          else
            let c := wrapS 16 (count s - 1) in
            _ ← wr sems sem_struct (fun s => s <| count := c |>);
            _ ← (if c <? 0 then
                   _ ← block_on_semaphore sem_struct proc_sem;
                   _ ← pset proc_sem semaphore_id sem;
                   pset proc_sem state BLOCKEDSEMAPHORE
                 else mret tt);
            scheduler (KWait p)
      end
  end.

(** [wait] after [scheduler()]: [return proc_sem->sem_signal]. *)
Definition resume_wait (p : ptr) : K kont := v ← pget (Some p) sem_signal; mret (KRet v []).

Definition proc_kill_diag (sem signal_enum pid_ : Z) : K Z :=
  sem_struct ← get_semaphore_struct sem;
  match sem_struct with
  | None => mret (-1)
  | Some _ =>
      s ← rd sems sem_struct;
      if count s =? MAX_COUNT then mret (-2)
      else
        let c := wrapS 16 (count s + 1) in
        _ ← wr sems sem_struct (fun s => s <| count := c |>);
        _ ← (if c <=? 0 then _ ← remove_proc_queue sem_struct KILL_CALL pid_; mret tt else mret tt);
        mret 0
  end.

Definition signal (sem : Z) : K kont :=
  sem_struct ← get_semaphore_struct sem;
  match sem_struct with
  | None => mret (KRet (-1) [])
  | Some _ =>
      s ← rd sems sem_struct;
      if count s =? MAX_COUNT then mret (KRet (-2) [])
      else
        let c := wrapS 16 (count s + 1) in
        _ ← wr sems sem_struct (fun s => s <| count := c |>);
        _ ← (if c <=? 0 then _ ← unblock_process_sem sem_struct SIGNAL_CALL; mret tt else mret tt);
        blocked ← gets parent_block;
        if (blocked : bool) then mret (KRet 0 []) else scheduler (KRet 0 [])
  end.

Definition sdelete (sem : Z) : K kont :=
  sem_struct ← get_semaphore_struct sem;
  match sem_struct with
  | None => mret (KRet (-1) [])
  | Some _ =>
      fuel ← gets (walk_fuel blocked_nodes);
      _ ← unblock_all fuel sem_struct SDETETE_CALL;
      _ ← kupd semaphore_table (delete sem);
      _ ← free sems sem_struct;
      _ ← kupd currently_running_semaphores (fun x => x - 1);
      scheduler (KRet 0 [])
  end.

Definition sreset (sem count_ : Z) : K kont :=
  sem_struct ← get_semaphore_struct sem;
  match sem_struct with
  | None => mret (KRet (-1) [])
  | Some _ =>
      if count_ <? 0 then mret (KRet (-1) [])
      else
        fuel ← gets (walk_fuel blocked_nodes);
        _ ← unblock_all fuel sem_struct SRESET_CALL;
        _ ← wr sems sem_struct (fun s => s <| count := wrapS 16 count_ |>);
        scheduler (KRet 0 [])
  end.

Definition try_wait (sem : Z) : K kont :=
  sem_struct ← get_semaphore_struct sem;
  match sem_struct with
  | None => mret (KRet (-1) [])
  | Some _ =>
      s ← rd sems sem_struct;
      if 0 <? count s then
        _ ← wr sems sem_struct (fun s => s <| count ::= fun c => c - 1 |>);
        scheduler (KRet 0 [])
      else mret (KRet (-3) [])
  end.

(** The loop of [signaln]; [parent_block] is set, so [signal] does not call
    the scheduler and returns its value. *)
Fixpoint signaln_loop (n : nat) (sem : Z) : K Z :=
  match n with
  | O => mret 0
  | S n =>
      k ← signal sem;
      match k with
      | KRet v _ => if negb (v =? 0) then mret v else signaln_loop n sem
      | _ => mret 0
      end
  end.

Definition signaln (sem count_ : Z) : K kont :=
  sem_struct ← get_semaphore_struct sem;
  match sem_struct with
  | None => mret (KRet (-1) [])
  | Some _ =>
      if count_ <? 0 then mret (KRet (-1) [])
      else
        s ← rd sems sem_struct;
        if MAX_COUNT <? count s + count_ then mret (KRet (-2) [])
        else
          _ ← kput parent_block true;
          v ← signaln_loop (Z.to_nat count_) sem;
          if negb (v =? 0) then mret (KRet v [])
          else
            _ ← kput parent_block false;
            scheduler (KRet 0 [])
  end.

End Semaphore.
