(* ===== verification/MsgQueue.v ===== *)
(** * MsgQueue: message queues, [src/kernel/msgqueue.c]

    Bounded queues of integers, a circular array each, with a priority queue
    of blocked consumers and one of blocked producers. *)

From S2P Require Import Prelude.
From S2P Require Import Queue.
From S2P Require Import FrameDist.
From S2P Require Import Pages.
From S2P Require Import Kernel.
From S2P Require Import ProcessFree.
From S2P Require Import Scheduler.
#[local] Open Scope Z_scope.

Definition SUCCES : Z := 0.
Definition FAILURE : Z := -1.
Definition NBQUEUES : Z := 100.

(** [mod] *)
Definition mod_ (a b : Z) : Z := let r := Z.rem a b in if r <? 0 then r + b else r.

(** ** The circular array *)

Definition is_full (q : msg_queue_t) : bool := number_of_msgs q =? size q.

Definition is_empty (q : msg_queue_t) : res bool :=
  _ ← assert_ (bool_decide (is_Some (msg_arr q))); Ok (number_of_msgs q =? 0).

Definition pop_oldest_msg (q : msg_queue_t) : res (Z * msg_queue_t) :=
  let index := mod_ (wrapS 32 (iffc q - wrapS 32 (number_of_msgs q))) (wrapS 32 (size q)) in
  arr ← deref (msg_arr q);
  if index <? 0 then Err BadAccess
  else
    v ← of_option BadAccess (arr !! Z.to_nat index);
    Ok (v, q <| number_of_msgs ::= fun n => wrapU 64 (n - 1) |>).

Definition add_message (q : msg_queue_t) (message : Z) : res msg_queue_t :=
  arr ← deref (msg_arr q);
  if (iffc q <? 0) || (Z.of_nat (length arr) <=? iffc q) then Err BadAccess
  else
    Ok (q <| msg_arr := Some (<[Z.to_nat (iffc q) := message]> arr) |>
          <| number_of_msgs ::= fun n => wrapU 64 (n + 1) |>
          <| iffc := wrapS 32 (Z.rem (wrapU 64 (iffc q + 1)) (size q)) |>).

Section MsgQueue.
Context `{E : KEnv}.

Definition with_queue {A} (q : option ptr) (f : msg_queue_t -> res (A * msg_queue_t)) : K A :=
  m ← rd msg_queues q;
  '(a, m) ← lift (f m);
  _ ← wr msg_queues q (fun _ => m);
  mret a.

Definition valid_fid (fid : Z) : K bool :=
  qs ← gets all_queues;
  mret (if (fid <? 0) || (NBQUEUES <=? fid) then false
        else bool_decide (is_Some (mjoin (qs !! Z.to_nat fid)))).

Definition queue_of (fid : Z) : K (option ptr) :=
  qs ← gets all_queues; mret (mjoin (qs !! Z.to_nat fid)).

(** [get_first_free_index] *)
Fixpoint first_free (qs : list (option ptr)) (i : Z) : Z :=
  match qs with
  | [] => -1
  | None :: _ => i
  | Some _ :: qs => first_free qs (i + 1)
  end.
Definition get_first_free_index : K Z := qs ← gets all_queues; mret (first_free qs 0).

Definition queue_length (h : qhead) : K Z :=
  l ← gets links; xs ← lift (queue_for_each h l); mret (Z.of_nat (length xs)).

(** [free_blocked_queue] *)
Fixpoint free_blocked_loop (fuel : nat) (h : qhead) : K unit :=
  match fuel with
  | O => fail OutOfFuel
  | S fuel =>
      empty ← qempty h;
      if (empty : bool) then mret tt
      else
        curr ← qout h;
        _ ← wr procs curr (fun p => p <| message ::= fun m => m <| status := ERROR |> |> <| state := ACTIVATABLE |>);
        p ← lift (deref curr);
        _ ← kupd links (INIT_LINK p);
        _ ← qadd curr activatable_process_queue prio;
        free_blocked_loop fuel h
  end.
Definition free_blocked_queue (h : qhead) : K unit :=
  fuel ← gets (walk_fuel procs); free_blocked_loop fuel h.

Definition set_all_queues (i : Z) (q : option ptr) : K unit :=
  kupd all_queues <[Z.to_nat i := q]>.

Definition pcreate (count_ : Z) : K Z :=
  if count_ <? 0 then mret (-1)
  else
    index ← get_first_free_index;
    if index <? 0 then mret (-1)
    else
      q ← malloc msg_queues junk_queue;
      _ ← set_all_queues index q;
      match q with
      | None => mret (-1)
      | Some p =>
          if 2147483647 <=? 4 * count_ then mret (-1)
          else
            ok ← malloc_block;
            if negb ok then
              _ ← wr msg_queues q (fun m => m <| msg_arr := None |>); mret (-1)
            else
              _ ← wr msg_queues q (fun _ =>
                    mk_msg_queue (Some (replicate (Z.to_nat count_) (junk_word p))) count_ 0 0);
              _ ← kupd links (INIT_LIST_HEAD (blocked_cons p));
              _ ← kupd links (INIT_LIST_HEAD (blocked_prod p));
              mret index
      end.

Definition pdelete (fid : Z) : K kont :=
  ok ← valid_fid fid;
  if negb ok then mret (KRet FAILURE [])
  else
    q ← queue_of fid;
    p ← lift (deref q);
    _ ← free_blocked_queue (blocked_cons p);
    _ ← free_blocked_queue (blocked_prod p);
    _ ← free msg_queues q;
    _ ← kupd links (fun l => delete (inl (blocked_prod p)) (delete (inl (blocked_cons p)) l));
    _ ← set_all_queues fid None;
    scheduler (KRet SUCCES []).

(** Blocking the running process on a message queue. *)
Definition block_on_queue (p : option ptr) (h : qhead) : K unit :=
  _ ← pset p state BLOCKEDQUEUE;
  _ ← wr procs p (fun x => x <| message ::= fun m => m <| blocked_head := Some h |> |>);
  qadd p h prio.

Definition set_status (p : option ptr) (st : message_status) : K unit :=
  wr procs p (fun x => x <| message ::= fun m => m <| status := st |> |>).
Definition set_value (p : option ptr) (v : Z) : K unit :=
  wr procs p (fun x => x <| message ::= fun m => m <| msg_value := v |> |>).

Definition psend (fid message_ : Z) : K kont :=
  ok ← valid_fid fid;
  if negb ok then mret (KRet FAILURE [])
  else
    msg_queue ← queue_of fid;
    q ← lift (deref msg_queue);
    m ← rd msg_queues msg_queue;
    empty ← lift (is_empty m);
    no_cons ← (if (empty : bool) then qempty (blocked_cons q) else mret true);
    if empty && negb no_cons then
      blocked ← qout (blocked_cons q);
      _ ← pset blocked state ACTIVATABLE;
      _ ← qadd blocked activatable_process_queue prio;
      _ ← set_value blocked message_;
      _ ← set_status blocked RECEIVED;
      scheduler (KRet SUCCES [])
    else if is_full m then
      p ← get_current_process;
      _ ← set_value p message_;
      _ ← block_on_queue p (blocked_prod q);
      p ← lift (deref p);
      scheduler (KPsend p)
    else
      _ ← with_queue msg_queue (fun m => m ← add_message m message_; Ok (tt, m));
      mret (KRet SUCCES []).

(** [psend] after [scheduler()]. *)
Definition resume_psend (p : ptr) : K kont :=
  m ← pget (Some p) message;
  mret (if bool_decide (status m = SENT) then KRet SUCCES [] else KRet FAILURE []).

(** [if (message != NULL) *message = v;] *)
Definition out_msg (want : bool) (v : Z) : list Z := if want then [v] else [].

Definition preceive (fid : Z) (want : bool) : K kont :=
  ok ← valid_fid fid;
  if negb ok then mret (KRet FAILURE [])
  else
    msg_queue ← queue_of fid;
    q ← lift (deref msg_queue);
    m ← rd msg_queues msg_queue;
    empty ← lift (is_empty m);
    no_prod ← qempty (blocked_prod q);
    if empty && negb no_prod then
      blocked ← qout (blocked_prod q);
      _ ← set_status blocked SENT;
      v ← pget blocked message;
      _ ← qadd blocked activatable_process_queue prio;
      scheduler (KRet SUCCES (out_msg want (msg_value v)))
    else if (empty : bool) then
      p ← get_current_process;
      _ ← block_on_queue p (blocked_cons q);
      p ← lift (deref p);
      scheduler (KPreceive p want)
    else if is_full m && negb no_prod then
      msg ← with_queue msg_queue pop_oldest_msg;
      blocked ← qout (blocked_prod q);
      v ← pget blocked message;
      _ ← with_queue msg_queue (fun m => m ← add_message m (msg_value v); Ok (tt, m));
      _ ← set_status blocked SENT;
      _ ← pset blocked state ACTIVATABLE;
      _ ← qadd blocked activatable_process_queue prio;
      scheduler (KRet SUCCES (out_msg want msg))
    else
      msg ← with_queue msg_queue pop_oldest_msg;
      mret (KRet SUCCES (out_msg want msg)).

(** [preceive] after [scheduler()], when it had blocked. *)
Definition resume_preceive (p : ptr) (want : bool) : K kont :=
  m ← pget (Some p) message;
  mret (if bool_decide (status m = RECEIVED) then KRet SUCCES (out_msg want (msg_value m))
        else KRet FAILURE []).

Definition pcount (fid : Z) (count_ : bool) : K kont :=
  ok ← valid_fid fid;
  if negb ok || negb count_ then mret (KRet FAILURE [])
  else
    msg_queue ← queue_of fid;
    q ← lift (deref msg_queue);
    m ← rd msg_queues msg_queue;
    no_cons ← qempty (blocked_cons q);
    if negb no_cons then
      n ← queue_length (blocked_cons q); mret (KRet SUCCES [wrapS 32 (- n)])
    else
      n ← queue_length (blocked_prod q); mret (KRet SUCCES [wrapS 32 (number_of_msgs m + n)]).

Definition preset (fid : Z) : K kont :=
  ok ← valid_fid fid;
  if negb ok then mret (KRet FAILURE [])
  else
    msg_queue ← queue_of fid;
    q ← lift (deref msg_queue);
    _ ← wr msg_queues msg_queue (fun m => m <| number_of_msgs := 0 |> <| iffc := 0 |>);
    _ ← free_blocked_queue (blocked_cons q);
    _ ← free_blocked_queue (blocked_prod q);
    scheduler (KRet SUCCES []).

End MsgQueue.
