(* ===== verification/ProcessApi.v ===== *)
(** * ProcessApi: process management, [src/kernel/process/process_api.c]

    Starting, ending, killing and waiting for processes, priorities, and the
    initialisation of [process.c]. *)

From S2P Require Import Prelude.
From S2P Require Import Queue.
From S2P Require Import FrameDist.
From S2P Require Import Pages.
From S2P Require Import Kernel.
From S2P Require Import ProcessMemory.
From S2P Require Import SharedMemory.
From S2P Require Import ProcessFree.
From S2P Require Import Scheduler.
From S2P Require Import Semaphore.
#[local] Open Scope Z_scope.

Section ProcessApi.
Context `{E : KEnv}.

(** ** Priorities *)

Definition chprio (pid_ newprio : Z) : K kont :=
  p ← get_process_struct_of_pid pid_;
  match p with
  | None => mret (KRet (-1) [])
  | Some _ =>
      if (MAXPRIO <? newprio) || (newprio <? MINPRIO) then mret (KRet (-1) [])
      else
        v ← validate_action_process_valid p;
        if v <? 0 then mret (KRet (-1) [])
        else
          old_prio ← pget p prio;
          _ ← pset p prio newprio;
          st ← pget p state;
          match st with
          | ACTIVATABLE =>
              _ ← qdel p;
              _ ← qadd p activatable_process_queue prio;
              scheduler (KRet old_prio [])
          | ACTIF => scheduler (KRet old_prio [])
          | BLOCKEDQUEUE =>
              _ ← qdel p;
              m ← pget p message;
              h ← lift (deref (blocked_head m));
              _ ← qadd p h prio;
              mret (KRet old_prio [])
          | BLOCKEDIO =>
              _ ← qdel p;
              _ ← qadd p blocked_io_process_queue prio;
              mret (KRet old_prio [])
          | _ => mret (KRet old_prio [])
          end
  end.

Definition leave_queue_process_if_needed (leaving_process : option ptr) : K Z :=
  match leaving_process with
  | None => mret (-1)
  | Some _ =>
      st ← pget leaving_process state;
      if bool_decide (st = BLOCKEDSEMAPHORE) then
        sem ← pget leaving_process semaphore_id;
        id ← pget leaving_process pid;
        or_fail (proc_kill_diag sem KILL_CALL id) (mret 0)
      else _ ← qdel leaving_process; mret 0
  end.

(** [check_if_new_prio_is_higher_and_call_scheduler]; the caller goes on with
    [k] whatever it returns. *)
Definition check_if_new_prio_is_higher_and_call_scheduler (newprio : Z) (current_or_queue : bool)
    (prio_to_compare_queue : Z) (k : kont) : K kont :=
  if negb ((newprio <=? MAXPRIO) && (MINPRIO <=? newprio)) then mret k
  else if current_or_queue then
    id ← getpid;
    currently_running_prio ← getprio id;
    if currently_running_prio <? 0 then mret k
    else if currently_running_prio <? newprio then scheduler k
    else mret k
  else if prio_to_compare_queue <? 0 then mret k
  else if newprio <? prio_to_compare_queue then scheduler k
  else mret k.

(** ** The end of a process *)

Definition free_child_zombie_process (process_to_free : option ptr) : K Z :=
  match process_to_free with
  | None => mret (-1)
  | Some _ =>
      st ← pget process_to_free state;
      if negb (bool_decide (st = ZOMBIE)) then mret (-1)
      else
        id ← pget process_to_free pid;
        current ← getpid;
        if id =? current then _ ← pset process_to_free state KILLED; mret 0
        else free_process_memory process_to_free
  end.

Definition free_process_arg_and_fix_tree_link (process_to_free before_process : option ptr) : K Z :=
  parent_ ← pget process_to_free parent;
  match parent_, before_process with
  | Some _, Some _ =>
      head ← pget parent_ children_head;
      tail ← pget parent_ children_tail;
      match head, tail with
      | Some _, Some _ =>
          _ ← (if bool_decide (process_to_free = head) && bool_decide (process_to_free = tail) then
                 _ ← pset parent_ children_tail None; pset parent_ children_head None
               else if bool_decide (process_to_free = head) then
                 next ← pget head next_sibling; pset parent_ children_head next
               else if bool_decide (process_to_free = tail) then
                 _ ← pset before_process next_sibling None; pset parent_ children_tail before_process
               else
                 next ← pget process_to_free next_sibling; pset before_process next_sibling next);
          free_child_zombie_process process_to_free
      | _, _ => mret (-1)
      end
  | _, _ => mret (-1)
  end.

(** The loop of [make_children_orphans_and_kill_zombies] over the children
    from [temp_process] on, with its recursive call on a zombie's children. *)
Fixpoint orphans_loop (fuel : nat) (temp_process : option ptr) : K Z :=
  match fuel with
  | O => fail OutOfFuel
  | S fuel =>
      match temp_process with
      | None => mret 0
      | Some _ =>
          st ← pget temp_process state;
          if bool_decide (st = ZOMBIE) then
            h ← pget temp_process children_head;
            t ← pget temp_process children_tail;
            _ ← match h, t with None, None => mret 0 | _, _ => orphans_loop fuel h end;
            next ← pget temp_process next_sibling;
            or_fail (free_child_zombie_process temp_process) (orphans_loop fuel next)
          else
            next ← pget temp_process next_sibling; orphans_loop fuel next
      end
  end.
Definition make_children_orphans_and_kill_zombies (parent_process : option ptr) : K Z :=
  match parent_process with
  | None => mret (-1)
  | Some _ =>
      h ← pget parent_process children_head;
      t ← pget parent_process children_tail;
      match h, t with
      | None, None => mret 0
      | _, _ => fuel ← gets (walk_fuel procs); orphans_loop fuel h
      end
  end.

Definition turn_current_process_into_a_zombie_or_kill_it (current_or_custom : bool) (pid_ : Z) : K Z :=
  current_process ← (if current_or_custom then get_current_process else get_process_struct_of_pid pid_);
  match current_process with
  | None => mret (-1)
  | Some _ =>
      or_fail (make_children_orphans_and_kill_zombies current_process) (
        _ ← pset current_process state ZOMBIE;
        parent_ ← pget current_process parent;
        match parent_ with
        | None => free_child_zombie_process current_process
        | Some _ =>
            st ← pget parent_ state;
            if bool_decide (st = ZOMBIE) then free_child_zombie_process current_process
            else if bool_decide (st = BLOCKEDWAITCHILD) then
              _ ← pset parent_ state ACTIVATABLE;
              _ ← qadd parent_ activatable_process_queue prio;
              mret 0
            else mret 0
        end)
  end.

(** [exit_process], after which the caller goes on with [k] *)
Definition exit_process (retval : Z) (k : kont) : K kont :=
  current ← get_current_process;
  v ← validate_action_process_valid current;
  if v <? 0 then fail (Exited (-1))
  else
    v ← turn_current_process_into_a_zombie_or_kill_it true 0;
    if v <? 0 then fail (Exited (-1))
    else
      current ← get_current_process;
      _ ← pset current return_value retval;
      scheduler k.

(** The return of [kill]: to its caller, or to the page-fault handler, which
    calls the scheduler. *)
Definition kill_return (v : Z) (fault : bool) : K kont :=
  if fault then scheduler (KRet 0 []) else mret (KRet v []).

(** [kill] after the test for the running process. *)
Definition kill_rest (p : ptr) (pid_ : Z) (fault : bool) : K kont :=
  v ← leave_queue_process_if_needed (Some p);
  if v <? 0 then kill_return (-1) fault
  else
    v ← turn_current_process_into_a_zombie_or_kill_it false pid_;
    if v <? 0 then kill_return (-1) fault
    else
      _ ← pset (Some p) return_value 0;
      kill_return 0 fault.

Definition kill (pid_ : Z) (fault : bool) : K kont :=
  if (pid_ =? idleId) || (pid_ =? kernelId) then kill_return (-1) fault
  else
    process_pid ← get_process_struct_of_pid pid_;
    match process_pid with
    | None => kill_return (-1) fault
    | Some p =>
        v ← validate_action_process_valid process_pid;
        if v <? 0 then kill_return (-1) fault
        else
          id ← pget process_pid pid;
          current ← getpid;
          if id =? current then exit_process 0 (KKill p pid_ fault)
          else kill_rest p pid_ fault
    end.

(** ** Starting a process *)

Definition process_name_copy (p : option ptr) (name : string) : K Z :=
  if MAX_SIZE_NAME <? Z.of_nat (String.length name) then mret (-1)
  else
    ok ← malloc_block;
    if negb ok then _ ← pset p process_name None; mret (-1)
    else _ ← pset p process_name (Some name); mret 0.

(** The checks on the caller and the arguments, after [++nb_proc_running]. *)
Definition start_checks (ssize_ prio_ : Z) : K Z :=
  id ← getpid;
  v ← (if negb (id =? -1) then p ← get_current_process; validate_action_process_valid p else mret 0);
  if v <? 0 then mret (-1)
  else if negb ((prio_ <=? MAXPRIO) && (MINPRIO <=? prio_)) then mret (-1)
  else if negb (0 <? ssize_) then mret (-1)
  else mret 0.

(** The new block, its pid, its entry in the table and its first fields;
    [None] is [return -1]. *)
Definition new_process_entry (name : string) (ssize_ prio_ : Z) : K (option ptr) :=
  new_process ← malloc procs junk_process;
  match new_process with
  | None => mret None
  | Some p =>
      _ ← kupd links (INIT_LINK p);
      id ← increment_pid_and_get_new_pid;
      _ ← pset new_process pid id;
      _ ← kupd pid_process_hash_table <[id := p]>;
      _ ← pset new_process prio prio_;
      v ← process_name_copy new_process name;
      if v <? 0 then mret None
      else
        _ ← wr procs new_process (fun x => x <| ssize := wrapU 32 (ssize_ + PROCESS_SETUP_SIZE) |>
              <| page_table_level_2 := 0 |> <| page_tables_lvl_1_list := None |>
              <| released_pages_list := None |>);
        mret new_process
  end.

(** The context the process starts from and the frame of its trap stack. *)
Definition setup_context (new_process : option ptr) (ra_ : kont) (s1_ s2_ sepc_ : Z) : K Z :=
  ok ← malloc_block;
  if negb ok then _ ← pset new_process context_process None; mret (-1)
  else
    x ← rd procs new_process;
    let satp_ := Z.lor (Z.lor 0x8000000000000000 (Z.shiftr (page_table_level_2 x) 12))
                   (wrapU 64 (Z.shiftl (pid x) 44)) in
    let c := mk_context (0x40000000 + FRAME_SIZE * stack_shift x) ra_ s1_ s2_ 0 sepc_ satp_ in
    _ ← pset new_process context_process (Some c);
    interrupt_frame_pointer ← in_frames get_frame;
    if interrupt_frame_pointer =? 0 then mret (-1)
    else
      _ ← pset new_process sscratch_frame interrupt_frame_pointer;
      _ ← pset new_process context_process (Some (mk_context (sp c) ra_ s1_ s2_
             (interrupt_frame_pointer + FRAME_SIZE) sepc_ satp_));
      mret 0.

(** The new process becomes the last child of the running one. *)
Definition link_to_parent (p : ptr) : K unit :=
  let new_process := Some p in
  parent_ ← get_current_process;
  _ ← pset new_process parent parent_;
  _ ← match parent_ with
      | None => mret tt
      | Some _ =>
          tail ← pget parent_ children_tail;
          match tail with
          | Some _ =>
              _ ← pset tail next_sibling new_process; pset parent_ children_tail new_process
          | None =>
              _ ← pset parent_ children_head new_process; pset parent_ children_tail new_process
          end
      end;
  wr procs new_process (fun x => x <| children_head := None |> <| children_tail := None |>
    <| next_sibling := None |>).

(** The last part of [start] and [start_virtual]. *)
Definition activate_new_process (p : ptr) : K kont :=
  let new_process := Some p in
  _ ← link_to_parent p;
  _ ← wr procs new_process (fun x => x <| return_value := 0 |> <| shared_pages := None |>
        <| released_pages_list := None |> <| proc_shared_hash_table := None |> <| sem_signal := 0 |>
        <| state := ACTIVATABLE |>);
  _ ← qadd new_process activatable_process_queue prio;
  prio_ ← pget new_process prio;
  check_if_new_prio_is_higher_and_call_scheduler prio_ true 0 (KStart p).

(** [start] and [start_virtual] after [return new_process->pid] is reached *)
Definition resume_start (p : ptr) : K kont := id ← pget (Some p) pid; mret (KRet id []).

(** [if (++nb_proc_running > MAX_NB_PROCESS)] *)
Definition count_new_process : K bool :=
  n ← gets nb_proc_running;
  if MAX_NB_PROCESS <? n + 1 then mret false
  else _ ← kput nb_proc_running (n + 1); mret true.

Definition start (pt_func : Z) (ssize_ prio_ : Z) (name : option string) (arg : Z) : K kont :=
  match name with
  | None => mret (KRet (-1) [])
  | Some name =>
      ok ← count_new_process;
      if negb ok then mret (KRet (-1) [])
      else
        v ← start_checks ssize_ prio_;
        if v <? 0 then mret (KRet (-1) [])
        else
          new_process ← new_process_entry name ssize_ prio_;
          match new_process with
          | None => mret (KRet (-1) [])
          | Some p =>
              size ← pget new_process ssize;
              v ← process_memory_allocator new_process size;
              if v <? 0 then mret (KRet (-1) [])
              else
                _ ← pset new_process func pt_func;
                v ← setup_context new_process KKernelEntry pt_func arg process_call_wrapper_kernel;
                if v <? 0 then mret (KRet (-1) []) else activate_new_process p
          end
  end.

Definition start_virtual (name : option string) (ssize_ prio_ : Z) (arg : Z) : K kont :=
  match name with
  | None => mret (KRet (-1) [])
  | Some name =>
      ok ← count_new_process;
      if negb ok then mret (KRet (-1) [])
      else
        v ← start_checks ssize_ prio_;
        if v <? 0 then mret (KRet (-1) [])
        else if negb (bool_decide (is_Some (find_app name))) then mret (KRet (-1) [])
        else
          new_process ← new_process_entry name ssize_ prio_;
          match new_process with
          | None => mret (KRet (-1) [])
          | Some p =>
              _ ← pset new_process app_pointer (find_app name);
              size ← pget new_process ssize;
              v ← process_memory_allocator new_process size;
              if v <? 0 then mret (KRet (-1) [])
              else
                v ← setup_context new_process KUserEntry 0 arg 0x40000000;
                if v <? 0 then mret (KRet (-1) []) else activate_new_process p
          end
  end.

(** ** Waiting for a child *)

(** The searches among the children, with the sibling before the result. *)
Fixpoint find_child (fuel : nat) (test : process -> bool) (temp before : option ptr) :
    K (option ptr * option ptr) :=
  match fuel with
  | O => fail OutOfFuel
  | S fuel =>
      match temp with
      | None => mret (None, before)
      | Some _ =>
          x ← rd procs temp;
          if test x then mret (temp, before) else find_child fuel test (next_sibling x) temp
      end
  end.

(** The end of [waitpid]: the return value is read and the child freed. *)
Definition waitpid_finish (temp_process temp_process_before : option ptr) (retvalp : bool) : K kont :=
  x ← rd procs temp_process;
  let out := if retvalp then [return_value x] else [] in
  v ← free_process_arg_and_fix_tree_link temp_process temp_process_before;
  mret (if v <? 0 then KRet (-1) out else KRet (pid x) out).

(** [waitpid] with a negative pid, one turn of its [while (true)]. *)
Definition waitpid_any (retvalp : bool) : K kont :=
  current ← get_current_process;
  head ← pget current children_head;
  fuel ← gets (walk_fuel procs);
  '(temp, before) ← find_child fuel (fun x => bool_decide (state x = ZOMBIE)) head head;
  match temp with
  | Some _ => waitpid_finish temp before retvalp
  | None =>
      _ ← pset current state BLOCKEDWAITCHILD;
      scheduler (KWaitAny retvalp)
  end.

(** [waitpid] with the pid of a child, one turn of its [while (true)]. *)
Definition waitpid_child (child before : ptr) (retvalp : bool) : K kont :=
  st ← pget (Some child) state;
  if bool_decide (st = ZOMBIE) then waitpid_finish (Some child) (Some before) retvalp
  else
    current ← get_current_process;
    _ ← pset current state BLOCKEDWAITCHILD;
    scheduler (KWaitPid child before retvalp).

Definition waitpid (pid_ : Z) (retvalp : bool) : K kont :=
  current ← get_current_process;
  head ← pget current children_head;
  tail ← pget current children_tail;
  match head, tail with
  | None, None => mret (KRet (-1) [])
  | _, _ =>
      if pid_ <? 0 then waitpid_any retvalp
      else
        fuel ← gets (walk_fuel procs);
        '(temp, before) ← find_child fuel (fun x => pid x =? pid_) head head;
        match temp, before with
        | Some child, Some before => waitpid_child child before retvalp
        | _, _ => mret (KRet (-1) [])
        end
  end.

(** ** Information *)

(** [show_ps_info]: what is printed, a line per process of the table. *)
Fixpoint ps_lines (n : nat) (i : Z) : K (list (Z * option string * process_state)) :=
  match n with
  | O => mret []
  | S n =>
      p ← get_process_struct_of_pid i;
      line ← match p with
             | None => mret []
             | Some _ => x ← rd procs p; mret [(pid x, process_name x, state x)]
             end;
      rest ← ps_lines n (i + 1);
      mret (line ++ rest)
  end.
Definition show_ps_info : K (list (Z * option string * process_state)) :=
  last ← gets pid_iterator; ps_lines (Z.to_nat (last + 1)) 0.

Definition show_programs : list string := app_name <$> symbols_table.

(** ** [process.c] *)

Definition initialize_process_hash_table : K Z :=
  ok ← malloc_block; if negb ok then mret (-1) else mret 0.
Definition init_semaphore_table : K Z :=
  ok ← malloc_block; if negb ok then mret (-1) else mret 0.

Definition setup_main_context : K Z :=
  ok ← malloc_block;
  if negb ok then mret (-1)
  else
    _ ← kput scheduler_main (Some KMain);
    ok ← malloc_block;
    if negb ok then mret (-1) else mret 0.

(** The value a call of [start_virtual] returns when it has not switched. *)
Definition started (k : kont) : K Z :=
  match k with
  | KStart p => pget (Some p) pid
  | KRet v _ => mret v
  | _ => mret 0
  end.

Definition create_idle_process : K Z := k ← start_virtual (Some "idle"%string) 4000 1 300; started k.
Definition create_shell_program : K Z := k ← start_virtual (Some "shell"%string) 4000 2 0; started k.

(** The slots of a table, allocated by [hash_init]. *)
Definition init_table : K Z := ok ← malloc_block; if negb ok then mret (-1) else mret 0.

Definition initialize_process_workflow : K Z :=
  or_fail initialize_process_hash_table (
  or_fail (v ← init_table; _ ← kput pid_process_hash_table ∅; mret v) (
  or_fail initialize_share_pages_table (
  or_fail (v ← init_table; _ ← kput shared_memory_hash_table ∅; mret v) (
  or_fail init_semaphore_table (
  or_fail (v ← init_table; _ ← kput semaphore_table ∅; mret v) (
  or_fail setup_main_context (
  or_fail create_idle_process (
  or_fail create_shell_program (
    _ ← kput sstatus_spp false; mret 0))))))))).

(** [activate_and_launch_custom_process], up to the timer it arms and its
    infinite loop *)
Definition activate_and_launch_custom_process (process_to_activate : option ptr) : K Z :=
  match process_to_activate with
  | None => mret (-1)
  | Some _ =>
      id ← getpid;
      if 0 <? id then mret (-1)
      else
        new_id ← pget process_to_activate pid;
        or_fail (setpid new_id) (
          st ← pget process_to_activate state;
          if negb (bool_decide (st = ACTIVATABLE)) then mret (-1)
          else
            _ ← qdel process_to_activate;
            _ ← pset process_to_activate state ACTIF;
            mret 0)
  end.

End ProcessApi.
