(* ===== verification/Console.v ===== *)
(** * Console: the input buffer of the terminal

    [src/kernel/drivers/console.c], [input-output/keyboard.c],
    [input-output/cons_read.c] and [input-output/cons_write.c]: the circular
    buffer of typed characters, the line editing of the keyboard handler, and
    the blocking read. *)

From S2P Require Import Prelude.
From S2P Require Import Queue.
From S2P Require Import FrameDist.
From S2P Require Import Pages.
From S2P Require Import Kernel.
From S2P Require Import ProcessFree.
From S2P Require Import Scheduler.
#[local] Open Scope Z_scope.

Definition BUFFER_SIZE : Z := 20.
Definition BSH : Z := 8.
Definition BS : Z := 127.
Definition DL : Z := 21.
Definition DW : Z := 23.
Definition HT : Z := 9.
Definition LF : Z := 10.
Definition CR : Z := 13.
Definition NL : Z := 10.
Definition SPACE : Z := 32.

Implicit Types (c : console_device_t).

(** ** The buffer *)

(** [buffer[i]]; the byte before the buffer in the structure is [ignore]. *)
Definition buf c (i : Z) : res Z :=
  if i =? -1 then Ok (b2z (ignore c))
  else if i <? 0 then Err BadAccess
  else of_option BadAccess (buffer c !! Z.to_nat i).
Definition set_buf c (i v : Z) : res console_device_t :=
  if (i <? 0) || (Z.of_nat (length (buffer c)) <=? i) then Err BadAccess
  else Ok (c <| buffer ::= <[Z.to_nat i := v]> |>).

Definition is_buffer_full c : bool :=
  if last_written_char_index c =? -1 then false
  else Z.rem (last_written_char_index c + 1) BUFFER_SIZE =? start_of_buffer_index c.

Definition is_buffer_empty c : bool := last_written_char_index c =? -1.

Definition kaddtobuffer c (ch : Z) : res console_device_t :=
  if is_buffer_full c then Ok c
  else
    let last := Z.rem (last_written_char_index c + 1) BUFFER_SIZE in
    set_buf (c <| last_written_char_index := last |>) last ch.

(** [mod] *)
Definition cmod (a b : Z) : Z := let r := Z.rem a b in if r <? 0 then r + b else r.

Definition buffer_current_size c : Z :=
  cmod (last_written_char_index c - start_of_buffer_index c + 1) BUFFER_SIZE.

(** [register_console], of a driver with an [init] function *)
Definition register_console c : console_device_t :=
  c <| ignore := false |> <| last_written_char_index := -1 |> <| start_of_buffer_index := 0 |> <| echo := true |>.

Definition cons_echo (on : Z) c : console_device_t := c <| echo := negb (on =? 0) |>.

Definition putchar c (ch : Z) : console_device_t := c <| screen ::= cons ch |>.

(** [cons_write], when the driver's [putchar] succeeds. *)
Definition cons_write c (str : list Z) : Z * console_device_t :=
  foldl (fun rc ch => (rc.1 + 1, putchar rc.2 ch)) (0, c) str.

(** ** Line editing: [handle_keyboard_interrupt] up to the waking of a reader *)

Definition is_printable (ch : Z) : bool := (ch <? 127) && (31 <? ch).

Definition delete_last c : res console_device_t :=
  c ← set_buf c (last_written_char_index c) 0;
  Ok (putchar (putchar (putchar (c <| last_written_char_index ::= fun i => i - 1 |>) BSH) SPACE) BSH).

(** The guard of the deletions: the buffer is not empty and the character
    before the last one is not (or is) [ch]. *)
Definition last_but c (test : Z -> bool) : res bool :=
  if last_written_char_index c =? -1 then Ok false
  else prev ← buf c (last_written_char_index c - 1); Ok (test prev).

Fixpoint delete_while (fuel : nat) (needs_echo : bool) (test : Z -> bool) c : res console_device_t :=
  match fuel with
  | O => Err OutOfFuel
  | S fuel =>
      go ← last_but c test;
      if (go : bool) then
        c ← (if negb needs_echo || echo c then delete_last c else Ok c);
        delete_while fuel needs_echo test c
      else Ok c
  end.

Fixpoint add_spaces (n : nat) c : res console_device_t :=
  match n with
  | O => Ok c
  | S n => c ← kaddtobuffer (putchar c SPACE) SPACE; add_spaces n c
  end.

Definition echo_char c (ch : Z) : console_device_t := if echo c then putchar c ch else c.

(** Each deletion lowers an index that starts below the buffer size. *)
Definition key_fuel c : nat := S (S (Z.to_nat (last_written_char_index c + 1))).

Definition handle_key c (ch : Z) : res console_device_t :=
  if is_printable ch then c ← kaddtobuffer c ch; Ok (echo_char c ch)
  else if ch =? HT then add_spaces (Z.to_nat (8 - Z.rem (last_written_char_index c) 8)) c
  else if (ch =? BS) || (ch =? BSH) then
    go ← last_but c (fun x => negb (x =? CR));
    if (go : bool) then delete_last c else Ok c
  else if ch =? LF then c ← kaddtobuffer c ch; Ok (echo_char c NL)
  else if ch =? DL then delete_while (key_fuel c) false (fun x => negb (x =? CR)) c
  else if ch =? DW then
    c ← delete_while (key_fuel c) true (fun x => x =? SPACE) c;
    delete_while (key_fuel c) true (fun x => negb (x =? SPACE)) c
  else if ch =? CR then c ← kaddtobuffer c NL; Ok (echo_char c NL)
  else Ok c.

(** ** Reading *)

Fixpoint eol_loop (fuel : nat) c (temp : Z) : res bool :=
  match fuel with
  | O => Err OutOfFuel
  | S fuel =>
      ch ← buf c temp;
      if negb (temp =? wrapU 64 (last_written_char_index c)) && negb (ch =? NL)
      then eol_loop fuel c (Z.rem (temp + 1) BUFFER_SIZE)
      else Ok (ch =? NL)
  end.
Definition detected_eol c : res bool :=
  if is_buffer_empty c then Ok false
  else eol_loop (S (Z.to_nat BUFFER_SIZE)) c (start_of_buffer_index c).

(** The loop of [copy]: the characters, and where it stopped. *)
Fixpoint copy_loop (fuel : nat) c (temp i length_ : Z) (acc : list Z) : res (console_device_t * Z * Z * list Z) :=
  match fuel with
  | O => Err OutOfFuel
  | S fuel =>
      if negb (i <? length_) then Ok (c, temp, i, acc)
      else
        ch ← buf c temp;
        if negb (ch =? NL) && negb (temp =? wrapU 64 (last_written_char_index c)) then
          c ← set_buf c temp 0;
          copy_loop fuel c (Z.rem (temp + 1) BUFFER_SIZE) (i + 1) length_ (acc ++ [ch])
        else Ok (c, temp, i, acc)
  end.

Definition reset_buffer c : console_device_t :=
  c <| start_of_buffer_index := 0 |> <| last_written_char_index := -1 |>.

Definition copy c (length_ : Z) : res (list Z * console_device_t) :=
  _ ← assert_ (negb (last_written_char_index c =? -1));
  '(c, temp, i, acc) ← copy_loop (S (Z.to_nat BUFFER_SIZE)) c (start_of_buffer_index c) 0 length_ [];
  if length_ <=? i then Ok (acc, c <| start_of_buffer_index := temp |>)
  else
    ch ← buf c temp;
    let at_last := temp =? wrapU 64 (last_written_char_index c) in
    if at_last && negb (ch =? NL) then
      c ← set_buf c temp 0; Ok (acc ++ [ch], reset_buffer c)
    else if at_last && (ch =? NL) then Ok (acc, reset_buffer c)
    else if ch =? NL then
      c ← set_buf c temp 0;
      Ok (acc, c <| start_of_buffer_index := Z.rem (temp + 1) BUFFER_SIZE |>)
    else Ok (acc, c).

(** The test of the [while] loop of [cons_read]: nothing to return yet. *)
Definition must_wait c (length_ : Z) : res bool :=
  eol ← detected_eol c;
  Ok (negb eol && negb (is_buffer_full c) && (buffer_current_size c <? length_)).

Section ConsoleKernel.
Context `{E : KEnv}.

Definition on_console (f : console_device_t -> res console_device_t) : K unit :=
  c ← gets console_dev; c ← lift (f c); kput console_dev c.

(** [cons_read] from the test of its loop on. *)
Definition cons_read_loop (length_ : Z) : K kont :=
  c ← gets console_dev;
  w ← lift (must_wait c length_);
  if (w : bool) then
    proc ← get_current_process;
    _ ← pset proc state BLOCKEDIO;
    _ ← qadd proc blocked_io_process_queue prio;
    scheduler (KConsRead length_)
  else
    '(str, c) ← lift (copy c length_);
    _ ← kput console_dev c;
    mret (KRet (Z.of_nat (length str)) str).
Definition cons_read (length_ : Z) : K kont :=
  if length_ =? 0 then mret (KRet 0 []) else cons_read_loop length_.

(** [handle_keyboard_interrupt]; the interrupted process goes on with [k]. *)
Definition handle_keyboard_interrupt (ch : Z) (k : kont) : K kont :=
  _ ← on_console (fun c => handle_key c ch);
  next ← qout blocked_io_process_queue;
  match next with
  | None => mret k
  | Some _ =>
      _ ← pset next state ACTIVATABLE;
      _ ← qadd next activatable_process_queue prio;
      scheduler k
  end.

End ConsoleKernel.
