(* ===== verification/Traps.v ===== *)
(** * Traps: system calls and interrupts

    [src/kernel/traps/supervisor_trap.c], [machine_trap.c], [timer.c] and
    [start.c]: the dispatch of system calls, interrupts and exceptions to the
    rest of the kernel, and the resumption of a suspended kernel call. *)

From S2P Require Import Prelude.
From S2P Require Import Queue.
From S2P Require Import FrameDist.
From S2P Require Import Pages.
From S2P Require Import Kernel.
From S2P Require Import ProcessMemory.
From S2P Require Import SharedMemory.
From S2P Require Import ProcessFree.
From S2P Require Import Scheduler.
From S2P Require Import Semaphore.
From S2P Require Import MsgQueue.
From S2P Require Import ProcessApi.
From S2P Require Import Console.
#[local] Open Scope Z_scope.

(** The registers of [struct trap_frame] the handlers read. *)
Record trap_frame : Type := mk_tf { a0 : Z; a1 : Z; a2 : Z; a3 : Z; a7 : Z }.

Definition SYSC_chprio : Z := 0.
Definition SYSC_clock_settings : Z := 1.
Definition SYSC_cons_echo : Z := 2.
Definition SYSC_cons_read : Z := 3.
Definition SYSC_cons_write : Z := 4.
Definition SYSC_current_clock : Z := 5.
Definition SYSC_exit : Z := 6.
Definition SYSC_getpid : Z := 7.
Definition SYSC_getprio : Z := 8.
Definition SYSC_kill : Z := 9.
Definition SYSC_pcount : Z := 10.
Definition SYSC_pcreate : Z := 11.
Definition SYSC_pdelete : Z := 12.
Definition SYSC_preceive : Z := 13.
Definition SYSC_preset : Z := 14.
Definition SYSC_psend : Z := 15.
Definition SYSC_start : Z := 16.
Definition SYSC_wait_clock : Z := 17.
Definition SYSC_waitpid : Z := 18.
Definition SYSC_sleep : Z := 19.
Definition SYSC_shm_create : Z := 28.
Definition SYSC_shm_acquire : Z := 29.
Definition SYSC_shm_release : Z := 30.
Definition SYSC_scount : Z := 31.
Definition SYSC_screate : Z := 32.
Definition SYSC_sdelete : Z := 33.
Definition SYSC_signal : Z := 34.
Definition SYSC_signaln : Z := 35.
Definition SYSC_sreset : Z := 36.
Definition SYSC_try_wait : Z := 37.
Definition SYSC_wait : Z := 38.
Definition SYSC_power_off : Z := 39.
Definition SYSC_show_ps_info : Z := 40.
Definition SYSC_show_programs : Z := 41.
Definition SYSC_info_queue : Z := 42.

(** ** Timer arithmetic, [timer.c] and [timer_api.c] *)

(** The deadline [set_machine_timer_interrupt] and
    [set_supervisor_timer_interrupt] program. *)
Definition interrupt_time (now delta_ms clk_freq : Z) : Z :=
  wrapU 64 (now + wrapU 64 (delta_ms * clk_freq) / 1000).

Definition clock_settings (clk_freq : Z) : Z * Z := (clk_freq, wrapU 64 (clk_freq / 1000 * TIC_PER)).

Section Traps.
Context `{E : KEnv}.

(** The strings and bytes that user pointers designate, and the frequency the
    platform's clock device announces. *)
Context (user_string : Z -> option string) (user_bytes : Z -> Z -> list Z) (clk_freq : Z).

Definition int_arg (r : Z) : Z := wrapS 32 r.
Definition short_arg (r : Z) : Z := wrapS 16 r.

Definition ret (m : K Z) : K kont := v ← m; mret (KRet v []).

Definition syscall_handler (tf : trap_frame) : K kont :=
  let n := a7 tf in
  if n =? SYSC_start then start_virtual (user_string (a0 tf)) (a1 tf) (int_arg (a2 tf)) (a3 tf)
  else if n =? SYSC_getpid then ret getpid
  else if n =? SYSC_getprio then ret (getprio (int_arg (a0 tf)))
  else if n =? SYSC_chprio then chprio (int_arg (a0 tf)) (int_arg (a1 tf))
  else if n =? SYSC_kill then kill (int_arg (a0 tf)) false
  else if n =? SYSC_waitpid then waitpid (int_arg (a0 tf)) (nz (a1 tf))
  else if n =? SYSC_exit then exit_process (int_arg (a0 tf)) (KRet 0 [])
  else if n =? SYSC_cons_write then
    c ← gets console_dev;
    let '(v, c) := cons_write c (user_bytes (a0 tf) (a1 tf)) in
    _ ← kput console_dev c; mret (KRet v [])
  else if n =? SYSC_cons_read then cons_read (a1 tf)
  else if n =? SYSC_cons_echo then _ ← on_console (fun c => Ok (cons_echo (int_arg (a0 tf)) c)); mret (KRet 0 [])
  else if n =? SYSC_pcount then pcount (int_arg (a0 tf)) (nz (a1 tf))
  else if n =? SYSC_pcreate then ret (pcreate (int_arg (a0 tf)))
  else if n =? SYSC_pdelete then pdelete (int_arg (a0 tf))
  else if n =? SYSC_preceive then preceive (int_arg (a0 tf)) (nz (a1 tf))
  else if n =? SYSC_preset then preset (int_arg (a0 tf))
  else if n =? SYSC_psend then psend (int_arg (a0 tf)) (int_arg (a1 tf))
  else if n =? SYSC_clock_settings then
    let '(quartz, ticks) := clock_settings clk_freq in mret (KRet 0 [quartz; ticks])
  else if n =? SYSC_sleep then sleep (a0 tf)
  else if n =? SYSC_wait_clock then wait_clock (a0 tf)
  else if n =? SYSC_current_clock then ret current_clock
  else if n =? SYSC_scount then ret (scount (int_arg (a0 tf)))
  else if n =? SYSC_screate then ret (screate (short_arg (a0 tf)))
  else if n =? SYSC_sdelete then sdelete (int_arg (a0 tf))
  else if n =? SYSC_signal then signal (int_arg (a0 tf))
  else if n =? SYSC_signaln then signaln (int_arg (a0 tf)) (short_arg (a1 tf))
  else if n =? SYSC_sreset then sreset (int_arg (a0 tf)) (int_arg (a1 tf))
  else if n =? SYSC_try_wait then try_wait (int_arg (a0 tf))
  else if n =? SYSC_wait then wait (int_arg (a0 tf))
  else if n =? SYSC_shm_create then ret (shm_create (user_string (a0 tf)))
  else if n =? SYSC_shm_acquire then ret (shm_acquire (user_string (a0 tf)))
  else if n =? SYSC_shm_release then _ ← shm_release (user_string (a0 tf)); mret (KRet 0 [])
  else if n =? SYSC_power_off then fail (Exited (a0 tf))
  else if n =? SYSC_show_ps_info then _ ← show_ps_info; mret (KRet 0 [])
  else if (n =? SYSC_show_programs) || (n =? SYSC_info_queue) then mret (KRet 0 [])
  else fail (Exited (-1)).

(** ** Interrupts *)

(** [handle_stimer_interrupt]; [k] is what the handler's caller does next. *)
Definition handle_stimer_interrupt (virt : bool) (again : bool) : K kont :=
  _ ← kupd counter (fun c => wrapU 64 (c + 1));
  scheduler (if virt then KTick again else KIret).

(** [handle_stimer_interrupt] after [scheduler()] on the virt machine: the
    interrupts come back and, when the handler was entered by the software
    interrupt, whose [case] has no [break], the timer [case] runs as well. *)
Definition resume_tick (again : bool) : K kont :=
  _ ← set_supervisor_interrupts true;
  if again then handle_stimer_interrupt true false else mret KIret.

Inductive interrupt : Type := intr_s_software | intr_s_timer | intr_s_external (ch : Z) | intr_other.

(** The interrupt half of [strap_handler]; [virt] is the build option. *)
Definition strap_interrupt (virt : bool) (i : interrupt) : K kont :=
  match i with
  | intr_s_software =>
      if virt then _ ← set_supervisor_interrupts false; handle_stimer_interrupt virt true
      else fail (Exited (-1))
  | intr_s_timer => handle_stimer_interrupt virt false
  | intr_s_external ch => handle_keyboard_interrupt ch KIret
  | intr_other => fail (Exited (-1))
  end.

(** ** Exceptions *)
Definition CAUSE_USER_ECALL : Z := 8.
Definition CAUSE_SUPERVISOR_ECALL : Z := 9.

Definition strap_exception (scause : Z) (tf : trap_frame) : K kont :=
  if (scause =? CAUSE_SUPERVISOR_ECALL) || (scause =? CAUSE_USER_ECALL) then syscall_handler tf
  else if (scause =? 13) || (scause =? 14) || (scause =? 15) then
    id ← getpid; kill id true
  else fail (Exited (- scause)).

(** ** Resuming a suspended call *)
Definition resume (k : kont) : K kont :=
  match k with
  | KRet _ _ | KIret | KUserEntry | KKernelEntry | KMain => mret k
  | KTick again => resume_tick again
  | KStart p => resume_start p
  | KWait p => resume_wait p
  | KPsend p => resume_psend p
  | KPreceive p want => resume_preceive p want
  | KWaitAny want => waitpid_any want
  | KWaitPid child before want => waitpid_child child before want
  | KConsRead n => cons_read_loop n
  | KKill p id fault => kill_rest p id fault
  end.

(** ** [kernel_start] of [start.c], up to the enabling of interrupts *)
Definition kernel_start (virt : bool) : K unit := fun s =>
  match set_up_virtual_memory virt (mk_vmem (frame_mem s) (kernel_table s) 0) with
  | Err e => Err e
  | Ok (v, m) =>
      let s := s <| frame_mem := frames m |> <| kernel_table := kernel_base_page_table m |> in
      if v <? 0 then Err (Exited (-1))
      else
        (w ← initialize_process_workflow;
         if w <? 0 then fail (Exited (-1)) else kput sstatus_sie true) s
  end.

End Traps.
