(* ===== verification/Devices.v ===== *)
(** * Devices: the drivers of the machines, [src/kernel/drivers]

    A driver acts on the hardware by reads and writes of device registers and
    of control and status registers.  The state [io] keeps them, newest first,
    as a trace of events; what a read returns is decided by the platform
    ([bus], [csr_value]) from the trace so far.  The structures of function
    pointers through which the kernel calls the drivers are enumerations, and
    a call through a pointer a dispatch. *)

From S2P Require Import Prelude.
From S2P Require Import StdioSpec.
From S2P Require Import FrameDist.
From S2P Require Import Scheduler.
From S2P Require Import Traps.
#[local] Open Scope Z_scope.

(** ** Events *)

Inductive csr : Type :=
  | mstatus | sstatus | mie | sie | mip | sip | mepc | medeleg | mideleg | mcounteren | scounteren
  | pmpaddr0 | pmpcfg0 | misa | mtvec.
#[export] Instance csr_eq_dec : EqDecision csr.
Proof. solve_decision. Defined.

Inductive event : Type :=
  | EvRead (width addr value : Z)
  | EvWrite (width addr value : Z)
  | EvCsrRead (r : csr) (value : Z)
  | EvCsrWrite (r : csr) (value : Z)
  | EvCsrSet (r : csr) (mask : Z)
  | EvCsrClear (r : csr) (mask : Z)
  | EvMret
  | EvEbreak.

Inductive console_driver : Type :=
  console_none | console_htif | console_ns16550a | console_sifive_uart | console_cep_uart.
Inductive poweroff_driver : Type :=
  poweroff_none | poweroff_htif | poweroff_sifive_test | poweroff_virt_test | cep_poweroff.
Inductive plic_driver : Type := plic_none | cep_plic | sifive_plic | virt_plic.
Inductive disk_driver : Type := disk_none | virt_disk.

Record clint_device : Type := mk_clint {
  clk_freq : Z; base_addr : Z; supervisor_clint_available : bool; user_clint_available : bool
}.
Definition clint_none : clint_device := mk_clint 0 0 false false.
Definition spike_clint : clint_device := mk_clint 0x2000000 10000000 false false.
Definition sifive_clint : clint_device := mk_clint 10000000 0x2000000 false false.
Definition cep_clint : clint_device := mk_clint 10000000 0x2000000 true true.
Definition virt_clint : clint_device := mk_clint 10000000 0x2000000 false false.

(** The hardware of a machine and the addresses its linker script and its
    assembly give. *)
Class Platform : Type := {
  bus : list event -> Z -> Z -> Z;
  csr_value : list event -> csr -> Z;
  tohost : Z;
  fromhost : Z;
  kernel_start_address : Z;
  pmp_trap_address : Z
}.

(** The trace, and the globals and static variables of the drivers; [uart] and
    [test] are those of the serial and power-off driver of the machine. *)
Record io : Type := mk_io {
  trace : list event;
  auxv : list (Z * Z);
  uart : Z;
  test : Z;
  htif_lock : bool;
  console_drv : console_driver;
  poweroff_drv : poweroff_driver;
  plic_drv : plic_driver;
  disk_drv : disk_driver;
  clint_dev : clint_device;
  io_last_written_char_index : Z;
  io_start_of_buffer_index : Z;
  io_ignore : bool;
  io_echo : bool
}.
#[export] Instance eta_io : Eta io := fun r =>
  mk_io (trace r) (auxv r) (uart r) (test r) (htif_lock r) (console_drv r) (poweroff_drv r) (plic_drv r)
    (disk_drv r) (clint_dev r) (io_last_written_char_index r) (io_start_of_buffer_index r) (io_ignore r) (io_echo r).

Definition IO : Type -> Type := M io.

Definition emit (e : event) : IO unit := modify (fun s => s <| trace ::= cons e |>).
Definition ioput {A} (f : io -> A) `{!Upd f} (v : A) : IO unit := modify (fun s => s <| f := v |>).

Definition newline : string := String (Ascii.ascii_of_nat 10) "".

(** The loops that wait for a device poll it [polls] times at most. *)
Section Devices.
Context `{P : Platform}.
Context (polls : nat).

Definition mmio_read (width addr : Z) : IO Z := fun s =>
  let v := wrapU (8 * width) (bus (trace s) width addr) in
  Ok (v, s <| trace ::= cons (EvRead width addr v) |>).
Definition mmio_write (width addr v : Z) : IO unit := emit (EvWrite width addr (wrapU (8 * width) v)).

Definition csr_read (r : csr) : IO Z := fun s =>
  let v := wrapU 64 (csr_value (trace s) r) in Ok (v, s <| trace ::= cons (EvCsrRead r v) |>).
Definition csr_write (r : csr) (v : Z) : IO unit := emit (EvCsrWrite r (wrapU 64 v)).
Definition csr_set (r : csr) (m : Z) : IO unit := emit (EvCsrSet r (wrapU 64 m)).
Definition csr_clear (r : csr) (m : Z) : IO unit := emit (EvCsrClear r (wrapU 64 m)).

(** Unsigned division of the RISC-V: by zero it gives all ones. *)
Definition divu32 (a b : Z) : Z := if b =? 0 then 2 ^ 32 - 1 else a / b.

(** ** [auxval.c] *)
Definition UART0_CLOCK_FREQ : Z := 0x11000.
Definition UART0_BAUD_RATE : Z := 0x11100.
Definition RISCV_HTIF_BASE_ADDR : Z := 0x50000.
Definition SIFIVE_TEST_CTRL_ADDR : Z := 0x55550002.
Definition SIFIVE_UART0_CTRL_ADDR : Z := 0x55550010.
Definition CEP_UART0_CTRL_ADDR : Z := 0x66660010.
Definition CEP_POWEROFF_CTRL_ADDR : Z := 0x66660002.
Definition VIRT_UART0_CTRL_ADDR : Z := 0x10000000.
Definition VIRT_TEST_CTRL_ADDR : Z := 0x100000.

(** The table ends with a null key; to run past it is out of bounds. *)
Fixpoint getauxval_from (auxv : list (Z * Z)) (key : Z) : res Z :=
  match auxv with
  | [] => Err BadAccess
  | (k, v) :: auxv => if k =? 0 then Ok 0 else if k =? key then Ok v else getauxval_from auxv key
  end.
Definition getauxval (key : Z) : IO Z := l ← gets auxv; lift (getauxval_from l key).

(** ** The UART of virt, [virt_uart.c] *)
Definition UART_RBR : Z := 0.
Definition UART_THR : Z := 0.
Definition UART_DLL : Z := 0.
Definition UART_DLM : Z := 1.
Definition UART_LCR : Z := 3.
Definition UART_LSR : Z := 5.
Definition UART_LCR_DLAB : Z := 0x80.
Definition UART_LCR_8BIT : Z := 0x03.
Definition UART_LCR_PODD : Z := 0x08.
Definition UART_LSR_DA : Z := 0x01.
Definition UART_LSR_RI : Z := 0x40.

Definition ns16550a_init : IO unit :=
  base ← getauxval VIRT_UART0_CTRL_ADDR; _ ← ioput uart base;
  f ← getauxval UART0_CLOCK_FREQ; b ← getauxval UART0_BAUD_RATE;
  let uart_freq := wrapU 32 f in let baud_rate := wrapU 32 b in
  let divisor := divu32 uart_freq (wrapU 32 (16 * baud_rate)) in
  _ ← mmio_write 1 (base + UART_LCR) UART_LCR_DLAB;
  _ ← mmio_write 1 (base + UART_DLL) (Z.land divisor 0xff);
  _ ← mmio_write 1 (base + UART_DLM) (Z.land (Z.shiftr divisor 8) 0xff);
  mmio_write 1 (base + UART_LCR) (Z.lor UART_LCR_PODD UART_LCR_8BIT).

Definition ns16550a_getchar : IO Z :=
  base ← gets uart;
  lsr ← mmio_read 1 (base + UART_LSR);
  if negb (Z.land lsr UART_LSR_DA =? 0) then mmio_read 1 (base + UART_RBR) else mret (-1).

(** [while (!ready(register)) ;] *)
Fixpoint poll (n : nat) (width addr : Z) (ready : Z -> bool) : IO unit :=
  match n with
  | O => fail OutOfFuel
  | S n => v ← mmio_read width addr; if ready v then mret tt else poll n width addr ready
  end.

Definition ns16550a_ready (lsr : Z) : bool := negb (Z.land lsr UART_LSR_RI =? 0).
Definition ns16550a_putchar (ch : Z) : IO Z :=
  base ← gets uart;
  _ ← poll polls 1 (base + UART_LSR) ns16550a_ready;
  _ ← mmio_write 1 (base + UART_THR) (Z.land ch 0xff);
  mret (Z.land ch 0xff).

(** ** The UARTs of sifive_u and cep, [sifive_uart.c], [cep_uart.c] *)
Definition UART_REG_TXFIFO : Z := 0.
Definition UART_REG_RXFIFO : Z := 1.
Definition UART_REG_TXCTRL : Z := 2.
Definition UART_REG_RXCTRL : Z := 3.
Definition UART_REG_IE : Z := 4.
Definition UART_REG_DIV : Z := 6.
Definition UART_TXEN : Z := 1.
Definition UART_RXEN : Z := 1.

(** Register [r], a volatile int. *)
Definition uart_int (base r : Z) : Z := base + 4 * r.

Definition uart_setup (key : Z) : IO unit :=
  base ← getauxval key; _ ← ioput uart base;
  f ← getauxval UART0_CLOCK_FREQ; b ← getauxval UART0_BAUD_RATE;
  let divisor := wrapU 32 (divu32 (wrapU 32 f) (wrapU 32 b) - 1) in
  _ ← mmio_write 4 (uart_int base UART_REG_DIV) divisor;
  _ ← mmio_write 4 (uart_int base UART_REG_TXCTRL) UART_TXEN;
  _ ← mmio_write 4 (uart_int base UART_REG_RXCTRL) UART_RXEN;
  mmio_write 4 (uart_int base UART_REG_IE) 2.

Definition sifive_uart_init : IO unit := uart_setup SIFIVE_UART0_CTRL_ADDR.
Definition cep_uart_init : IO unit :=
  _ ← uart_setup CEP_UART0_CTRL_ADDR; ioput io_last_written_char_index 0.

Definition sifive_uart_getchar : IO Z :=
  base ← gets uart;
  v ← mmio_read 4 (uart_int base UART_REG_RXFIFO);
  let ch := wrapS 32 v in if ch <? 0 then mret (-1) else mret ch.

Definition sifive_ready (v : Z) : bool := 0 <=? wrapS 32 v.
Definition sifive_uart_putchar (ch : Z) : IO Z :=
  base ← gets uart;
  _ ← poll polls 4 (uart_int base UART_REG_TXFIFO) sifive_ready;
  _ ← mmio_write 4 (uart_int base UART_REG_TXFIFO) (Z.land ch 0xff);
  mret (Z.land ch 0xff).

(** ** The host interface of spike, [htif.c] *)

Definition htif_encode (dev cmd data : Z) : Z :=
  Z.lor (Z.lor (wrapU 64 (Z.shiftl dev 56)) (wrapU 64 (Z.shiftl cmd 48))) (wrapU 64 data).
Definition htif_decode (val : Z) : Z * Z * Z :=
  (wrapU 8 (Z.shiftr val 56), Z.land (Z.shiftr val 48) 0xff, wrapS 64 (Z.shiftr (wrapU 64 (Z.shiftl val 16)) 16)).

Definition htif_send (dev cmd data : Z) : IO unit :=
  let val := htif_encode dev cmd data in
  _ ← mmio_write 4 tohost (wrapU 32 val);
  mmio_write 4 (tohost + 4) (Z.shiftr val 32).

Definition htif_recv : IO (Z * Z * Z) :=
  lo ← mmio_read 4 fromhost; hi ← mmio_read 4 (fromhost + 4);
  mret (htif_decode (lo + 2 ^ 32 * hi)).

Definition htif_get_fromhost (dev cmd : Z) : IO Z :=
  '(rdev, rcmd, data) ← htif_recv;
  mret (if (rdev =? dev) && (rcmd =? cmd) then data else -1).

Fixpoint htif_wait (n : nat) : IO unit :=
  match n with
  | O => fail OutOfFuel
  | S n =>
      v ← mmio_read 8 tohost;
      if v =? 0 then mret tt
      else _ ← mmio_read 4 fromhost; _ ← mmio_read 4 (fromhost + 4); htif_wait n
  end.
Definition htif_set_tohost (dev cmd data : Z) : IO unit := _ ← htif_wait polls; htif_send dev cmd data.

(** [spinlock_lock] on one processor: a lock that is held is waited for for ever. *)
Definition spinlock_lock : IO unit :=
  held ← gets htif_lock; if (held : bool) then fail OutOfFuel else ioput htif_lock true.
Definition spinlock_unlock : IO unit := ioput htif_lock false.

Definition htif_getchar : IO Z :=
  _ ← spinlock_lock;
  v ← htif_get_fromhost 1 0;
  let ch := wrapS 32 v in
  _ ← (if negb (Z.land ch 0xff =? 0) then htif_set_tohost 1 0 0 else mret tt);
  _ ← spinlock_unlock; mret ch.

Definition htif_putchar (ch : Z) : IO Z :=
  _ ← spinlock_lock;
  _ ← htif_set_tohost 1 1 (Z.land ch 0xff);
  _ ← spinlock_unlock; mret (Z.land ch 0xff).

(** ** Interrupt controllers, [virt_plic.c], [sifive_plic.c], [cep_plic.c] *)
Definition VIRT_PLIC_BASE : Z := 0xc000000.
Definition VIRT_PLIC_ENABLE_OFFSET : Z := 0x2080.
Definition VIRT_PLIC_ENABLE : Z := VIRT_PLIC_BASE + VIRT_PLIC_ENABLE_OFFSET.
Definition VIRT_PLIC_TARGET : Z := VIRT_PLIC_BASE + 0x200000.
Definition VIRT_PLIC_SOURCE : Z := VIRT_PLIC_BASE + 0.
Definition VIRT_VIRTIO_IRQ : Z := 1.
Definition VIRT_UART0_IRQ : Z := 10.

Definition virt_plic_init : IO unit :=
  _ ← mmio_write 4 (VIRT_PLIC_SOURCE + VIRT_VIRTIO_IRQ * 4) 1;
  _ ← mmio_write 4 (VIRT_PLIC_SOURCE + VIRT_UART0_IRQ * 4) 1;
  _ ← mmio_write 4 VIRT_PLIC_ENABLE_OFFSET (Z.lor (Z.shiftl 1 VIRT_VIRTIO_IRQ) (Z.shiftl 1 VIRT_UART0_IRQ));
  _ ← mmio_write 4 VIRT_PLIC_TARGET 0;
  mmio_write 4 (VIRT_PLIC_TARGET + 0x1000) 0.

Definition SIFIVE_PLIC_BASE : Z := 0xc000000.
Definition SIFIVE_PLIC_ENABLE : Z := SIFIVE_PLIC_BASE + 0x2000.
Definition SIFIVE_PLIC_TARGET : Z := SIFIVE_PLIC_BASE + 0x200000.
Definition CEP_UART0_IRQ : Z := 1.

(** [w] is the width of the enable registers, [t] that of the thresholds. *)
Definition plic_enable_all (w : Z) : IO unit :=
  _ ← mmio_write w SIFIVE_PLIC_ENABLE (-1);
  _ ← mmio_write w (SIFIVE_PLIC_ENABLE + w) (-1);
  _ ← mmio_write w SIFIVE_PLIC_TARGET 0;
  _ ← mmio_write 4 (SIFIVE_PLIC_BASE + CEP_UART0_IRQ * 4) 1;
  _ ← mmio_write w (SIFIVE_PLIC_ENABLE + 0x80) (-1);
  _ ← mmio_write w (SIFIVE_PLIC_ENABLE + 0x80 + w) (-1);
  mmio_write w (SIFIVE_PLIC_TARGET + 0x1000) 0.
Definition sifive_plic_init : IO unit := plic_enable_all 8.
Definition cep_plic_init : IO unit := plic_enable_all 4.

(** ** Power-off, [poweroff.c], [virt_test.c], [sifive_test.c], [cep_poweroff.c]

    What a power-off function does before its endless loop. *)
Definition SIFIVE_TEST_EXIT : Z := 0x5555.
Definition CEP_VALUE_EXIT : Z := 0x3333.

Definition virt_test_init : IO unit := a ← getauxval VIRT_TEST_CTRL_ADDR; ioput test a.
Definition sifive_test_init : IO unit := a ← getauxval SIFIVE_TEST_CTRL_ADDR; ioput test a.
Definition cep_test_init : IO unit := a ← getauxval CEP_POWEROFF_CTRL_ADDR; ioput test a.

Definition exit_word (status code : Z) : Z := Z.lor (wrapU 32 (Z.shiftl status 16)) code.
Definition virt_test_poweroff (status : Z) : IO unit := a ← gets test; mmio_write 4 a (exit_word status SIFIVE_TEST_EXIT).
Definition sifive_test_poweroff (status : Z) : IO unit := a ← gets test; mmio_write 4 a (exit_word status SIFIVE_TEST_EXIT).
Definition cep_test_poweroff (status : Z) : IO unit := a ← gets test; mmio_write 4 a (exit_word status CEP_VALUE_EXIT).
Definition htif_poweroff (status : Z) : IO unit := htif_set_tohost 0 0 1.
Definition default_poweroff (status : Z) : IO unit := emit EvEbreak.

Definition register_poweroff (dev : poweroff_driver) : IO unit :=
  _ ← ioput poweroff_drv dev;
  match dev with
  | poweroff_none | poweroff_htif => mret tt
  | poweroff_sifive_test => sifive_test_init
  | poweroff_virt_test => virt_test_init
  | cep_poweroff => cep_test_init
  end.

Definition poweroff (status : Z) : IO unit :=
  d ← gets poweroff_drv;
  match d with
  | poweroff_none => default_poweroff status
  | poweroff_htif => htif_poweroff status
  | poweroff_sifive_test => sifive_test_poweroff status
  | poweroff_virt_test => virt_test_poweroff status
  | cep_poweroff => cep_test_poweroff status
  end.

(** ** Registration, [console.c], [plic.c], [clint.c], [disk_device.c] *)
Definition reset_console_indices : IO unit :=
  _ ← ioput io_ignore false; _ ← ioput io_last_written_char_index (-1);
  _ ← ioput io_start_of_buffer_index 0; ioput io_echo true.

Definition register_console (dev : console_driver) : IO unit :=
  _ ← ioput console_drv dev;
  match dev with
  | console_none | console_htif => mret tt
  | console_ns16550a => _ ← ns16550a_init; reset_console_indices
  | console_sifive_uart => _ ← sifive_uart_init; reset_console_indices
  | console_cep_uart => _ ← cep_uart_init; reset_console_indices
  end.

Definition default_putchar (ch : Z) : IO Z := _ ← emit EvEbreak; mret 0.
Definition default_getchar : IO Z := _ ← emit EvEbreak; mret 0.

Definition kputchar (ch : Z) : IO Z :=
  d ← gets console_drv;
  match d with
  | console_none => default_putchar ch
  | console_htif => htif_putchar ch
  | console_ns16550a => ns16550a_putchar ch
  | console_sifive_uart | console_cep_uart => sifive_uart_putchar ch
  end.

Definition kgetchar : IO Z :=
  d ← gets console_drv;
  match d with
  | console_none => default_getchar
  | console_htif => htif_getchar
  | console_ns16550a => ns16550a_getchar
  | console_sifive_uart | console_cep_uart => sifive_uart_getchar
  end.

(** [cons_write], which the library's [printf] and [puts] call in the kernel. *)
Fixpoint cons_write_loop (cs : list Z) (res : Z) : IO Z :=
  match cs with
  | [] => mret res
  | c :: cs => v ← kputchar c; if 0 <=? v then cons_write_loop cs (res + 1) else mret res
  end.
Definition cons_write (cs : list Z) : IO Z := cons_write_loop cs 0.

(** [printf] writes on the console the text of its format. *)
Definition printf (fmt : string) (args : list arg) : IO unit :=
  match render false false (bytes_of fmt) args with
  | Some text => _ ← cons_write text; mret tt
  | None => fail BadAccess
  end.

Definition register_plic (dev : plic_driver) : IO unit :=
  _ ← ioput plic_drv dev;
  match dev with
  | plic_none => mret tt
  | cep_plic => cep_plic_init
  | sifive_plic => sifive_plic_init
  | virt_plic => virt_plic_init
  end.

Definition register_clint (dev : clint_device) : IO unit := ioput clint_dev dev.

(** ** The disk of virt, [virt_disk.c]: only its identification is read. *)
Definition VIRTIO0 : Z := 0x10001000.
Definition virt_disk_found : IO bool :=
  magic ← mmio_read 4 (VIRTIO0 + 0x000);
  if negb (magic =? 0x74726976) then mret false
  else
    version ← mmio_read 4 (VIRTIO0 + 0x004);
    if negb (version =? 2) then mret false
    else
      id ← mmio_read 4 (VIRTIO0 + 0x008);
      if negb (id =? 2) then mret false
      else vendor ← mmio_read 4 (VIRTIO0 + 0x00c); mret (vendor =? 0x554d4551).
Definition disk_message : string := "Disk not found !!!!" ++ newline.
Definition virt_disk_init : IO unit :=
  found ← virt_disk_found; if (found : bool) then mret tt else printf disk_message [].

Definition register_disk (dev : disk_driver) : IO unit :=
  _ ← ioput disk_drv dev;
  match dev with disk_none => mret tt | virt_disk => virt_disk_init end.

(** ** The timer, [clint.h] and [timer.c] *)
Definition CLINT_MTIME : Z := 0xbff8.
Definition CLINT_MTIMECMP : Z := 0x4000.
Definition CLINT_STIME : Z := 0xc000.
Definition CLINT_STIMECMP : Z := 0xc008.

Definition get_mtime : IO Z := d ← gets clint_dev; mmio_read 8 (wrapU 64 (base_addr d + CLINT_MTIME)).
Definition set_mtimecmp (v : Z) : IO unit := d ← gets clint_dev; mmio_write 8 (wrapU 64 (base_addr d + CLINT_MTIMECMP)) v.
Definition get_stime : IO Z := d ← gets clint_dev; mmio_read 8 (wrapU 64 (base_addr d + CLINT_STIME)).
Definition set_stimecmp (v : Z) : IO unit := d ← gets clint_dev; mmio_write 8 (wrapU 64 (base_addr d + CLINT_STIMECMP)) v.

Definition set_machine_timer_interrupt (delta_ms : Z) : IO unit :=
  now ← get_mtime; d ← gets clint_dev; set_mtimecmp (interrupt_time now delta_ms (clk_freq d)).
Definition set_supervisor_timer_interrupt (delta_ms : Z) : IO unit :=
  now ← get_stime; d ← gets clint_dev; set_stimecmp (interrupt_time now delta_ms (clk_freq d)).

End Devices.
