(* ===== verification/Boot.v ===== *)
(** * Boot: machine mode, from the reset to the supervisor

    [boot/common/boot.c], the [arch_setup] of each machine, [bios/info.c],
    [traps/machine_trap.c], [traps/blue_screen.c] and the machine half of
    [timer.c].  The state is that of the devices, with their trace, and that
    of the kernel. *)

From S2P Require Import Prelude.
From S2P Require Import FrameDist.
From S2P Require Import Kernel.
From S2P Require Import Scheduler.
From S2P Require Import StdioSpec.
From S2P Require Import Traps.
From S2P Require Import Devices.
#[local] Open Scope Z_scope.

Record machine_state : Type := mk_machine { dev : io; kern : kstate; first_call : bool }.
#[export] Instance eta_machine : Eta machine_state := fun r => mk_machine (dev r) (kern r) (first_call r).
Definition MM : Type -> Type := M machine_state.

(** The machines the kernel is built for, a directory of [boot] each. *)
Inductive machine : Type := virt | cep | sifive_u | spike | zybo.
Definition VIRTMACHINE (m : machine) : bool := match m with virt => true | _ => false end.

(** The table of each machine, as it is initialised. *)
Definition __auxv (m : machine) : list (Z * Z) :=
  match m with
  | virt => [(UART0_CLOCK_FREQ, 1843200); (UART0_BAUD_RATE, 115200); (VIRT_UART0_CTRL_ADDR, 0x10000000);
             (VIRT_TEST_CTRL_ADDR, 0x100000); (0, 0)]
  | cep => [(UART0_CLOCK_FREQ, 32000000); (UART0_BAUD_RATE, 115200); (CEP_UART0_CTRL_ADDR, 0x10013000);
            (CEP_POWEROFF_CTRL_ADDR, 0x10000000); (0, 0)]
  | sifive_u => [(UART0_CLOCK_FREQ, 32000000); (UART0_BAUD_RATE, 115200); (SIFIVE_UART0_CTRL_ADDR, 0x10013000);
                 (SIFIVE_TEST_CTRL_ADDR, 0x10000000); (0, 0)]
  | spike | zybo => [(RISCV_HTIF_BASE_ADDR, 0); (0, 0)]
  end.

Definition MSTATUS_SIE : Z := 0x2.
Definition MSTATUS_MIE : Z := 0x8.
Definition MSTATUS_MPP : Z := 0x1800.
Definition MSTATUS_MPP_0 : Z := 0x800.
Definition MSTATUS_MPP_1 : Z := 0x1000.
Definition SSTATUS_SUM : Z := 0x40000.
Definition MIP_STIP : Z := Z.shiftl 1 5.
Definition MIE_MTIE : Z := Z.shiftl 1 7.
Definition SIE_STIE : Z := Z.shiftl 1 5.
Definition SIE_SEI : Z := Z.shiftl 1 9.
Definition PMP_R : Z := 0x01.
Definition PMP_W : Z := 0x02.
Definition PMP_X : Z := 0x04.
Definition PMP_NAPOT : Z := 0x18.
Definition INTERRUPT_CAUSE_FLAG : Z := Z.shiftl 1 63.
Definition intr_s_timer : Z := 5.
Definition intr_m_timer : Z := 7.
Definition intr_s_external : Z := 9.

(** The state before [boot_riscv]: the static initialisers of the drivers. *)
Definition reset_io (m : machine) : io :=
  mk_io [] (__auxv m) 0 0 false console_none poweroff_none plic_none disk_none clint_none 0 0 false false.

(** The fields of [struct trap_frame] that [blue_screen] prints: the integer
    registers, from [zero] on, and the control registers. *)
Record mtrap_frame : Type := mk_mtf {
  regs : list Z; tf_mepc : Z; tf_mtval : Z; tf_mstatus : Z; tf_satp : Z; tf_mcause : Z
}.

(** How [mtrap_handler] ends: it returns, or a handler of the supervisor
    runs, after which it clears a mask of [mip]. *)
Inductive mtrap_end : Type := MReturn | MSupervisor (i : interrupt) (mask : Z).

Definition tabulation : string := String (Ascii.ascii_of_nat 9) "".
Definition escape : string := String (Ascii.ascii_of_nat 27) "".

Section Boot.
Context `{P : Platform} `{L : MemLayout}.
Context (polls : nat) (m : machine).

Definition device {A} (f : IO A) : MM A := zoom dev (fun d s => s <| dev := d |>) f.
Definition kernel {A} (f : K A) : MM A := zoom kern (fun k s => s <| kern := k |>) f.

Definition str (s : string) : arg := AStr 0 (bytes_of s).
Definition puts (s : string) : IO unit := _ ← cons_write polls (bytes_of s ++ [10]); mret tt.

(** ** [arch_setup] *)
Definition enable_counters : IO unit := _ ← csr_write mcounteren (-1); csr_write scounteren (-1).
Definition set_htif_base : IO unit :=
  modify (fun s => s <| auxv ::= fun l => match l with (k, _) :: l => (k, Z.min tohost fromhost) :: l | [] => [] end |>).

Definition arch_setup : IO unit :=
  match m with
  | virt =>
      _ ← register_console console_ns16550a; _ ← register_poweroff poweroff_virt_test;
      _ ← register_clint virt_clint; _ ← register_plic virt_plic; _ ← register_disk polls virt_disk; enable_counters
  | cep =>
      _ ← register_console console_cep_uart; _ ← register_poweroff cep_poweroff;
      _ ← register_clint cep_clint; _ ← register_plic cep_plic; enable_counters
  | sifive_u =>
      _ ← register_console console_sifive_uart; _ ← register_poweroff poweroff_sifive_test;
      _ ← register_clint sifive_clint; _ ← register_plic sifive_plic; enable_counters
  | spike =>
      _ ← set_htif_base; _ ← register_console console_htif; _ ← register_poweroff poweroff_htif;
      _ ← register_clint spike_clint; enable_counters
  | zybo =>
      _ ← set_htif_base; _ ← register_console console_htif; _ ← register_poweroff poweroff_htif;
      register_clint spike_clint
  end.

(** ** [info.c] *)
Definition misa_extensions : list (Z * string) :=
  [(8, "I"); (12, "M"); (0, "A"); (1, "B"); (2, "C"); (3, "D"); (4, "E"); (5, "F"); (6, "G"); (7, "H"); (9, "J");
   (10, "K"); (11, "L"); (13, "N"); (14, "O"); (15, "P"); (16, "Q"); (17, "R"); (18, "S"); (19, "T"); (20, "U");
   (21, "V"); (22, "W"); (23, "X"); (24, "Y"); (25, "Z")]%string.

Fixpoint print_extensions (isa : Z) (exts : list (Z * string)) : IO unit :=
  match exts with
  | [] => mret tt
  | (bit, name) :: exts =>
      _ ← (if negb (Z.land isa (Z.shiftl 1 bit) =? 0) then printf polls name [] else mret tt);
      print_extensions isa exts
  end.

(** [3 << 30] is a negative [int], which the mask extends to 64 bits. *)
Definition misa_bits (isa : Z) : Z :=
  if negb (Z.land isa (Z.shiftl 3 62) =? 0) then 64
  else if negb (Z.land isa (wrapU 64 (wrapS 32 (Z.shiftl 3 30))) =? 0) then 32
  else 128.

Definition display_misa_info : IO unit :=
  isa ← csr_read misa;
  _ ← printf polls "RISC-V " [];
  let bits := misa_bits isa in
  _ ← printf polls "%d bits" [ANum bits];
  _ ← printf polls " Extension RV%d" [ANum bits];
  _ ← print_extensions isa misa_extensions;
  printf polls newline [].
Definition display_info_proc : IO unit := display_misa_info.

(** ** [boot.c] *)
Definition delegate_traps : IO unit := _ ← csr_set medeleg 0xffffffff; csr_set mideleg 0xffffffff.

(** On a processor that has the memory protection; one that has not traps to
    the label [1] and skips the two writes. *)
Definition setup_pmp : IO unit :=
  let pmpc := Z.lor (Z.lor (Z.lor PMP_NAPOT PMP_R) PMP_W) PMP_X in
  let pmpa := Z.shiftl 1 53 - 1 in
  t0 ← csr_read mtvec; _ ← csr_write mtvec pmp_trap_address;
  _ ← csr_write pmpaddr0 pmpa; _ ← csr_write pmpcfg0 pmpc; csr_write mtvec t0.

Definition enter_supervisor_mode : IO unit :=
  _ ← setup_pmp;
  _ ← csr_write mepc kernel_start_address;
  _ ← csr_set mstatus MSTATUS_MPP_0; _ ← csr_clear mstatus MSTATUS_MPP_1;
  _ ← csr_set sstatus SSTATUS_SUM;
  emit EvMret.

Definition enable_interrupts : IO unit :=
  if VIRTMACHINE m then
    _ ← csr_set mie MIE_MTIE; _ ← csr_set sie SIE_STIE; _ ← csr_set sie 0x2; csr_set mstatus MSTATUS_MIE
  else
    _ ← csr_set mip MIP_STIP; _ ← csr_set sie SIE_STIE; _ ← csr_set sie SIE_SEI; csr_clear mstatus MSTATUS_MIE.

Definition boot_riscv : MM unit :=
  _ ← device arch_setup;
  _ ← device display_info_proc;
  _ ← device delegate_traps;
  _ ← device enable_interrupts;
  _ ← kernel (in_frames init_frames);
  device enter_supervisor_mode.

(** ** [timer.c] *)
Definition handle_mtimer_interrupt : MM unit :=
  if VIRTMACHINE m then
    st ← device (csr_read mstatus);
    first ← gets first_call;
    if negb (Z.land st MSTATUS_MPP_0 =? 0) && negb first then device (set_machine_timer_interrupt TIC_PER)
    else
      _ ← modify (fun s => s <| first_call := false |>);
      _ ← device (csr_write sip 2);
      device (set_machine_timer_interrupt TIC_PER)
  else
    _ ← device (printf polls ("Tic machine " ++ newline) []);
    _ ← device (set_machine_timer_interrupt TIC_PER);
    kernel (kupd counter (fun c => wrapU 64 (c + 1))).

(** ** [blue_screen.c] *)
Definition land_names : list string := ["User"; "Supervisor"; "Hypervisor"; "Machine"]%string.
Definition exception_names : list string :=
  ["Instruction address misaligned"; "Instruction access fault"; "Illegal instruction"; "Breakpoint";
   "Load address misaligned"; "Load access fault"; "Store/AMO address misaligned"; "Store/AMO access fault";
   "Environment call from U-mode or VU-mode"; "Environment call from HS-mode"; "Environment call from VS-mode";
   "Environment call from M-mode"; "Instruction page fault"; "Load page fault"; "Reserved"; "Store/AMO page fault"]%string.
Definition regnames : list string :=
  ["zero"; "ra  "; "sp  "; "gp  "; "tp  "; "t0  "; "t1  "; "t2  "; "s0  "; "s1  "; "a0  "; "a1  "; "a2  "; "a3  ";
   "a4  "; "a5  "; "a6  "; "a7  "; "s2  "; "s3  "; "s4  "; "s5  "; "s6  "; "s7  "; "s8  "; "s9  "; "sA  "; "sB  ";
   "t3  "; "t4  "; "t5  "; "t6  "]%string.

(** Reading past the end of an array is out of bounds. *)
Definition at_index {A} (l : list A) (i : Z) : IO A := lift (of_option BadAccess (l !! Z.to_nat i)).

Fixpoint dump_registers (n : nat) (i : Z) (tf : mtrap_frame) : IO unit :=
  match n with
  | O => mret tt
  | S n =>
      name ← at_index regnames i; v ← at_index (regs tf) i;
      _ ← printf polls "%s %lx%c" [str name; ANum v; AChr (if i mod 4 <? 3 then 32 else 10)];
      dump_registers n (i + 1) tf
  end.
Definition dump_mtrap_frame (tf : mtrap_frame) : IO unit :=
  _ ← puts "GPR :";
  _ ← dump_registers 32 0 tf;
  _ ← puts (newline ++ "CSR :");
  _ ← printf polls ("mepc    %lx" ++ tabulation ++ "mtval %lx" ++ newline) [ANum (tf_mepc tf); ANum (tf_mtval tf)];
  printf polls ("mstatus %lx" ++ tabulation ++ "satp  %lx" ++ newline) [ANum (tf_mstatus tf); ANum (tf_satp tf)].

Definition exit {A} (status : Z) : IO A :=
  _ ← poweroff polls (wrapS 32 status); fail (Exited (wrapS 32 status)).

(** The two bytes of the degree sign are those of the source, in UTF-8. *)
Definition degree : string := String (Ascii.ascii_of_nat 194) (String (Ascii.ascii_of_nat 176) "").
Definition blue_screen (tf : mtrap_frame) : IO unit :=
  _ ← printf polls (escape ++ "[97;104m") [];
  name ← at_index exception_names (tf_mcause tf);
  _ ← printf polls (newline ++ "********  RISC-V Exception N" ++ degree ++ "%ld : %s  ********" ++ newline ++ newline)
        [ANum (tf_mcause tf); str name];
  _ ← dump_mtrap_frame tf;
  land_name ← at_index land_names (wrapU 8 (Z.shiftr (Z.land (tf_mstatus tf) MSTATUS_MPP) 11));
  _ ← printf polls (newline ++ "%s from %s land at %lx" ++ newline) [str name; str land_name; ANum (tf_mepc tf)];
  exit (- tf_mcause tf).

(** ** [machine_trap.c] *)
Definition mtrap_handler (mcause : Z) (tf : mtrap_frame) : MM mtrap_end :=
  if negb (Z.land mcause INTERRUPT_CAUSE_FLAG =? 0) then
    let n := Z.land mcause (2 ^ 64 - 1 - INTERRUPT_CAUSE_FLAG) in
    if n =? intr_m_timer then
      _ ← handle_mtimer_interrupt;
      _ ← (if VIRTMACHINE m then mret tt else device (csr_clear mip intr_m_timer));
      mret MReturn
    else if n =? intr_s_timer then mret (MSupervisor Traps.intr_s_timer intr_s_timer)
    else if n =? intr_s_external then
      ch ← device (kgetchar polls);
      mret (MSupervisor (Traps.intr_s_external ch) SIE_SEI)
    else fail (Exited (-1))
  else
    _ ← device (blue_screen tf); mret MReturn.

(** What is left of [mtrap_handler] when the handler of the supervisor is done. *)
Definition mtrap_finish (mask : Z) : MM unit := device (csr_clear mip mask).

End Boot.
