(* ===== verification/DevicesSpec.v ===== *)
(** * DevicesSpec: what the drivers do on the bus

    The transmitters, the text that reaches the line, the console of each
    machine and the control registers, all read off the trace of events. *)

From S2P Require Import Prelude.
From S2P Require Import Devices.
From S2P Require Import Boot.
#[local] Open Scope Z_scope.

(** ** Transmitters

    A byte leaves when it is written in the transmit register while the gate
    of the port is open: on the 16550 the divisor latch must not be selected,
    on the SiFive device the transmitter must be enabled. *)
Record port : Type := mk_port {
  p_width : Z; p_status : Z; p_tx : Z; p_ready : Z -> bool; p_gate : Z; p_open : Z -> bool; p_reset : bool
}.
Definition ns16550a_port (base : Z) : port :=
  mk_port 1 (base + UART_LSR) (base + UART_THR) ns16550a_ready (base + UART_LCR) (fun v => negb (Z.testbit v 7)) true.
Definition sifive_port (base : Z) : port :=
  mk_port 4 (uart_int base UART_REG_TXFIFO) (uart_int base UART_REG_TXFIFO) sifive_ready
    (uart_int base UART_REG_TXCTRL) (fun v => Z.testbit v 0) false.

Section Port.
Variable (p : port).

Fixpoint gate_open (tr : list event) : bool :=
  match tr with
  | [] => p_reset p
  | EvWrite w a v :: tr => if (w =? p_width p) && (a =? p_gate p) then p_open p v else gate_open tr
  | _ :: tr => gate_open tr
  end.

(** The bytes that left, the oldest first. *)
Fixpoint sent (tr : list event) : list Z :=
  match tr with
  | [] => []
  | EvWrite w a v :: tr => if (w =? p_width p) && (a =? p_tx p) && gate_open tr then sent tr ++ [v] else sent tr
  | _ :: tr => sent tr
  end.

(** Every byte was written right after the port had been seen ready. *)
Fixpoint waited (tr : list event) : Prop :=
  match tr with
  | [] => True
  | EvWrite w a _ :: tr =>
      waited tr /\ (w = p_width p -> a = p_tx p -> gate_open tr = true ->
        exists u tr', tr = EvRead (p_width p) (p_status p) u :: tr' /\ p_ready p u = true)
  | _ :: tr => waited tr
  end.

Definition is_read (e : event) : Prop := match e with EvRead _ _ _ => True | _ => False end.

Lemma reads_silent rs tr : Forall is_read rs ->
  gate_open (rs ++ tr) = gate_open tr /\ sent (rs ++ tr) = sent tr /\ (waited tr -> waited (rs ++ tr)).
Proof. induction 1 as [|e rs He _ IH]; [done|]. destruct e; [exact IH|done..]. Qed.
End Port.

(** Events that leave the control registers as they are. *)
Definition is_access (e : event) : Prop :=
  match e with EvRead _ _ _ | EvWrite _ _ _ | EvCsrRead _ _ => True | _ => False end.

Lemma reads_access rs : Forall is_read rs -> Forall is_access rs.
Proof. intros H. eapply Forall_impl; [exact H|]. by intros []. Qed.

(** The value of a control register after a trace, from its value [x] before. *)
Fixpoint csr_after (r : csr) (x : Z) (tr : list event) : Z :=
  match tr with
  | [] => x
  | EvCsrWrite r' v :: tr => if decide (r' = r) then v else csr_after r x tr
  | EvCsrSet r' mask :: tr => if decide (r' = r) then Z.lor (csr_after r x tr) mask else csr_after r x tr
  | EvCsrClear r' mask :: tr => if decide (r' = r) then Z.ldiff (csr_after r x tr) mask else csr_after r x tr
  | _ :: tr => csr_after r x tr
  end.

Lemma csr_after_access r x rs tr : Forall is_access rs -> csr_after r x (rs ++ tr) = csr_after r x tr.
Proof. induction 1 as [|e rs He _ IH]; [done|]. by destruct e. Qed.

Section Spec.
Context `{P : Platform} (polls : nat).

(** ** Waiting *)

Definition read_event (w a : Z) (tr : list event) : event := EvRead w a (wrapU (8 * w) (bus tr w a)).
Fixpoint after_reads (w a : Z) (k : nat) (tr : list event) : list event :=
  match k with O => tr | S k => after_reads w a k (read_event w a tr :: tr) end.

(** The hardware: from any moment on, the port is seen ready in less than
    [polls] readings of its status. *)
Definition responds (p : port) : Prop := forall tr, exists k, (k < polls)%nat /\
  p_ready p (wrapU (8 * p_width p) (bus (after_reads (p_width p) (p_status p) k tr) (p_width p) (p_status p))) = true.

Lemma poll_ready p n : forall s,
  (exists k, (k < n)%nat /\
    p_ready p (wrapU (8 * p_width p)
      (bus (after_reads (p_width p) (p_status p) k (trace s)) (p_width p) (p_status p))) = true) ->
  exists u rs, poll n (p_width p) (p_status p) (p_ready p) s =
      Ok (tt, s <| trace := EvRead (p_width p) (p_status p) u :: rs ++ trace s |>) /\
    p_ready p u = true /\ Forall is_read rs.
Proof.
  induction n as [|n IH]; intros s (k & Hk & Hr); [lia|]. simpl.
  set (v := wrapU (8 * p_width p) (bus (trace s) (p_width p) (p_status p))).
  unfold mbind, M_bind, mmio_read. fold v. destruct (p_ready p v) eqn:Ev; [by exists v, []|].
  destruct k as [|k]; [simpl in Hr; fold v in Hr; congruence|].
  destruct (IH (s <| trace ::= cons (EvRead (p_width p) (p_status p) v) |>)) as (u & rs & E & Hu & Hrs).
  { exists k. split; [lia|exact Hr]. }
  exists u, (rs ++ [EvRead (p_width p) (p_status p) v]). split; [|split; [done|]].
  - rewrite E. simpl. by rewrite <- app_assoc.
  - apply Forall_app. split; [done|]. by apply Forall_singleton.
Qed.

(** The host interface: the mailbox is seen empty in less than [polls] turns. *)
Definition htif_turn (tr : list event) : list event :=
  let t1 := read_event 8 tohost tr :: tr in
  let t2 := read_event 4 fromhost t1 :: t1 in
  read_event 4 (fromhost + 4) t2 :: t2.
Fixpoint after_turns (k : nat) (tr : list event) : list event :=
  match k with O => tr | S k => after_turns k (htif_turn tr) end.
Definition htif_responds : Prop := forall tr, exists k, (k < polls)%nat /\ wrapU 64 (bus (after_turns k tr) 8 tohost) = 0.

Lemma htif_wait_ok n : forall s,
  (exists k, (k < n)%nat /\ wrapU 64 (bus (after_turns k (trace s)) 8 tohost) = 0) ->
  exists rs, htif_wait n s = Ok (tt, s <| trace := rs ++ trace s |>) /\ Forall is_access rs.
Proof.
  induction n as [|n IH]; intros s (k & Hk & Hz); [lia|]. cbn [htif_wait].
  rewrite (run_bind _ _ s (wrapU (8 * 8) (bus (trace s) 8 tohost)) (s <| trace ::= cons (read_event 8 tohost (trace s)) |>) eq_refl).
  destruct (Z.eqb_spec (wrapU (8 * 8) (bus (trace s) 8 tohost)) 0) as [_|Hne]; [eexists [_]; split; [done|by apply Forall_singleton]|].
  destruct k as [|k]; [done|].
  destruct (IH (s <| trace := htif_turn (trace s) |>)) as (rs & E & Hrs); [exists k; split; [lia|exact Hz]|].
  exists (rs ++ take 3 (htif_turn (trace s))). split.
  - etrans; [exact E|]. by rewrite <- app_assoc.
  - apply Forall_app. split; [done|]. by repeat constructor.
Qed.

(** ** The console of a machine *)
Definition console_of (m : machine) : console_driver :=
  match m with
  | virt => console_ns16550a | cep => console_cep_uart | sifive_u => console_sifive_uart
  | spike | zybo => console_htif
  end.
Definition uart_base (m : machine) : Z :=
  match m with virt => 0x10000000 | cep | sifive_u => 0x10013000 | spike | zybo => 0 end.
Definition uart_of (m : machine) : option port :=
  match m with
  | virt => Some (ns16550a_port (uart_base virt))
  | cep | sifive_u => Some (sifive_port (uart_base cep))
  | spike | zybo => None
  end.
Definition console_responds (m : machine) : Prop :=
  match uart_of m with Some p => responds p | None => htif_responds end.

(** The drivers are those of machine [m]. *)
Definition console_ready (m : machine) (s : io) : Prop :=
  console_drv s = console_of m /\ uart s = uart_base m /\ htif_lock s = false.

(** [s'] is [s] after some accesses to the bus. *)
Definition only_bus (s s' : io) : Prop := exists rs, s' = s <| trace := rs ++ trace s |> /\ Forall is_access rs.

Lemma only_bus_refl s : only_bus s s.
Proof. exists []. by destruct s. Qed.
Lemma only_bus_trans s1 s2 s3 : only_bus s1 s2 -> only_bus s2 s3 -> only_bus s1 s3.
Proof.
  intros (r1 & -> & H1) (r2 & -> & H2). exists (r2 ++ r1). split; [by rewrite <- app_assoc|by apply Forall_app].
Qed.
Lemma only_bus_read w a s : wp (mmio_read w a) (fun _ s' => only_bus s s') s.
Proof. eexists [_]. split; [done|by apply Forall_singleton]. Qed.

Lemma console_ready_bus m s s' : console_ready m s -> only_bus s s' -> console_ready m s'.
Proof. by intros Hc (rs & -> & _). Qed.

(** One byte on a transmitter. *)
Lemma uart_putchar m p s c : uart_of m = Some p -> responds p -> console_ready m s ->
  exists u rs, kputchar polls c s = Ok (Z.land c 0xff,
      s <| trace := EvWrite (p_width p) (p_tx p) (Z.land c 0xff) :: EvRead (p_width p) (p_status p) u :: rs ++ trace s |>) /\
    p_ready p u = true /\ Forall is_read rs.
Proof.
  intros Hp Hr (Hd & Hu & _). destruct (poll_ready p polls s (Hr _)) as (u & rs & E & Hu' & Hrs). exists u, rs.
  split; [|done]. assert (Hc : 0 <= Z.land c 0xff < 256).
  { change 0xff with (Z.ones 8). rewrite Z.land_ones by lia. by apply Z.mod_pos_bound. }
  assert (H32 : wrapU (8 * 4) (Z.land c 0xff) = Z.land c 0xff) by (apply wrapU_id; lia).
  assert (H8 : wrapU (8 * 1) (Z.land c 0xff) = Z.land c 0xff) by (by apply wrapU_id).
  unfold kputchar. rewrite (run_bind _ _ s (console_drv s) s eq_refl), Hd.
  destruct m; simplify_eq/=; unfold ns16550a_putchar, sifive_uart_putchar;
    rewrite (run_bind _ _ s (uart s) s eq_refl), Hu; rewrite (run_bind _ _ _ _ _ E);
    unfold mmio_write, emit, mbind, M_bind, modify; by rewrite ?H32, ?H8.
Qed.

Lemma htif_putchar_bus c s : htif_responds -> htif_lock s = false -> wp (htif_putchar polls c) (fun v s' => 0 <= v /\ only_bus s s') s.
Proof.
  intros Hr Hl. unfold htif_putchar, spinlock_lock. apply wp_bind, wp_bind, wp_gets. rewrite Hl.
  apply wp_modify, wp_bind. unfold htif_set_tohost. apply wp_bind.
  destruct (htif_wait_ok polls (s <| htif_lock := true |>) (Hr _)) as (rs & E & Hrs). eapply wp_intro; [exact E|].
  apply wp_bind, wp_modify, wp_modify, wp_bind, wp_modify, wp_ret. split; [apply Z.land_nonneg; lia|].
  eexists (_ :: _ :: rs). split; [destruct s; simpl in Hl; by subst|by repeat constructor].
Qed.

Lemma kputchar_bus m c s : console_responds m -> console_ready m s -> wp (kputchar polls c) (fun v s' => 0 <= v /\ only_bus s s') s.
Proof.
  intros Hr Hc. destruct (uart_of m) as [p|] eqn:Hp.
  - unfold console_responds in Hr. rewrite Hp in Hr. destruct (uart_putchar m p s c Hp Hr Hc) as (u & rs & E & _ & Hrs).
    eapply wp_intro; [exact E|]. split; [apply Z.land_nonneg; lia|]. eexists (_ :: _ :: rs). split; [done|].
    repeat constructor. by apply reads_access.
  - unfold console_responds in Hr. rewrite Hp in Hr. unfold kputchar. destruct Hc as (Hd & _ & Hl). apply wp_bind, wp_gets.
    rewrite Hd. destruct m; try done; by apply htif_putchar_bus.
Qed.

Lemma cons_write_bus m cs s : console_responds m -> console_ready m s -> wp (cons_write polls cs) (fun _ s' => only_bus s s') s.
Proof.
  intros Hr. unfold cons_write. generalize 0. revert s. induction cs as [|c cs IH]; intros s n Hc; [apply only_bus_refl|].
  simpl. apply wp_bind. eapply wp_mono; [by apply (kputchar_bus m)|]. intros v s' [Hv Hb]. destruct (Z.leb_spec 0 v); [|lia].
  eapply wp_mono; [by apply IH; eapply console_ready_bus|]. intros ? s''. by apply only_bus_trans.
Qed.

(** What a transmitter adds to the trace: readings and bytes to send. *)
Definition port_event (p : port) (e : event) : Prop := is_read e \/ exists v, e = EvWrite (p_width p) (p_tx p) v.

Lemma port_events_access p rs : Forall (port_event p) rs -> Forall is_access rs.
Proof. intros H. eapply Forall_impl; [exact H|]. intros e [He|[v ->]]; [by destruct e|done]. Qed.

(** A text on a transmitter. *)
Lemma cons_write_sent m p cs s n : uart_of m = Some p -> responds p -> console_ready m s ->
  gate_open p (trace s) = true -> Forall (fun c => 0 <= c < 256) cs -> waited p (trace s) ->
  exists rs, cons_write_loop polls cs n s = Ok (n + Z.of_nat (length cs), s <| trace := rs ++ trace s |>) /\
    Forall (port_event p) rs /\ gate_open p (rs ++ trace s) = true /\
    sent p (rs ++ trace s) = sent p (trace s) ++ cs /\ waited p (rs ++ trace s).
Proof.
  intros Hp Hr. revert s n. induction cs as [|c cs IH]; intros s n Hc Hg Hcs Hw.
  { exists []. rewrite app_nil_r, Z.add_0_r. by destruct s. }
  apply Forall_cons in Hcs as [Hb Hcs]. destruct (uart_putchar m p s c Hp Hr Hc) as (u & rs & E & Hu & Hrs).
  assert (Ec : Z.land c 0xff = c) by (change 0xff with (Z.ones 8); rewrite Z.land_ones by lia; by apply Z.mod_small).
  rewrite Ec in E. set (tr1 := EvWrite _ _ c :: _) in E. destruct (reads_silent p rs (trace s) Hrs) as (Eg & Es & Ew).
  assert (Hp' : p_tx p <> p_gate p) by (by destruct m; simplify_eq/=).
  assert (Hg1 : gate_open p tr1 = true).
  { cbn. destruct (Z.eqb_spec (p_tx p) (p_gate p)); [done|]. by rewrite andb_false_r, Eg. }
  assert (Hs1 : sent p tr1 = sent p (trace s) ++ [c]) by (cbn; by rewrite !Z.eqb_refl, Eg, Hg, Es).
  assert (Hw1 : waited p tr1) by (cbn; split; [by apply Ew|]; intros; eauto).
  destruct (IH (s <| trace := tr1 |>) (n + 1)) as (rs2 & E2 & Ha2 & Hg2 & Hs2 & Hw2); [done..|].
  assert (Etr : (rs2 ++ EvWrite (p_width p) (p_tx p) c :: EvRead (p_width p) (p_status p) u :: rs) ++ trace s = rs2 ++ tr1)
    by by rewrite <- app_assoc.
  exists (rs2 ++ EvWrite (p_width p) (p_tx p) c :: EvRead (p_width p) (p_status p) u :: rs). rewrite Etr.
  split; [|split; [|split; [done|split; [|done]]]].
  - simpl. rewrite (run_bind _ _ _ _ _ E). destruct (Z.leb_spec 0 c); [|lia]. etrans; [exact E2|]. do 2 f_equal. lia.
  - apply Forall_app. split; [done|]. constructor; [right; by eexists|]. constructor; [by left|].
    eapply Forall_impl; [exact Hrs|]. intros e He. by left.
  - etrans; [exact Hs2|]. cbn [trace upd]. by rewrite Hs1, <- app_assoc.
Qed.

End Spec.
