(* ===== verification/BootSpec.v ===== *)
(** * BootSpec: from the reset to the supervisor

    What [boot_riscv] leaves in the control registers, the console of each
    machine and the timer of the machine mode. *)

From S2P Require Import Prelude.
From S2P Require Import FrameDist.
From S2P Require Import Kernel.
From S2P Require Import KernelRules.
From S2P Require Import Scheduler.
From S2P Require Import StdioSpec.
From S2P Require Import Traps.
From S2P Require Import Devices.
From S2P Require Import Boot.
From S2P Require Import DevicesSpec.
#[local] Open Scope Z_scope.

Definition clint_of (m : machine) : clint_device :=
  match m with virt => virt_clint | cep => cep_clint | sifive_u => sifive_clint | spike | zybo => spike_clint end.

(** The counters are the only control registers [arch_setup] writes. *)
Definition not_counter (r : csr) : Prop := r <> mcounteren /\ r <> scounteren.

Section Spec.
Context `{P : Platform} (polls : nat).

(** ** [arch_setup] *)

(** [banner] is what has been printed. *)
Record set_up (m : machine) (banner : list Z) (s : io) : Prop := {
  su_console : console_ready m s;
  su_clint : clint_dev s = clint_of m;
  su_csr : forall r x, not_counter r -> csr_after r x (trace s) = x;
  su_uart : forall p, uart_of m = Some p -> gate_open p (trace s) = true /\ sent p (trace s) = banner /\ waited p (trace s)
}.

(** The text [arch_setup] prints: on [virt], when the disk is not there. *)
Definition setup_text (m : machine) (banner : list Z) : Prop :=
  banner = [] \/ m = virt /\ banner = bytes_of disk_message.

(** The disk is only read. *)
Lemma read_then {A} w a (f : Z -> IO A) (Q : A -> io -> Prop) s :
  (forall v, wp (f v) Q (s <| trace ::= cons (EvRead w a v) |>)) -> wp (v ← mmio_read w a; f v) Q s.
Proof. intros Hf. apply wp_bind, Hf. Qed.

Definition only_reads (s s' : io) : Prop := exists rs, s' = s <| trace := rs ++ trace s |> /\ Forall is_read rs.

Lemma virt_disk_reads s : wp virt_disk_found (fun _ s' => only_reads s s') s.
Proof.
  unfold virt_disk_found. apply read_then. intros v1. destruct (negb _).
  { eexists [_]. split; [done|by repeat constructor]. }
  apply read_then. intros v2. destruct (negb _).
  { eexists [_; _]. split; [done|by repeat constructor]. }
  apply read_then. intros v3. destruct (negb _).
  { eexists [_; _; _]. split; [done|by repeat constructor]. }
  apply read_then. intros v4. eexists [_; _; _; _]. split; [done|by repeat constructor].
Qed.

(** A printed text, on the console of a machine. *)
Lemma printf_sent m p fmt args text s : uart_of m = Some p -> responds polls p -> console_ready m s ->
  gate_open p (trace s) = true -> waited p (trace s) ->
  render false false (bytes_of fmt) args = Some text -> Forall (fun c => 0 <= c < 256) text ->
  wp (printf polls fmt args) (fun _ s' => exists rs, s' = s <| trace := rs ++ trace s |> /\
    Forall (port_event p) rs /\ gate_open p (trace s') = true /\ sent p (trace s') = sent p (trace s) ++ text /\
    waited p (trace s')) s.
Proof.
  intros Hp Hr Hc Hg Hw Ht Hb. unfold printf. rewrite Ht. apply wp_bind.
  destruct (cons_write_sent polls m p text s 0 Hp Hr Hc Hg Hb Hw) as (rs & E & Hrs). eapply wp_intro; [exact E|].
  apply wp_ret. by exists rs.
Qed.

Lemma virt_disk_prints s (p := ns16550a_port (uart_base virt)) : responds polls p -> console_ready virt s ->
  gate_open p (trace s) = true -> waited p (trace s) ->
  wp (virt_disk_init polls) (fun _ s' => exists rs banner, s' = s <| trace := rs ++ trace s |> /\
    Forall (port_event p) rs /\ gate_open p (trace s') = true /\ sent p (trace s') = sent p (trace s) ++ banner /\
    waited p (trace s') /\ setup_text virt banner) s.
Proof.
  intros Hr Hc Hg Hw. unfold virt_disk_init. apply wp_bind. eapply wp_mono; [apply virt_disk_reads|].
  intros found s1 (rs & -> & Hrs). destruct (reads_silent p rs (trace s) Hrs) as (Eg & Es & Ew).
  assert (Hpe : Forall (port_event p) rs) by (eapply Forall_impl; [exact Hrs|by left]).
  destruct found.
  - apply wp_ret. exists rs, []. cbn [trace upd]. rewrite Eg, Es, app_nil_r. split_and!; try done; [by apply Ew|by left].
  - eapply wp_mono.
    { apply (printf_sent virt p disk_message [] (bytes_of disk_message)); try done; cbn [trace upd]; [by rewrite Eg|by apply Ew|].
      by repeat (constructor; [done|]). }
    intros [] s2 (rs2 & -> & Hrs2 & Hg2 & Hs2 & Hw2). exists (rs2 ++ rs), (bytes_of disk_message).
    cbn [trace upd] in *. rewrite <- app_assoc, Hs2, Es. split_and!; try done; [by apply Forall_app|by right].
Qed.

Lemma csr_counter r r' x v tr : not_counter r -> r' = mcounteren \/ r' = scounteren ->
  csr_after r x (EvCsrWrite r' v :: tr) = csr_after r x tr.
Proof. intros [H1 H2] H. simpl. rewrite decide_False; [done|]. intros <-. tauto. Qed.

(** A call on a known state, by computation. *)
Local Ltac run_concrete :=
  try apply wp_bind;
  match goal with |- wp ?f _ ?s =>
    let r := eval vm_compute in (f s) in
    match r with Ok (?a, ?s') => apply (wp_intro f _ s a s'); [by vm_compute|cbv beta] end
  end.
Local Ltac concrete_set_up :=
  split; [done|done|by intros r x _|]; intros ? Hq;
  first [discriminate Hq|injection Hq as <-; split; [by vm_compute|split; [by vm_compute|by repeat split]]].

Lemma counters_set_up m b s : set_up m b s -> wp enable_counters (fun _ s' => set_up m b s') s.
Proof.
  intros [Hc Hl Hr Hu]. unfold enable_counters. apply wp_bind, wp_modify, wp_modify. split; try done.
  intros r x Hn. cbn [trace upd]. etrans; [apply (csr_counter _ scounteren); auto|].
  etrans; [apply (csr_counter _ mcounteren); auto|]. by apply Hr.
Qed.

(** What [register_plic] has written on [virt], before the disk. *)
Definition virt_setup_trace : list event :=
  [EvWrite 4 203427840 0; EvWrite 4 203423744 0; EvWrite 4 8320 1026; EvWrite 4 201326632 1; EvWrite 4 201326596 1;
   EvWrite 1 268435459 11; EvWrite 1 268435457 0; EvWrite 1 268435456 1; EvWrite 1 268435459 128].

Lemma virt_setup_spec (p := ns16550a_port (uart_base virt)) : responds polls p ->
  wp (arch_setup polls virt) (fun _ s => exists rs banner, set_up virt banner s /\ setup_text virt banner /\
    Forall (port_event p) rs /\ trace s = [EvCsrWrite scounteren (wrapU 64 (-1)); EvCsrWrite mcounteren (wrapU 64 (-1))] ++
      rs ++ virt_setup_trace) (reset_io virt).
Proof.
  intros Hr. unfold arch_setup. do 4 run_concrete. apply wp_bind. unfold register_disk. run_concrete.
  set (s0 := mk_io _ _ _ _ _ _ _ _ _ _ _ _ _ _). assert (Hs0 : set_up virt [] s0) by concrete_set_up.
  destruct Hs0 as [Hc Hl Hcsr Hu]. destruct (Hu p eq_refl) as (Hg & Hs & Hw).
  eapply wp_mono; [by apply virt_disk_prints|]. intros [] s1 (rs & banner & -> & Hrs & Hg1 & Hs1 & Hw1 & Hb).
  assert (Hset : set_up virt banner (s0 <| trace := rs ++ trace s0 |>)).
  { split; try done.
    - intros r x Hn. cbn [trace upd]. rewrite csr_after_access by by eapply port_events_access. by apply Hcsr.
    - intros q [= <-]. fold p in Hg1, Hs1, Hw1 |- *. by rewrite Hs in Hs1. }
  eapply wp_mono; [apply (wp_and _ _ (fun _ s' => s' = s0 <| trace := [EvCsrWrite scounteren (wrapU 64 (-1));
    EvCsrWrite mcounteren (wrapU 64 (-1))] ++ rs ++ virt_setup_trace |>) _ (counters_set_up _ _ _ Hset))|].
  - done.
  - intros [] s2 [H2 ->]. exists rs, banner. done.
Qed.

Lemma arch_setup_spec m : console_responds polls m ->
  wp (arch_setup polls m) (fun _ s => exists banner, set_up m banner s /\ setup_text m banner) (reset_io m).
Proof.
  intros Hr. destruct m.
  - eapply wp_mono; [by apply virt_setup_spec|]. intros [] s (rs & banner & Hs & Hb & _). by exists banner.
  - unfold arch_setup. do 4 run_concrete. eapply wp_mono; [apply (counters_set_up cep []); concrete_set_up|].
    intros [] s Hs. exists []. split; [done|by left].
  - unfold arch_setup. do 4 run_concrete. eapply wp_mono; [apply (counters_set_up sifive_u []); concrete_set_up|].
    intros [] s Hs. exists []. split; [done|by left].
  - unfold arch_setup. do 4 run_concrete. eapply wp_mono; [apply (counters_set_up spike []); concrete_set_up|].
    intros [] s Hs. exists []. split; [done|by left].
  - unfold arch_setup. do 4 run_concrete. exists []. split; [concrete_set_up|by left].
Qed.

(** C22: what the kernel prints reaches the line.  Once [arch_setup] has
    registered the serial console of its machine, [cons_write] on any bytes
    returns their number; the bytes that leave the transmitter are these,
    after the message on the missing disk if there was one, in order and no
    other, and each is written when the device was just seen ready.  The
    device answers within [polls] readings of its status. *)
Theorem console_prints m p cs :
  uart_of m = Some p -> responds polls p -> Forall (fun c => 0 <= c < 256) cs ->
  exists s1 s2 banner, arch_setup polls m (reset_io m) = Ok (tt, s1) /\ setup_text m banner /\
    cons_write polls cs s1 = Ok (Z.of_nat (length cs), s2) /\
    sent p (trace s2) = banner ++ cs /\ waited p (trace s2).
Proof.
  intros Hp Hr Hcs. assert (Hcr : console_responds polls m) by (unfold console_responds; by rewrite Hp).
  apply (arch_setup_spec m) in Hcr as Hw. apply wp_elim in Hw as ([] & s1 & E1 & banner & [Hc _ _ Hu] & Hb).
  destruct (Hu p Hp) as (Hg & Hs & Hwt).
  destruct (cons_write_sent polls m p cs s1 0 Hp Hr Hc Hg Hcs Hwt) as (rs & E2 & _ & _ & Hs2 & Hw2).
  exists s1, (s1 <| trace := rs ++ trace s1 |>), banner. split_and!; try done. cbn [trace upd]. by rewrite Hs2, Hs.
Qed.

(** ** The banner *)
Section Printing.
Context (m : machine) (Hr : console_responds polls m).

Lemma printf_bus fmt args s : is_Some (render false false (bytes_of fmt) args) -> console_ready m s ->
  wp (printf polls fmt args) (fun _ s' => only_bus s s') s.
Proof.
  intros [text Ht] Hc. unfold printf. rewrite Ht. apply wp_bind. eapply wp_mono; [by apply (cons_write_bus polls m)|].
  by intros.
Qed.

Lemma extensions_bus isa exts : Forall (fun e => is_Some (render false false (bytes_of e.2) [])) exts -> forall s,
  console_ready m s -> wp (print_extensions polls isa exts) (fun _ s' => only_bus s s') s.
Proof.
  induction 1 as [|[b name] exts Hn _ IH]; intros s Hc; [apply only_bus_refl|]. cbn [print_extensions]. apply wp_bind.
  eapply (wp_mono _ (fun _ s' => only_bus s s')).
  { destruct (negb _); [by apply printf_bus|apply only_bus_refl]. }
  intros _ s' Hb. eapply wp_mono; [apply IH; by eapply console_ready_bus|]. intros ? s''. by apply only_bus_trans.
Qed.

(** One more printing. *)
Lemma then_bus {A B} (f : IO A) (g : IO B) s0 s :
  only_bus s0 s -> wp f (fun _ s' => only_bus s s') s ->
  (forall s', only_bus s0 s' -> wp g (fun _ s'' => only_bus s0 s'') s') ->
  wp (_ ← f; g) (fun _ s'' => only_bus s0 s'') s.
Proof.
  intros H0 Hf Hg. apply wp_bind. eapply wp_mono; [exact Hf|]. intros ? s' Hs. apply Hg. by eapply only_bus_trans.
Qed.

Lemma misa_bits_prints isa : is_Some (render false false (bytes_of "%d bits") [ANum (misa_bits isa)]) /\
  is_Some (render false false (bytes_of " Extension RV%d") [ANum (misa_bits isa)]).
Proof. unfold misa_bits. destruct (negb _); [|destruct (negb _)]; split; by eexists. Qed.

Lemma display_bus s : console_ready m s -> wp (display_info_proc polls) (fun _ s' => only_bus s s') s.
Proof.
  intros Hc. unfold display_info_proc, display_misa_info. apply wp_bind.
  set (isa := wrapU 64 (csr_value (trace s) misa)). set (s1 := s <| trace ::= cons (EvCsrRead misa isa) |>).
  assert (H1 : only_bus s s1) by (eexists [_]; split; [done|by repeat constructor]).
  destruct (misa_bits_prints isa) as [Hb1 Hb2]. apply (wp_intro _ _ s isa s1); [done|].
  pose proof (fun s' H => console_ready_bus m s s' Hc H) as Hk.
  assert (Hp : forall fmt args s', is_Some (render false false (bytes_of fmt) args) -> only_bus s s' ->
    wp (printf polls fmt args) (fun _ s'' => only_bus s' s'') s') by (intros; apply printf_bus; auto).
  eapply then_bus; [exact H1|by apply Hp; [eexists|]|]. intros s2 H2.
  eapply then_bus; [exact H2|by apply Hp|]. intros s3 H3.
  eapply then_bus; [exact H3|by apply Hp|]. intros s4 H4.
  eapply then_bus; [exact H4| |].
  { apply extensions_bus; [|by apply Hk]. by repeat (constructor; [by eexists|]). }
  intros s5 H5. eapply wp_mono; [apply Hp; [by eexists|exact H5]|]. intros ? s6. by apply only_bus_trans.
Qed.
End Printing.

(** ** [boot_riscv] *)
Section Boot.
Context `{L : MemLayout} (m : machine) (Hr : console_responds polls m).

(** What happens after the banner, the newest event first; [t0] is what the
    trap vector held. *)
Definition interrupt_events : list event :=
  if VIRTMACHINE m then
    [EvCsrSet mstatus 0x8; EvCsrSet sie 0x2; EvCsrSet sie 0x20; EvCsrSet mie 0x80]
  else
    [EvCsrClear mstatus 0x8; EvCsrSet sie 0x200; EvCsrSet sie 0x20; EvCsrSet mip 0x20].
Definition delegation_events : list event := [EvCsrSet mideleg 0xffffffff; EvCsrSet medeleg 0xffffffff].
Definition entry_events (t0 : Z) : list event :=
  [EvMret; EvCsrSet sstatus 0x40000; EvCsrClear mstatus 0x1000; EvCsrSet mstatus 0x800;
   EvCsrWrite mepc (wrapU 64 kernel_start_address); EvCsrWrite mtvec (wrapU 64 t0); EvCsrWrite pmpcfg0 0x1f;
   EvCsrWrite pmpaddr0 (2 ^ 53 - 1); EvCsrWrite mtvec (wrapU 64 pmp_trap_address); EvCsrRead mtvec t0].

Lemma boot_run k : exists banner s1 rs f,
  let before := interrupt_events ++ delegation_events ++ rs ++ trace s1 in
  let t0 := wrapU 64 (csr_value before mtvec) in
  boot_riscv polls m (mk_machine (reset_io m) k true) =
    Ok (tt, mk_machine (s1 <| trace := entry_events t0 ++ before |>) (k <| frame_mem := f |>) true) /\
  set_up m banner s1 /\ Forall is_access rs /\ free_ok f all_frames.
Proof.
  destruct (wp_elim _ _ _ (arch_setup_spec m Hr)) as ([] & s1 & E1 & banner & Hs1 & _).
  destruct (wp_elim _ _ _ (display_bus m Hr s1 (su_console _ _ _ Hs1))) as ([] & s2 & E2 & rs & -> & Hrs).
  destruct (wp_elim _ _ _ (init_frames_spec (frame_mem k))) as ([] & f & E3 & Hf).
  exists banner, s1, rs, f. cbn zeta. split; [|done]. unfold boot_riscv.
  assert (Hdev : forall (g : IO unit) d d' c, g d = Ok (tt, d') -> device g (mk_machine d k c) = Ok (tt, mk_machine d' k c)).
  { intros g d d' c Hg. unfold device, zoom. simpl. by rewrite Hg. }
  rewrite (run_bind _ _ _ _ _ (Hdev _ _ _ _ E1)), (run_bind _ _ _ _ _ (Hdev _ _ _ _ E2)).
  set (d2 := s1 <| trace := rs ++ trace s1 |>).
  rewrite (run_bind _ _ _ _ _ (Hdev delegate_traps d2 (d2 <| trace := delegation_events ++ trace d2 |>) true eq_refl)).
  set (d3 := d2 <| trace := delegation_events ++ trace d2 |>).
  assert (E4 : enable_interrupts m d3 = Ok (tt, d3 <| trace := interrupt_events ++ trace d3 |>)).
  { unfold enable_interrupts, interrupt_events. by destruct (VIRTMACHINE m). }
  rewrite (run_bind _ _ _ _ _ (Hdev _ _ _ _ E4)).
  set (d4 := d3 <| trace := interrupt_events ++ trace d3 |>).
  assert (E5 : kernel (in_frames init_frames) (mk_machine d4 k true) = Ok (tt, mk_machine d4 (k <| frame_mem := f |>) true)).
  { unfold kernel, in_frames, zoom. simpl. by rewrite E3. }
  by rewrite (run_bind _ _ _ _ _ E5).
Qed.
Lemma mpp_supervisor y : Z.land (Z.ldiff (Z.lor y 0x800) 0x1000) 0x1800 = 0x800.
Proof.
  apply Z.bits_inj'. intros i Hi. change 0x1800 with (Z.lor (2 ^ 11) (2 ^ 12)).
  change 0x800 with (2 ^ 11). change 0x1000 with (2 ^ 12).
  rewrite Z.land_spec, Z.ldiff_spec, !Z.lor_spec, !Z.pow2_bits_eqb by lia.
  destruct (Z.eqb_spec 11 i) as [<-|]; [by rewrite orb_true_r|]. by destruct (12 =? i); simpl; rewrite ?andb_false_r.
Qed.

Lemma bit_set y v i : Z.testbit v i = true -> Z.testbit (Z.lor y v) i = true.
Proof. intros H. by rewrite Z.lor_spec, H, orb_true_r. Qed.
Lemma bit_keep y v i : Z.testbit y i = true -> Z.testbit (Z.lor y v) i = true.
Proof. intros H. by rewrite Z.lor_spec, H. Qed.
Lemma mie_on y : Z.testbit (Z.ldiff (Z.lor (Z.lor y 0x8) 0x800) 0x1000) 3 = true.
Proof. by rewrite Z.ldiff_spec, !Z.lor_spec, orb_true_r. Qed.
Lemma mie_off y : Z.testbit (Z.ldiff (Z.lor (Z.ldiff y 0x8) 0x800) 0x1000) 3 = false.
Proof. by rewrite Z.ldiff_spec, Z.lor_spec, Z.ldiff_spec, andb_false_r. Qed.

(** C21: the reset leads to the supervisor.  On every machine, whatever the
    control registers hold at the reset, [boot_riscv] ends with a return from
    machine mode to [kernel_start] in supervisor mode; by then every interrupt
    and exception the registers name is delegated, the whole memory is open to
    the supervisor, which may also touch the pages of users, the trap vector
    is the one of the reset, the timer interrupt is enabled for the machine on
    [virt] and for the supervisor elsewhere, where the machine takes none, and
    every frame of the memory is free.  The console answers within [polls]
    readings of its status. *)
Theorem boot_enters_supervisor k :
  exists s', boot_riscv polls m (mk_machine (reset_io m) k true) = Ok (tt, s') /\
    let final r x := csr_after r x (trace (dev s')) in
    head (trace (dev s')) = Some EvMret /\
    (forall x, final mepc x = wrapU 64 kernel_start_address /\ Z.land (final mstatus x) MSTATUS_MPP = MSTATUS_MPP_0) /\
    (forall x i, 0 <= i < 32 -> Z.testbit (final medeleg x) i = true /\ Z.testbit (final mideleg x) i = true) /\
    (forall x, final pmpaddr0 x = 2 ^ 53 - 1 /\ final pmpcfg0 x = Z.lor PMP_NAPOT 7 /\ Z.testbit (final sstatus x) 18 = true) /\
    (forall x, (forall tr, csr_value tr mtvec = csr_after mtvec x tr) -> final mtvec x = wrapU 64 x) /\
    (forall x, if VIRTMACHINE m then Z.testbit (final mie x) 7 = true /\ Z.testbit (final mstatus x) 3 = true
               else Z.testbit (final mip x) 5 = true /\ Z.testbit (final sie x) 5 = true /\
                 Z.testbit (final sie x) 9 = true /\ Z.testbit (final mstatus x) 3 = false) /\
    (exists f, kern s' = k <| frame_mem := f |> /\ free_ok f all_frames) /\
    clint_dev (dev s') = clint_of m /\ console_ready m (dev s').
Proof.
  destruct (boot_run k) as (banner & s1 & rs & f & E & [Hc Hl Hcsr _] & Hrs & Hf). eexists. split; [exact E|].
  set (t0 := wrapU 64 _). cbn [dev kern]. cbn zeta.
  assert (Hbase : forall r x, not_counter r -> csr_after r x (rs ++ trace s1) = x).
  { intros r x Hn. rewrite csr_after_access by done. by apply Hcsr. }
  assert (H32 : forall x i, 0 <= i < 32 -> Z.testbit (Z.lor x 0xffffffff) i = true).
  { intros x i Hi. rewrite Z.lor_spec. change 0xffffffff with (Z.ones 32). rewrite Z.ones_spec_low by lia. apply orb_true_r. }
  split; [done|]. unfold entry_events, interrupt_events, delegation_events. change MSTATUS_MPP with 0x1800.
  change MSTATUS_MPP_0 with 0x800.
  split_and!; try done.
  - intros x. split; [by destruct (VIRTMACHINE m)|]. by destruct (VIRTMACHINE m); apply mpp_supervisor.
  - intros x i Hi. by destruct (VIRTMACHINE m); split; apply H32.
  - intros x. split; [by destruct (VIRTMACHINE m)|]. split; [by destruct (VIRTMACHINE m)|].
    by destruct (VIRTMACHINE m); apply bit_set.
  - intros x Hx. trans (wrapU 64 t0); [by destruct (VIRTMACHINE m)|]. unfold t0. rewrite Hx. unfold wrapU.
    rewrite Z.mod_mod by done. f_equal. trans (csr_after mtvec x (rs ++ trace s1)); [unfold interrupt_events; by destruct (VIRTMACHINE m)|].
    by apply Hbase.
  - intros x. destruct (VIRTMACHINE m); cbv iota; split_and!;
      first [by apply bit_set|by apply bit_keep, bit_set|apply mie_on|apply mie_off].
  - by exists f.
Qed.


End Boot.

(** ** The interrupt controller of [virt] *)

(** the interrupt controller of [virt] stays disabled.  [virt_plic_init]
    gives a priority to the serial line and to the disk, but the word that
    should enable them goes to the offset of the enable register instead of
    its address: the register is never written. *)
Theorem virt_plic_not_enabled : console_responds polls virt ->
  exists s', arch_setup polls virt (reset_io virt) = Ok (tt, s') /\
    EvWrite 4 (VIRT_PLIC_SOURCE + 4 * VIRT_UART0_IRQ) 1 ∈ trace s' /\
    EvWrite 4 VIRT_PLIC_ENABLE_OFFSET (2 ^ VIRT_UART0_IRQ + 2 ^ VIRT_VIRTIO_IRQ) ∈ trace s' /\
    forall w v, EvWrite w VIRT_PLIC_ENABLE v ∉ trace s'.
Proof.
  intros Hr. destruct (wp_elim _ _ _ (virt_setup_spec Hr)) as ([] & s' & E & rs & banner & _ & _ & Hrs & Htr).
  exists s'. split; [done|]. rewrite Htr. unfold virt_setup_trace. split; [|split].
  - rewrite !elem_of_app. right. right. change (VIRT_PLIC_SOURCE + 4 * VIRT_UART0_IRQ) with 201326632. do 3 right. left.
  - rewrite !elem_of_app. right. right. change (2 ^ VIRT_UART0_IRQ + 2 ^ VIRT_VIRTIO_IRQ) with 1026.
    change VIRT_PLIC_ENABLE_OFFSET with 8320. do 2 right. left.
  - intros w v. change VIRT_PLIC_ENABLE with 201334912. rewrite !elem_of_app. intros [Hin|[Hin|Hin]].
    + by rewrite !elem_of_cons, elem_of_nil in Hin; destruct_or? Hin.
    + rewrite Forall_forall in Hrs. by apply Hrs in Hin as [|[v' ?]].
    + by rewrite !elem_of_cons, elem_of_nil in Hin; destruct_or? Hin.
Qed.

(** ** The timer of the machine mode *)
Section Timer.
Context `{L : MemLayout}.

(** The time between two ticks, in cycles of the clock: 50 ms at 10 MHz. *)
Definition tick_cycles : Z := 500000.

Lemma land_pow2 x n : 0 <= n -> negb (Z.land x (2 ^ n) =? 0) = Z.testbit x n.
Proof.
  intros Hn. destruct (Z.testbit x n) eqn:Hb.
  - apply negb_true_iff, Z.eqb_neq. intros H0. apply (f_equal (fun y => Z.testbit y n)) in H0.
    by rewrite Z.land_spec, Hb, Z.pow2_bits_true, Z.bits_0 in H0.
  - apply negb_false_iff, Z.eqb_eq, Z.bits_inj'. intros i Hi. rewrite Z.land_spec, Z.bits_0, Z.pow2_bits_eqb by done.
    destruct (Z.eqb_spec n i) as [<-|]; [by rewrite Hb|by rewrite andb_false_r].
Qed.

Lemma arm_virt_timer d : clint_dev d = virt_clint ->
  let now := wrapU 64 (bus (trace d) 8 (base_addr virt_clint + CLINT_MTIME)) in
  set_machine_timer_interrupt TIC_PER d = Ok (tt, d <| trace := [
    EvWrite 8 (base_addr virt_clint + CLINT_MTIMECMP) (wrapU 64 (now + tick_cycles));
    EvRead 8 (base_addr virt_clint + CLINT_MTIME) now] ++ trace d |>).
Proof.
  intros Hcl now. unfold set_machine_timer_interrupt, get_mtime, set_mtimecmp, gets, mbind, M_bind. rewrite Hcl.
  change (wrapU 64 (base_addr virt_clint + CLINT_MTIME)) with (base_addr virt_clint + CLINT_MTIME).
  unfold mmio_read. cbn [clint_dev upd]. rewrite Hcl. unfold mmio_write, emit, modify.
  change (wrapU 64 (base_addr virt_clint + CLINT_MTIMECMP)) with (base_addr virt_clint + CLINT_MTIMECMP).
  change (8 * 8) with 64. fold now. unfold interrupt_time.
  change (wrapU 64 (TIC_PER * clk_freq virt_clint) / 1000) with tick_cycles.
  by rewrite (wrapU_id 64 (wrapU 64 (now + tick_cycles))) by by apply wrapU_range.
Qed.

(** C30: the tick of [virt].  The machine handles its timer interrupt by
    programming the next one, 50 ms after the time it reads, and by raising
    the software interrupt of the supervisor exactly when the interrupted code
    was that of a user, or at the first tick; the kernel's state is not
    touched. *)
Theorem virt_tick s mcause tf :
  mcause = INTERRUPT_CAUSE_FLAG + intr_m_timer -> clint_dev (dev s) = virt_clint ->
  let st := wrapU 64 (csr_value (trace (dev s)) mstatus) in
  let raise := negb (Z.testbit st 11) || first_call s in
  let before := (if raise then [EvCsrWrite sip 2] else []) ++ EvCsrRead mstatus st :: trace (dev s) in
  let now := wrapU 64 (bus before 8 (base_addr virt_clint + CLINT_MTIME)) in
  mtrap_handler polls virt mcause tf s =
    Ok (MReturn, mk_machine
      (dev s <| trace := [EvWrite 8 (base_addr virt_clint + CLINT_MTIMECMP) (wrapU 64 (now + tick_cycles));
                          EvRead 8 (base_addr virt_clint + CLINT_MTIME) now] ++ before |>)
      (kern s) (first_call s && negb raise)).
Proof.
  intros -> Hcl st raise before now. unfold mtrap_handler.
  change (negb (Z.land (INTERRUPT_CAUSE_FLAG + intr_m_timer) INTERRUPT_CAUSE_FLAG =? 0)) with true. cbv iota zeta.
  change (Z.land _ _ =? intr_m_timer) with true. cbv iota.
  enough (E : handle_mtimer_interrupt polls virt s =
    Ok (tt, mk_machine (dev s <| trace := [EvWrite 8 (base_addr virt_clint + CLINT_MTIMECMP) (wrapU 64 (now + tick_cycles));
      EvRead 8 (base_addr virt_clint + CLINT_MTIME) now] ++ before |>) (kern s) (first_call s && negb raise))).
  { by rewrite (run_bind _ _ _ _ _ E). }
  unfold handle_mtimer_interrupt. cbn [VIRTMACHINE].
  set (d1 := dev s <| trace ::= cons (EvCsrRead mstatus st) |>).
  rewrite (run_bind _ _ s st (s <| dev := d1 |>)) by done.
  rewrite (run_bind _ _ (s <| dev := d1 |>) (first_call s) (s <| dev := d1 |>)) by done.
  change MSTATUS_MPP_0 with (2 ^ 11). rewrite land_pow2 by lia.
  assert (Er : Z.testbit st 11 && negb (first_call s) = negb raise) by (unfold raise; by destruct (Z.testbit st 11), (first_call s)).
  rewrite Er. subst before. destruct raise; cbn [negb app] in *.
  - rewrite andb_false_r. set (d2 := d1 <| trace ::= cons (EvCsrWrite sip 2) |>).
    rewrite (run_bind _ _ _ tt (s <| dev := d1 |> <| first_call := false |>)) by done.
    rewrite (run_bind _ _ _ tt (s <| dev := d2 |> <| first_call := false |>)) by done.
    unfold device, zoom. cbn [dev upd]. by rewrite (arm_virt_timer d2).
  - rewrite andb_true_r. unfold device, zoom. cbn [dev upd]. rewrite (arm_virt_timer d1) by done. by destruct s.
Qed.
End Timer.

End Spec.
