(* ===== verification/BootWitness.v ===== *)
(** * BootWitness: the theorems on the devices and the boot, on a small platform

    Every device of the platform answers 0, except the line status of the
    serial port of [virt], which is busy at a first reading and idle at the
    next one; the control registers keep what is written. *)

From S2P Require Import Prelude.
From S2P Require Import FrameDist.
From S2P Require Import Kernel.
From S2P Require Import Demo.
From S2P Require Import Devices.
From S2P Require Import Boot.
From S2P Require Import DevicesSpec.
From S2P Require Import BootSpec.
#[local] Open Scope Z_scope.

Definition line_status : Z := 0x10000005.
Definition demo_bus (tr : list event) (w a : Z) : Z :=
  if a =? line_status then match tr with EvRead _ b 0 :: _ => if b =? line_status then 0x60 else 0 | _ => 0 end
  else 0.
Definition demo_platform : Platform := {|
  bus := demo_bus;
  csr_value := fun tr r => csr_after r 0 tr;
  tohost := 0x80001000; fromhost := 0x80001008; kernel_start_address := 0x80200000; pmp_trap_address := 0x80000100
|}.
#[local] Existing Instance demo_platform.
#[local] Existing Instance demo_layout.

Lemma demo_responds : responds 2 (ns16550a_port (uart_base virt)).
Proof.
  intros tr. cbn [ns16550a_port p_width p_status p_ready].
  change (uart_base virt + UART_LSR) with line_status.
  destruct (demo_bus tr 1 line_status =? 0) eqn:E0.
  - apply Z.eqb_eq in E0. exists 1%nat. split; [lia|]. simpl. unfold read_event. simpl bus. rewrite E0. done.
  - exists 0%nat. split; [lia|]. simpl. unfold demo_bus in *. simpl in *. repeat case_match; done.
Qed.

Lemma console_prints_witness : uart_of virt = Some (ns16550a_port (uart_base virt)) /\
  exists s1 s2 banner, arch_setup 2 virt (reset_io virt) = Ok (tt, s1) /\ setup_text virt banner /\
    cons_write 2 [111; 107] s1 = Ok (2, s2) /\
    sent (ns16550a_port (uart_base virt)) (trace s2) = banner ++ [111; 107] /\ waited (ns16550a_port (uart_base virt)) (trace s2).
Proof.
  split; [done|]. apply (console_prints 2 virt (ns16550a_port (uart_base virt)) [111; 107] eq_refl demo_responds).
  repeat constructor; lia.
Defined.

Lemma virt_plic_not_enabled_witness : exists s', arch_setup 2 virt (reset_io virt) = Ok (tt, s') /\
  forall w v, EvWrite w VIRT_PLIC_ENABLE v ∉ trace s'.
Proof. destruct (virt_plic_not_enabled 2 demo_responds) as (s' & E & _ & _ & Hn). exists s'. split; [exact E|exact Hn]. Defined.

Lemma boot_enters_supervisor_witness : exists s',
  boot_riscv 2 virt (mk_machine (reset_io virt) equal_state true) = Ok (tt, s') /\
  head (trace (dev s')) = Some EvMret /\ csr_after mepc 0 (trace (dev s')) = 0x80200000.
Proof.
  destruct (boot_enters_supervisor 2 virt demo_responds equal_state) as (s' & E & Hm & Hpc & _).
  exists s'. split; [exact E|]. split; [exact Hm|]. by destruct (Hpc 0).
Defined.

Lemma virt_tick_witness : exists s',
  mtrap_handler 2 virt (INTERRUPT_CAUSE_FLAG + intr_m_timer) (mk_mtf [] 0 0 0 0 0)
    (mk_machine (reset_io virt <| clint_dev := virt_clint |>) equal_state true) = Ok (MReturn, s') /\
  trace (dev s') = [EvWrite 8 0x2004000 500000; EvRead 8 0x200bff8 0; EvCsrWrite sip 2; EvCsrRead mstatus 0].
Proof.
  eexists. split; [apply (virt_tick 2 (mk_machine (reset_io virt <| clint_dev := virt_clint |>) equal_state true)); reflexivity|].
  vm_compute. reflexivity.
Defined.
