(* ===== verification/SemaphoreSpec.v ===== *)
(** * SemaphoreSpec: what the semaphores promise

    The linked lists of waiters represent lists; [wait], [signal] and the other
    operations act on the count and on the list of waiters as a counting
    semaphore with a priority-ordered queue does, and keep the invariant that
    a negative count is the number of waiters. *)

From S2P Require Import Prelude.
From S2P Require Import Queue.
From S2P Require Import FrameDist.
From S2P Require Import Pages.
From S2P Require Import Kernel.
From S2P Require Import KernelRules.
From S2P Require Import ProcessFree.
From S2P Require Import Scheduler.
From S2P Require Import SchedulerSpec.
From S2P Require Import Semaphore.
#[local] Open Scope Z_scope.

(** A waiter: its list node and its process. *)
Abbreviation waiter := (ptr * ptr)%type.
Abbreviation nodes := (gmap ptr blocked_process_semaphore_t).

(** ** Linked lists of waiters *)

(** From [h], the nodes of [ns] lead to [e]. *)
Fixpoint lseg (bn : nodes) (h : option ptr) (ns : list waiter) (e : option ptr) : Prop :=
  match ns with
  | [] => h = e
  | (n, p) :: ns => h = Some n /\ exists nx, bn !! n = Some (mk_blocked p nx) /\ lseg bn nx ns e
  end.

Lemma lseg_app bn h xs ys e : lseg bn h (xs ++ ys) e <-> exists m, lseg bn h xs m /\ lseg bn m ys e.
Proof.
  revert h. induction xs as [|[n p] xs IH]; intros h; simpl.
  - split; [by exists h|by intros (m & -> & ?)].
  - setoid_rewrite IH. naive_solver.
Qed.

Lemma lseg_frame bn bn' h xs e :
  (forall n, n ∈ xs.*1 -> bn' !! n = bn !! n) -> lseg bn h xs e -> lseg bn' h xs e.
Proof.
  revert h. induction xs as [|[n p] xs IH]; intros h Hf; simpl; [done|].
  intros (-> & nx & Hn & Hl). split; [done|]. exists nx. split.
  - rewrite Hf; [done|by left].
  - apply IH; [|done]. intros m Hm. apply Hf. by right.
Qed.

Lemma lseg_head bn h xs : lseg bn h xs None -> h = fst <$> head xs.
Proof. destruct xs as [|[n p] xs]; simpl; [done|]. by intros [-> _]. Qed.

Lemma lseg_node bn h xs e n p : lseg bn h xs e -> (n, p) ∈ xs -> exists nx, bn !! n = Some (mk_blocked p nx).
Proof.
  revert h. induction xs as [|[m q] xs IH]; intros h; simpl; [by intros _ ?%elem_of_nil|].
  intros (-> & nx & Hn & Hl) [[= <- <-]|Hin]%elem_of_cons; [by exists nx|by eapply IH].
Qed.

(** Redirecting the last node of a segment. *)
Lemma lseg_snoc_redirect bn h xs n p e e' :
  NoDup (xs ++ [(n, p)]).*1 -> lseg bn h (xs ++ [(n, p)]) e ->
  lseg (<[n := mk_blocked p e']> bn) h (xs ++ [(n, p)]) e'.
Proof.
  intros Hnd (m & Hl & -> & nx & Hn & _)%lseg_app. rewrite fmap_app in Hnd.
  apply NoDup_app in Hnd as (_ & Hd & _). apply lseg_app. exists (Some n). split.
  - eapply lseg_frame; [|exact Hl]. intros a Ha. rewrite lookup_insert_ne; [done|].
    intros <-. apply (Hd n Ha). by left.
  - split; [done|]. exists e'. by rewrite lookup_insert_eq.
Qed.

(** The waiters of a semaphore structure. *)
Definition srep (bn : nodes) (x : semaphore_t) (ns : list waiter) : Prop :=
  NoDup ns.*1 /\
  match list_header_process x with
  | None => ns = []
  | Some h => lseg bn (head_blocked h) ns None /\ tail_blocked h = fst <$> last ns
  end.

Lemma srep_frame bn bn' x ns : (forall n, n ∈ ns.*1 -> bn' !! n = bn !! n) -> srep bn x ns -> srep bn' x ns.
Proof.
  intros Hf [Hnd Hr]. split; [done|]. destruct (list_header_process x); [|done].
  destruct Hr as [Hl Ht]. split; [by eapply lseg_frame|done].
Qed.

Lemma srep_count bn x c ns : srep bn x ns -> srep bn (x <| count := c |>) ns.
Proof. done. Qed.

(** ** The list counterparts *)

(** A process joins the waiters before the first one of lower priority. *)
Fixpoint insert_waiter (pr : ptr -> Z) (w : waiter) (ns : list waiter) : list waiter :=
  match ns with
  | [] => [w]
  | v :: ns => if pr v.2 <? pr w.2 then w :: v :: ns else v :: insert_waiter pr w ns
  end.

Lemma insert_waiter_perm pr w ns : insert_waiter pr w ns ≡ₚ w :: ns.
Proof.
  induction ns as [|v ns IH]; simpl; [done|]. destruct (_ <? _); [done|]. rewrite IH. constructor.
Qed.

Lemma insert_waiter_ext (f g : ptr -> Z) w ns : (forall q, f q = g q) -> insert_waiter f w ns = insert_waiter g w ns.
Proof. intros Hfg. induction ns as [|v ns IH]; simpl; [done|]. by rewrite !Hfg, IH. Qed.

(** ** [block_on_semaphore] *)
Section Block.
Context `{E : KEnv}.
Implicit Types (s : kstate) (sm : ptr) (ns : list waiter).

Lemma wp_set_header s sm x h (Φ : unit -> kstate -> Prop) :
  sems s !! sm = Some x -> Φ tt (s <| sems ::= <[sm := x <| list_header_process := Some h |>]> |>) ->
  wp (set_header (Some sm) h) Φ s.
Proof. intros Hx HΦ. by eapply (wp_wr sems). Qed.

(** The state after the waiters of [sm] changed to [ns'], in which only the
    nodes in [touched] may differ. *)
Record relisted s sm (x : semaphore_t) (touched : list ptr) ns' (s' : kstate) : Prop := {
  rl_frame : s' = s <| blocked_nodes := blocked_nodes s' |> <| sems := sems s' |>;
  rl_sems : exists h, sems s' = <[sm := x <| list_header_process := Some h |>]> (sems s);
  rl_rep : forall x', sems s' !! sm = Some x' -> srep (blocked_nodes s') x' ns';
  rl_nodes : forall n, n ∉ touched -> blocked_nodes s' !! n = blocked_nodes s !! n
}.

(** The two ways the node is linked in. *)
Lemma link_first s sm x h node p m q post :
  sems s !! sm = Some x -> list_header_process x = Some h -> NoDup (node :: ((m, q) :: post).*1) ->
  blocked_nodes s !! node = Some (mk_blocked p None) -> head_blocked h = Some m ->
  lseg (blocked_nodes s) (Some m) ((m, q) :: post) None -> tail_blocked h = fst <$> last ((m, q) :: post) ->
  wp (_ ← wr blocked_nodes (Some node) (fun c => c <| next_block_struct := head_blocked h |>);
      set_header (Some sm) (h <| head_blocked := Some node |>))
    (fun _ s' => wp (mret true) (fun b s' => if (b : bool)
      then relisted s sm x (node :: ((m, q) :: post).*1) ((node, p) :: (m, q) :: post) s'
      else s' = s /\ (node, p) :: (m, q) :: post = (m, q) :: post ++ [(node, p)]) s') s.
Proof.
  intros Hx Hh Hnd Hnode Hhd Hl Ht. apply wp_bind. eapply (wp_wr blocked_nodes); [done|].
  eapply wp_set_header; [done|]. apply wp_ret. split; [done|by eexists| |].
  - simpl. rewrite lookup_insert_eq. intros x' [= <-]. split; [done|]. simpl. split; [|done].
    split; [done|]. exists (Some m). rewrite lookup_insert_eq, <- Hhd. split; [done|].
    rewrite Hhd. eapply (lseg_frame (blocked_nodes s) _ (Some m) ((m, q) :: post)); [|exact Hl]. intros n Hn. rewrite lookup_insert_ne; [done|].
    intros <-. by apply NoDup_cons in Hnd as [Hnd _].
  - simpl. intros n Hn. rewrite lookup_insert_ne; [done|]. intros <-. apply Hn. by left.
Qed.

Lemma link_between s sm x h node p m q pre a b post :
  sems s !! sm = Some x -> list_header_process x = Some h -> NoDup (node :: ((pre ++ [(a, b)]) ++ (m, q) :: post).*1) ->
  blocked_nodes s !! node = Some (mk_blocked p None) ->
  lseg (blocked_nodes s) (head_blocked h) (pre ++ [(a, b)]) (Some m) ->
  lseg (blocked_nodes s) (Some m) ((m, q) :: post) None ->
  tail_blocked h = fst <$> last ((pre ++ [(a, b)]) ++ (m, q) :: post) ->
  wp (_ ← wr blocked_nodes (Some node) (fun c => c <| next_block_struct := Some m |>);
      wr blocked_nodes (Some a) (fun c => c <| next_block_struct := Some node |>))
    (fun _ s' => wp (mret true) (fun r s' => if (r : bool)
      then relisted s sm x (node :: ((pre ++ [(a, b)]) ++ (m, q) :: post).*1)
             ((pre ++ [(a, b)]) ++ (node, p) :: (m, q) :: post) s'
      else s' = s /\ (node, p) :: (m, q) :: post = (m, q) :: post ++ [(node, p)]) s') s.
Proof.
  intros Hx Hh Hnd Hnode Hpre Hpost Ht. destruct (lseg_node _ _ _ _ a b Hpre) as [nx Ha]; [apply elem_snoc_last|].
  assert (Hna : node <> a) by (intros ->; apply NoDup_cons in Hnd as [Hnd _]; apply Hnd;
    rewrite fmap_app, fmap_app; apply elem_of_app; left; apply elem_snoc_last).
  apply wp_bind. eapply (wp_wr blocked_nodes); [done|].
  eapply (wp_wr blocked_nodes); [simpl; rewrite lookup_insert_ne by done; exact Ha|].
  apply wp_ret. split; [by destruct s|exists h; symmetry; apply insert_id; destruct x; simpl in *; by subst| |].
  - simpl. intros x' Hx'. assert (x' = x) as -> by congruence. split.
    { rewrite fmap_app in *. cbn [fmap list_fmap fst]. by rewrite <- (Permutation_middle _ _ node). }
    rewrite Hh. split; [|rewrite Ht, !last_app; by destruct post as [|w post _] using rev_ind; rewrite ?app_comm_cons, ?last_snoc].
    assert (Hnd2 : NoDup (node :: (pre ++ [(a, b)]).*1) /\ NoDup (pre ++ [(a, b)]).*1 /\
      forall n, n ∈ ((m, q) :: post).*1 -> n <> node /\ n <> a).
    { rewrite fmap_app in Hnd. apply NoDup_cons in Hnd as [Hn1 Hnd]. pose proof Hnd as (Hn2 & Hd & _)%NoDup_app.
      split_and!; [apply NoDup_cons; split; [|done]; intros Hin; apply Hn1, elem_of_app; by left|done|].
      intros n Hn. split; intros ->; [apply Hn1, elem_of_app; by right|].
      apply (Hd a); [rewrite fmap_app; apply elem_snoc_last|done]. }
    destruct Hnd2 as (Hnd1 & Hnd2 & Hout). apply lseg_app. exists (Some node). split.
    + eapply lseg_snoc_redirect; [done|]. eapply lseg_frame; [|exact Hpre]. intros n Hn.
      rewrite lookup_insert_ne; [done|]. intros <-. by apply NoDup_cons in Hnd1 as [Hnd1 _].
    + split; [done|]. exists (Some m). rewrite lookup_insert_ne, lookup_insert_eq by done. split; [done|].
      eapply lseg_frame; [|exact Hpost]. intros n Hn. destruct (Hout n Hn). by rewrite !lookup_insert_ne.
  - simpl. intros n Hn. rewrite !lookup_insert_ne; [done|..]; intros <-; apply Hn; [by left|right].
    rewrite fmap_app, fmap_app. apply elem_of_app. left. apply elem_snoc_last.
Qed.

Lemma head_not_second bn h pre a b m q post :
  lseg bn h (pre ++ [(a, b)]) (Some m) -> NoDup ((pre ++ [(a, b)]) ++ (m, q) :: post).*1 -> Some m <> h.
Proof.
  intros Hl Hnd <-. rewrite fmap_app in Hnd. apply NoDup_app in Hnd as (_ & Hd & _).
  apply (Hd m); [|by left]. destruct pre as [|[n p] pre]; simpl in Hl; destruct Hl as [[= <-] _]; by left.
Qed.

Lemma stuff_waiter_spec fuel : forall s sm x h node p pre post iter prev,
  sems s !! sm = Some x -> list_header_process x = Some h ->
  NoDup (node :: (pre ++ post).*1) -> blocked_nodes s !! node = Some (mk_blocked p None) ->
  lseg (blocked_nodes s) (head_blocked h) pre iter -> lseg (blocked_nodes s) iter post None ->
  tail_blocked h = fst <$> last (pre ++ post) ->
  prev = (if bool_decide (pre = []) then head_blocked h else fst <$> last pre) ->
  (forall w, w ∈ post -> is_Some (procs s !! w.2)) -> (length post < fuel)%nat ->
  wp (stuff_waiter fuel (Some sm) (Some node) iter prev (pfield s prio p))
    (fun b s' => if (b : bool) then relisted s sm x (node :: (pre ++ post).*1) (pre ++ insert_waiter (pfield s prio) (node, p) post) s'
                 else s' = s /\ insert_waiter (pfield s prio) (node, p) post = post ++ [(node, p)]) s.
Proof.
  induction fuel as [|fuel IH]; intros s sm x h node p pre post iter prev Hx Hh Hnd Hnode Hpre Hpost Htail Hprev Hps Hf; [lia|].
  cbn [stuff_waiter]. destruct post as [|[m q] post]; [simpl in Hpost; subst iter; by apply wp_ret|].
  pose proof Hpost as (-> & nx & Hm & Hrest).
  destruct (Hps (m, q)) as [y Hy]; [by left|]. simpl in Hy.
  apply wp_bind. eapply (wp_rd blocked_nodes); [done|]. apply wp_bind. eapply wp_pget; [exact Hy|].
  cbn [insert_waiter snd]. rewrite (pfield_eq s prio q y Hy). destruct (prio y <? pfield s prio p) eqn:Elt.
  2:{ eapply wp_mono.
      - eapply (IH s sm x h node p (pre ++ [(m, q)]) post nx (Some m)); try done.
        + by rewrite <- app_assoc.
        + apply lseg_app. exists (Some m). split; [done|]. split; [done|]. exists nx. by split.
        + by rewrite <- app_assoc.
        + rewrite bool_decide_false by (by destruct pre). by rewrite last_snoc.
        + intros w Hw. apply Hps. by right.
        + simpl in Hf. lia.
      - intros [] s'; rewrite <- ?app_assoc; [done|]. intros [-> ->]. done. }
  apply wp_bind. eapply (wp_rd sems); [done|]. apply wp_bind. eapply wp_lift; [by rewrite Hh|]. apply wp_bind.
  destruct (list_snoc_inv pre) as [->|(pre' & [a b] & ->)].
  - simpl in Hpre. rewrite bool_decide_true by done. exact (link_first s sm x h node p m q post Hx Hh Hnd Hnode Hpre Hpost Htail).
  - rewrite bool_decide_false; [|eapply head_not_second; [exact Hpre|by apply NoDup_cons in Hnd as [_ Hnd]]].
    rewrite last_snoc, bool_decide_false in Hprev by (by destruct pre'). subst prev.
    exact (link_between s sm x h node p m q pre' a b post Hx Hh Hnd Hnode Hpre Hpost Htail).
Qed.

Lemma lseg_length bn h ns e : NoDup ns.*1 -> lseg bn h ns e -> (length ns <= base.size bn)%nat.
Proof.
  intros Hnd Hl. rewrite <- size_dom, <- (length_fmap fst ns). rewrite <- (size_list_to_set (C := gset ptr)) by done.
  apply subseteq_size. intros n. rewrite elem_of_list_to_set, elem_of_dom. intros ([m p] & -> & Hin)%list_elem_of_fmap.
  destruct (lseg_node _ _ _ _ _ _ Hl Hin) as [nx Hn]. by eexists.
Qed.

(** The state after [p] joined the waiters of [sm] through [node]. *)
Record joined s sm (x : semaphore_t) ns (p node : ptr) (s' : kstate) : Prop := {
  jn_frame : s' = s <| blocked_nodes := blocked_nodes s' |> <| sems := sems s' |> <| next_block := next_block s' |>;
  jn_sems : exists h, sems s' = <[sm := x <| list_header_process := Some h |>]> (sems s);
  jn_rep : forall x', sems s' !! sm = Some x' -> srep (blocked_nodes s') x' (insert_waiter (pfield s prio) (node, p) ns);
  jn_nodes : forall n, n ∉ node :: ns.*1 -> blocked_nodes s' !! n = blocked_nodes s !! n;
  jn_fresh : blocked_nodes s !! node = None;
  jn_block : (node < next_block s')%positive /\ (next_block s <= next_block s')%positive
}.

(** The part of the call after the header and the node are allocated. *)
Lemma link_waiter_spec s sm x h ns p node y :
  sems s !! sm = Some x -> list_header_process x = Some h -> NoDup (node :: ns.*1) ->
  blocked_nodes s !! node = Some (mk_blocked p None) ->
  lseg (blocked_nodes s) (head_blocked h) ns None -> tail_blocked h = fst <$> last ns ->
  (forall w, w ∈ ns -> is_Some (procs s !! w.2)) -> procs s !! p = Some y ->
  wp (match head_blocked h, tail_blocked h with
      | None, None => set_header (Some sm) (mk_header (Some node) (Some node))
      | _, _ =>
          current_prio ← pget (Some p) prio;
          fuel ← gets (walk_fuel blocked_nodes);
          stuffed ← stuff_waiter fuel (Some sm) (Some node) (head_blocked h) (head_blocked h) current_prio;
          if (stuffed : bool) then mret tt
          else
            _ ← wr blocked_nodes (tail_blocked h) (fun c => c <| next_block_struct := Some node |>);
            set_header (Some sm) (h <| tail_blocked := Some node |>)
      end)
    (fun _ s' => relisted s sm x (node :: ns.*1) (insert_waiter (pfield s prio) (node, p) ns) s') s.
Proof.
  intros Hx Hh Hnd Hnode Hl Ht Hps Hy.
  destruct (list_snoc_inv ns) as [->|(ns' & [a b] & ->)].
  { simpl in Hl, Ht. rewrite Hl, Ht. eapply wp_set_header; [done|]. split; [by destruct s|by eexists| |done].
    simpl. rewrite lookup_insert_eq. intros x' [= <-]. split; [apply NoDup_singleton|]. simpl.
    split; [|done]. split; [done|]. by exists None. }
  assert (Ehd : exists n, head_blocked h = Some n).
  { pose proof (lseg_head _ _ _ Hl) as ->. destruct ns' as [|w ns']; simpl; by eexists. }
  destruct Ehd as [n Ehd]. rewrite Ehd. rewrite last_snoc in Ht. simpl in Ht.
  apply wp_bind. eapply wp_pget; [done|]. apply wp_bind, wp_gets, wp_bind. rewrite <- Ehd, <- (pfield_eq s prio p y) by done.
  eapply wp_mono.
  { eapply (stuff_waiter_spec _ s sm x h node p [] (ns' ++ [(a, b)]) (head_blocked h)); try done.
    - by rewrite app_nil_l, last_snoc.
    - apply NoDup_cons in Hnd as [_ Hnd]. pose proof (lseg_length _ _ _ _ Hnd Hl). unfold walk_fuel. lia. }
  intros [] s'; [by intros; apply wp_ret|]. intros [-> ->].
  destruct (lseg_node _ _ _ _ a b Hl) as [nx Ha]; [apply elem_snoc_last|].
  apply NoDup_cons in Hnd as [Hn1 Hnd].
  assert (Hna : node <> a) by (intros ->; apply Hn1; rewrite fmap_app; apply elem_snoc_last).
  rewrite Ht. apply wp_bind. eapply (wp_wr blocked_nodes); [done|]. eapply wp_set_header; [done|].
  split; [done|by eexists| |].
  - simpl. rewrite lookup_insert_eq. intros x' [= <-]. split.
    { rewrite fmap_app. simpl. rewrite <- Permutation_cons_append. by apply NoDup_cons. }
    simpl. rewrite last_snoc. split; [|done]. apply lseg_app. exists (Some node). split.
    + by eapply lseg_snoc_redirect.
    + split; [done|]. exists None. by rewrite lookup_insert_ne.
  - simpl. intros m Hm. rewrite lookup_insert_ne; [done|]. intros <-. apply Hm. right.
    rewrite fmap_app. apply elem_snoc_last.
Qed.

Lemma block_on_semaphore_spec s sm x ns p y :
  sems s !! sm = Some x -> srep (blocked_nodes s) x ns -> allocated (blocked_nodes s) s ->
  (forall b, (next_block s <= b <= Pos.succ (next_block s))%positive -> malloc_ok b = true) ->
  (forall w, w ∈ ns -> is_Some (procs s !! w.2)) -> procs s !! p = Some y ->
  wp (block_on_semaphore (Some sm) (Some p)) (fun _ s' => exists node, joined s sm x ns p node s') s.
Proof.
  intros Hx [Hnd Hr] Hal Hok Hps Hy. unfold block_on_semaphore.
  apply wp_bind. eapply (wp_rd sems); [done|]. apply wp_bind.
  set (h0 := default (mk_header None None) (list_header_process x)).
  set (x0 := x <| list_header_process := Some h0 |>).
  assert (Hl0 : lseg (blocked_nodes s) (head_blocked h0) ns None /\ tail_blocked h0 = fst <$> last ns).
  { unfold h0. destruct (list_header_process x); [done|]. by subst ns. }
  assert (Hhdr : wp (match list_header_process x with
      | Some _ => mret tt
      | None => ok ← malloc_block; if negb ok then fail NullDeref else set_header (Some sm) (mk_header None None)
      end) (fun _ s' => exists b, (next_block s <= b <= Pos.succ (next_block s))%positive /\
        s' = s <| next_block := b |> <| sems := <[sm := x0]> (sems s) |>) s).
  { unfold x0, h0. destruct (list_header_process x) as [h|] eqn:Eh; simpl.
    - apply wp_ret. exists (next_block s). split; [lia|]. destruct s, x; simpl in *. subst. by rewrite insert_id.
    - apply wp_bind, wp_bind, wp_gets, wp_bind, wp_kupd, wp_ret. rewrite Hok by lia.
      eapply wp_set_header; [done|]. exists (Pos.succ (next_block s)). split; [lia|done]. }
  eapply wp_mono; [exact Hhdr|]. intros [] s1 (b & Hb & ->). apply wp_bind. eapply wp_lift; [done|].
  apply wp_bind. eapply (wp_malloc blocked_nodes); [done|by apply Hok|]. apply wp_bind. eapply wp_lift; [done|].
  apply wp_bind. eapply (wp_rd sems); [by apply lookup_insert_eq|]. apply wp_bind. eapply wp_lift; [done|].
  assert (Hfresh : blocked_nodes s !! b = None).
  { destruct (blocked_nodes s !! b) eqn:Eb; [|done]. specialize (Hal b ltac:(by eexists)). lia. }
  assert (Hnb : b ∉ ns.*1).
  { intros ([n q] & -> & Hin)%list_elem_of_fmap. destruct (lseg_node _ _ _ _ _ _ (proj1 Hl0) Hin). simpl in *. congruence. }
  set (s2 := _ <| blocked_nodes ::= _ |>).
  assert (Hl2 : lseg (blocked_nodes s2) (head_blocked h0) ns None).
  { eapply lseg_frame; [|apply Hl0]. intros n Hn. simpl. rewrite lookup_insert_ne; [done|]. by intros <-. }
  eapply wp_mono.
  { eapply (link_waiter_spec s2 sm x0 h0 ns p b y); [apply lookup_insert_eq|done|by apply NoDup_cons|
      apply lookup_insert_eq|done|apply Hl0|done|done]. }
  intros _ s' [Hfr [h' Hsm] Hrep Hnodes]. exists b. split; [by rewrite Hfr| | | |done|].
  - exists h'. rewrite Hsm. simpl. by rewrite insert_insert_eq.
  - exact Hrep.
  - intros n Hn. rewrite Hnodes by done. simpl. rewrite lookup_insert_ne; [done|]. intros <-. apply Hn. by left.
  - rewrite Hfr. simpl. lia.
Qed.

(** ** [unblock_process_sem] *)

(** The process after it was taken out of the waiters. *)
Definition signalled (y : process) (sig : Z) : process := y <| state := ACTIVATABLE |> <| sem_signal := sig |>.

(** [s'] is [s] after the first waiter [(n, p)] of [sm] was released. *)
Record released s (Q : queues) (A : list ptr) sm (x : semaphore_t) (n p : ptr) (y : process) (sig : Z) ns (s' : kstate) : Prop := {
  re_frame : exists x' l, s' = s <| blocked_nodes ::= delete n |> <| sems ::= <[sm := x']> |>
      <| procs ::= <[p := signalled y sig]> |> <| links := l |> /\
    count x' = count x /\ srep (delete n (blocked_nodes s)) x' ns;
  re_inv : sched_inv s' (<[activatable_process_queue := insert_prio (pfield s prio) p A]> Q)
}.

Lemma unblock_empty s sm x sig :
  sems s !! sm = Some x -> srep (blocked_nodes s) x [] -> unblock_process_sem (Some sm) sig s = Ok (1, s).
Proof.
  intros Hx [_ Hr]. apply wp_run. unfold unblock_process_sem. apply wp_bind. eapply (wp_rd sems); [done|].
  destruct (list_header_process x) as [h|]; [|by apply wp_ret]. destruct Hr as [Hl _]. simpl in Hl. rewrite Hl.
  by apply wp_ret.
Qed.

Lemma awake_blocked_spec s Q A n p nx y sig :
  blocked_nodes s !! n = Some (mk_blocked p nx) -> procs s !! p = Some y ->
  sched_inv s Q -> Q !! activatable_process_queue = Some A -> ~ queued Q p ->
  wp (awake_blocked (Some n) sig true) (fun r s' => r = 0 /\ exists l,
    s' = s <| procs ::= <[p := signalled y sig]> |> <| links := l |> <| blocked_nodes ::= delete n |> /\
    sched_inv s' (<[activatable_process_queue := insert_prio (pfield s prio) p A]> Q)) s.
Proof.
  intros Hn Hy Hinv HA Hnq. pose proof (si_ctx _ _ Hinv _ _ Hy) as Hctx.
  unfold awake_blocked. apply wp_bind. eapply (wp_rd blocked_nodes); [done|].
  apply wp_bind. eapply wp_pset; [done|]. apply wp_bind.
  eapply wp_qadd_inv; [eapply sched_inv_proc; [exact Hinv|exact Hy|done..]|exact HA|apply lookup_insert_eq|done|done|].
  intros l Hinv1. apply wp_bind. eapply wp_pset; [apply lookup_insert_eq|].
  apply wp_bind. eapply (wp_free blocked_nodes); [done|]. apply wp_ret. split; [done|]. exists l.
  split.
  { exact (f_equal (fun s0 => s0 <| links := l |> <| blocked_nodes ::= delete n |>)
      (procs_twice s p (y <| state := ACTIVATABLE |>) (signalled y sig))). }
  rewrite (insert_prio_ext _ (pfield s prio)) in Hinv1.
  - eapply sched_inv_frame; [..|eapply (sched_inv_proc _ _ p _ (signalled y sig) Hinv1); [apply lookup_insert_eq|done..]]; done.
  - intros q _. unfold pfield. simpl. rewrite lookup_insert. case_decide; [|done]. subst q. by rewrite Hy.
Qed.

Lemma srep_pop bn x h n p nx ns :
  list_header_process x = Some h -> srep bn x ((n, p) :: ns) -> bn !! n = Some (mk_blocked p nx) ->
  srep (delete n bn) (x <| list_header_process := Some
    (if bool_decide (head_blocked h = tail_blocked h) then mk_header None None else h <| head_blocked := nx |>) |>) ns.
Proof.
  intros Hh [Hnd Hr] Hn. rewrite Hh in Hr. destruct Hr as [(Hhd & nx' & Hn' & Hl) Ht]. simplify_eq.
  apply NoDup_cons in Hnd as [Hn1 Hnd]. split; [done|]. simpl. rewrite Hhd, Ht.
  destruct (list_snoc_inv ns) as [->|(ns' & [a b] & ->)]; [by rewrite bool_decide_true|].
  rewrite app_comm_cons, !last_snoc. rewrite bool_decide_false.
  - simpl. rewrite Ht, app_comm_cons, last_snoc. split; [|done]. eapply lseg_frame; [|exact Hl].
    intros m Hm. rewrite lookup_delete_ne; [done|]. by intros <-.
  - intros [= Ea]. apply Hn1, list_elem_of_fmap. exists (a, b). split; [done|apply elem_snoc_last].
Qed.

Lemma unblock_process_sem_spec s Q A sm x n p ns y sig :
  sems s !! sm = Some x -> srep (blocked_nodes s) x ((n, p) :: ns) -> procs s !! p = Some y ->
  sched_inv s Q -> Q !! activatable_process_queue = Some A -> ~ queued Q p ->
  wp (unblock_process_sem (Some sm) sig) (fun r s' => r = 0 /\ released s Q A sm x n p y sig ns s') s.
Proof.
  intros Hx Hrep Hy Hinv HA Hnq. unfold unblock_process_sem. apply wp_bind. eapply (wp_rd sems); [done|].
  destruct (list_header_process x) as [h|] eqn:Eh; [|by destruct Hrep as [_ Hr]; rewrite Eh in Hr].
  pose proof Hrep as [_ Hr]. rewrite Eh in Hr. destruct Hr as [(Ehd & nx & Hn & _) _]. rewrite Ehd at 1.
  pose proof (srep_pop _ _ _ _ _ _ _ Eh Hrep Hn) as Hpop. set (x1 := x <| list_header_process := _ |>) in Hpop.
  assert (Hset : forall Φ : unit -> kstate -> Prop, Φ tt (s <| sems ::= <[sm := x1]> |>) ->
    wp (if bool_decide (head_blocked h = tail_blocked h) then set_header (Some sm) (mk_header None None)
        else b ← rd blocked_nodes (head_blocked h); set_header (Some sm) (h <| head_blocked := next_block_struct b |>)) Φ s).
  { intros Φ HΦ. unfold x1 in HΦ. case_bool_decide; [by eapply wp_set_header|]. rewrite Ehd. apply wp_bind.
    eapply (wp_rd blocked_nodes); [done|]. by eapply wp_set_header. }
  apply wp_bind, Hset. rewrite Ehd. eapply wp_mono.
  { eapply (awake_blocked_spec (s <| sems ::= <[sm := x1]> |>) Q A n p nx y sig); [done|done|by destruct Hinv|done..]. }
  intros r s' (-> & l & -> & Hinv'). split; [done|]. split; [|done]. by exists x1, l.
Qed.

End Block.

(** ** The invariant of the semaphores

    [W] gives the waiters of each semaphore structure. *)
Record sem_shape (s : kstate) (Q : queues) (W : gmap ptr (list waiter)) : Prop := {
  sh_rep : forall sm ns, W !! sm = Some ns -> exists x, sems s !! sm = Some x /\ srep (blocked_nodes s) x ns;
  sh_table : forall id sm, semaphore_table s !! id = Some sm -> is_Some (W !! sm);
  sh_inj : forall i j sm, semaphore_table s !! i = Some sm -> semaphore_table s !! j = Some sm -> i = j;
  sh_disj : forall sm1 sm2 ns1 ns2 w1 w2, W !! sm1 = Some ns1 -> W !! sm2 = Some ns2 -> w1 ∈ ns1 -> w2 ∈ ns2 ->
    w1.1 = w2.1 \/ w1.2 = w2.2 -> sm1 = sm2 /\ w1 = w2;
  sh_wait : forall sm ns w, W !! sm = Some ns -> w ∈ ns ->
    exists y, procs s !! w.2 = Some y /\ state y = BLOCKEDSEMAPHORE /\ ~ queued Q w.2;
  sh_nodes : allocated (blocked_nodes s) s;
  sh_sems : allocated (sems s) s
}.

(** A negative count is the number of waiters. *)
Definition counts_ok (s : kstate) (W : gmap ptr (list waiter)) : Prop :=
  forall sm ns x, W !! sm = Some ns -> sems s !! sm = Some x ->
    Z.of_nat (length ns) = Z.max 0 (- count x) /\ MIN_COUNT <= count x <= MAX_COUNT.

Section Invariant.
Context `{E : KEnv}.
Implicit Types (s : kstate) (Q : queues) (W : gmap ptr (list waiter)) (sm : ptr) (ns : list waiter).

Lemma allocated_insert {A} (h : gmap ptr A) s p a : allocated h s -> is_Some (h !! p) -> allocated (<[p := a]> h) s.
Proof. intros Ha Hp q. rewrite lookup_insert. case_decide; [subst; intros _; by apply Ha|by apply Ha]. Qed.

Lemma sem_shape_count s Q W sm x c :
  sem_shape s Q W -> sems s !! sm = Some x -> sem_shape (s <| sems ::= <[sm := x <| count := c |>]> |>) Q W.
Proof.
  intros [Hr Ht Hi Hd Hw Hn Hs] Hx. split; try done.
  - intros sm' ns Hns. destruct (Hr _ _ Hns) as (x' & Hx' & Hrep). simpl. rewrite lookup_insert.
    case_decide; [|by exists x']. subst. simplify_eq. by eexists.
  - apply allocated_insert; [done|by eexists].
Qed.

(** The rest of the kernel may change around the semaphores. *)
Lemma sem_shape_grow s s' Q Q' W :
  sems s' = sems s -> blocked_nodes s' = blocked_nodes s -> semaphore_table s' = semaphore_table s ->
  (next_block s <= next_block s')%positive ->
  (forall sm ns w y, W !! sm = Some ns -> w ∈ ns -> procs s !! w.2 = Some y -> state y = BLOCKEDSEMAPHORE ->
    ~ queued Q w.2 -> exists y', procs s' !! w.2 = Some y' /\ state y' = BLOCKEDSEMAPHORE /\ ~ queued Q' w.2) ->
  sem_shape s Q W -> sem_shape s' Q' W.
Proof.
  intros Es Eb Et En Hp [Hr Ht Hi Hd Hw Hn Hs]. split; rewrite ?Es, ?Eb, ?Et; try done.
  - intros sm ns w HW Hin. destruct (Hw _ _ _ HW Hin) as (y & Hy & Hst & Hq). eauto.
  - intros q Hq. specialize (Hn q Hq). lia.
  - intros q Hq. specialize (Hs q Hq). lia.
Qed.

Lemma sem_shape_frame s s' Q Q' W :
  sems s' = sems s -> blocked_nodes s' = blocked_nodes s -> semaphore_table s' = semaphore_table s ->
  next_block s' = next_block s ->
  (forall sm ns w y, W !! sm = Some ns -> w ∈ ns -> procs s !! w.2 = Some y -> state y = BLOCKEDSEMAPHORE ->
    ~ queued Q w.2 -> exists y', procs s' !! w.2 = Some y' /\ state y' = BLOCKEDSEMAPHORE /\ ~ queued Q' w.2) ->
  sem_shape s Q W -> sem_shape s' Q' W.
Proof. intros Es Eb Et En. apply sem_shape_grow; [done..|]. rewrite En. lia. Qed.

Lemma waiter_node_in ns n p : (n, p) ∈ ns -> n ∈ ns.*1.
Proof. intros Hin. apply list_elem_of_fmap. by exists (n, p). Qed.

Lemma sem_shape_pop s Q A W sm x n p y sig ns s' :
  sem_shape s Q W -> W !! sm = Some ((n, p) :: ns) -> Q !! activatable_process_queue = Some A ->
  sems s !! sm = Some x -> released s Q A sm x n p y sig ns s' ->
  sem_shape s' (<[activatable_process_queue := insert_prio (pfield s prio) p A]> Q) (<[sm := ns]> W).
Proof.
  intros [Hr Ht Hi Hd Hw Hn Hs] HW HA Hx [(x' & l & -> & Hc & Hrep) _].
  assert (Hsub : forall sm' ns', <[sm := ns]> W !! sm' = Some ns' -> exists ns0, W !! sm' = Some ns0 /\
    forall w, w ∈ ns' -> w ∈ ns0).
  { intros sm' ns'. rewrite lookup_insert. case_decide; [|by eauto]. intros [= <-]. subst. eexists. split; [done|].
    intros w Hin. by right. }
  assert (Hnot : forall sm' ns' w, <[sm := ns]> W !! sm' = Some ns' -> w ∈ ns' -> w.1 <> n /\ w.2 <> p).
  { intros sm' ns' w HW' Hin. destruct (Hsub _ _ HW') as (ns0 & HW0 & Hs0).
    assert (Hcase : w.1 = n \/ w.2 = p -> sm' = sm /\ w = (n, p)).
    { intros Hc'. eapply (Hd _ _ _ _ w (n, p) HW0 HW); [by apply Hs0|by left|done]. }
    assert (Hno : sm' = sm -> w = (n, p) -> False).
    { intros -> ->. rewrite lookup_insert_eq in HW'. simplify_eq.
      destruct (Hr _ _ HW) as (z & _ & [Hnd _]). apply NoDup_cons in Hnd as [Hnd _].
      by apply Hnd, (waiter_node_in _ n p). }
    split; intros Ew; destruct Hcase; auto. }
  split; simpl.
  - intros sm' ns' HW'. rewrite lookup_insert in HW'. case_decide as Esm.
    + simplify_eq. exists x'. by rewrite lookup_insert_eq.
    + rewrite lookup_insert_ne by done. destruct (Hr _ _ HW') as (z & Hz & Hrz). exists z. split; [done|].
      eapply srep_frame; [|exact Hrz]. intros m ([m' q] & -> & Hin)%list_elem_of_fmap.
      rewrite lookup_delete_ne; [done|]. intros En.
      destruct (Hd _ _ _ _ _ (n, p) HW' HW Hin ltac:(by left) ltac:(left; done)). done.
  - intros id sm' Hid. destruct (Ht _ _ Hid). rewrite lookup_insert. case_decide; eauto.
  - done.
  - intros sm1 sm2 ns1 ns2 w1 w2 HW1 HW2 Hin1 Hin2. destruct (Hsub _ _ HW1) as (? & ? & ?), (Hsub _ _ HW2) as (? & ? & ?).
    eauto.
  - intros sm' ns' w HW' Hin. destruct (Hnot _ _ _ HW' Hin) as [_ Hne].
    destruct (Hsub _ _ HW') as (ns0 & HW0 & Hs0). destruct (Hw _ _ w HW0) as (z & Hz & Hst & Hq); [by apply Hs0|].
    exists z. rewrite lookup_insert_ne by done. split_and!; [done..|].
    intros Hq'. apply (queued_insert _ _ _ _ _ HA) in Hq' as [?|Hq']; [done|].
    apply elem_of_insert_prio in Hq' as [?|Hq']; [done|]. apply Hq. by eapply (queued_in Q activatable_process_queue).
  - intros m [b Hb]. apply Hn. rewrite lookup_delete_Some in Hb. destruct Hb. by eexists.
  - apply (allocated_insert (sems s) s); [done|by eexists].
Qed.

Lemma sem_shape_join s Q W sm x ns p node y s' :
  sem_shape s Q W -> W !! sm = Some ns -> sems s !! sm = Some x -> joined s sm x ns p node s' ->
  (forall sm' ns' w, W !! sm' = Some ns' -> w ∈ ns' -> w.2 <> p) -> ~ queued Q p -> state y = BLOCKEDSEMAPHORE ->
  sem_shape (s' <| procs ::= <[p := y]> |>) Q (<[sm := insert_waiter (pfield s prio) (node, p) ns]> W).
Proof.
  intros [Hr Ht Hi Hd Hw Hn Hs] HW Hx [Hfr [h Hsm] Hrep Hnodes Hfresh [Hb1 Hb2]] Hp Hnq Hst.
  set (ns1 := insert_waiter _ (node, p) ns) in *.
  assert (Hold : forall sm' ns' w, W !! sm' = Some ns' -> w ∈ ns' -> w.1 <> node).
  { intros sm' ns' [m q] HW' Hin Em. simpl in Em. subst m. destruct (Hr _ _ HW') as (z & _ & [_ Hz]).
    destruct (list_header_process z) as [hz|]; [|subst; by apply elem_of_nil in Hin].
    destruct (lseg_node _ _ _ _ _ _ (proj1 Hz) Hin). simpl in *. congruence. }
  assert (Hcase : forall sm' ns' w, <[sm := ns1]> W !! sm' = Some ns' -> w ∈ ns' ->
    sm' = sm /\ w = (node, p) \/ exists ns0, W !! sm' = Some ns0 /\ w ∈ ns0).
  { intros sm' ns' w. rewrite lookup_insert. case_decide; [|by eauto]. intros [= <-] Hin. subst.
    unfold ns1 in Hin. rewrite insert_waiter_perm, elem_of_cons in Hin. naive_solver. }
  split; simpl.
  - intros sm' ns' HW'. rewrite lookup_insert in HW'. case_decide as Esm.
    + simplify_eq. eexists. split; [rewrite Hsm; apply lookup_insert_eq|]. apply Hrep. rewrite Hsm. apply lookup_insert_eq.
    + destruct (Hr _ _ HW') as (z & Hz & Hrz). exists z. split; [by rewrite Hsm, lookup_insert_ne|].
      eapply srep_frame; [|exact Hrz]. intros m ([m' q] & -> & Hin)%list_elem_of_fmap. apply Hnodes.
      rewrite elem_of_cons. intros [Em|([m2 q2] & Em & Hin2)%list_elem_of_fmap]; [by eapply Hold|].
      destruct (Hd _ _ _ _ _ _ HW' HW Hin Hin2 ltac:(left; done)). done.
  - intros id sm' Hid. rewrite Hfr in Hid. destruct (Ht _ _ Hid). rewrite lookup_insert. case_decide; eauto.
  - rewrite Hfr. exact Hi.
  - intros sm1 sm2 ns2 ns3 w1 w2 HW1 HW2 Hin1 Hin2 Heq.
    destruct (Hcase _ _ _ HW1 Hin1) as [[-> ->]|(n1 & HW1' & Hin1')], (Hcase _ _ _ HW2 Hin2) as [[-> ->]|(n2 & HW2' & Hin2')].
    + done.
    + exfalso. destruct Heq as [Heq|Heq]; [by eapply Hold|by eapply Hp].
    + exfalso. destruct Heq as [Heq|Heq]; [by eapply Hold|by eapply Hp].
    + by eapply (Hd _ _ _ _ _ _ HW1' HW2').
  - intros sm' ns' w HW' Hin. destruct (Hcase _ _ _ HW' Hin) as [[-> ->]|(n1 & HW1 & Hin1)].
    + exists y. by rewrite lookup_insert_eq.
    + destruct (Hw _ _ _ HW1 Hin1) as (z & Hz & Hsz & Hq). exists z.
      rewrite lookup_insert_ne by (intros E1; by eapply Hp). rewrite Hfr. done.
  - intros m Hm. simpl in *. destruct (decide (m = node)) as [->|]; [done|].
    enough (m < next_block s)%positive by lia. apply Hn.
    destruct (decide (m ∈ ns.*1)) as [Hin|Hin]; [|rewrite Hnodes in Hm by (rewrite elem_of_cons; tauto); done].
    apply list_elem_of_fmap in Hin as ([m' q] & -> & Hin). destruct (Hr _ _ HW) as (z & _ & [_ Hz]).
    destruct (list_header_process z) as [hz|]; [|subst; by apply elem_of_nil in Hin].
    destruct (lseg_node _ _ _ _ _ _ (proj1 Hz) Hin). by eexists.
  - intros m Hm. simpl in *. rewrite Hsm, lookup_insert in Hm. enough (m < next_block s)%positive by lia.
    apply Hs. case_decide; [subst; by eexists|done].
Qed.

(** The scheduler leaves the semaphores alone. *)
Lemma scheduler_sems k s Q c x A L W :
  sched_pre s Q c x A L -> sem_shape s Q W ->
  exists k' s' Q' r z, scheduler k s = Ok (k', s') /\ sched_inv s' Q' /\ running s' Q' r z /\ sem_shape s' Q' W /\
    sems s' = sems s /\ blocked_nodes s' = blocked_nodes s /\ semaphore_table s' = semaphore_table s.
Proof.
  intros Hpre Hsh. destruct (wake_ready (pfield s wake_time) (pfield s prio) (counter s) (reverse L) A)
    as [rs A1] eqn:Ew.
  pose proof (scheduler_spec k _ _ _ _ _ _ _ _ Hpre Ew) as Hwp.
  apply wp_elim in Hwp as (k' & s' & Erun & l & Hinv1 & Hrun1 & Hch). exists k', s'.
  pose proof Hpre as [_ _ _ HA HL _ _ _ _].
  assert (Hq1 : forall p, queued (woken Q rs A1) p -> queued Q p).
  { intros p. eapply woken_not_queued; [done..|]. by eapply wake_ready_perm. }
  set (s1 := s <| sstatus_spp := false |> <| links := l |>) in *.
  assert (Hsh1 : sem_shape s1 (woken Q rs A1) W).
  { eapply (sem_shape_frame s); [done..| |done]. intros sm ns w y _ _ Hy Hst Hq. exists y. split_and!; auto. }
  destruct (chosen s x A1) as [t|] eqn:Ech; [|destruct Hch as [-> ->]; by eexists _, _, _].
  destruct Hch as (y & B & -> & Hy & -> & Hsw). pose proof (ru_proc _ _ _ _ Hrun1) as Hx.
  assert (HA1 : woken Q rs (B ++ [t]) !! activatable_process_queue = Some (B ++ [t])) by apply lookup_insert_eq.
  pose proof (switched_running _ _ _ _ _ _ _ _ _ Hsw Hrun1 HA1 Hy Hinv1) as Hrun2.
  destruct Hsw as [Hps Hfr Hinv2]. eexists _, t, _. split; [done|]. split; [exact Hinv2|]. split; [exact Hrun2|].
  split; [|rewrite Hfr; done]. eapply (sem_shape_frame s1); [by rewrite Hfr..| |done].
  intros sm ns w z HW Hin Hz Hst Hq. assert (w.2 <> t).
  { intros Et. apply Hq. rewrite Et. eapply queued_in; [exact HA1|apply elem_snoc_last]. }
  rewrite Hps, lookup_insert_ne, lookup_insert by done.
  assert (Hqr : w.2 <> c \/ state x <> ACTIF -> ~ queued (<[activatable_process_queue := ready_after s1 c x B]> (woken Q rs (B ++ [t]))) w.2).
  { intros Hor Hq2. eapply queued_insert in Hq2 as [Hq2|Hq2]; [done| |exact HA1]. apply Hq.
    eapply queued_in; [exact HA1|]. apply elem_snoc_init. unfold ready_after in Hq2.
    case_bool_decide; [|done]. apply elem_of_insert_prio in Hq2 as [Hq2|]; [|done]. naive_solver. }
  case_decide as Ec; [|exists z; split_and!; [done..|apply Hqr; left; congruence]]. assert (z = x) as -> by (change (procs s1) with (procs s) in *; congruence).
  exists (left x k). split; [done|]. rewrite Hst in Hqr.
  split; [unfold left; by rewrite Hst|]. apply Hqr. by right.
Qed.

(** ** Releasing waiters

    From [s], the waiters [ps] of [sm] were released, in this order, with the
    signal [sig]; [ns] is left and the count is [c]. *)
Record pops s Q (A : list ptr) W sm (sig : Z) (ps : list ptr) ns (c : Z) (s' : kstate) (Q' : queues) (A' : list ptr) : Prop := {
  po_frame : s' = s <| sems := sems s' |> <| blocked_nodes := blocked_nodes s' |> <| procs := procs s' |> <| links := links s' |>;
  po_sems : forall sm', sm' <> sm -> sems s' !! sm' = sems s !! sm';
  po_count : exists x, sems s' !! sm = Some x /\ count x = c;
  po_procs : forall q, procs s' !! q = if decide (q ∈ ps) then (fun y => signalled y sig) <$> procs s !! q else procs s !! q;
  po_ready : A' = foldl (fun A p => insert_prio (pfield s prio) p A) A ps;
  po_queues : Q' = <[activatable_process_queue := A']> Q;
  po_inv : sched_inv s' Q';
  po_shape : sem_shape s' Q' (<[sm := ns]> W)
}.

Lemma pops_nil s Q A W sm sig x ns :
  sched_inv s Q -> Q !! activatable_process_queue = Some A -> sem_shape s Q W -> W !! sm = Some ns ->
  sems s !! sm = Some x -> pops s Q A W sm sig [] ns (count x) s Q A.
Proof.
  intros Hinv HA Hsh HW Hx. split; try done; [by destruct s|by exists x|by rewrite insert_id|by rewrite insert_id].
Qed.

(** Writing the count. *)
Lemma pops_wr s Q A W sm sig ps ns c s' Q' A' c' (Φ : unit -> kstate -> Prop) :
  pops s Q A W sm sig ps ns c s' Q' A' ->
  (forall s'', pops s Q A W sm sig ps ns c' s'' Q' A' -> Φ tt s'') ->
  wp (wr sems (Some sm) (fun z => z <| count := c' |>)) Φ s'.
Proof.
  intros [Hfr Hsm (x & Hx & _) Hps HA HQ Hinv Hsh] HΦ. eapply (wp_wr sems); [done|]. apply HΦ. split.
  - by rewrite Hfr.
  - intros sm' Hne. simpl. by rewrite lookup_insert_ne by done; apply Hsm.
  - simpl. rewrite lookup_insert_eq. by eexists.
  - exact Hps.
  - exact HA.
  - exact HQ.
  - eapply sched_inv_frame; [..|exact Hinv]; done.
  - by apply sem_shape_count.
Qed.

Lemma pops_prio s Q A W sm sig ps ns c s' Q' A' q :
  pops s Q A W sm sig ps ns c s' Q' A' -> pfield s' prio q = pfield s prio q.
Proof.
  intros Hpo. unfold pfield. rewrite (po_procs _ _ _ _ _ _ _ _ _ _ _ _ Hpo). case_decide; [|done].
  by destruct (procs s !! q).
Qed.

Lemma foldl_snoc {A B} (f : A -> B -> A) a xs x : foldl f a (xs ++ [x]) = f (foldl f a xs) x.
Proof. by rewrite foldl_app. Qed.

(** One more release. *)
Lemma pops_pop s Q A W sm sig ps n p ns c s' Q' A' :
  pops s Q A W sm sig ps ((n, p) :: ns) c s' Q' A' ->
  wp (unblock_process_sem (Some sm) sig) (fun r s'' => r = 0 /\
    exists Q'' A'', pops s Q A W sm sig (ps ++ [p]) ns c s'' Q'' A'') s'.
Proof.
  intros Hpo. pose proof Hpo as [Hfr Hsm (x & Hx & Hc) Hps HA HQ Hinv Hsh].
  assert (HW : <[sm := (n, p) :: ns]> W !! sm = Some ((n, p) :: ns)) by apply lookup_insert_eq.
  destruct (sh_rep _ _ _ Hsh _ _ HW) as (x' & Hx' & Hrep). assert (x' = x) as -> by congruence.
  destruct (sh_wait _ _ _ Hsh _ _ (n, p) HW) as (y & Hy & Hst & Hq); [by left|]. simpl in *.
  assert (HA' : Q' !! activatable_process_queue = Some A') by (rewrite HQ; apply lookup_insert_eq).
  assert (Hin : p ∉ ps).
  { intros Hin. rewrite Hps, decide_True in Hy by done. apply fmap_Some in Hy as (z & _ & ->). done. }
  assert (Ey : procs s !! p = Some y) by (rewrite Hps, decide_False in Hy; done).
  eapply wp_mono; [by eapply unblock_process_sem_spec|]. intros r s'' [-> Hre]. split; [done|].
  pose proof (sem_shape_pop _ _ _ _ _ _ _ _ _ _ _ _ Hsh HW HA' Hx Hre) as Hsh2. rewrite insert_insert_eq in Hsh2.
  destruct Hre as [(x1 & l & Es & Hc1 & Hr1) Hinv2]. eexists _, _.
  split; [rewrite Es, Hfr; done| | | |reflexivity| |exact Hinv2|exact Hsh2].
  - intros sm' Hne. rewrite Es. simpl. by rewrite lookup_insert_ne by done; apply Hsm.
  - exists x1. rewrite Es. simpl. rewrite lookup_insert_eq. split; [done|congruence].
  - intros q. rewrite Es. simpl. rewrite lookup_insert. case_decide as Eq.
    + subst q. rewrite decide_True by apply elem_snoc_last. by rewrite Ey.
    + rewrite Hps. assert (q ∈ ps ++ [p] <-> q ∈ ps) as Hiff by (rewrite elem_of_app, list_elem_of_singleton; naive_solver).
      repeat case_decide; tauto.
  - rewrite HQ, insert_insert_eq. f_equal. rewrite foldl_snoc, <- HA. apply insert_prio_ext. intros q _.
    by eapply pops_prio.
Qed.

(** The loop of [sdelete] and [sreset] releases all the waiters. *)
Lemma unblock_all_spec fuel : forall s Q A W sm sig ps ns c s' Q' A',
  pops s Q A W sm sig ps ns c s' Q' A' -> (length ns < fuel)%nat ->
  wp (unblock_all fuel (Some sm) sig) (fun _ s'' => exists Q'' A'', pops s Q A W sm sig (ps ++ ns.*2) [] c s'' Q'' A'') s'.
Proof.
  induction fuel as [|fuel IH]; intros s Q A W sm sig ps ns c s' Q' A' Hpo Hf; [lia|]. cbn [unblock_all].
  apply wp_bind. destruct ns as [|[n p] ns].
  - pose proof Hpo as [_ _ (x & Hx & _) _ _ _ _ Hsh]. destruct (sh_rep _ _ _ Hsh sm []) as (x' & Hx' & Hrep).
    { apply lookup_insert_eq. }
    eapply wp_intro; [by eapply unblock_empty|]. simpl. apply wp_ret. rewrite app_nil_r. eauto.
  - eapply wp_mono; [by eapply pops_pop|]. intros r s2 (-> & Q2 & A2 & Hpo2). simpl. simpl in Hf.
    eapply wp_mono; [eapply IH; [exact Hpo2|lia]|]. intros _ s3 (Q3 & A3 & Hpo3). rewrite <- app_assoc in Hpo3. eauto.
Qed.

(** The caller of the scheduler is still the running process. *)
Lemma pops_pre s Q A W sm sig ps ns c s' Q' A' cur x L :
  pops s Q A W sm sig ps ns c s' Q' A' -> sched_pre s Q cur x A L -> cur ∉ ps ->
  sched_pre s' Q' cur x A' L.
Proof.
  intros [Hfr Hsm _ Hps HA HQ Hinv Hsh] [_ [Hcur Hx Hfree Hready] Hk HAq HL Hdue Hdead Hmain Hst] Hcp.
  assert (Hin : forall q, q ∈ A' -> q ∈ A \/ q ∈ ps).
  { intros q. rewrite HA, fold_insert_perm, elem_of_app. tauto. }
  split; try done; [|by rewrite HQ, lookup_insert_eq|by rewrite HQ, lookup_insert_ne| | | |].
  - split; [by rewrite Hfr|by rewrite Hps, decide_False| |].
    + intros Ha Hq. rewrite HQ in Hq. apply (queued_insert _ _ _ _ _ HAq) in Hq as [Hq|Hq]; [by apply Hfree|].
      apply Hin in Hq as [Hq|Hq]; [by eapply Hready|done].
    + intros A0. rewrite HQ, lookup_insert_eq. intros [= <-] [Hq|Hq]%Hin; [by eapply Hready|done].
  - by rewrite Hfr.
  - by rewrite HQ, lookup_insert_ne.
  - by rewrite Hfr.
  - by rewrite Hfr.
Qed.

(** ** [signal] and [signaln] *)

Lemma signal_pops s Q A W sm ps ns c s' Q' A' id :
  pops s Q A W sm SIGNAL_CALL ps ns c s' Q' A' -> semaphore_table s !! id = Some sm ->
  Z.of_nat (length ns) = Z.max 0 (- c) -> MIN_COUNT <= c < MAX_COUNT ->
  exists s'' Q'' A'', pops s Q A W sm SIGNAL_CALL (ps ++ take 1 ns.*2) (tail ns) (c + 1) s'' Q'' A'' /\
    signal id s' = (if parent_block s then mret (KRet 0 []) else scheduler (KRet 0 [])) s''.
Proof.
  unfold MIN_COUNT, MAX_COUNT. intros Hpo Hid Hlen Hc. pose proof Hpo as [Hfr _ (x & Hx & Ec) _ _ _ _ Hsh].
  assert (Hwp : wp (_ ← wr sems (Some sm) (fun z => z <| count := c + 1 |>);
      if c + 1 <=? 0 then _ ← unblock_process_sem (Some sm) SIGNAL_CALL; mret tt else mret tt)
    (fun _ s'' => exists Q'' A'', pops s Q A W sm SIGNAL_CALL (ps ++ take 1 ns.*2) (tail ns) (c + 1) s'' Q'' A'') s').
  { apply wp_bind. eapply pops_wr; [exact Hpo|]. intros s2 Hpo2. destruct ns as [|[n p] ns].
    - simpl in Hlen. destruct (Z.leb_spec (c + 1) 0); [lia|]. apply wp_ret. rewrite app_nil_r. eauto.
    - simpl in Hlen. destruct (Z.leb_spec (c + 1) 0); [|lia]. apply wp_bind.
      eapply wp_mono; [by eapply pops_pop|]. intros r s3 (-> & Q3 & A3 & Hpo3). apply wp_ret. eauto. }
  apply wp_elim in Hwp as ([] & s'' & Erun & Q'' & A'' & Hpo''). exists s'', Q'', A''. split; [done|].
  assert (Hid' : semaphore_table s' !! id = Some sm) by (by rewrite Hfr).
  unfold signal, get_semaphore_struct. run_step (apply wp_bind, wp_gets, wp_ret; split; reflexivity). rewrite Hid'.
  run_step (eapply (wp_rd sems); [exact Hx|split; reflexivity]).
  destruct (Z.eqb_spec (count x) MAX_COUNT) as [Em|_]; [unfold MAX_COUNT in Em; lia|]. cbn zeta.
  rewrite wrapS_id by lia. rewrite Ec.
  unfold mbind, M_bind in Erun |- *. destruct (wr sems _ _ s') as [[[] s2]|]; [|done].
  rewrite Erun. unfold gets. pose proof (po_frame _ _ _ _ _ _ _ _ _ _ _ _ Hpo'') as Hfr'. rewrite Hfr'. simpl. by destruct (parent_block s).
Qed.

Lemma signaln_loop_pops k : forall s Q A W sm ps ns c s' Q' A' id,
  pops s Q A W sm SIGNAL_CALL ps ns c s' Q' A' -> semaphore_table s !! id = Some sm -> parent_block s = true ->
  Z.of_nat (length ns) = Z.max 0 (- c) -> MIN_COUNT <= c -> c + Z.of_nat k <= MAX_COUNT ->
  wp (signaln_loop k id) (fun v s'' => v = 0 /\ exists Q'' A'',
    pops s Q A W sm SIGNAL_CALL (ps ++ take k ns.*2) (drop k ns) (c + Z.of_nat k) s'' Q'' A'') s'.
Proof.
  induction k as [|k IH]; intros s Q A W sm ps ns c s' Q' A' id Hpo Hid Hpb Hlen Hc1 Hc2; cbn [signaln_loop].
  - apply wp_ret. split; [done|]. rewrite take_0, drop_0, app_nil_r, Z.add_0_r. eauto.
  - destruct (signal_pops _ _ _ _ _ _ _ _ _ _ _ _ Hpo Hid Hlen) as (s2 & Q2 & A2 & Hpo2 & E2); [lia|].
    rewrite Hpb in E2. apply wp_bind. eapply wp_intro; [exact E2|]. cbn [negb Z.eqb].
    eapply wp_mono; [eapply IH; [exact Hpo2|done|done| |lia|lia]|].
    + destruct ns; simpl in *; lia.
    + intros v s3 (-> & Q3 & A3 & Hpo3). split; [done|]. rewrite <- app_assoc in Hpo3.
      replace (take 1 ns.*2 ++ take k (tail ns).*2) with (take (S k) ns.*2) in Hpo3
        by (destruct ns as [|[n p] ns]; simpl; [by rewrite take_nil|done]).
      replace (drop k (tail ns)) with (drop (S k) ns) in Hpo3 by (destruct ns; simpl; by rewrite ?drop_nil).
      replace (c + 1 + Z.of_nat k) with (c + Z.of_nat (S k)) in Hpo3 by lia. eauto.
Qed.

(** ** [wait] *)

Lemma waiter_not_running s Q W sm ns w c x :
  sem_shape s Q W -> W !! sm = Some ns -> w ∈ ns -> procs s !! c = Some x -> state x = ACTIF -> w.2 <> c.
Proof.
  intros Hsh HW Hin Hx Ha Ew. destruct (sh_wait _ _ _ Hsh _ _ _ HW Hin) as (y & Hy & Hst & _). rewrite Ew in Hy. congruence.
Qed.

(** The caller after it joined the waiters of the semaphore [id]. *)
Definition blocked_on (x : process) (id : Z) : process :=
  x <| sem_signal := 0 |> <| semaphore_id := id |> <| state := BLOCKEDSEMAPHORE |>.

Lemma wait_blocks s Q c x A L W id sm ns x0 :
  sched_pre s Q c x A L -> state x = ACTIF -> sem_shape s Q W ->
  semaphore_table s !! id = Some sm -> W !! sm = Some ns -> sems s !! sm = Some x0 ->
  (forall b, (next_block s <= b <= Pos.succ (next_block s))%positive -> malloc_ok b = true) ->
  MIN_COUNT < count x0 <= 0 ->
  exists s1 node, wait id s = scheduler (KWait c) s1 /\ sched_pre s1 Q c (blocked_on x id) A L /\
    sem_shape s1 Q (<[sm := insert_waiter (pfield s prio) (node, c) ns]> W) /\
    (exists h, sems s1 = <[sm := mk_sem (count x0 - 1) (Some h)]> (sems s)) /\
    procs s1 = <[c := blocked_on x id]> (procs s) /\ parent_block s1 = parent_block s /\
    (next_block s <= next_block s1)%positive /\ frame_mem s1 = frame_mem s /\ kernel_table s1 = kernel_table s /\
    all_queues s1 = all_queues s /\ msg_queues s1 = msg_queues s.
Proof.
  unfold MIN_COUNT. intros Hpre Ha Hsh Hid HW Hx0 Hok Hc. pose proof Hpre as [Hinv [Hcur Hx Hfree Hready] _ _ _ _ _ _ _].
  set (x1 := x <| sem_signal := 0 |>). set (x2 := x0 <| count := count x0 - 1 |>).
  set (s2 := s <| procs ::= <[c := x1]> |> <| sems ::= <[sm := x2]> |>).
  assert (Hne : forall sm' ns' w, W !! sm' = Some ns' -> w ∈ ns' -> w.2 <> c).
  { intros sm' ns' w HW' Hin. by eapply waiter_not_running. }
  assert (Hsh2 : sem_shape s2 Q W).
  { apply (sem_shape_count (s <| procs ::= <[c := x1]> |>)); [|done]. eapply (sem_shape_frame s); [done..| |done].
    intros sm' ns' w y HW' Hin Hy Hst Hq. exists y. simpl.
    rewrite lookup_insert_ne by (intros Ew; by eapply Hne). done. }
  destruct (sh_rep _ _ _ Hsh2 _ _ HW) as (x2' & Hx2 & Hrep). assert (x2' = x2) as ->
    by (simpl in Hx2; rewrite lookup_insert_eq in Hx2; congruence).
  assert (Hblock : wp (block_on_semaphore (Some sm) (Some c)) (fun _ s' => exists node, joined s2 sm x2 ns c node s') s2).
  { eapply block_on_semaphore_spec; [exact Hx2|exact Hrep|apply Hsh2|exact Hok| |apply lookup_insert_eq].
    intros w Hin. destruct (sh_wait _ _ _ Hsh2 _ _ _ HW Hin) as (y & Hy & _). by eexists. }
  apply wp_elim in Hblock as ([] & s3 & Eblock & node & Hj).
  pose proof (sem_shape_join _ _ _ _ _ _ _ _ (blocked_on x id) _ Hsh2 HW Hx2 Hj Hne (Hfree Ha) eq_refl) as Hsh3.
  pose proof Hj as [Hfr [h Hsm] _ _ _ [_ Hblk]].
  assert (Hps3 : procs s3 !! c = Some x1) by (rewrite Hfr; apply lookup_insert_eq).
  exists (s3 <| procs ::= <[c := blocked_on x id]> |>), node. split_and!.
  - unfold wait, get_semaphore_struct. run_step (apply wp_bind, wp_gets, wp_ret; split; reflexivity). rewrite Hid.
    run_step (apply wp_get_current; rewrite Hcur; split; reflexivity). cbn match.
    run_step (eapply wp_pset; [exact Hx|split; reflexivity]).
    run_step (eapply (wp_rd sems); [exact Hx0|split; reflexivity]).
    destruct (Z.eqb_spec (count x0) MIN_COUNT) as [Em|_]; [unfold MIN_COUNT in Em; lia|]. cbn zeta. rewrite wrapS_id by lia.
    run_step (eapply (wp_wr sems); [exact Hx0|split; reflexivity]).
    destruct (Z.ltb_spec (count x0 - 1) 0); [|lia].
    eapply eq_trans; [eapply run_bind|reflexivity].
    eapply eq_trans; [eapply run_bind; exact Eblock|]. cbn beta.
    run_step (eapply wp_pset; [exact Hps3|split; reflexivity]).
    apply wp_run. eapply wp_pset; [apply lookup_insert_eq|]. split; [done|].
    exact (procs_twice s3 c _ (blocked_on x id)).
  - eapply (sched_pre_self s); [exact Hpre|exact Ha|rewrite Hfr; done| |rewrite Hfr; done..|done|done|done].
    rewrite Hfr. simpl. by rewrite insert_insert_eq.
  - rewrite (insert_waiter_ext _ (pfield s prio)) in Hsh3; [exact Hsh3|]. intros q. unfold pfield. simpl.
    rewrite lookup_insert. case_decide; [|done]. subst q. by rewrite Hx.
  - exists h. simpl. rewrite Hsm. simpl. by rewrite insert_insert_eq.
  - rewrite Hfr. simpl. by rewrite insert_insert_eq.
  - by rewrite Hfr.
  - exact Hblk.
  - by rewrite Hfr.
  - by rewrite Hfr.
  - by rewrite Hfr.
  - by rewrite Hfr.
Qed.

End Invariant.

(** ** The abstract semaphore

    A count and the waiting processes, the first to be released first. *)
Record asem : Type := mk_asem { a_count : Z; a_waiters : list ptr }.

Inductive sem_call : Type := CallWait | CallTryWait | CallSignal | CallSignaln (n : Z) | CallSreset (n : Z).

Fixpoint insert_before (pr : ptr -> Z) (p : ptr) (ps : list ptr) : list ptr :=
  match ps with
  | [] => [p]
  | q :: ps => if pr q <? pr p then p :: q :: ps else q :: insert_before pr p ps
  end.

(** What a call by the process [c] does: the error it returns, or the new
    semaphore, the processes it releases (in order) and the value their
    [wait] returns. *)
Definition sem_spec (pr : ptr -> Z) (c : ptr) (op : sem_call) (a : asem) : Z + asem * list ptr * Z :=
  let '(mk_asem n ps) := a in
  match op with
  | CallWait =>
      if n =? -32768 then inl (-2)
      else inr (mk_asem (n - 1) (if n - 1 <? 0 then insert_before pr c ps else ps), [], 0)
  | CallTryWait => if 0 <? n then inr (mk_asem (n - 1) ps, [], 0) else inl (-3)
  | CallSignal => if n =? 32767 then inl (-2) else inr (mk_asem (n + 1) (tail ps), take 1 ps, 0)
  | CallSignaln k =>
      if k <? 0 then inl (-1)
      else if 32767 <? n + k then inl (-2)
      else inr (mk_asem (n + k) (drop (Z.to_nat k) ps), take (Z.to_nat k) ps, 0)
  | CallSreset k => if k <? 0 then inl (-1) else inr (mk_asem k [], ps, -4)
  end.

Section Refinement.
Context `{E : KEnv}.
Implicit Types (s : kstate) (Q : queues) (W : gmap ptr (list waiter)) (sm : ptr) (ns : list waiter).

Definition sem_run (op : sem_call) (id : Z) : K kont :=
  match op with
  | CallWait => wait id | CallTryWait => try_wait id | CallSignal => signal id
  | CallSignaln n => signaln id n | CallSreset n => sreset id n
  end.

(** What a call asks of its environment: a waiter's node and header can be
    allocated, the new count of [sreset] fits its 16 bits. *)
Definition call_ok (op : sem_call) s : Prop :=
  match op with
  | CallWait => forall b, (next_block s <= b <= Pos.succ (next_block s))%positive -> malloc_ok b = true
  | CallSreset n => n <= 32767
  | _ => True
  end.

(** [s1] is what the scheduler is called on after the call: the semaphore [sm]
    represents [a], the released processes are ready in their order, the
    caller is blocked if it is now among the waiters. *)
Record sem_after s Q W sm (c : ptr) (A L : list ptr) (a : asem) (ps : list ptr) (sig : Z) (s1 : kstate) (Q1 : queues) W1 : Prop := {
  sa_pre : exists x1, sched_pre s1 Q1 c x1 (foldl (fun A p => insert_prio (pfield s prio) p A) A ps) L /\
    state x1 = (if bool_decide (c ∈ a_waiters a) then BLOCKEDSEMAPHORE else ACTIF) /\
    forall x, procs s !! c = Some x -> pid x1 = pid x /\ context_process x1 = context_process x /\
      children_tail x1 = children_tail x /\ page_table_level_2 x1 = page_table_level_2 x /\ message x1 = message x;
  sa_waiters : exists ns, W1 = <[sm := ns]> W /\ ns.*2 = a_waiters a;
  sa_count : count <$> sems s1 !! sm = Some (a_count a);
  sa_shape : sem_shape s1 Q1 W1;
  sa_counts : counts_ok s1 W1;
  sa_woken : forall p, p ∈ ps -> exists y, procs s1 !! p = Some y /\ state y = ACTIVATABLE /\ sem_signal y = sig;
  sa_procs : forall p, p <> c ->
    procs s1 !! p = if decide (p ∈ ps) then (fun y => signalled y sig) <$> procs s !! p else procs s !! p;
  sa_parent : parent_block s1 = parent_block s;
  sa_block : (next_block s <= next_block s1)%positive;
  sa_rest : frame_mem s1 = frame_mem s /\ kernel_table s1 = kernel_table s /\
    all_queues s1 = all_queues s /\ msg_queues s1 = msg_queues s;
  sa_queues : forall h, h <> activatable_process_queue -> Q1 !! h = Q !! h
}.

Lemma insert_waiter_procs pr n p ns : (insert_waiter pr (n, p) ns).*2 = insert_before pr p ns.*2.
Proof. induction ns as [|[m q] ns IH]; simpl; [done|]. destruct (_ <? _); simpl; [done|]. by f_equal. Qed.

Lemma insert_before_elem pr p ps q : q ∈ insert_before pr p ps <-> q = p \/ q ∈ ps.
Proof.
  induction ps as [|r ps IH]; simpl; [by rewrite elem_of_cons|]. destruct (_ <? _); rewrite !elem_of_cons; [done|].
  rewrite IH. tauto.
Qed.

(** A counter change keeps the other counts. *)
Lemma counts_ok_insert s s' W sm ns x :
  counts_ok s W -> (forall sm', sm' <> sm -> sems s' !! sm' = sems s !! sm') -> sems s' !! sm = Some x ->
  Z.of_nat (length ns) = Z.max 0 (- count x) -> MIN_COUNT <= count x <= MAX_COUNT ->
  counts_ok s' (<[sm := ns]> W).
Proof.
  intros Hco Hsm Hx Hlen Hr sm' ns' x'. rewrite lookup_insert. case_decide as Esm.
  - intros [= <-] Hx'. subst. by simplify_eq.
  - rewrite Hsm by done. apply Hco.
Qed.

Lemma pops_after s Q A W sm sig ps ns n s1 Q1 A1 c x L :
  pops s Q A W sm sig ps ns n s1 Q1 A1 -> sched_pre s Q c x A L -> state x = ACTIF -> counts_ok s W ->
  Z.of_nat (length ns) = Z.max 0 (- n) -> MIN_COUNT <= n <= MAX_COUNT ->
  (forall p, p ∈ ps ++ ns.*2 -> is_Some (procs s !! p) /\ p <> c) ->
  sem_after s Q W sm c A L (mk_asem n ns.*2) ps sig s1 Q1 (<[sm := ns]> W).
Proof.
  intros Hpo Hpre Ha Hco Hlen Hr Hps. assert (Hc : c ∉ ps ++ ns.*2) by (by intros [_ ?]%Hps). rewrite elem_of_app in Hc.
  pose proof (pops_pre _ _ _ _ _ _ _ _ _ _ _ _ _ _ _ Hpo Hpre ltac:(tauto)) as Hpre1.
  pose proof Hpo as [Hfr Hsm (x' & Hx' & Hc') Hprocs HA HQ Hinv Hsh]. split.
  - exists x. rewrite bool_decide_false by (simpl; tauto). split; [by rewrite HA in Hpre1|]. split; [done|].
    pose proof (ru_proc _ _ _ _ (sp_running _ _ _ _ _ _ Hpre)). by intros y Hy; simplify_eq.
  - by exists ns.
  - rewrite Hx'. simpl. by f_equal.
  - exact Hsh.
  - rewrite <- Hc' in *. by eapply counts_ok_insert.
  - intros p Hp. rewrite Hprocs, decide_True by done. destruct (Hps p) as [[y Hy] _].
    { apply elem_of_app. by left. }
    rewrite Hy. by eexists.
  - intros p _. apply Hprocs.
  - by rewrite Hfr.
  - rewrite Hfr. simpl. lia.
  - by rewrite Hfr.
  - intros h Hh. by rewrite HQ, lookup_insert_ne.
Qed.

(** A call of the scheduler is not suspended any more. *)
Lemma pops_resume s Q A W sm sig ps ns n s1 Q1 A1 :
  pops (s <| parent_block := true |>) Q A W sm sig ps ns n s1 Q1 A1 -> parent_block s = false ->
  pops s Q A W sm sig ps ns n (s1 <| parent_block := false |>) Q1 A1.
Proof.
  intros [Hfr Hsm Hcnt Hprocs HA HQ Hinv Hsh] Hpb. split; try done.
  - rewrite Hfr. destruct s. simpl in *. by subst.
  - eapply sched_inv_frame; [..|exact Hinv]; done.
  - eapply (sem_shape_frame s1); [done..| |exact Hsh]. intros; eauto.
Qed.

(** The waiters of a semaphore exist and do not run. *)
Lemma waiters_procs s Q W sm ns c x p :
  sem_shape s Q W -> W !! sm = Some ns -> procs s !! c = Some x -> state x = ACTIF -> p ∈ ns.*2 ->
  is_Some (procs s !! p) /\ p <> c.
Proof.
  intros Hsh HW Hx Ha ([n q] & -> & Hin)%list_elem_of_fmap. split.
  - destruct (sh_wait _ _ _ Hsh _ _ _ HW Hin) as (y & Hy & _). by eexists.
  - by eapply waiter_not_running.
Qed.

Lemma signaln_after s Q c x A L W id sm ns x0 k :
  sched_pre s Q c x A L -> state x = ACTIF -> sem_shape s Q W -> counts_ok s W ->
  semaphore_table s !! id = Some sm -> W !! sm = Some ns -> sems s !! sm = Some x0 -> parent_block s = false ->
  0 <= k -> count x0 + k <= 32767 ->
  exists s1 Q1 W1, signaln id k s = scheduler (KRet 0 []) s1 /\
    sem_after s Q W sm c A L (mk_asem (count x0 + k) (drop (Z.to_nat k) ns.*2)) (take (Z.to_nat k) ns.*2) 0 s1 Q1 W1.
Proof.
  intros Hpre Ha Hsh Hco Hid HW Hx0 Hpb Hk Hmax. destruct (Hco _ _ _ HW Hx0) as [Hlen Hrange]. unfold MIN_COUNT, MAX_COUNT in *.
  pose proof Hpre as [Hinv [Hcur Hx Hfree Hready] _ HA _ _ _ _ _].
  set (s0 := s <| parent_block := true |>).
  assert (Hpo : pops s0 Q A W sm SIGNAL_CALL [] ns (count x0) s0 Q A).
  { apply pops_nil; [by apply (sched_inv_frame s)|done| |done|done].
    apply (sem_shape_frame s _ Q Q W); [done..| |done]. intros; eauto. }
  pose proof (signaln_loop_pops (Z.to_nat k) _ _ _ _ _ _ _ _ _ _ _ id Hpo Hid eq_refl Hlen) as Hwp.
  apply wp_elim in Hwp as (v & s2 & Erun & -> & Q2 & A2 & Hpo2); [|unfold MIN_COUNT, MAX_COUNT; lia..].
  rewrite Z2Nat.id in Hpo2 by lia. apply pops_resume in Hpo2; [|done]. eexists _, Q2, _. split.
  - unfold signaln, get_semaphore_struct. run_step (apply wp_bind, wp_gets, wp_ret; split; reflexivity). rewrite Hid.
    destruct (Z.ltb_spec k 0); [lia|]. run_step (eapply (wp_rd sems); [exact Hx0|split; reflexivity]).
    unfold MAX_COUNT. destruct (Z.ltb_spec 32767 (count x0 + k)); [lia|].
    run_step (apply wp_kput; split; reflexivity). eapply eq_trans; [eapply run_bind; exact Erun|]. cbn [negb Z.eqb].
    run_step (apply wp_kput; split; reflexivity). reflexivity.
  - rewrite <- fmap_drop. eapply pops_after; [exact Hpo2|done..| |unfold MIN_COUNT, MAX_COUNT; lia|].
    + rewrite length_drop. lia.
    + intros p. rewrite fmap_drop, take_drop. by eapply waiters_procs.
Qed.

Lemma signal_after s Q c x A L W id sm ns x0 :
  sched_pre s Q c x A L -> state x = ACTIF -> sem_shape s Q W -> counts_ok s W ->
  semaphore_table s !! id = Some sm -> W !! sm = Some ns -> sems s !! sm = Some x0 -> parent_block s = false ->
  count x0 < 32767 ->
  exists s1 Q1 W1, signal id s = scheduler (KRet 0 []) s1 /\
    sem_after s Q W sm c A L (mk_asem (count x0 + 1) (tail ns.*2)) (take 1 ns.*2) 0 s1 Q1 W1.
Proof.
  intros Hpre Ha Hsh Hco Hid HW Hx0 Hpb Hmax. destruct (Hco _ _ _ HW Hx0) as [Hlen Hrange]. unfold MIN_COUNT, MAX_COUNT in *.
  pose proof Hpre as [Hinv [Hcur Hx Hfree Hready] _ HA _ _ _ _ _].
  destruct (signal_pops s Q A W sm [] ns (count x0) s Q A id) as (s1 & Q1 & A1 & Hpo & Erun);
    [by apply pops_nil|done|done|unfold MIN_COUNT, MAX_COUNT; lia|].
  rewrite Hpb in Erun. eexists s1, Q1, _. split; [done|].
  replace (tail ns.*2) with (tail ns).*2 by (by destruct ns).
  eapply pops_after; [exact Hpo|done..| |unfold MIN_COUNT, MAX_COUNT; lia|].
  - destruct ns; simpl in *; lia.
  - intros p. replace (take 1 ns.*2 ++ (tail ns).*2) with ns.*2 by (by destruct ns).
    by eapply waiters_procs.
Qed.

(** The loop that releases all the waiters. *)
Lemma unblock_all_pops s Q A W sm sig ns x0 :
  sched_inv s Q -> Q !! activatable_process_queue = Some A -> sem_shape s Q W -> W !! sm = Some ns -> sems s !! sm = Some x0 ->
  exists s1 Q1 A1, unblock_all (walk_fuel blocked_nodes s) (Some sm) sig s = Ok (tt, s1) /\
    pops s Q A W sm sig ns.*2 [] (count x0) s1 Q1 A1.
Proof.
  intros Hinv HA Hsh HW Hx0. assert (Hpo : pops s Q A W sm sig [] ns (count x0) s Q A) by (by apply pops_nil).
  destruct (wp_elim _ _ _ (unblock_all_spec (walk_fuel blocked_nodes s) _ _ _ _ _ _ _ _ _ _ _ _ Hpo
    ltac:(destruct (sh_rep _ _ _ Hsh _ _ HW) as (z & _ & [Hnd Hr]); unfold walk_fuel;
      destruct (list_header_process z); [pose proof (lseg_length _ _ _ _ Hnd (proj1 Hr)); lia|subst; simpl; lia])))
    as ([] & s1 & E1 & Q1 & A1 & Hpo1). eauto.
Qed.

Lemma sreset_pops s Q A W id sm ns x0 k :
  sched_inv s Q -> Q !! activatable_process_queue = Some A -> sem_shape s Q W ->
  semaphore_table s !! id = Some sm -> W !! sm = Some ns -> sems s !! sm = Some x0 -> 0 <= k ->
  exists s1 Q1 A1, sreset id k s = scheduler (KRet 0 []) s1 /\
    pops s Q A W sm SRESET_CALL ns.*2 [] (wrapS 16 k) s1 Q1 A1.
Proof.
  intros Hinv HA Hsh Hid HW Hx0 Hk.
  destruct (unblock_all_pops s Q A W sm SRESET_CALL ns x0) as (s1 & Q1 & A1 & E1 & Hpo1); [done..|].
  assert (Hwp : wp (wr sems (Some sm) (fun z => z <| count := wrapS 16 k |>))
    (fun _ s2 => pops s Q A W sm SRESET_CALL ns.*2 [] (wrapS 16 k) s2 Q1 A1) s1) by (by eapply pops_wr).
  apply wp_elim in Hwp as ([] & s2 & E2 & Hpo2). exists s2, Q1, A1. split; [|done].
  unfold sreset, get_semaphore_struct. run_step (apply wp_bind, wp_gets, wp_ret; split; reflexivity). rewrite Hid.
  destruct (Z.ltb_spec k 0); [lia|]. run_step (apply wp_gets; split; reflexivity).
  eapply eq_trans; [eapply run_bind; exact E1|]. eapply eq_trans; [eapply run_bind; exact E2|]. done.
Qed.

Lemma sreset_after s Q c x A L W id sm ns x0 k :
  sched_pre s Q c x A L -> state x = ACTIF -> sem_shape s Q W -> counts_ok s W ->
  semaphore_table s !! id = Some sm -> W !! sm = Some ns -> sems s !! sm = Some x0 -> 0 <= k <= 32767 ->
  exists s1 Q1 W1, sreset id k s = scheduler (KRet 0 []) s1 /\
    sem_after s Q W sm c A L (mk_asem k []) ns.*2 (-4) s1 Q1 W1.
Proof.
  intros Hpre Ha Hsh Hco Hid HW Hx0 Hk. pose proof Hpre as [Hinv [Hcur Hx Hfree Hready] _ HA _ _ _ _ _].
  destruct (sreset_pops s Q A W id sm ns x0 k) as (s1 & Q1 & A1 & E1 & Hpo1); [done..|lia|].
  rewrite wrapS_id in Hpo1 by lia. eexists s1, Q1, _. split; [done|].
  change (mk_asem k []) with (mk_asem k (@nil waiter).*2).
  eapply pops_after; [exact Hpo1|done..|simpl; lia|unfold MIN_COUNT, MAX_COUNT; lia|].
  intros p. rewrite app_nil_r. by eapply waiters_procs.
Qed.

(** Taking a unit of a positive count. *)
Lemma take_after s Q c x x1 A L W sm ns x0 :
  sched_pre s Q c x A L -> state x = ACTIF -> sem_shape s Q W -> counts_ok s W -> W !! sm = Some ns ->
  sems s !! sm = Some x0 -> 0 < count x0 -> pid x1 = pid x -> context_process x1 = context_process x ->
  children_tail x1 = children_tail x -> page_table_level_2 x1 = page_table_level_2 x -> message x1 = message x -> state x1 = ACTIF ->
  sem_after s Q W sm c A L (mk_asem (count x0 - 1) ns.*2) [] 0
    (s <| procs ::= <[c := x1]> |> <| sems ::= <[sm := x0 <| count := count x0 - 1 |>]> |>) Q W.
Proof.
  intros Hpre Ha Hsh Hco HW Hx0 Hpos Hpid Hctx Htl Hpt Hmg Ha1. destruct (Hco _ _ _ HW Hx0) as [Hlen Hr].
  pose proof Hpre as [_ [_ Hx _ _] _ _ _ _ _ _ _].
  assert (Hc : c ∉ ns.*2) by (intros Hin; by eapply waiters_procs in Hin as [_ ?]).
  split; simpl.
  - exists x1. rewrite bool_decide_false by done. split; [eapply (sched_pre_self s); [done..|congruence]|].
    split; [done|]. by intros y Hy; simplify_eq.
  - exists ns. by rewrite insert_id.
  - by rewrite lookup_insert_eq.
  - apply (sem_shape_count (s <| procs ::= <[c := x1]> |>)); [|done]. eapply (sem_shape_frame s); [done..| |done].
    intros sm' ns' w y HW' Hin Hy Hst Hq. exists y. simpl.
    rewrite lookup_insert_ne; [done|]. intros Ew. by eapply (waiter_not_running s Q W sm' ns' w c x).
  - rewrite <- (insert_id W sm ns) by done. eapply (counts_ok_insert s); [done| |apply lookup_insert_eq|simpl; lia|unfold MIN_COUNT, MAX_COUNT in *; simpl; lia].
    intros sm' Hne. simpl. by rewrite lookup_insert_ne.
  - intros p Hp. by apply elem_of_nil in Hp.
  - intros p Hp. by rewrite lookup_insert_ne.
  - done.
  - lia.
  - done.
  - done.
Qed.

Lemma wait_after s Q c x A L W id sm ns x0 :
  sched_pre s Q c x A L -> state x = ACTIF -> sem_shape s Q W -> counts_ok s W ->
  semaphore_table s !! id = Some sm -> W !! sm = Some ns -> sems s !! sm = Some x0 ->
  call_ok CallWait s -> count x0 <> -32768 ->
  exists s1 Q1 W1, wait id s = scheduler (KWait c) s1 /\
    sem_after s Q W sm c A L (mk_asem (count x0 - 1)
      (if count x0 - 1 <? 0 then insert_before (pfield s prio) c ns.*2 else ns.*2)) [] 0 s1 Q1 W1.
Proof.
  intros Hpre Ha Hsh Hco Hid HW Hx0 Hok Hmin. destruct (Hco _ _ _ HW Hx0) as [Hlen Hr]. unfold MIN_COUNT, MAX_COUNT in *.
  destruct (Z.ltb_spec (count x0 - 1) 0).
  - destruct (wait_blocks s Q c x A L W id sm ns x0) as (s1 & node & E1 & Hpre1 & Hsh1 & (h & Hsm) & Hps & Hpb & Hblk & Hmem);
      [done..|unfold MIN_COUNT; lia|].
    eexists s1, Q, _. split; [done|]. rewrite <- (insert_waiter_procs _ node).
    split; [|by eexists|by rewrite Hsm, lookup_insert_eq|exact Hsh1| |intros p Hp; by apply elem_of_nil in Hp| |done|done|done|done].
    + exists (blocked_on x id). split; [done|]. simpl. rewrite bool_decide_true.
      * pose proof (ru_proc _ _ _ _ (sp_running _ _ _ _ _ _ Hpre)). split; [done|]. by intros y Hy; simplify_eq.
      * rewrite insert_waiter_procs, insert_before_elem. by left.
    + eapply (counts_ok_insert s); [done| |rewrite Hsm; apply lookup_insert_eq| |unfold MIN_COUNT, MAX_COUNT; simpl; lia].
      * intros sm' Hne. by rewrite Hsm, lookup_insert_ne.
      * rewrite insert_waiter_perm. simpl. lia.
    + intros p Hp. by rewrite Hps, lookup_insert_ne.
  - eexists _, Q, W. split; [|by apply (take_after s Q c x (x <| sem_signal := 0 |>)); try done; lia].
    pose proof Hpre as [_ [Hcur Hx _ _] _ _ _ _ _ _ _].
    unfold wait, get_semaphore_struct. run_step (apply wp_bind, wp_gets, wp_ret; split; reflexivity). rewrite Hid.
    run_step (apply wp_get_current; rewrite Hcur; split; reflexivity). cbn match.
    run_step (eapply wp_pset; [exact Hx|split; reflexivity]).
    run_step (eapply (wp_rd sems); [exact Hx0|split; reflexivity]).
    destruct (Z.eqb_spec (count x0) MIN_COUNT) as [Em|_]; [unfold MIN_COUNT in Em; lia|]. cbn zeta. rewrite wrapS_id by lia.
    run_step (eapply (wp_wr sems); [exact Hx0|split; reflexivity]).
    destruct (Z.ltb_spec (count x0 - 1) 0); [lia|]. run_step (apply wp_ret; split; reflexivity). reflexivity.
Qed.

Lemma try_wait_after s Q c x A L W id sm ns x0 :
  sched_pre s Q c x A L -> state x = ACTIF -> sem_shape s Q W -> counts_ok s W ->
  semaphore_table s !! id = Some sm -> W !! sm = Some ns -> sems s !! sm = Some x0 -> 0 < count x0 ->
  exists s1 Q1 W1, try_wait id s = scheduler (KRet 0 []) s1 /\
    sem_after s Q W sm c A L (mk_asem (count x0 - 1) ns.*2) [] 0 s1 Q1 W1.
Proof.
  intros Hpre Ha Hsh Hco Hid HW Hx0 Hpos. eexists _, Q, W. split; [|by apply (take_after s Q c x x)].
  pose proof Hpre as [_ [Hcur Hx _ _] _ _ _ _ _ _ _].
  unfold try_wait, get_semaphore_struct. run_step (apply wp_bind, wp_gets, wp_ret; split; reflexivity). rewrite Hid.
  run_step (eapply (wp_rd sems); [exact Hx0|split; reflexivity]).
  destruct (Z.ltb_spec 0 (count x0)); [|lia]. run_step (eapply (wp_wr sems); [exact Hx0|split; reflexivity]).
  f_equal. unfold upd. simpl. by rewrite (insert_id (procs s)).
Qed.

(** ** The properties of the component *)

(** The errors: at most the signal of the caller is reset. *)
Lemma sem_error op id s Q c x A L sm x0 ps v :
  sched_pre s Q c x A L -> semaphore_table s !! id = Some sm -> sems s !! sm = Some x0 ->
  sem_spec (pfield s prio) c op (mk_asem (count x0) ps) = inl v ->
  exists x', sem_run op id s = Ok (KRet v [], s <| procs ::= <[c := x']> |>) /\ (x' = x \/ x' = x <| sem_signal := 0 |>).
Proof.
  intros Hpre Hid Hx0 Hsp. pose proof Hpre as [_ [Hcur Hx _ _] _ _ _ _ _ _ _].
  assert (Hget : get_semaphore_struct id s = Ok (Some sm, s)) by (apply wp_run, wp_bind, wp_gets, wp_ret; by rewrite Hid).
  assert (Hsame : s <| procs ::= <[c := x]> |> = s) by (unfold upd; destruct s; simpl in *; by rewrite insert_id).
  destruct op as [| | |k|k]; cbn [sem_spec sem_run] in *; [exists (x <| sem_signal := 0 |>)|exists x; rewrite Hsame..];
    (split; [|tauto]); unfold wait, try_wait, signal, signaln, sreset; (eapply eq_trans; [eapply run_bind; exact Hget|]); cbn beta match.
  - run_step (apply wp_get_current; rewrite Hcur; split; reflexivity). cbn match.
    run_step (eapply wp_pset; [exact Hx|split; reflexivity]).
    run_step (eapply (wp_rd sems); [exact Hx0|split; reflexivity]).
    unfold MIN_COUNT. by destruct (count x0 =? -32768); simplify_eq.
  - run_step (eapply (wp_rd sems); [exact Hx0|split; reflexivity]). by destruct (0 <? count x0); simplify_eq.
  - run_step (eapply (wp_rd sems); [exact Hx0|split; reflexivity]).
    unfold MAX_COUNT. by destruct (count x0 =? 32767); simplify_eq.
  - destruct (k <? 0); [by simplify_eq|]. run_step (eapply (wp_rd sems); [exact Hx0|split; reflexivity]).
    unfold MAX_COUNT. by destruct (32767 <? count x0 + k); simplify_eq.
  - by destruct (k <? 0); simplify_eq.
Qed.

(** The other calls reach the scheduler. *)
Lemma sem_calls_scheduler s Q c x A L W id sm ns x0 op a ps sig :
  sched_pre s Q c x A L -> state x = ACTIF -> sem_shape s Q W -> counts_ok s W ->
  semaphore_table s !! id = Some sm -> W !! sm = Some ns -> sems s !! sm = Some x0 -> parent_block s = false ->
  call_ok op s -> sem_spec (pfield s prio) c op (mk_asem (count x0) ns.*2) = inr (a, ps, sig) ->
  exists k s1 Q1 W1, sem_run op id s = scheduler k s1 /\ k = (match op with CallWait => KWait c | _ => KRet 0 [] end) /\
    sem_after s Q W sm c A L a ps sig s1 Q1 W1.
Proof.
  intros Hpre Ha Hsh Hco Hid HW Hx0 Hpb Hok Hsp. destruct (Hco _ _ _ HW Hx0) as [_ Hr]. unfold MAX_COUNT in Hr.
  assert (Hthen : forall k, (exists s1 Q1 W1, sem_run op id s = scheduler k s1 /\ sem_after s Q W sm c A L a ps sig s1 Q1 W1) ->
    k = (match op with CallWait => KWait c | _ => KRet 0 [] end) -> exists k s1 Q1 W1, sem_run op id s = scheduler k s1 /\
      k = (match op with CallWait => KWait c | _ => KRet 0 [] end) /\ sem_after s Q W sm c A L a ps sig s1 Q1 W1).
  { intros k (s1 & Q1 & W1 & ? & ?) ?. by exists k, s1, Q1, W1. }
  destruct op as [| | |k|k]; cbn [sem_spec sem_run] in *.
  - destruct (Z.eqb_spec (count x0) (-32768)) as [Em|Em]; simplify_eq.
    by apply (Hthen (KWait c)); [apply (wait_after s Q c x A L W id sm ns x0)|].
  - destruct (Z.ltb_spec 0 (count x0)); simplify_eq.
    by apply (Hthen (KRet 0 [])); [apply (try_wait_after s Q c x A L W id sm ns x0)|].
  - destruct (Z.eqb_spec (count x0) 32767) as [Em|Em]; simplify_eq.
    apply (Hthen (KRet 0 [])); [|done]. apply (signal_after s Q c x A L W id sm ns x0); try done. lia.
  - destruct (Z.ltb_spec k 0); simplify_eq. destruct (Z.ltb_spec 32767 (count x0 + k)); simplify_eq.
    by apply (Hthen (KRet 0 [])); [apply (signaln_after s Q c x A L W id sm ns x0)|].
  - destruct (Z.ltb_spec k 0); simplify_eq.
    by apply (Hthen (KRet 0 [])); [apply (sreset_after s Q c x A L W id sm ns x0)|].
Qed.

(** C4: the semaphore calls refine the abstract counting semaphore.  From a
    state of the invariant, called by the running process on a semaphore that
    represents [a], each of [wait], [try_wait], [signal], [signaln] and
    [sreset] returns the error of the specification and leaves the semaphores
    as they are, or calls the scheduler on a state where the semaphore
    represents the new abstract value (the caller inserted by priority among
    the waiters), the released processes are ready in the order of the
    specification with the value their [wait] returns, and the invariant holds
    again; that call of the scheduler returns and keeps the invariant. *)
Theorem semaphore_ops_refine s Q c x A L W id sm ns x0 op :
  sched_pre s Q c x A L -> state x = ACTIF -> sem_shape s Q W -> counts_ok s W ->
  semaphore_table s !! id = Some sm -> W !! sm = Some ns -> sems s !! sm = Some x0 -> parent_block s = false ->
  call_ok op s ->
  match sem_spec (pfield s prio) c op (mk_asem (count x0) ns.*2) with
  | inl v => exists s', sem_run op id s = Ok (KRet v [], s') /\ sems s' = sems s /\ blocked_nodes s' = blocked_nodes s
  | inr (a, ps, sig) => exists k s1 Q1 W1, sem_run op id s = scheduler k s1 /\
      sem_after s Q W sm c A L a ps sig s1 Q1 W1 /\
      exists k' s2 Q2, scheduler k s1 = Ok (k', s2) /\ sched_inv s2 Q2 /\ sem_shape s2 Q2 W1 /\ counts_ok s2 W1
  end.
Proof.
  intros Hpre Ha Hsh Hco Hid HW Hx0 Hpb Hok. destruct (sem_spec _ _ _ _) as [v|[[a ps] sig]] eqn:Hsp.
  - destruct (sem_error op id s Q c x A L sm x0 ns.*2 v) as (x' & E1 & _); try done. by eexists.
  - destruct (sem_calls_scheduler s Q c x A L W id sm ns x0 op a ps sig) as (k & s1 & Q1 & W1 & E1 & _ & Hsa); try done.
    exists k, s1, Q1, W1. split; [done|]. split; [done|]. destruct Hsa as [(x1 & Hpre1 & _) _ _ Hsh1 Hco1 _ _ _ _ _ _].
    destruct (scheduler_sems k _ _ _ _ _ _ _ Hpre1 Hsh1) as (k' & s2 & Q2 & r & z & E2 & Hinv2 & _ & Hsh2 & Esm & _).
    exists k', s2, Q2. split_and!; try done. intros sm' ns' x'. rewrite Esm. apply Hco1.
Qed.

Lemma no_semaphore op id s : semaphore_table s !! id = None -> sem_run op id s = Ok (KRet (-1) [], s).
Proof.
  intros Hid. assert (Hget : get_semaphore_struct id s = Ok (None, s)).
  { apply wp_run, wp_bind, wp_gets, wp_ret. by rewrite Hid. }
  destruct op; cbn [sem_run]; unfold wait, try_wait, signal, signaln, sreset;
    (eapply eq_trans; [eapply run_bind; exact Hget|done]).
Qed.

Lemma sem_shape_delete s Q W sm id :
  sem_shape s Q (<[sm := []]> W) -> semaphore_table s !! id = Some sm ->
  sem_shape (s <| semaphore_table ::= delete id |> <| sems ::= delete sm |>) Q (delete sm W).
Proof.
  intros [Hr Ht Hi Hd Hw Hn Hs] Hid.
  assert (Hsub : forall sm' ns, delete sm W !! sm' = Some ns -> sm' <> sm /\ <[sm := []]> W !! sm' = Some ns).
  { intros sm' ns [Hne HW]%lookup_delete_Some. by rewrite lookup_insert_ne. }
  split; simpl.
  - intros sm' ns [Hne HW]%Hsub. rewrite lookup_delete_ne by done. by apply Hr.
  - intros i sm' [Hne Hi']%lookup_delete_Some. destruct (Ht _ _ Hi') as [ns HW].
    assert (sm' <> sm) by (intros ->; by apply Hne, (Hi _ _ sm)). rewrite lookup_insert_ne in HW by done.
    rewrite lookup_delete_ne by done. by eexists.
  - intros i j sm' [_ Hi']%lookup_delete_Some [_ Hj']%lookup_delete_Some. by apply (Hi _ _ sm').
  - intros sm1 sm2 ns1 ns2 w1 w2 [_ HW1]%Hsub [_ HW2]%Hsub. by eapply Hd.
  - intros sm' ns w [_ HW]%Hsub. by apply (Hw sm' ns w).
  - exact Hn.
  - intros p [z [_ Hz]%lookup_delete_Some]. apply Hs. by eexists.
Qed.

(** C24: [sdelete] releases every waiter of the semaphore, with the value -3
    and in the order of the list, forgets the identifier (every later call on
    it returns -1) and frees the structure; the other semaphores and the
    invariant are kept, and the call of the scheduler that follows returns. *)
Theorem sdelete_releases s Q c x A L W id sm ns :
  sched_pre s Q c x A L -> state x = ACTIF -> sem_shape s Q W -> counts_ok s W ->
  semaphore_table s !! id = Some sm -> W !! sm = Some ns ->
  exists s1 Q1, sdelete id s = scheduler (KRet 0 []) s1 /\
    sched_pre s1 Q1 c x (foldl (fun A p => insert_prio (pfield s prio) p A) A ns.*2) L /\
    (forall p, p ∈ ns.*2 -> exists y, procs s1 !! p = Some y /\ state y = ACTIVATABLE /\ sem_signal y = -3) /\
    sems s1 !! sm = None /\ (forall sm', sm' <> sm -> sems s1 !! sm' = sems s !! sm') /\
    (forall op, sem_run op id s1 = Ok (KRet (-1) [], s1)) /\
    sem_shape s1 Q1 (delete sm W) /\ counts_ok s1 (delete sm W) /\
    exists k' s2 Q2, scheduler (KRet 0 []) s1 = Ok (k', s2) /\ sched_inv s2 Q2 /\ sem_shape s2 Q2 (delete sm W).
Proof.
  intros Hpre Ha Hsh Hco Hid HW. pose proof Hpre as [Hinv [Hcur Hx Hfree Hready] _ HA _ _ _ _ _].
  destruct (sh_rep _ _ _ Hsh _ _ HW) as (x0 & Hx0 & _).
  assert (Hps : forall p, p ∈ ns.*2 -> is_Some (procs s !! p) /\ p <> c) by (intros p Hp; by eapply waiters_procs).
  destruct (unblock_all_pops s Q A W sm SDETETE_CALL ns x0) as (s1 & Q1 & A1 & E1 & Hpo); [done..|].
  pose proof (pops_pre _ _ _ _ _ _ _ _ _ _ _ _ _ _ _ Hpo Hpre ltac:(intros Hc%Hps; tauto)) as Hpre1.
  pose proof Hpo as [Hfr Hsm (x1 & Hx1 & _) Hprocs HA1 HQ1 _ Hsh1].
  set (s2 := s1 <| semaphore_table ::= delete id |> <| sems ::= delete sm |> <| currently_running_semaphores ::= fun n => n - 1 |>).
  assert (Hid1 : semaphore_table s1 !! id = Some sm) by (by rewrite Hfr).
  assert (Hsh2 : sem_shape s2 Q1 (delete sm W)).
  { apply (sem_shape_frame (s1 <| semaphore_table ::= delete id |> <| sems ::= delete sm |>) s2 Q1 Q1);
      [done..|intros; eauto|by apply sem_shape_delete]. }
  assert (Hpre2 : sched_pre s2 Q1 c x A1 L).
  { destruct Hpre1 as [Hi [? ? ? ?] ? ? ? ? ? ? ?]. split; try done. by apply (sched_inv_frame s1). }
  exists s2, Q1. split_and!; try done.
  - unfold sdelete, get_semaphore_struct. run_step (apply wp_bind, wp_gets, wp_ret; split; reflexivity). rewrite Hid.
    run_step (apply wp_gets; split; reflexivity). eapply eq_trans; [eapply run_bind; exact E1|].
    run_step (apply wp_kupd; split; reflexivity). run_step (eapply (wp_free sems); [exact Hx1|split; reflexivity]).
    run_step (apply wp_kupd; split; reflexivity). done.
  - by rewrite <- HA1.
  - intros p Hp. simpl. rewrite Hprocs, decide_True by done. destruct (Hps p Hp) as [[y Hy] _]. rewrite Hy. by eexists.
  - apply lookup_delete_eq.
  - intros sm' Hne. simpl. rewrite lookup_delete_ne by done. by apply Hsm.
  - intros op. apply no_semaphore, lookup_delete_eq.
  - intros sm' ns' x'. simpl. rewrite !lookup_delete_Some. intros [Hne HW'] [_ Hx']. rewrite Hsm in Hx' by done. by eapply Hco.
  - destruct (scheduler_sems (KRet 0 []) _ _ _ _ _ _ _ Hpre2 Hsh2) as (k' & s3 & Q3 & r & z & E3 & Hinv3 & _ & Hsh3 & _). eauto 10.
Qed.

(** The search for a waiter that is neither first nor last ends at once, with
    the first one. *)
Lemma remove_middle s sm x h n1 p1 y1 nx n3 p3 y3 nx3 pid_ :
  sems s !! sm = Some x -> list_header_process x = Some h -> head_blocked h = Some n1 -> tail_blocked h = Some n3 ->
  n1 <> n3 -> blocked_nodes s !! n1 = Some (mk_blocked p1 nx) -> blocked_nodes s !! n3 = Some (mk_blocked p3 nx3) ->
  procs s !! p1 = Some y1 -> procs s !! p3 = Some y3 -> pid y1 <> pid_ -> pid y3 <> pid_ ->
  wp (remove_proc_queue (Some sm) KILL_CALL pid_) (fun _ s' =>
    s' = s <| procs ::= <[p1 := signalled y1 KILL_CALL]> |> <| blocked_nodes ::= delete n1 |>) s.
Proof.
  intros Hx Hh Ehd Etl Hne Hn1 Hn3 Hy1 Hy3 H1 H3. unfold remove_proc_queue.
  apply wp_bind. eapply (wp_rd sems); [exact Hx|]. rewrite Hh, Ehd, Etl.
  apply wp_bind, wp_bind. eapply (wp_rd blocked_nodes); [exact Hn1|]. eapply wp_pget; [exact Hy1|].
  rewrite bool_decide_false by congruence. destruct (Z.eqb_spec (pid y1) pid_); [done|].
  apply wp_bind, wp_bind. eapply (wp_rd blocked_nodes); [exact Hn3|]. eapply wp_pget; [exact Hy3|].
  destruct (Z.eqb_spec (pid y3) pid_); [done|]. apply wp_bind, wp_gets. unfold walk_fuel. cbn [remove_search].
  apply wp_bind, wp_bind, wp_bind. eapply (wp_rd blocked_nodes); [exact Hn1|]. eapply wp_pget; [exact Hy1|].
  destruct (Z.eqb_spec (pid y1) pid_); [done|]. apply wp_ret. apply wp_bind. eapply (wp_rd blocked_nodes); [exact Hn1|].
  apply wp_bind. eapply (wp_wr blocked_nodes); [exact Hn1|]. unfold awake_blocked.
  apply wp_bind. eapply (wp_rd blocked_nodes); [apply lookup_insert_eq|]. apply wp_bind. eapply wp_pset; [exact Hy1|].
  apply wp_bind, wp_ret, wp_bind. eapply wp_pset; [apply lookup_insert_eq|].
  apply wp_bind. eapply (wp_free blocked_nodes); [apply lookup_insert_eq|]. apply wp_ret.
  unfold upd, signalled. cbn. by rewrite insert_insert_eq, delete_insert_eq.
Qed.

(** A semaphore whose first node was freed faults at the next release. *)
Lemma signal_dangling s id sm x h n1 :
  semaphore_table s !! id = Some sm -> sems s !! sm = Some x -> list_header_process x = Some h ->
  head_blocked h = Some n1 -> tail_blocked h <> Some n1 -> blocked_nodes s !! n1 = None ->
  -32768 <= count x <= -1 -> signal id s = Err BadAccess.
Proof.
  intros Hid Hx Hh Ehd Etl Hn1 Hc. unfold signal, get_semaphore_struct.
  run_step (apply wp_bind, wp_gets, wp_ret; split; reflexivity). rewrite Hid.
  run_step (eapply (wp_rd sems); [exact Hx|split; reflexivity]).
  destruct (Z.eqb_spec (count x) MAX_COUNT) as [Em|_]; [unfold MAX_COUNT in Em; lia|]. cbn zeta. rewrite wrapS_id by lia.
  run_step (eapply (wp_wr sems); [exact Hx|split; reflexivity]). destruct (Z.leb_spec (count x + 1) 0); [|lia].
  apply run_bind_err, run_bind_err. unfold unblock_process_sem.
  run_step (eapply (wp_rd sems); [apply lookup_insert_eq|split; reflexivity]). simpl. rewrite Hh, Ehd.
  rewrite bool_decide_false by congruence. apply run_bind_err, run_bind_err. unfold rd, mbind, M_bind, lift, gets. simpl.
  by rewrite Hn1.
Qed.

(** C37: killing a process that waits on a semaphore, neither first nor last
    of its waiters, frees the wrong node.  The search of [remove_proc_queue]
    stops at the first waiter whose pid differs from the one searched for, so
    the first waiter, another process, becomes activatable without being put in
    any queue, its node is freed while the list still starts with it, and the
    killed process is still among the waiters; the next [signal] on the
    semaphore reads the freed node. *)
Theorem kill_middle_waiter s Q W id sm n1 p1 n2 p2 n3 p3 ns x0 pid_ :
  sem_shape s Q W -> counts_ok s W -> semaphore_table s !! id = Some sm -> sems s !! sm = Some x0 ->
  W !! sm = Some ((n1, p1) :: ns ++ [(n3, p3)]) -> (n2, p2) ∈ ns ->
  pfield s pid p1 <> pid_ -> pfield s pid p2 = pid_ -> pfield s pid p3 <> pid_ ->
  exists s', proc_kill_diag id KILL_CALL pid_ s = Ok (0, s') /\ links s' = links s /\
    state <$> procs s' !! p1 = Some ACTIVATABLE /\ procs s' !! p2 = procs s !! p2 /\
    blocked_nodes s' !! n1 = None /\ signal id s' = Err BadAccess.
Proof.
  intros Hsh Hco Hid Hx0 HW Hin2 H1 H2 H3. destruct (Hco _ _ _ HW Hx0) as [Hlen Hr]. unfold MIN_COUNT, MAX_COUNT in Hr.
  assert (Hneg : count x0 <= -3).
  { destruct ns; [by apply elem_of_nil in Hin2|]. simpl in Hlen. rewrite length_app in Hlen. simpl in Hlen. lia. }
  destruct (sh_rep _ _ _ Hsh _ _ HW) as (x' & Hx' & [Hnd Hrep]). assert (x' = x0) as -> by congruence.
  destruct (list_header_process x0) as [h|] eqn:Eh; [|done]. destruct Hrep as [Hl Ht].
  pose proof Hl as (Ehd & nx & Hn1 & Hl'). rewrite app_comm_cons, last_snoc in Ht. simpl in Ht.
  destruct (lseg_node _ _ _ _ n3 p3 Hl) as [nx3 Hn3]; [right; apply elem_snoc_last|].
  destruct (sh_wait _ _ _ Hsh _ _ (n1, p1) HW) as (y1 & Hy1 & _); [by left|].
  destruct (sh_wait _ _ _ Hsh _ _ (n3, p3) HW) as (y3 & Hy3 & _); [right; apply elem_snoc_last|]. simpl in Hy1, Hy3.
  rewrite (pfield_eq _ _ _ _ Hy1) in H1. rewrite (pfield_eq _ _ _ _ Hy3) in H3.
  assert (Hn13 : n1 <> n3).
  { intros ->. apply NoDup_cons in Hnd as [Hnd _]. apply Hnd, (waiter_node_in _ n3 p3), elem_snoc_last. }
  assert (Hp12 : p1 <> p2).
  { intros ->. destruct (sh_disj _ _ _ Hsh _ _ _ _ (n1, p2) (n2, p2) HW HW) as [_ [= ->]]; [by left| |by right|].
    - right. by apply elem_snoc_init.
    - apply NoDup_cons in Hnd as [Hnd _]. apply Hnd, (waiter_node_in _ n2 p2), elem_snoc_init, Hin2. }
  set (x1 := x0 <| count := count x0 + 1 |>). set (s1 := s <| sems ::= <[sm := x1]> |>).
  pose proof (remove_middle s1 sm x1 h n1 p1 y1 nx n3 p3 y3 nx3 pid_ (lookup_insert_eq _ _ _) Eh Ehd Ht Hn13 Hn1 Hn3 Hy1 Hy3 H1 H3) as Hwp.
  apply wp_elim in Hwp as (r & s2 & E2 & Es2). exists s2.
  split_and!; try (rewrite Es2; simpl; rewrite ?lookup_insert_eq, ?lookup_insert_ne, ?lookup_delete_eq by done; done).
  - unfold proc_kill_diag, get_semaphore_struct. run_step (apply wp_bind, wp_gets, wp_ret; split; reflexivity). rewrite Hid.
    run_step (eapply (wp_rd sems); [exact Hx0|split; reflexivity]).
    destruct (Z.eqb_spec (count x0) MAX_COUNT) as [Em|_]; [unfold MAX_COUNT in Em; lia|]. cbn zeta. rewrite wrapS_id by lia.
    run_step (eapply (wp_wr sems); [exact Hx0|split; reflexivity]). destruct (Z.leb_spec (count x0 + 1) 0); [|lia].
    eapply eq_trans; [eapply run_bind|reflexivity]. eapply eq_trans; [eapply run_bind; exact E2|reflexivity].
  - eapply (signal_dangling s2 id sm x1 h n1); [by rewrite Es2|rewrite Es2; apply lookup_insert_eq|exact Eh|exact Ehd| | |simpl; lia].
    + rewrite Ht. congruence.
    + rewrite Es2. apply lookup_delete_eq.
Qed.

End Refinement.
