(* ===== verification/SemaphoreTable.v ===== *)
(** * SemaphoreTable: the table of semaphores

    [screate] adds a semaphore nobody waits for to the table, [sdelete] releases
    the waiters of one and takes it out. *)

From S2P Require Import Prelude.
From S2P Require Import Queue.
From S2P Require Import Kernel.
From S2P Require Import KernelRules.
From S2P Require Import Scheduler.
From S2P Require Import SchedulerSpec.
From S2P Require Import Semaphore.
From S2P Require Import SemaphoreSpec.
#[local] Open Scope Z_scope.

Section Table.
Context `{E : KEnv}.
Implicit Types (s : kstate) (Q : queues) (W : gmap ptr (list waiter)).

(** ** [screate] *)

(** The identifier of the next semaphore. *)
Definition next_semaphore s : Z := wrapS 32 (semaphore_id_counter s + 1).

(** The state with the structure of a new semaphore. *)
Definition with_semaphore s (k : Z) : kstate :=
  s <| sems ::= <[next_block s := mk_sem k None]> |> <| next_block ::= Pos.succ |> <| parent_block := false |>
    <| semaphore_id_counter := next_semaphore s |>.
Definition named_semaphore s (k : Z) : kstate :=
  with_semaphore s k <| semaphore_table ::= <[next_semaphore s := next_block s]> |> <| currently_running_semaphores ::= fun n => n + 1 |>.

Lemma screate_run s k : malloc_ok (next_block s) = true ->
  screate k s = Ok
    (if (k <? 0) || (currently_running_semaphores s =? NB_MAX_SEMS) then (-1, s)
     else if next_semaphore s <? 0 then (-1, with_semaphore s k) else (next_semaphore s, named_semaphore s k)).
Proof.
  intros Hm. unfold screate. destruct (k <? 0); [done|]. cbn [orb].
  rewrite (run_bind _ _ s (currently_running_semaphores s) s) by done. destruct (_ =? _); [done|].
  run_step (eapply (wp_malloc sems); [reflexivity|exact Hm|split; reflexivity]).
  run_step (apply wp_kput; split; reflexivity). unfold increment_semaphore_id.
  run_step (apply wp_bind, wp_kupd, wp_gets; split; reflexivity). cbn [semaphore_id_counter upd]. fold (next_semaphore s).
  destruct (next_semaphore s <? 0); [done|]. run_step (apply wp_kupd; split; reflexivity).
  run_step (apply wp_kupd; split; reflexivity). done.
Qed.

(** A semaphore nobody waits for is added. *)
Lemma sem_shape_add s s' Q W k :
  sem_shape s Q W -> sems s' = <[next_block s := mk_sem k None]> (sems s) -> blocked_nodes s' = blocked_nodes s ->
  procs s' = procs s -> next_block s' = Pos.succ (next_block s) ->
  semaphore_table s' = semaphore_table s \/ semaphore_table s' = <[next_semaphore s := next_block s]> (semaphore_table s) ->
  sem_shape s' Q (<[next_block s := []]> W).
Proof.
  intros [Hr Ht Hi Hd Hw Hn Hs] Es Eb Ep En Hl. set (p := next_block s) in *.
  assert (Hsp : sems s !! p = None).
  { destruct (sems s !! p) as [x|] eqn:Hx; [|done]. specialize (Hs p ltac:(by eexists)). unfold p in Hs. lia. }
  assert (Hold : forall sm ns w, <[p := []]> W !! sm = Some ns -> w ∈ ns -> W !! sm = Some ns).
  { intros sm ns w. rewrite lookup_insert. case_decide; [|done]. intros [= <-] Hin. by apply elem_of_nil in Hin. }
  assert (Hid : forall i sm, semaphore_table s' !! i = Some sm -> i = next_semaphore s /\ sm = p \/ semaphore_table s !! i = Some sm).
  { intros i sm. destruct Hl as [-> | ->]; [by right|]. rewrite lookup_insert. case_decide; [intros [= <-]; by left|by right]. }
  assert (Hnp : forall i, semaphore_table s !! i <> Some p).
  { intros i Hp. destruct (Ht _ _ Hp) as [ns HW]. destruct (Hr _ _ HW) as (x & Hx & _). congruence. }
  split; rewrite ?Eb, ?Ep; try done.
  - intros sm ns. rewrite Es, !lookup_insert. case_decide; [|apply Hr]. intros [= <-]. eexists. split; [done|].
    split; [constructor|done].
  - intros i sm Hsm. rewrite lookup_insert. case_decide as Epm; [by eexists|].
    destruct (Hid _ _ Hsm) as [[_ ->]|Hold']; [done|by eapply Ht].
  - intros i j sm Hsi Hsj. destruct (Hid _ _ Hsi) as [[-> ->]|Hi0], (Hid _ _ Hsj) as [[-> E2]|Hj0]; try done.
    + by apply Hnp in Hj0.
    + subst sm. by apply Hnp in Hi0.
    + by apply (Hi _ _ sm).
  - intros sm1 sm2 ns1 ns2 w1 w2 H1 H2 Hw1 Hw2. eapply Hd; by eauto.
  - intros sm ns w HW Hin. by apply (Hw sm ns w), Hin; eapply Hold.
  - intros q Hq. specialize (Hn q Hq). rewrite En. lia.
  - intros q Hq. rewrite Es, lookup_insert in Hq. rewrite En. case_decide as Eq; [subst q; unfold p; lia|].
    specialize (Hs q Hq). lia.
Qed.

Lemma counts_ok_add s s' W k : counts_ok s W -> sems s' = <[next_block s := mk_sem k None]> (sems s) ->
  0 <= k <= MAX_COUNT -> counts_ok s' (<[next_block s := []]> W).
Proof.
  intros Hco Es Hk sm ns x. rewrite Es, !lookup_insert. unfold MAX_COUNT, MIN_COUNT in *. case_decide; [|apply Hco].
  intros [= <-] [= <-]. simpl. lia.
Qed.

(** ** [sdelete] *)

(** What [sdelete] calls the scheduler on is a reset of the semaphore to 0, but
    for the semaphore itself. *)
Lemma sdelete_after s Q c x A L W id sm ns :
  sched_pre s Q c x A L -> state x = ACTIF -> sem_shape s Q W -> counts_ok s W ->
  semaphore_table s !! id = Some sm -> W !! sm = Some ns ->
  exists s1 Q1 s2, sem_after s Q W sm c A L (mk_asem 0 []) ns.*2 (-3) s1 Q1 (<[sm := []]> W) /\
    sdelete id s = scheduler (KRet 0 []) s2 /\
    s2 = s1 <| semaphore_table ::= delete id |> <| sems ::= delete sm |> <| currently_running_semaphores ::= fun n => n - 1 |> /\
    sem_shape s2 Q1 (delete sm W) /\ counts_ok s2 (delete sm W).
Proof.
  intros Hpre Ha Hsh Hco Hid HW. pose proof Hpre as [Hinv [_ Hx _ _] _ HA _ _ _ _ _].
  destruct (sh_rep _ _ _ Hsh _ _ HW) as (x0 & Hx0 & _).
  destruct (unblock_all_pops s Q A W sm SDETETE_CALL ns x0) as (s1 & Q1 & A1 & E1 & Hpo); [done..|].
  destruct (po_count _ _ _ _ _ _ _ _ _ _ _ _ Hpo) as (x1 & Hx1 & _).
  assert (Hwp : wp (wr sems (Some sm) (fun z => z <| count := 0 |>))
    (fun _ s2 => pops s Q A W sm SDETETE_CALL ns.*2 [] 0 s2 Q1 A1) s1) by (by eapply pops_wr).
  apply wp_elim in Hwp as ([] & s2 & E2 & Hpo2).
  assert (E3 : wr sems (Some sm) (fun z => z <| count := 0 |>) s1 = Ok (tt, s1 <| sems ::= <[sm := x1 <| count := 0 |>]> |>)).
  { apply wp_run. eapply (wp_wr sems); [exact Hx1|done]. }
  assert (s2 = s1 <| sems ::= <[sm := x1 <| count := 0 |>]> |>) as -> by congruence. clear E2 E3.
  set (s2 := s1 <| sems ::= <[sm := x1 <| count := 0 |>]> |>) in *.
  assert (Haft : sem_after s Q W sm c A L (mk_asem 0 []) ns.*2 (-3) s2 Q1 (<[sm := []]> W)).
  { change (mk_asem 0 []) with (mk_asem 0 (@nil waiter).*2).
    eapply pops_after; [exact Hpo2|done..|unfold MIN_COUNT, MAX_COUNT; lia|].
    intros p. rewrite app_nil_r. by eapply waiters_procs. }
  set (s3 := s2 <| semaphore_table ::= delete id |> <| sems ::= delete sm |>).
  assert (Hid2 : semaphore_table s2 !! id = Some sm) by (rewrite (po_frame _ _ _ _ _ _ _ _ _ _ _ _ Hpo2); exact Hid).
  assert (Hsh3 : sem_shape s3 Q1 (delete sm W)) by (apply sem_shape_delete; [apply Haft|done]).
  exists s2, Q1, (s3 <| currently_running_semaphores ::= fun n => n - 1 |>). split; [exact Haft|]. split; [|split; [done|split]].
  - assert (Edel : delete sm (sems s2) = delete sm (sems s1)) by apply delete_insert_eq.
    unfold sdelete, get_semaphore_struct. run_step (apply wp_bind, wp_gets, wp_ret; split; reflexivity). rewrite Hid.
    run_step (apply wp_gets; split; reflexivity). eapply eq_trans; [eapply run_bind; exact E1|].
    run_step (apply wp_kupd; split; reflexivity). run_step (eapply (wp_free sems); [exact Hx1|split; reflexivity]).
    run_step (apply wp_kupd; split; reflexivity).
    transitivity (scheduler (KRet 0 []) (s1 <| semaphore_table ::= delete id |> <| sems := delete sm (sems s1) |>
      <| currently_running_semaphores ::= fun n => n - 1 |>)); [reflexivity|by rewrite <- Edel].
  - apply (sem_shape_frame s3 _ Q1 Q1); [done..|intros; eauto|done].
  - intros sm' ns' x'. simpl. rewrite !lookup_delete_Some. intros [Hne HW'] [_ Hx'].
    apply (sa_counts _ _ _ _ _ _ _ _ _ _ _ _ _ Haft sm'); [by rewrite lookup_insert_ne|done].
Qed.

End Table.
