(* ===== verification/SemaphoreWitness.v ===== *)
(** * SemaphoreWitness: the semaphore properties on concrete states *)

From S2P Require Import Prelude.
From S2P Require Import Queue.
From S2P Require Import FrameDist.
From S2P Require Import Pages.
From S2P Require Import Kernel.
From S2P Require Import KernelRules.
From S2P Require Import ProcessFree.
From S2P Require Import Scheduler.
From S2P Require Import SchedulerSpec.
From S2P Require Import Demo.
From S2P Require Import Semaphore.
From S2P Require Import SemaphoreSpec.
#[local] Open Scope Z_scope.
#[local] Existing Instance demo_env.

(** Adding one semaphore, of identifier 7 and at address 10, to a state. *)
Definition with_sem (s : kstate) (x : semaphore_t) (bn : gmap ptr blocked_process_semaphore_t) : kstate :=
  s <| sems := <[10%positive := x]> ∅ |> <| blocked_nodes := bn |>
    <| semaphore_table := <[7 := 10%positive]> ∅ |> <| next_block := 20%positive |>.

Lemma with_sem_pre s x bn Q c y A L : sched_pre s Q c y A L -> sched_pre (with_sem s x bn) Q c y A L.
Proof. intros [Hi [? ? ? ?] ? ? ? ? ? ? ?]. split; try done. by apply (sched_inv_frame s). Qed.

Lemma with_sem_shape s x bn Q ns :
  srep bn x ns -> (forall n, is_Some (bn !! n) -> (n < 20)%positive) ->
  (forall w1 w2, w1 ∈ ns -> w2 ∈ ns -> w1.1 = w2.1 \/ w1.2 = w2.2 -> w1 = w2) ->
  (forall w, w ∈ ns -> exists y, procs s !! w.2 = Some y /\ state y = BLOCKEDSEMAPHORE /\ ~ queued Q w.2) ->
  sem_shape (with_sem s x bn) Q (<[10%positive := ns]> ∅).
Proof.
  assert (Hone : forall {B} (a b : B) sm, <[10%positive := a]> (∅ : gmap ptr B) !! sm = Some b -> sm = 10%positive /\ b = a).
  { intros B a b sm. rewrite lookup_insert. case_decide; [by intros [= <-]|by rewrite lookup_empty]. }
  intros Hr Hb Hd Hw. split; simpl.
  - intros sm ns' [-> ->]%Hone. by exists x.
  - intros id sm. rewrite lookup_insert. case_decide; [intros [= <-]; by eexists|by rewrite lookup_empty].
  - intros i j sm. rewrite !lookup_insert. repeat case_decide; try by rewrite lookup_empty. congruence.
  - intros sm1 sm2 ns1 ns2 w1 w2 [-> ->]%Hone [-> ->]%Hone ? ? ?. split; [done|]. by apply Hd.
  - intros sm ns' w [-> ->]%Hone. apply Hw.
  - exact Hb.
  - intros p [z [-> ->]%Hone]. simpl. lia.
Qed.

Lemma with_sem_counts s x bn ns :
  Z.of_nat (length ns) = Z.max 0 (- count x) -> MIN_COUNT <= count x <= MAX_COUNT ->
  counts_ok (with_sem s x bn) (<[10%positive := ns]> ∅).
Proof.
  intros Hl Hr sm ns' x'. simpl. rewrite !lookup_insert. case_decide; [by intros [= <-] [= <-]|by rewrite lookup_empty].
Qed.

(** ** Process 1 runs, 3 is ready, 2 waits on the semaphore *)
Definition one_waiter_base : kstate :=
  demo_state (demo_process 1 5 ACTIF 0) (demo_process 2 10 BLOCKEDSEMAPHORE 0) (demo_process 3 3 ACTIVATABLE 0)
    [3%positive] [] 10.
Definition one_waiter_nodes : nodes := <[11%positive := mk_blocked 2%positive None]> ∅.
Definition one_waiter : kstate :=
  with_sem one_waiter_base (mk_sem (-1) (Some (mk_header (Some 11%positive) (Some 11%positive)))) one_waiter_nodes.
Definition one_waiter_W : gmap ptr (list waiter) := <[10%positive := [(11%positive, 2%positive)]]> ∅.

Lemma one_waiter_pre :
  sched_pre one_waiter (demo_Q [3%positive] []) 1%positive (demo_process 1 5 ACTIF 0) [3%positive] [].
Proof.
  apply with_sem_pre, demo_sched_pre; [|done|set_solver].
  apply demo_sched_inv; [done..| | |simpl; repeat constructor; set_solver|]; demo_list; unfold demo_ptr; auto.
Qed.

Lemma one_waiter_shape : sem_shape one_waiter (demo_Q [3%positive] []) one_waiter_W.
Proof.
  apply with_sem_shape.
  - split; [repeat constructor; set_solver|]. simpl. split; [|done]. split; [done|]. by exists None.
  - intros n [b Hb]. unfold one_waiter_nodes in Hb. rewrite lookup_insert in Hb. case_decide; [lia|].
    by rewrite lookup_empty in Hb.
  - intros w1 w2 ->%list_elem_of_singleton ->%list_elem_of_singleton. done.
  - intros w ->%list_elem_of_singleton. eexists. split; [done|]. split; [done|]. intros Hq%demo_queued. set_solver.
Qed.

Lemma one_waiter_counts : counts_ok one_waiter one_waiter_W.
Proof. by apply with_sem_counts. Qed.

(** [signal] releases process 2. *)
Lemma semaphore_ops_refine_witness :
  exists k s1 Q1 W1, signal 7 one_waiter = scheduler k s1 /\
    sem_after one_waiter (demo_Q [3%positive] []) one_waiter_W 10%positive 1%positive [3%positive] []
      (mk_asem 0 []) [2%positive] 0 s1 Q1 W1 /\
    exists k' s2 Q2, scheduler k s1 = Ok (k', s2) /\ sched_inv s2 Q2 /\ sem_shape s2 Q2 W1 /\ counts_ok s2 W1.
Proof.
  exact (semaphore_ops_refine one_waiter _ _ _ _ _ _ 7 10%positive _ _ CallSignal one_waiter_pre eq_refl
    one_waiter_shape one_waiter_counts eq_refl eq_refl eq_refl eq_refl I).
Defined.

Lemma sdelete_releases_witness :
  exists s1 Q1, sdelete 7 one_waiter = scheduler (KRet 0 []) s1 /\
    sched_pre s1 Q1 1%positive (demo_process 1 5 ACTIF 0) [3%positive; 2%positive] [] /\
    (forall p, p ∈ [2%positive] -> exists y, procs s1 !! p = Some y /\ state y = ACTIVATABLE /\ sem_signal y = -3) /\
    sems s1 !! 10%positive = None /\ (forall sm', sm' <> 10%positive -> sems s1 !! sm' = sems one_waiter !! sm') /\
    (forall op, sem_run op 7 s1 = Ok (KRet (-1) [], s1)) /\
    sem_shape s1 Q1 (delete 10%positive one_waiter_W) /\ counts_ok s1 (delete 10%positive one_waiter_W) /\
    exists k' s2 Q2, scheduler (KRet 0 []) s1 = Ok (k', s2) /\ sched_inv s2 Q2 /\ sem_shape s2 Q2 (delete 10%positive one_waiter_W).
Proof.
  exact (sdelete_releases one_waiter _ _ _ _ _ _ 7 10%positive _ one_waiter_pre eq_refl
    one_waiter_shape one_waiter_counts eq_refl eq_refl).
Defined.

(** ** Processes 1, 2 and 3 wait, in this order; 2 is killed *)
Definition three_waiters : kstate :=
  with_sem (demo_state (demo_process 1 5 BLOCKEDSEMAPHORE 0) (demo_process 2 5 BLOCKEDSEMAPHORE 0)
      (demo_process 3 5 BLOCKEDSEMAPHORE 0) [] [] 10)
    (mk_sem (-3) (Some (mk_header (Some 11%positive) (Some 13%positive))))
    (<[11%positive := mk_blocked 1%positive (Some 12%positive)]> (<[12%positive := mk_blocked 2%positive (Some 13%positive)]>
      (<[13%positive := mk_blocked 3%positive None]> ∅))).
Definition three_waiters_W : gmap ptr (list waiter) :=
  <[10%positive := [(11%positive, 1%positive); (12%positive, 2%positive); (13%positive, 3%positive)]]> ∅.

Lemma three_waiters_shape : sem_shape three_waiters (demo_Q [] []) three_waiters_W.
Proof.
  apply with_sem_shape.
  - split; [repeat constructor; set_solver|]. simpl. split; [|done]. repeat (split; [done|]; eexists; split; [done|]). done.
  - intros n [b Hb]. rewrite !lookup_insert in Hb. repeat case_decide; try lia. by rewrite lookup_empty in Hb.
  - intros w1 w2 H1 H2. rewrite !elem_of_cons, elem_of_nil in H1, H2. destruct_or!; subst; simpl; intros; destruct_or!; done.
  - intros w H1. rewrite !elem_of_cons, elem_of_nil in H1.
    destruct_or!; subst; try done; (eexists; split; [done|]; split; [done|]; intros Hq%demo_queued; set_solver).
Qed.

Lemma kill_middle_waiter_witness :
  exists s', proc_kill_diag 7 KILL_CALL 2 three_waiters = Ok (0, s') /\ links s' = links three_waiters /\
    state <$> procs s' !! 1%positive = Some ACTIVATABLE /\ procs s' !! 2%positive = procs three_waiters !! 2%positive /\
    blocked_nodes s' !! 11%positive = None /\ signal 7 s' = Err BadAccess.
Proof.
  refine (kill_middle_waiter three_waiters _ three_waiters_W 7 10%positive 11%positive 1%positive 12%positive 2%positive
    13%positive 3%positive [(12%positive, 2%positive)] _ 2 three_waiters_shape _ eq_refl eq_refl eq_refl _ _ _ _); try done.
  - by apply with_sem_counts.
  - by left.
Defined.
