(* ===== verification/MsgQueueSpec.v ===== *)
(** * MsgQueueSpec: what the message queues promise

    The circular array of a message queue is a bounded FIFO; [psend] and
    [preceive] pass the messages through it in order, block and release the
    processes, and keep the invariant of the queue. *)

From S2P Require Import Prelude.
From S2P Require Import Queue.
From S2P Require Import FrameDist.
From S2P Require Import Pages.
From S2P Require Import Kernel.
From S2P Require Import KernelRules.
From S2P Require Import ProcessFree.
From S2P Require Import Scheduler.
From S2P Require Import SchedulerSpec.
From S2P Require Import MsgQueue.
#[local] Open Scope Z_scope.

(** ** The circular array *)

(** The array of [q] holds the messages [xs], the oldest first, in the cells
    that end before [iffc]. *)
Record mq_rep (q : msg_queue_t) (xs : list Z) : Prop := {
  mr_size : 0 <= size q < 2 ^ 29;
  mr_arr : exists arr, msg_arr q = Some arr /\ Z.of_nat (length arr) = size q /\
    forall i x, xs !! i = Some x ->
      arr !! Z.to_nat ((iffc q - Z.of_nat (length xs) + Z.of_nat i) mod size q) = Some x;
  mr_count : number_of_msgs q = Z.of_nat (length xs);
  mr_cap : Z.of_nat (length xs) <= size q;
  mr_iffc : 0 <= iffc q /\ (iffc q < size q \/ size q = 0 /\ iffc q = 0)
}.

Lemma rem_mod_pos a b : 0 <= a -> 0 < b -> Z.rem a b = a mod b.
Proof. intros. apply Z.rem_mod_nonneg; lia. Qed.

Lemma mod__mod a b : 0 < b -> mod_ a b = a mod b.
Proof.
  intros Hb. unfold mod_. pose proof (Z.rem_bound_abs a b ltac:(lia)) as Hr.
  pose proof (Z.quot_rem' a b) as Hq. destruct (Z.ltb_spec (Z.rem a b) 0).
  - apply (Z.mod_unique _ _ (Z.quot a b - 1)); [left; lia|]. nia.
  - apply (Z.mod_unique _ _ (Z.quot a b)); [left; lia|]. nia.
Qed.

Lemma mq_full q xs : mq_rep q xs -> is_full q = bool_decide (Z.of_nat (length xs) = size q).
Proof. intros [_ _ Hn _ _]. unfold is_full. rewrite Hn. by case_bool_decide; [apply Z.eqb_eq|apply Z.eqb_neq]. Qed.

Lemma mq_empty q xs : mq_rep q xs -> is_empty q = Ok (bool_decide (xs = [])).
Proof.
  intros [_ (arr & Harr & _) Hn _ _]. unfold is_empty. rewrite Harr, Hn. simpl. f_equal. by destruct xs.
Qed.

Lemma add_message_rep q xs v :
  mq_rep q xs -> Z.of_nat (length xs) < size q ->
  exists q', add_message q v = Ok q' /\ mq_rep q' (xs ++ [v]) /\ size q' = size q.
Proof.
  intros [Hs (arr & Harr & Hlen & Hcells) Hn Hcap [Hi0 Hi]] Hlt. unfold add_message. rewrite Harr. simpl.
  destruct Hi as [Hi|[? ?]]; [|lia]. destruct (Z.ltb_spec (iffc q) 0); [lia|].
  destruct (Z.leb_spec (Z.of_nat (length arr)) (iffc q)); [lia|]. simpl. eexists. split; [done|]. split; [|done].
  assert (Ei : wrapS 32 (Z.rem (wrapU 64 (iffc q + 1)) (size q)) = (iffc q + 1) mod size q).
  { rewrite wrapU_id by lia. rewrite rem_mod_pos by lia.
    pose proof (Z.mod_pos_bound (iffc q + 1) (size q) ltac:(lia)). rewrite wrapS_id; lia. }
  split; simpl; rewrite ?length_app; simpl; rewrite ?Ei.
  - done.
  - eexists. split; [done|]. split; [by rewrite length_insert|]. intros i x Hx.
    rewrite Zplus_mod, Zminus_mod, Zmod_mod, <- Zminus_mod, <- Zplus_mod.
    replace (iffc q + 1 - Z.of_nat (length xs + 1) + Z.of_nat i) with (iffc q - Z.of_nat (length xs) + Z.of_nat i) by lia.
    destruct (decide (i < length xs)%nat) as [Hlt'|Hge].
    + rewrite lookup_app_l in Hx by done. rewrite list_lookup_insert_ne; [by apply Hcells|].
      intros Eq. apply (f_equal Z.of_nat) in Eq.
      pose proof (Z.mod_pos_bound (iffc q - Z.of_nat (length xs) + Z.of_nat i) (size q) ltac:(lia)) as Hb.
      rewrite !Z2Nat.id in Eq by lia.
      pose proof (Z.div_mod (iffc q - Z.of_nat (length xs) + Z.of_nat i) (size q) ltac:(lia)) as Hdm.
      revert Eq Hb Hdm. generalize ((iffc q - Z.of_nat (length xs) + Z.of_nat i) / size q) as d.
      generalize ((iffc q - Z.of_nat (length xs) + Z.of_nat i) mod size q) as r. intros r d Er Hb Hd.
      assert (size q * d = - (Z.of_nat (length xs) - Z.of_nat i)) by lia.
      destruct (Z.le_gt_cases 0 d); nia.
    + assert (i = length xs) as -> by (apply lookup_lt_Some in Hx; rewrite length_app in Hx; simpl in Hx; lia).
      rewrite list_lookup_middle in Hx by done. simplify_eq.
      replace (iffc q - Z.of_nat (length xs) + Z.of_nat (length xs)) with (iffc q) by lia.
      rewrite Z.mod_small by lia. apply list_lookup_insert_eq. lia.
  - rewrite Hn, wrapU_id by lia. lia.
  - lia.
  - pose proof (Z.mod_pos_bound (iffc q + 1) (size q) ltac:(lia)). lia.
Qed.

Lemma pop_oldest_rep q x xs :
  mq_rep q (x :: xs) -> exists q', pop_oldest_msg q = Ok (x, q') /\ mq_rep q' xs /\ size q' = size q.
Proof.
  intros [Hs (arr & Harr & Hlen & Hcells) Hn Hcap [Hi0 Hi]]. simpl length in *. unfold pop_oldest_msg.
  destruct Hi as [Hi|[? ?]]; [|lia]. rewrite Hn, (wrapS_id 32 (Z.of_nat _)), (wrapS_id 32 (size q)), (wrapS_id 32 (_ - _)), mod__mod by lia. rewrite Harr. simpl.
  pose proof (Z.mod_pos_bound (iffc q - Z.of_nat (S (length xs))) (size q) ltac:(lia)).
  destruct (Z.ltb_spec ((iffc q - Z.of_nat (S (length xs))) mod size q) 0); [lia|].
  pose proof (Hcells 0%nat x eq_refl) as Hx. rewrite Z.add_0_r in Hx. rewrite Hx. simpl.
  eexists. split; [done|]. split; [|done]. split; simpl.
  - done.
  - eexists. split; [done|]. split; [done|]. intros i y Hy.
    replace (iffc q - Z.of_nat (length xs) + Z.of_nat i) with (iffc q - Z.of_nat (S (length xs)) + Z.of_nat (S i)) by lia.
    by apply Hcells.
  - rewrite Hn, wrapU_id by lia. lia.
  - lia.
  - lia.
Qed.

(** ** The array as a bounded FIFO *)
Inductive mq_op : Type := MqAdd (v : Z) | MqPop.

(** The operations as their callers use them: a full queue takes no message, an
    empty one gives none. *)
Fixpoint mq_run (os : list mq_op) (q : msg_queue_t) : res (list Z * msg_queue_t) :=
  match os with
  | [] => Ok ([], q)
  | MqAdd v :: os => if is_full q then mq_run os q else q ← add_message q v; mq_run os q
  | MqPop :: os =>
      e ← is_empty q;
      if (e : bool) then mq_run os q
      else '(v, q) ← pop_oldest_msg q; '(vs, q) ← mq_run os q; Ok (v :: vs, q)
  end.

Fixpoint fifo_run (cap : Z) (os : list mq_op) (xs : list Z) : list Z * list Z :=
  match os, xs with
  | [], _ => ([], xs)
  | MqAdd v :: os, _ => fifo_run cap os (if bool_decide (Z.of_nat (length xs) = cap) then xs else xs ++ [v])
  | MqPop :: os, [] => fifo_run cap os []
  | MqPop :: os, x :: xs => let '(vs, xs) := fifo_run cap os xs in (x :: vs, xs)
  end.

(** C25: the circular array of a message queue is a bounded FIFO.  From an
    array that holds the messages [xs], any sequence of [add_message] and
    [pop_oldest_msg], guarded by [is_full] and [is_empty] as in [psend] and
    [preceive], runs without an access out of the array, gives the messages in
    the order of a list of capacity [size], and ends in an array that holds
    the rest. *)
Theorem msgqueue_fifo os q xs :
  mq_rep q xs ->
  exists q', mq_run os q = Ok ((fifo_run (size q) os xs).1, q') /\ mq_rep q' (fifo_run (size q) os xs).2.
Proof.
  revert q xs. induction os as [|[v|] os IH]; intros q xs Hq; cbn [mq_run fifo_run]; [by exists q| |].
  - rewrite (mq_full q xs Hq). case_bool_decide as Hf; [by apply IH|].
    destruct (add_message_rep q xs v Hq) as (q1 & -> & Hq1 & Es); [pose proof (mr_cap _ _ Hq); lia|]. simpl.
    rewrite <- Es. by apply IH.
  - rewrite (mq_empty q xs Hq). simpl. destruct xs as [|x xs]; simpl; [by apply IH|].
    destruct (pop_oldest_rep q x xs Hq) as (q1 & -> & Hq1 & Es). simpl.
    destruct (IH q1 xs Hq1) as (q2 & -> & Hq2). simpl. rewrite Es in *. destruct (fifo_run (size q) os xs).
    by exists q2.
Qed.

Lemma msgqueue_fifo_witness :
  exists q', mq_run [MqPop; MqAdd 7; MqAdd 8; MqAdd 9; MqPop; MqPop; MqPop] (mk_msg_queue (Some [4; 5; 6]) 3 2 1) =
    Ok ([6; 4; 7; 8], q') /\ mq_rep q' [].
Proof.
  refine (msgqueue_fifo [MqPop; MqAdd 7; MqAdd 8; MqAdd 9; MqPop; MqPop; MqPop] (mk_msg_queue (Some [4; 5; 6]) 3 2 1) [6; 4] _).
  split; simpl; [lia| |done|lia|lia].
  exists [4; 5; 6]. split; [done|]. split; [done|]. intros [|[|i]] x; simpl; [by intros [= <-]..|by rewrite lookup_nil].
Defined.

(** ** Channels *)

(** The message queue [fid], at address [p], of capacity [cap], holds [xs];
    [C] and [P] are the blocked consumers and producers. *)
Record chan (s : kstate) (Q : queues) (fid : Z) (p : ptr) (cap : Z) (xs : list Z) (C P : list ptr) : Prop := {
  ch_fid : 0 <= fid < NBQUEUES;
  ch_table : all_queues s !! Z.to_nat fid = Some (Some p);
  ch_array : exists m, msg_queues s !! p = Some m /\ mq_rep m xs /\ size m = cap;
  ch_cons : Q !! blocked_cons p = Some C;
  ch_prod : Q !! blocked_prod p = Some P;
  ch_empty : C <> [] -> xs = [] /\ P = [];
  ch_full : P <> [] -> Z.of_nat (length xs) = cap
}.

Section Channels.
Context `{E : KEnv}.
Implicit Types (s : kstate) (Q : queues).

Definition pvalue s (q : ptr) : Z := default 0 ((fun y => msg_value (message y)) <$> procs s !! q).

Lemma run_valid_fid s Q fid p cap xs C P :
  chan s Q fid p cap xs C P -> valid_fid fid s = Ok (true, s) /\ queue_of fid s = Ok (Some p, s).
Proof.
  intros [Hf Ht _ _ _ _ _]. unfold valid_fid, queue_of, mbind, M_bind, gets, mret, M_ret. rewrite Ht. unfold NBQUEUES in *.
  destruct (Z.ltb_spec fid 0); [lia|]. destruct (Z.leb_spec 100 fid); [lia|]. done.
Qed.

(** The part of the state a channel depends on. *)
Lemma chan_frame s s' Q Q' fid p cap xs C C' P P' :
  chan s Q fid p cap xs C P -> all_queues s' = all_queues s -> msg_queues s' = msg_queues s ->
  Q' !! blocked_cons p = Some C' -> Q' !! blocked_prod p = Some P' ->
  (C' <> [] -> xs = [] /\ P' = []) -> (P' <> [] -> Z.of_nat (length xs) = cap) ->
  chan s' Q' fid p cap xs C' P'.
Proof. intros [? ? (m & ? & ? & ?) ? ? ? ?] Ea Em ? ? ? ?. split; rewrite ?Ea, ?Em; eauto. Qed.

(** Moving the last process [r] of the queue [h] of a channel to the ready
    queue; [y1] is what it is when it is queued, [y2] in the end. *)
Definition stored s (l : gmap (qhead + ptr) link) (r : ptr) (y : process) : kstate :=
  s <| links := l |> <| procs ::= <[r := y]> |>.

Definition same_sched (y y' : process) : Prop :=
  pid y' = pid y /\ prio y' = prio y /\ wake_time y' = wake_time y /\ context_process y' = context_process y.

Lemma stored_twice s l1 l2 r y1 y2 : stored (stored s l1 r y1) l2 r y2 = stored s l2 r y2.
Proof. exact (procs_twice (s <| links := l2 |>) r y1 y2). Qed.

Lemma release_run s Q h C r A y y1 :
  sched_inv s Q -> Q !! h = Some (C ++ [r]) -> h <> activatable_process_queue ->
  Q !! activatable_process_queue = Some A -> procs s !! r = Some y -> same_sched y y1 ->
  exists l1 l2, qout h s = Ok (Some r, s <| links := l1 |>) /\
    qadd (Some r) activatable_process_queue prio (stored s l1 r y1) = Ok (tt, stored s l2 r y1) /\
    forall y2, same_sched y y2 -> sched_inv (stored s l2 r y2)
      (<[activatable_process_queue := insert_prio (pfield s prio) r A]> (<[h := C]> Q)).
Proof.
  intros Hinv HC Hh HA Hy (E1 & E2 & E3 & E4). pose proof (si_ctx _ _ Hinv _ _ Hy) as Hctx.
  destruct (run_qout _ _ _ _ _ Hinv HC) as (l1 & Eo & Hinv1 & Hnq).
  assert (Hinv2 : sched_inv (stored s l1 r y1) (<[h := C]> Q)).
  { eapply sched_inv_proc; [exact Hinv1|exact Hy|done|done|by rewrite E4]. }
  destruct (run_qadd (stored s l1 r y1) _ activatable_process_queue A r y1 prio Hinv2) as (l2 & Ea & Hinv3);
    [by rewrite lookup_insert_ne|apply lookup_insert_eq|done|done|].
  exists l1, l2. split; [done|]. split; [exact Ea|]. intros y2 (F1 & F2 & F3 & F4).
  rewrite (insert_prio_ext _ (pfield s prio)) in Hinv3.
  - rewrite <- (stored_twice s l1 l2 r y1 y2). eapply sched_inv_proc; [exact Hinv3|apply lookup_insert_eq|congruence| |by rewrite F4].
    intros _. congruence.
  - intros q _. unfold pfield. simpl. rewrite lookup_insert. case_decide; [|done]. subst q. by rewrite Hy.
Qed.

(** The running process is not affected. *)
Lemma release_pre s Q h C r A y2 l c x L :
  sched_pre s Q c x A L -> Q !! h = Some (C ++ [r]) ->
  h <> activatable_process_queue -> h <> asleep_process_queue -> h <> dead_process_queue -> r <> c ->
  sched_inv (stored s l r y2) (<[activatable_process_queue := insert_prio (pfield s prio) r A]> (<[h := C]> Q)) ->
  sched_pre (stored s l r y2) (<[activatable_process_queue := insert_prio (pfield s prio) r A]> (<[h := C]> Q))
    c x (insert_prio (pfield s prio) r A) L.
Proof.
  intros Hpre HC H1 H2 H3 Hrc Hinv. pose proof Hpre as [_ [Hcur Hx Hfree Hready] _ HA HL _ Hdead _ _].
  eapply (sched_pre_step s); try done; rewrite ?lookup_insert_ne, ?lookup_insert_eq by done; try done.
  - simpl. by rewrite lookup_insert_ne.
  - intros Hq. eapply queued_insert in Hq as [Hq|Hq]; [| |by rewrite lookup_insert_ne].
    + apply (queued_insert _ _ _ _ _ HC) in Hq as [Hq|Hq]; [done|]. eapply queued_in; [exact HC|by apply elem_snoc_init].
    + apply elem_of_insert_prio in Hq as [->|Hq]; [done|]. by eapply (queued_in Q activatable_process_queue).
  - intros [->|Hq]%elem_of_insert_prio; [done|]. by eapply Hready.
Qed.

(** [y'] is [y] up to its state and its message. *)
Definition messaged (y y' : process) : Prop := y' = y <| state := state y' |> <| message := message y' |>.

(** The process [r] was released from the queue [h] of the channel [p], which
    is left with [B]. *)
Record handed s Q A (p : ptr) (h : qhead) B (r : ptr) s1 Q1 : Prop := {
  hd_state : exists l mq y y1, procs s !! r = Some y /\ messaged y y1 /\ state y1 = ACTIVATABLE /\
    (forall p', p' <> p -> mq !! p' = msg_queues s !! p') /\
    s1 = s <| msg_queues := mq |> <| links := l |> <| procs ::= <[r := y1]> |>;
  hd_queues : Q1 = <[activatable_process_queue := insert_prio (pfield s prio) r A]> (<[h := B]> Q)
}.

(** The running process [c] blocked itself on [h], where [B] was. *)
Record blocked_at s Q (h : qhead) B (c : ptr) (x : process) s1 Q1 (x1 : process) : Prop := {
  ba_state : exists l, s1 = s <| links := l |> <| procs ::= <[c := x1]> |>;
  ba_process : messaged x x1 /\ state x1 = BLOCKEDQUEUE /\ blocked_head (message x1) = Some h;
  ba_queues : Q1 = <[h := insert_prio (pfield s prio) c B]> Q
}.

(** A sender finds a consumer waiting. *)
Lemma psend_to_consumer s Q c x A L fid p cap xs C P r v :
  sched_pre s Q c x A L -> chan s Q fid p cap xs (C ++ [r]) P -> r <> c ->
  exists s1 Q1, psend fid v s = scheduler (KRet 0 []) s1 /\
    sched_pre s1 Q1 c x (insert_prio (pfield s prio) r A) L /\ chan s1 Q1 fid p cap xs C P /\
    resume_preceive r true s1 = Ok (KRet 0 [v], s1) /\ handed s Q A p (blocked_cons p) C r s1 Q1.
Proof.
  intros Hpre Hch Hrc. destruct (run_valid_fid _ _ _ _ _ _ _ _ Hch) as [Ev Eq].
  pose proof Hch as [_ _ (m & Hm & Hmr & _) HC HP Hne _]. destruct (Hne ltac:(by destruct C)) as [-> ->].
  pose proof Hpre as [Hinv [Hcur Hx Hfree Hready] Hk HA HL Hdue Hdead Hmain Hst].
  destruct (si_queued _ _ Hinv r) as [y Hy]; [eapply queued_in; [exact HC|apply elem_snoc_last]|].
  set (y1 := y <| state := ACTIVATABLE |>).
  set (y2 := y1 <| message ::= fun m => m <| msg_value := v |> |> <| message ::= fun m => m <| status := RECEIVED |> |>).
  destruct (release_run s Q (blocked_cons p) C r A y y1) as (l1 & l2 & E1 & E2 & Hinv2); [done..|].
  specialize (Hinv2 y2 ltac:(done)). exists (stored s l2 r y2), (<[activatable_process_queue := insert_prio (pfield s prio) r A]>
    (<[blocked_cons p := C]> Q)). split; [|split; [|split; [|split]]].
  - unfold psend. eapply eq_trans; [eapply run_bind; exact Ev|]. cbn [negb].
    eapply eq_trans; [eapply run_bind; exact Eq|]. run_step (eapply wp_lift; [done|split; reflexivity]).
    run_step (eapply (wp_rd msg_queues); [exact Hm|split; reflexivity]).
    run_step (eapply wp_lift; [by apply mq_empty|split; reflexivity]). rewrite bool_decide_true by done.
    run_step (eapply wp_qempty; [apply (si_rep _ _ Hinv)|exact HC|split; reflexivity]).
    rewrite bool_decide_false by (by destruct C). cbn [andb negb].
    eapply eq_trans; [eapply run_bind; exact E1|]. run_step (eapply wp_pset; [exact Hy|split; reflexivity]).
    eapply eq_trans; [eapply run_bind; exact E2|].
    run_step (eapply (wp_wr procs); [apply lookup_insert_eq|split; reflexivity]).
    run_step (eapply (wp_wr procs); [apply lookup_insert_eq|split; reflexivity]).
    exact (f_equal (scheduler (KRet 0 [])) (eq_trans (procs_twice (stored s l2 r y1) r _ y2) (procs_twice (s <| links := l2 |>) r y1 y2))).
  - by apply release_pre.
  - eapply chan_frame; [exact Hch|done..| | |by intros|done]; rewrite ?lookup_insert_ne, ?lookup_insert_eq by done; done.
  - unfold resume_preceive. run_step (eapply wp_pget; [apply lookup_insert_eq|split; reflexivity]). done.
  - split; [|done]. exists l2, (msg_queues s), y, y2. do 4 (split; [done|]). by destruct s.
Qed.

(** The running process blocks itself on a queue. *)
Definition queued_on (x : process) (h : qhead) : process :=
  x <| state := BLOCKEDQUEUE |> <| message ::= fun m => m <| blocked_head := Some h |> |>.

Lemma block_run s Q c x A L h C :
  sched_pre s Q c x A L -> state x = ACTIF -> Q !! h = Some C ->
  h <> activatable_process_queue -> h <> asleep_process_queue -> h <> dead_process_queue ->
  exists l, block_on_queue (Some c) h s = Ok (tt, stored s l c (queued_on x h)) /\
    sched_pre (stored s l c (queued_on x h)) (<[h := insert_prio (pfield s prio) c C]> Q) c (queued_on x h) A L.
Proof.
  intros Hpre Ha HC H1 H2 H3. pose proof Hpre as [Hinv [Hcur Hx Hfree Hready] Hk HA HL Hdue Hdead Hmain Hst].
  set (s1 := s <| procs ::= <[c := queued_on x h]> |>).
  assert (Hpre1 : sched_pre s1 Q c (queued_on x h) A L) by (by eapply (sched_pre_self s)).
  destruct (run_qadd s1 Q h C c (queued_on x h) prio) as (l & Ea & Hinv2);
    [apply Hpre1|done|apply lookup_insert_eq|by apply Hfree|done|].
  exists l. split.
  - unfold block_on_queue. run_step (eapply wp_pset; [exact Hx|split; reflexivity]).
    run_step (eapply (wp_wr procs); [apply lookup_insert_eq|split; reflexivity]).
    eapply eq_trans; [|exact Ea]. exact (f_equal (qadd (Some c) h prio) (procs_twice s c _ (queued_on x h))).
  - rewrite (insert_prio_ext _ (pfield s prio)) in Hinv2.
    2:{ intros q _. unfold pfield. simpl. rewrite lookup_insert. case_decide; [|done]. subst q. by rewrite Hx. }
    split; try done; rewrite ?lookup_insert_ne by done; try done.
    split; [done|apply lookup_insert_eq|done|]. intros A0. rewrite lookup_insert_ne by done. apply Hready.
Qed.

(** A sender finds the array full. *)
Lemma psend_full s Q c x A L fid p cap xs P v :
  sched_pre s Q c x A L -> state x = ACTIF -> chan s Q fid p cap xs [] P -> Z.of_nat (length xs) = cap ->
  exists s1 Q1 x1, psend fid v s = scheduler (KPsend c) s1 /\ sched_pre s1 Q1 c x1 A L /\
    state x1 = BLOCKEDQUEUE /\ msg_value (message x1) = v /\
    chan s1 Q1 fid p cap xs [] (insert_prio (pfield s prio) c P) /\ blocked_at s Q (blocked_prod p) P c x s1 Q1 x1.
Proof.
  intros Hpre Ha Hch Hfull. destruct (run_valid_fid _ _ _ _ _ _ _ _ Hch) as [Ev Eq].
  pose proof Hch as [_ _ (m & Hm & Hmr & Hsz) HC HP _ _].
  pose proof Hpre as [Hinv [Hcur Hx Hfree Hready] Hk HA HL Hdue Hdead Hmain Hst].
  set (x0 := x <| message ::= fun m => m <| msg_value := v |> |>).
  assert (Hpre0 : sched_pre (s <| procs ::= <[c := x0]> |>) Q c x0 A L) by (by eapply (sched_pre_self s)).
  destruct (block_run _ Q c x0 A L (blocked_prod p) P Hpre0) as (l & Eb & Hpre1); [done..|].
  rewrite (insert_prio_ext _ (pfield s prio)) in Hpre1.
  2:{ intros q _. unfold pfield. simpl. rewrite lookup_insert. case_decide; [|done]. subst q. by rewrite Hx. }
  eexists _, _, _. split; [|split; [exact Hpre1|split; [done|split; [done|split]]]].
  - unfold psend. eapply eq_trans; [eapply run_bind; exact Ev|]. cbn [negb].
    eapply eq_trans; [eapply run_bind; exact Eq|]. run_step (eapply wp_lift; [done|split; reflexivity]).
    run_step (eapply (wp_rd msg_queues); [exact Hm|split; reflexivity]).
    run_step (eapply wp_lift; [by apply mq_empty|split; reflexivity]).
    eapply eq_trans; [eapply (run_bind _ _ _ true s)|].
    { case_bool_decide; [|done]. apply wp_run. eapply wp_qempty; [apply (si_rep _ _ Hinv)|exact HC|done]. }
    cbn [negb]. rewrite andb_false_r, (mq_full m xs), bool_decide_true by (done || congruence).
    run_step (apply wp_get_current; rewrite Hcur; split; reflexivity).
    run_step (eapply (wp_wr procs); [exact Hx|split; reflexivity]).
    eapply eq_trans; [eapply run_bind; exact Eb|]. run_step (eapply wp_lift; [done|split; reflexivity]). done.
  - eapply chan_frame; [exact Hch|done..| | |done|done]; rewrite ?lookup_insert_ne, ?lookup_insert_eq by done; done.
  - split; [|done|done]. exists l. exact (procs_twice (s <| links := l |>) c x0 (queued_on x0 (blocked_prod p))).
Qed.

(** A sender finds room. *)
Lemma psend_room s Q c x A L fid p cap xs P v :
  sched_pre s Q c x A L -> chan s Q fid p cap xs [] P -> Z.of_nat (length xs) < cap ->
  exists s1, psend fid v s = Ok (KRet 0 [], s1) /\ sched_pre s1 Q c x A L /\ chan s1 Q fid p cap (xs ++ [v]) [] [] /\
    exists m', s1 = s <| msg_queues ::= <[p := m']> |>.
Proof.
  intros Hpre Hch Hroom. destruct (run_valid_fid _ _ _ _ _ _ _ _ Hch) as [Ev Eq].
  pose proof Hch as [Hf Ht (m & Hm & Hmr & Hsz) HC HP _ Hfull]. assert (P = []) as ->.
  { destruct P; [done|]. specialize (Hfull ltac:(done)). lia. }
  pose proof Hpre as [Hinv [Hcur Hx Hfree Hready] Hk HA HL Hdue Hdead Hmain Hst].
  destruct (add_message_rep m xs v Hmr) as (m' & Em & Hmr' & Hsz'); [lia|].
  exists (s <| msg_queues ::= <[p := m']> |>). split; [|split; [|split; [|by exists m']]].
  - unfold psend. eapply eq_trans; [eapply run_bind; exact Ev|]. cbn [negb].
    eapply eq_trans; [eapply run_bind; exact Eq|]. run_step (eapply wp_lift; [done|split; reflexivity]).
    run_step (eapply (wp_rd msg_queues); [exact Hm|split; reflexivity]).
    run_step (eapply wp_lift; [by apply mq_empty|split; reflexivity]).
    eapply eq_trans; [eapply (run_bind _ _ _ true s)|].
    { case_bool_decide; [|done]. apply wp_run. eapply wp_qempty; [apply (si_rep _ _ Hinv)|exact HC|done]. }
    cbn [negb]. rewrite andb_false_r, (mq_full m xs), bool_decide_false by (done || lia).
    unfold with_queue. eapply eq_trans; [eapply run_bind|reflexivity].
    run_step (eapply (wp_rd msg_queues); [exact Hm|split; reflexivity]). rewrite Em. simpl.
    run_step (eapply wp_lift; [done|split; reflexivity]).
    run_step (eapply (wp_wr msg_queues); [exact Hm|split; reflexivity]). done.
  - eapply (sched_pre_step s); try done; [by apply (sched_inv_frame s)|by apply Hready].
  - split; try done. exists m'. simpl. rewrite lookup_insert_eq. split; [done|]. split; [done|congruence].
Qed.

(** ** Receiving *)

(** The common start of [preceive]. *)
Lemma preceive_enter s Q fid p cap xs C P want m :
  sched_inv s Q -> chan s Q fid p cap xs C P -> msg_queues s !! p = Some m -> mq_rep m xs ->
  preceive fid want s =
    (if bool_decide (xs = []) && negb (bool_decide (P = [])) then
      blocked ← qout (blocked_prod p);
      _ ← set_status blocked SENT;
      v ← pget blocked message;
      _ ← qadd blocked activatable_process_queue prio;
      scheduler (KRet SUCCES (out_msg want (msg_value v)))
    else if bool_decide (xs = []) then
      q ← get_current_process;
      _ ← block_on_queue q (blocked_cons p);
      q ← lift (deref q);
      scheduler (KPreceive q want)
    else if is_full m && negb (bool_decide (P = [])) then
      msg ← with_queue (Some p) pop_oldest_msg;
      blocked ← qout (blocked_prod p);
      v ← pget blocked message;
      _ ← with_queue (Some p) (fun m => m ← add_message m (msg_value v); Ok (tt, m));
      _ ← set_status blocked SENT;
      _ ← pset blocked state ACTIVATABLE;
      _ ← qadd blocked activatable_process_queue prio;
      scheduler (KRet SUCCES (out_msg want msg))
    else
      msg ← with_queue (Some p) pop_oldest_msg;
      mret (KRet SUCCES (out_msg want msg))) s.
Proof.
  intros Hinv Hch Hm Hmr. destruct (run_valid_fid _ _ _ _ _ _ _ _ Hch) as [Ev Eq]. pose proof Hch as [_ _ _ HC HP _ _].
  unfold preceive. eapply eq_trans; [eapply run_bind; exact Ev|]. cbn [negb].
  eapply eq_trans; [eapply run_bind; exact Eq|]. run_step (eapply wp_lift; [done|split; reflexivity]).
  run_step (eapply (wp_rd msg_queues); [exact Hm|split; reflexivity]).
  run_step (eapply wp_lift; [by apply mq_empty|split; reflexivity]).
  run_step (eapply wp_qempty; [apply (si_rep _ _ Hinv)|exact HP|split; reflexivity]). done.
Qed.

Lemma run_with_queue {A} s p m f (a : A) m' :
  msg_queues s !! p = Some m -> f m = Ok (a, m') ->
  with_queue (Some p) f s = Ok (a, s <| msg_queues ::= <[p := m']> |>).
Proof.
  intros Hm Hf. unfold with_queue. run_step (eapply (wp_rd msg_queues); [exact Hm|split; reflexivity]).
  run_step (eapply wp_lift; [exact Hf|split; reflexivity]).
  run_step (eapply (wp_wr msg_queues); [exact Hm|split; reflexivity]). done.
Qed.

(** A receiver finds messages and no producer. *)
Lemma preceive_message s Q c x A L fid p cap v xs want :
  sched_pre s Q c x A L -> chan s Q fid p cap (v :: xs) [] [] ->
  exists s1, preceive fid want s = Ok (KRet 0 (out_msg want v), s1) /\ sched_pre s1 Q c x A L /\ chan s1 Q fid p cap xs [] [] /\
    exists m', s1 = s <| msg_queues ::= <[p := m']> |>.
Proof.
  intros Hpre Hch. pose proof Hch as [Hf Ht (m & Hm & Hmr & Hsz) HC HP _ _].
  pose proof Hpre as [Hinv [_ Hx _ Hready] _ HA HL _ Hdead _ _].
  destruct (pop_oldest_rep m v xs Hmr) as (m' & Em & Hmr' & Hsz').
  exists (s <| msg_queues ::= <[p := m']> |>). split; [|split; [|split; [|by exists m']]].
  - rewrite (preceive_enter _ _ _ _ _ _ _ _ _ _ Hinv Hch Hm Hmr). rewrite bool_decide_false by done.
    rewrite bool_decide_true by done. cbn [andb negb]. rewrite andb_false_r.
    eapply eq_trans; [eapply run_bind, run_with_queue; done|done].
  - eapply (sched_pre_step s); try done; [by apply (sched_inv_frame s)|by apply Hready].
  - split; try done. exists m'. simpl. rewrite lookup_insert_eq. split; [done|]. split; [done|congruence].
Qed.

(** A receiver finds nothing. *)
Lemma preceive_blocks s Q c x A L fid p cap C want :
  sched_pre s Q c x A L -> state x = ACTIF -> chan s Q fid p cap [] C [] ->
  exists s1 Q1 x1, preceive fid want s = scheduler (KPreceive c want) s1 /\ sched_pre s1 Q1 c x1 A L /\
    state x1 = BLOCKEDQUEUE /\ chan s1 Q1 fid p cap [] (insert_prio (pfield s prio) c C) [] /\
    blocked_at s Q (blocked_cons p) C c x s1 Q1 x1.
Proof.
  intros Hpre Ha Hch. pose proof Hch as [Hf Ht (m & Hm & Hmr & Hsz) HC HP _ _].
  pose proof Hpre as [Hinv [Hcur _ _ _] _ HA HL _ _ _ _].
  destruct (block_run s Q c x A L (blocked_cons p) C Hpre) as (l & Eb & Hpre1); [done..|].
  eexists _, _, _. split; [|split; [exact Hpre1|split; [done|split]]].
  - rewrite (preceive_enter _ _ _ _ _ _ _ _ _ _ Hinv Hch Hm Hmr). rewrite !bool_decide_true by done. cbn [andb negb].
    run_step (apply wp_get_current; rewrite Hcur; split; reflexivity).
    eapply eq_trans; [eapply run_bind; exact Eb|]. run_step (eapply wp_lift; [done|split; reflexivity]). done.
  - eapply chan_frame; [exact Hch|done..| | |done|done]; rewrite ?lookup_insert_ne, ?lookup_insert_eq by done; done.
  - split; [|done|done]. by exists l.
Qed.

(** A receiver of a queue without cells takes the message of a producer. *)
Lemma preceive_rendezvous s Q c x A L fid p cap C P w :
  sched_pre s Q c x A L -> chan s Q fid p cap [] C (P ++ [w]) -> w <> c ->
  exists s1 Q1, preceive fid true s = scheduler (KRet 0 [pvalue s w]) s1 /\
    sched_pre s1 Q1 c x (insert_prio (pfield s prio) w A) L /\ chan s1 Q1 fid p cap [] C P /\
    resume_psend w s1 = Ok (KRet 0 [], s1).
Proof.
  intros Hpre Hch Hwc. pose proof Hch as [Hf Ht (m & Hm & Hmr & Hsz) HC HP Hne Hfull].
  assert (C = []) as -> by (destruct C; [done|]; destruct (Hne ltac:(done)) as [_ ?]; by destruct P).
  pose proof Hpre as [Hinv [Hcur _ _ _] _ HA HL _ _ _ _].
  destruct (si_queued _ _ Hinv w) as [y Hy]; [eapply queued_in; [exact HP|apply elem_snoc_last]|].
  set (y1 := y <| message ::= fun m => m <| status := SENT |> |>).
  destruct (release_run s Q (blocked_prod p) P w A y y1) as (l1 & l2 & E1 & E2 & Hinv2); [done..|].
  specialize (Hinv2 y1 ltac:(done)). eexists (stored s l2 w y1), _. split; [|split; [by apply release_pre|split]].
  - rewrite (preceive_enter _ _ _ _ _ _ _ _ _ _ Hinv Hch Hm Hmr). rewrite bool_decide_true by done.
    rewrite bool_decide_false by (by destruct P). cbn [andb negb].
    eapply eq_trans; [eapply run_bind; exact E1|].
    run_step (eapply (wp_wr procs); [exact Hy|split; reflexivity]).
    run_step (eapply wp_pget; [apply lookup_insert_eq|split; reflexivity]).
    eapply eq_trans; [eapply run_bind; exact E2|]. unfold pvalue. by rewrite Hy.
  - eapply chan_frame; [exact Hch|done..| | |done|]; rewrite ?lookup_insert_ne, ?lookup_insert_eq by done; try done.
    intros _. apply Hfull. by destruct P.
  - unfold resume_psend. run_step (eapply wp_pget; [apply lookup_insert_eq|split; reflexivity]). done.
Qed.

(** A receiver finds a full array and a producer. *)
Lemma preceive_full s Q c x A L fid p cap v xs C P w want :
  sched_pre s Q c x A L -> chan s Q fid p cap (v :: xs) C (P ++ [w]) -> w <> c ->
  exists s1 Q1, preceive fid want s = scheduler (KRet 0 (out_msg want v)) s1 /\
    sched_pre s1 Q1 c x (insert_prio (pfield s prio) w A) L /\ chan s1 Q1 fid p cap (xs ++ [pvalue s w]) C P /\
    resume_psend w s1 = Ok (KRet 0 [], s1) /\ handed s Q A p (blocked_prod p) P w s1 Q1.
Proof.
  intros Hpre Hch Hwc. pose proof Hch as [Hf Ht (m & Hm & Hmr & Hsz) HC HP Hne Hfull].
  assert (C = []) as -> by (destruct C; [done|]; by destruct (Hne ltac:(done))).
  specialize (Hfull ltac:(by destruct P)). simpl in Hfull.
  pose proof Hpre as [Hinv [Hcur Hx _ Hready] _ HA HL _ Hdead _ _].
  destruct (si_queued _ _ Hinv w) as [y Hy]; [eapply queued_in; [exact HP|apply elem_snoc_last]|].
  assert (Ev : pvalue s w = msg_value (message y)) by (unfold pvalue; by rewrite Hy).
  destruct (pop_oldest_rep m v xs Hmr) as (m1 & Em1 & Hmr1 & Hsz1).
  destruct (add_message_rep m1 xs (pvalue s w) Hmr1) as (m2 & Em2 & Hmr2 & Hsz2); [lia|].
  set (s0 := s <| msg_queues ::= <[p := m1]> |> <| msg_queues ::= <[p := m2]> |>).
  set (y1 := y <| message ::= fun m => m <| status := SENT |> |> <| state := ACTIVATABLE |>).
  assert (Hpre0 : sched_pre s0 Q c x A L).
  { eapply (sched_pre_step s); try done; [by apply (sched_inv_frame s)|by apply Hready]. }
  destruct (release_run s0 Q (blocked_prod p) P w A y y1) as (l1 & l2 & E1 & E2 & Hinv2); [apply Hpre0|done..|].
  specialize (Hinv2 y1 ltac:(done)). eexists (stored s0 l2 w y1), _.
  split; [|split; [exact (release_pre s0 _ _ _ _ _ _ _ _ _ _ Hpre0 HP ltac:(done) ltac:(done) ltac:(done) Hwc Hinv2)|split; [|split]]].
  - rewrite (preceive_enter _ _ _ _ _ _ _ _ _ _ Hinv Hch Hm Hmr). rewrite bool_decide_false by done.
    cbn [andb]. rewrite (mq_full m _ Hmr), bool_decide_true by (cbn [length]; lia). rewrite bool_decide_false by (by destruct P). cbn [andb negb].
    eapply eq_trans; [eapply run_bind, run_with_queue; [exact Hm|exact Em1]|].
    eapply eq_trans; [eapply run_bind, (qout_frame _ _ l1 s0); [exact E1|done]|].
    run_step (eapply wp_pget; [exact Hy|split; reflexivity]).
    eapply eq_trans; [eapply run_bind, run_with_queue; [apply lookup_insert_eq|by rewrite <- Ev, Em2]|].
    run_step (eapply (wp_wr procs); [exact Hy|split; reflexivity]).
    run_step (eapply wp_pset; [apply lookup_insert_eq|split; reflexivity]).
    eapply eq_trans; [eapply run_bind|reflexivity]. eapply eq_trans; [|exact E2].
    exact (f_equal (qadd (Some w) activatable_process_queue prio) (procs_twice (s0 <| links := l1 |>) w _ y1)).
  - split; try done; rewrite ?lookup_insert_ne, ?lookup_insert_eq by done; try done.
    + exists m2. simpl. rewrite lookup_insert_eq. split; [done|]. split; [done|congruence].
    + intros _. rewrite length_app. simpl. lia.
  - unfold resume_psend. run_step (eapply wp_pget; [apply lookup_insert_eq|split; reflexivity]). done.
  - split; [|done]. exists l2, (<[p := m2]> (<[p := m1]> (msg_queues s))), y, y1. do 3 (split; [done|]). split; [|done].
    intros p' Hp'. by rewrite !lookup_insert_ne.
Qed.

(** The scheduler leaves the channels alone. *)
Definition goes_on (k : kont) s fid p cap xs C P : Prop :=
  exists k' s' Q', scheduler k s = Ok (k', s') /\ sched_inv s' Q' /\ chan s' Q' fid p cap xs C P.

Lemma scheduler_chan k s Q c x A L fid p cap xs C P :
  sched_pre s Q c x A L -> chan s Q fid p cap xs C P -> goes_on k s fid p cap xs C P.
Proof.
  intros Hpre Hch. destruct (wake_ready (pfield s wake_time) (pfield s prio) (counter s) (reverse L) A) as [rs A1] eqn:Ew.
  pose proof (scheduler_spec k _ _ _ _ _ _ _ _ Hpre Ew) as Hwp.
  apply wp_elim in Hwp as (k' & s' & Erun & l & Hinv1 & Hrun1 & Hsel). pose proof Hch as [_ _ _ HC HP Hne Hfull].
  destruct (chosen s x A1) as [t|].
  - destruct Hsel as (y & B & -> & Hy & -> & Hsw). destruct Hsw as [_ Hfr Hinv2].
    eexists _, s', _. split; [done|]. split; [exact Hinv2|]. unfold woken.
    eapply chan_frame; [exact Hch|rewrite Hfr; done|rewrite Hfr; done| | |done|done]; by rewrite !lookup_insert_ne.
  - destruct Hsel as [-> ->]. eexists _, _, _. split; [done|]. split; [exact Hinv1|]. unfold woken.
    eapply chan_frame; [exact Hch|done|done| | |done|done]; by rewrite !lookup_insert_ne.
Qed.

Lemma blocked_not_running s Q c x A L h B r :
  sched_pre s Q c x A L -> state x = ACTIF -> Q !! h = Some B -> r ∈ B -> r <> c.
Proof.
  intros [_ [_ _ Hfree _] _ _ _ _ _ _ _] Ha HB Hr ->. apply (Hfree Ha). by eapply queued_in.
Qed.

(** C14: [psend] of [v] by the running process.  If a consumer is blocked, the
    one of highest priority (the longest blocked of them) is made ready and its
    [preceive] will return [v]; otherwise, if the array is full, the caller is
    blocked among the producers with its message; otherwise [v] is the newest
    message of the array and the call returns at once.  In each case the
    invariant of the channel is kept, through the call of the scheduler. *)
Theorem psend_refines s Q c x A L fid p cap xs C P v :
  sched_pre s Q c x A L -> state x = ACTIF -> chan s Q fid p cap xs C P ->
  (forall C' r, C = C' ++ [r] -> exists s1 Q1, psend fid v s = scheduler (KRet 0 []) s1 /\
    sched_pre s1 Q1 c x (insert_prio (pfield s prio) r A) L /\
    resume_preceive r true s1 = Ok (KRet 0 [v], s1) /\ goes_on (KRet 0 []) s1 fid p cap xs C' P) /\
  (C = [] -> Z.of_nat (length xs) = cap -> exists s1 Q1 x1, psend fid v s = scheduler (KPsend c) s1 /\
    sched_pre s1 Q1 c x1 A L /\ state x1 = BLOCKEDQUEUE /\ msg_value (message x1) = v /\
    goes_on (KPsend c) s1 fid p cap xs [] (insert_prio (pfield s prio) c P)) /\
  (C = [] -> Z.of_nat (length xs) < cap -> exists s1, psend fid v s = Ok (KRet 0 [], s1) /\
    sched_pre s1 Q c x A L /\ chan s1 Q fid p cap (xs ++ [v]) [] []).
Proof.
  intros Hpre Ha Hch. split_and!.
  - intros C' r ->. assert (r <> c).
    { eapply blocked_not_running; [done..|apply (ch_cons _ _ _ _ _ _ _ _ Hch)|apply elem_snoc_last]. }
    destruct (psend_to_consumer s Q c x A L fid p cap xs C' P r v) as (s1 & Q1 & E1 & Hpre1 & Hch1 & Er & _); [done..|].
    exists s1, Q1. split_and!; [done..|]. by eapply scheduler_chan.
  - intros -> Hfull. destruct (psend_full s Q c x A L fid p cap xs P v) as (s1 & Q1 & x1 & E1 & Hpre1 & Hst & Hv & Hch1 & _); [done..|].
    exists s1, Q1, x1. split_and!; [done..|]. by eapply scheduler_chan.
  - intros -> Hroom. destruct (psend_room s Q c x A L fid p cap xs P v) as (s1 & E1 & Hpre1 & Hch1 & _); [done..|]. by exists s1.
Qed.

(** C15: [preceive] by the running process.  From a non-empty array it gives
    the oldest message; if a producer was blocked, the one of highest priority
    is made ready, its [psend] will return 0, and its message is now the newest
    of the array (or, in a queue without cells, the one that is received);
    from an empty array without producers the caller is blocked among the
    consumers.  The invariant of the channel is kept. *)
Theorem preceive_refines s Q c x A L fid p cap xs C P :
  sched_pre s Q c x A L -> state x = ACTIF -> chan s Q fid p cap xs C P ->
  (xs = [] -> P = [] -> exists s1 Q1 x1, preceive fid true s = scheduler (KPreceive c true) s1 /\
    sched_pre s1 Q1 c x1 A L /\ state x1 = BLOCKEDQUEUE /\
    goes_on (KPreceive c true) s1 fid p cap [] (insert_prio (pfield s prio) c C) []) /\
  (forall P' w, P = P' ++ [w] -> exists s1 Q1,
    preceive fid true s = scheduler (KRet 0 [hd (pvalue s w) xs]) s1 /\
    sched_pre s1 Q1 c x (insert_prio (pfield s prio) w A) L /\ resume_psend w s1 = Ok (KRet 0 [], s1) /\
    goes_on (KRet 0 [hd (pvalue s w) xs]) s1 fid p cap (tail (xs ++ [pvalue s w])) C P') /\
  (forall v xs', xs = v :: xs' -> P = [] -> exists s1, preceive fid true s = Ok (KRet 0 [v], s1) /\
    sched_pre s1 Q c x A L /\ chan s1 Q fid p cap xs' [] []).
Proof.
  intros Hpre Ha Hch. split_and!.
  - intros -> ->. destruct (preceive_blocks s Q c x A L fid p cap C true) as (s1 & Q1 & x1 & E1 & Hpre1 & Hst & Hch1 & _); [done..|].
    exists s1, Q1, x1. split_and!; [done..|]. by eapply scheduler_chan.
  - intros P' w ->. assert (w <> c).
    { eapply blocked_not_running; [done..|apply (ch_prod _ _ _ _ _ _ _ _ Hch)|apply elem_snoc_last]. }
    destruct xs as [|v xs].
    + destruct (preceive_rendezvous s Q c x A L fid p cap C P' w) as (s1 & Q1 & E1 & Hpre1 & Hch1 & Er); [done..|].
      exists s1, Q1. split_and!; [done..|]. by eapply scheduler_chan.
    + destruct (preceive_full s Q c x A L fid p cap v xs C P' w true) as (s1 & Q1 & E1 & Hpre1 & Hch1 & Er & _); [done..|].
      exists s1, Q1. split_and!; [done..|]. by eapply scheduler_chan.
  - intros v xs' -> ->. assert (C = []) as ->.
    { destruct C; [done|]. by destruct (ch_empty _ _ _ _ _ _ _ _ Hch ltac:(done)). }
    destruct (preceive_message s Q c x A L fid p cap v xs' true) as (s1 & E1 & Hpre1 & Hch1 & _); [done..|]. by exists s1.
Qed.

End Channels.
