(* ===== verification/ChannelSpec.v ===== *)
(** * ChannelSpec: all the message queues together

    The table of the message queues, the queues of blocked processes it stands
    for, and the processes that are blocked in them; what each call does to
    them. *)

From S2P Require Import Prelude.
From S2P Require Import Queue.
From S2P Require Import FrameDist.
From S2P Require Import Pages.
From S2P Require Import Kernel.
From S2P Require Import KernelRules.
From S2P Require Import ProcessFree.
From S2P Require Import Scheduler.
From S2P Require Import SchedulerSpec.
From S2P Require Import MsgQueue.
From S2P Require Import MsgQueueSpec.
#[local] Open Scope Z_scope.

(** [h] is a queue of blocked processes of the message queue at [p]. *)
Definition chan_head (h : qhead) (p : ptr) : Prop := h = blocked_cons p \/ h = blocked_prod p.

Lemma chan_head_main h p : chan_head h p ->
  h <> activatable_process_queue /\ h <> asleep_process_queue /\ h <> dead_process_queue.
Proof. by intros [-> | ->]. Qed.

Lemma chan_head_inj h p p' : chan_head h p -> chan_head h p' -> p = p'.
Proof. intros [-> | ->] [E|E]; congruence. Qed.

Section Channels.
Context `{E : KEnv}.
Implicit Types (s : kstate) (Q : queues) (p : ptr) (h : qhead).

(** The message queues of the table are apart, each is a channel with room for
    a message, and a process is [BLOCKEDQUEUE] exactly when it is in the queue
    it names.  The channel [o], if any, is being emptied. *)
Record chans_except (o : option ptr) s Q : Prop := {
  co_length : length (all_queues s) = 100%nat;
  co_chan : forall i p, all_queues s !! i = Some (Some p) -> Some p <> o ->
    exists cap xs C P, chan s Q (Z.of_nat i) p cap xs C P /\ 0 < cap;
  co_inj : forall i j p, all_queues s !! i = Some (Some p) -> all_queues s !! j = Some (Some p) -> i = j;
  co_known : forall h p, chan_head h p -> is_Some (Q !! h) <-> exists i, all_queues s !! i = Some (Some p);
  co_fresh : forall i p, all_queues s !! i = Some (Some p) -> (p < next_block s)%positive;
  co_blocked : forall q z, procs s !! q = Some z -> state z = BLOCKEDQUEUE ->
    exists h p B, chan_head h p /\ blocked_head (message z) = Some h /\ Q !! h = Some B /\ q ∈ B;
  co_waiting : forall h p B q, chan_head h p -> Q !! h = Some B -> q ∈ B ->
    exists z, procs s !! q = Some z /\ state z = BLOCKEDQUEUE /\ blocked_head (message z) = Some h
}.
Definition chans_ok s Q : Prop := chans_except None s Q.

(** The table at the start. *)
Lemma no_chans s Q : all_queues s = replicate 100 None -> (forall h p, chan_head h p -> Q !! h = None) ->
  (forall q z, procs s !! q = Some z -> state z <> BLOCKEDQUEUE) -> chans_ok s Q.
Proof.
  intros Ea HQ Hq. assert (Hno : forall i p, all_queues s !! i <> Some (Some p)).
  { intros i p. rewrite Ea. intros [? _]%lookup_replicate. done. }
  split; try (by intros i p Hi%Hno); try (by intros i j p Hi%Hno).
  - by rewrite Ea.
  - intros h p Hh. rewrite (HQ h p Hh). split; [by intros ?%is_Some_None|by intros [i Hi%Hno]].
  - intros q z Hz Hs. by destruct (Hq q z Hz).
  - intros h p B q Hh. by rewrite (HQ h p Hh).
Qed.

(** The part of the state one channel depends on. *)
Lemma chan_other s s' Q Q' fid p cap xs C P :
  all_queues s' = all_queues s -> msg_queues s' !! p = msg_queues s !! p ->
  (forall h, chan_head h p -> Q' !! h = Q !! h) -> chan s Q fid p cap xs C P -> chan s' Q' fid p cap xs C P.
Proof.
  intros Ea Em Eq [? ? (m & Hm & ?) ? ? ? ?]. split; rewrite ?Ea, ?Eq by (by left + by right); try done.
  exists m. by rewrite Em.
Qed.

Definition blocked_same s s' : Prop := forall q,
  (forall z', procs s' !! q = Some z' -> state z' = BLOCKEDQUEUE ->
    exists z, procs s !! q = Some z /\ state z = BLOCKEDQUEUE /\ blocked_head (message z') = blocked_head (message z)) /\
  (forall z, procs s !! q = Some z -> state z = BLOCKEDQUEUE ->
    exists z', procs s' !! q = Some z' /\ state z' = BLOCKEDQUEUE /\ blocked_head (message z') = blocked_head (message z)).

(** Calls that leave the message queues alone. *)
Lemma chans_frame o s s' Q Q' :
  chans_except o s Q -> all_queues s' = all_queues s -> msg_queues s' = msg_queues s -> (next_block s <= next_block s')%positive ->
  (forall h p, chan_head h p -> Q' !! h = Q !! h) -> blocked_same s s' -> chans_except o s' Q'.
Proof.
  intros [H1 H2 H3 H4 H5 H6 H7] Ea Em Eb Eq Hsame. split; rewrite ?Ea; try done.
  - intros i p Hi Hp. destruct (H2 i p Hi Hp) as (cap & xs & C & P & Hch & Hcap). exists cap, xs, C, P. split; [|done].
    eapply chan_other; [done|by rewrite Em|by intros h Hh; eapply Eq|done].
  - intros h p Hh. by rewrite (Eq h p Hh), H4.
  - intros i p Hi. specialize (H5 i p Hi). lia.
  - intros q z' Hz' Hs. destruct (proj1 (Hsame q) z' Hz' Hs) as (z & Hz & Hs0 & Em'). rewrite Em'.
    destruct (H6 q z Hz Hs0) as (h & p & B & Hh & Hb & HB & Hq). exists h, p, B. by rewrite (Eq h p Hh).
  - intros h p B q Hh HB Hq. rewrite (Eq h p Hh) in HB. destruct (H7 h p B q Hh HB Hq) as (z & Hz & Hs & Hb).
    destruct (proj2 (Hsame q) z Hz Hs) as (z' & Hz' & Hs' & Em'). exists z'. by rewrite Em'.
Qed.

Lemma blocked_same_refl s s' : procs s' = procs s -> blocked_same s s'.
Proof. intros Ep q. rewrite Ep. split; intros z Hz Hs; by exists z. Qed.

(** One process changes, that is not blocked before or after. *)
Lemma blocked_same_one s s' q z z' : procs s' = <[q := z']> (procs s) -> procs s !! q = Some z ->
  (state z' = BLOCKEDQUEUE <-> state z = BLOCKEDQUEUE) -> blocked_head (message z') = blocked_head (message z) -> blocked_same s s'.
Proof.
  intros Ep Hz Hs Hm r. rewrite Ep, lookup_insert. case_decide as Er; [subst r; rewrite Hz|by split; intros y Hy ?; exists y].
  split; intros y [= <-] Hy; eexists; (split; [done|]); (split; [tauto|congruence]).
Qed.

(** ** The steps of the calls *)

Lemma messaged_state y y' : messaged y y' -> pid y' = pid y /\ prio y' = prio y /\ context_process y' = context_process y /\
  wake_time y' = wake_time y /\ children_tail y' = children_tail y /\ page_table_level_2 y' = page_table_level_2 y.
Proof. by intros ->. Qed.

(** A process is released. *)
Lemma chans_handed o s Q A i p h B r s1 Q1 :
  chans_except o s Q -> rep (links s) Q -> all_queues s !! i = Some (Some p) -> chan_head h p -> Q !! h = Some (B ++ [r]) ->
  handed s Q A p h B r s1 Q1 ->
  (Some p <> o -> exists cap xs C P, chan s1 Q1 (Z.of_nat i) p cap xs C P /\ 0 < cap) -> chans_except o s1 Q1.
Proof.
  intros [H1 H2 H3 H4 H5 H6 H7] Hrep Hi Hh HB [(l & mq & y & y1 & Hy & Hm & Hs1 & Hmq & Es) EQ] Hp.
  destruct (chan_head_main h p Hh) as (Hh1 & _). destruct (rep_ring _ _ Hrep _ _ HB) as [_ Hnd].
  assert (EQ1 : forall h', h' <> activatable_process_queue -> h' <> h -> Q1 !! h' = Q !! h').
  { intros h' ? ?. by rewrite EQ, !lookup_insert_ne. }
  assert (EQh : Q1 !! h = Some B) by (by rewrite EQ, lookup_insert_ne, lookup_insert_eq).
  assert (Ea : all_queues s1 = all_queues s) by (by rewrite Es). split; rewrite ?Ea; try done.
  - intros j p' Hj Hp'. destruct (decide (p' = p)) as [->|Hne]; [rewrite (H3 _ _ _ Hj Hi); auto|].
    destruct (H2 j p' Hj Hp') as (cap & xs & C & P & Hch & Hcap). exists cap, xs, C, P. split; [|done].
    eapply chan_other; [done|rewrite Es; simpl; by apply Hmq| |done]. intros h' Hh'. apply EQ1.
    + by destruct (chan_head_main _ _ Hh').
    + intros ->. apply Hne. by eapply chan_head_inj.
  - intros h' p' Hh'. destruct (decide (h' = h)) as [->|Hne]; [|rewrite EQ1; [by apply H4|by destruct (chan_head_main _ _ Hh')|done]].
    rewrite EQh, <- (H4 h p' Hh'), HB. split; eauto.
  - intros j p' Hj. rewrite Es. simpl. by eapply H5.
  - intros q z Hz Hs. rewrite Es in Hz. simpl in Hz. rewrite lookup_insert in Hz. case_decide as Eq; [congruence|].
    destruct (H6 q z Hz Hs) as (h' & p' & B' & Hh' & Hb & HB' & Hq). exists h', p'. destruct (decide (h' = h)) as [->|Hne].
    + exists B. rewrite HB in HB'. injection HB' as <-. apply elem_of_app in Hq as [Hq|Hq%list_elem_of_singleton]; [by split_and!|congruence].
    + exists B'. rewrite EQ1; [by split_and!|by destruct (chan_head_main _ _ Hh')|done].
  - intros h' p' B' q Hh' HB' Hq. assert (Hold : exists B0, Q !! h' = Some B0 /\ q ∈ B0 /\ q <> r).
    { destruct (decide (h' = h)) as [->|Hne].
      - rewrite EQh in HB'. injection HB' as <-. eexists. split; [exact HB|]. split; [by apply elem_snoc_init|].
        intros ->. apply NoDup_app in Hnd as (_ & Hnd & _). apply (Hnd r Hq). by left.
      - rewrite EQ1 in HB'; [|by destruct (chan_head_main _ _ Hh')|done]. exists B'. split; [done|]. split; [done|]. intros ->. apply Hne.
        eapply (rep_disj _ _ Hrep); [exact HB'|exact HB|done|apply elem_snoc_last]. }
    destruct Hold as (B0 & HB0 & Hq0 & Hqr). destruct (H7 h' p' B0 q Hh' HB0 Hq0) as (z & Hz & Hrest). exists z.
    rewrite Es. simpl. by rewrite lookup_insert_ne.
Qed.

(** The running process blocks itself. *)
Lemma chans_blocked s Q i p h B c x s1 Q1 x1 :
  chans_ok s Q -> all_queues s !! i = Some (Some p) -> chan_head h p -> Q !! h = Some B -> procs s !! c = Some x ->
  state x = ACTIF -> ~ queued Q c -> blocked_at s Q h B c x s1 Q1 x1 ->
  (exists cap xs C P, chan s1 Q1 (Z.of_nat i) p cap xs C P /\ 0 < cap) -> chans_ok s1 Q1.
Proof.
  intros [H1 H2 H3 H4 H5 H6 H7] Hi Hh HB Hx Ha Hnq [[l Es] (_ & Hs1 & Hb1) EQ] Hp.
  assert (EQ1 : forall h', h' <> h -> Q1 !! h' = Q !! h') by (intros h' ?; by rewrite EQ, lookup_insert_ne).
  assert (EQh : Q1 !! h = Some (insert_prio (pfield s prio) c B)) by (by rewrite EQ, lookup_insert_eq).
  assert (Ea : all_queues s1 = all_queues s) by (by rewrite Es). split; rewrite ?Ea; try done.
  - intros j p' Hj Hp'. destruct (decide (p' = p)) as [->|Hne]; [rewrite (H3 _ _ _ Hj Hi); auto|].
    destruct (H2 j p' Hj Hp') as (cap & xs & C & P & Hch & Hcap). exists cap, xs, C, P. split; [|done].
    eapply chan_other; [done|by rewrite Es| |done]. intros h' Hh'. apply EQ1. intros ->. apply Hne. by eapply chan_head_inj.
  - intros h' p' Hh'. destruct (decide (h' = h)) as [->|Hne]; [|by rewrite EQ1; [apply H4|]].
    rewrite EQh, <- (H4 h p' Hh'), HB. split; eauto.
  - intros j p' Hj. rewrite Es. simpl. by eapply H5.
  - intros q z Hz Hs. rewrite Es in Hz. simpl in Hz. rewrite lookup_insert in Hz. case_decide as Eq.
    + injection Hz as <-. exists h, p. eexists. split; [done|]. split; [done|]. split; [exact EQh|]. apply elem_of_insert_prio. by left.
    + destruct (H6 q z Hz Hs) as (h' & p' & B' & Hh' & Hb & HB' & Hq). exists h', p'. destruct (decide (h' = h)) as [->|Hne].
      * eexists. split; [done|]. split; [done|]. split; [exact EQh|]. apply elem_of_insert_prio. right. congruence.
      * exists B'. by rewrite EQ1.
  - intros h' p' B' q Hh' HB' Hq. rewrite Es. simpl. destruct (decide (q = c)) as [->|Hqc].
    + rewrite lookup_insert_eq. exists x1. split; [done|]. split; [done|]. destruct (decide (h' = h)) as [->|Hne]; [done|].
      rewrite EQ1 in HB' by done. destruct Hnq. by exists h', B'.
    + rewrite lookup_insert_ne by done. destruct (decide (h' = h)) as [->|Hne].
      * rewrite EQh in HB'. injection HB' as <-. apply elem_of_insert_prio in Hq as [|Hq]; [done|]. by eapply H7.
      * rewrite EQ1 in HB' by done. by eapply H7.
Qed.

(** The blocked processes of one queue change places. *)
Lemma chans_reorder s Q h p B B' l :
  chans_ok s Q -> chan_head h p -> Q !! h = Some B -> B' ≡ₚ B -> chans_ok (s <| links := l |>) (<[h := B']> Q).
Proof.
  intros [H1 H2 H3 H4 H5 H6 H7] Hh HB Hperm.
  assert (Hq : forall h', (exists B0, <[h := B']> Q !! h' = Some B0 /\ Q !! h' = Some B /\ h' = h /\ B0 = B') \/
    <[h := B']> Q !! h' = Q !! h' /\ h' <> h).
  { intros h'. destruct (decide (h' = h)) as [->|]; [left; exists B'; by rewrite lookup_insert_eq|right; by rewrite lookup_insert_ne]. }
  split; try done.
  - intros i p' Hi Hp'. destruct (H2 i p' Hi Hp') as (cap & xs & C & P & [K1 K2 K3 K4 K5 K6 K7] & Hcap).
    assert (Hl : forall h' B1, Q !! h' = Some B1 -> exists B2, <[h := B']> Q !! h' = Some B2 /\ (B2 <> [] <-> B1 <> [])).
    { intros h' B1 HB1. destruct (Hq h') as [(B0 & E0 & E1 & -> & ->)|[E0 _]]; [|exists B1; by rewrite E0].
      assert (B1 = B) as -> by congruence. exists B'. split; [done|]. split; intros Hn ->; apply Hn.
      - by apply Permutation_nil_r.
      - by apply Permutation_nil_r. }
    destruct (Hl _ _ K4) as (C2 & EC & NC). destruct (Hl _ _ K5) as (P2 & EP & NP).
    exists cap, xs, C2, P2. split; [|done]. split; try done.
    + intros Hn. destruct (K6 (proj1 NC Hn)) as [-> ->]. split; [done|]. destruct P2; [done|]. by destruct (proj1 NP ltac:(done)).
    + intros Hn. apply K7. tauto.
  - intros h' p' Hh'. destruct (Hq h') as [(B0 & -> & E1 & -> & ->)|[-> _]]; [|by apply H4]. rewrite <- (H4 h p' Hh'), HB. split; eauto.
  - intros q z Hz Hs. destruct (H6 q z Hz Hs) as (h' & p' & B1 & Hh' & Hb & HB1 & Hin). exists h', p'.
    destruct (Hq h') as [(B0 & E0 & E1 & -> & ->)|[E0 _]]; [|exists B1; by rewrite E0]. exists B'. rewrite E0.
    assert (B1 = B) as -> by congruence. split_and!; [done..|]. by rewrite Hperm.
  - intros h' p' B1 q Hh' HB1 Hin. destruct (Hq h') as [(B0 & E0 & E1 & -> & ->)|[E0 _]]; [|rewrite E0 in HB1; by eapply H7].
    assert (B1 = B') as -> by congruence. rewrite Hperm in Hin. by eapply H7.
Qed.

(** Only the array changes. *)
Lemma chans_store s Q i p m' :
  chans_ok s Q -> all_queues s !! i = Some (Some p) ->
  (exists cap xs C P, chan (s <| msg_queues ::= <[p := m']> |>) Q (Z.of_nat i) p cap xs C P /\ 0 < cap) ->
  chans_ok (s <| msg_queues ::= <[p := m']> |>) Q.
Proof.
  intros [H1 H2 H3 H4 H5 H6 H7] Hi Hp. split; try done. intros j p' Hj Hp'.
  destruct (decide (p' = p)) as [->|Hne]; [rewrite (H3 _ _ _ Hj Hi); auto|].
  destruct (H2 j p' Hj Hp') as (cap & xs & C & P & Hch & Hcap). exists cap, xs, C, P. split; [|done].
  apply (chan_other s _ Q); [done|simpl; by rewrite lookup_insert_ne|done|done].
Qed.

(** A channel that is being emptied. *)
Lemma chans_hold s Q i p m' :
  chans_ok s Q -> all_queues s !! i = Some (Some p) -> chans_except (Some p) (s <| msg_queues ::= <[p := m']> |>) Q.
Proof.
  intros [H1 H2 H3 H4 H5 H6 H7] Hi. split; try done. intros j p' Hj Hp'.
  destruct (H2 j p' Hj ltac:(done)) as (cap & xs & C & P & Hch & Hcap). exists cap, xs, C, P. split; [|done].
  apply (chan_other s _ Q); [done|simpl; by rewrite lookup_insert_ne by congruence|done|done].
Qed.

Lemma chans_restore s Q i p :
  chans_except (Some p) s Q -> all_queues s !! i = Some (Some p) ->
  (exists cap xs C P, chan s Q (Z.of_nat i) p cap xs C P /\ 0 < cap) -> chans_ok s Q.
Proof.
  intros [H1 H2 H3 H4 H5 H6 H7] Hi Hp. split; try done. intros j p' Hj _.
  destruct (decide (p' = p)) as [->|Hne]; [by rewrite (H3 _ _ _ Hj Hi)|]. apply H2; [done|congruence].
Qed.

(** The channel at [p], which is empty, is removed from the table. *)
Lemma chans_remove s Q i p l :
  chans_except (Some p) s Q -> all_queues s !! i = Some (Some p) -> Q !! blocked_cons p = Some [] -> Q !! blocked_prod p = Some [] ->
  chans_ok (s <| msg_queues ::= delete p |> <| links := l |> <| all_queues ::= <[i := None]> |>)
    (delete (blocked_prod p) (delete (blocked_cons p) Q)).
Proof.
  intros [H1 H2 H3 H4 H5 H6 H7] Hi HC HP. set (Q' := delete _ _).
  assert (HQ : forall h p', chan_head h p' -> p' <> p -> Q' !! h = Q !! h).
  { intros h p' Hh Hne. unfold Q'. rewrite !lookup_delete_ne; [done|..]; intros <-; destruct Hh; congruence. }
  assert (HQp : forall h, chan_head h p -> Q' !! h = None).
  { intros h [-> | ->]; unfold Q'; rewrite ?lookup_delete_eq; [|done]. rewrite lookup_delete_ne by done. by rewrite lookup_delete_eq. }
  assert (Hlt : (i < length (all_queues s))%nat) by (by eapply lookup_lt_Some).
  assert (Hget : forall j p', <[i := None]> (all_queues s) !! j = Some (Some p') <-> all_queues s !! j = Some (Some p') /\ p' <> p).
  { intros j p'. destruct (decide (i = j)) as [<-|Hne].
    - rewrite list_lookup_insert_eq by done. split; [by intros ?|]. intros [Hj Hn]. congruence.
    - rewrite list_lookup_insert_ne by done. split; [|by intros [? _]]. intros Hj. split; [done|]. intros ->.
      by pose proof (H3 _ _ _ Hi Hj). }
  split; simpl.
  - by rewrite length_insert.
  - intros j p' [Hj Hne]%Hget _. destruct (H2 j p' Hj ltac:(congruence)) as (cap & xs & C & P & [K1 K2 (m & Hm & K3) K4 K5 K6 K7] & Hcap).
    exists cap, xs, C, P. split; [|done]. split; simpl; try done.
    + by apply Hget.
    + exists m. by rewrite lookup_delete_ne.
    + by rewrite (HQ _ p') by (done || by left).
    + by rewrite (HQ _ p') by (done || by right).
  - intros j k p' [Hj _]%Hget [Hk _]%Hget. by eapply H3.
  - intros h p' Hh. destruct (decide (p' = p)) as [->|Hne].
    + rewrite (HQp h Hh). split; [by intros []|]. by intros [j [_ ?]%Hget].
    + rewrite (HQ h p' Hh Hne), (H4 h p' Hh). split; intros [j Hj]; exists j; [by apply Hget|by apply Hget in Hj as [? _]].
  - intros j p' [Hj _]%Hget. by eapply H5.
  - intros q z Hz Hs. destruct (H6 q z Hz Hs) as (h & p' & B & Hh & Hb & HB & Hq). exists h, p', B.
    destruct (decide (p' = p)) as [->|Hne]; [|by rewrite (HQ h p')].
    exfalso. destruct Hh as [-> | ->]; rewrite ?HC, ?HP in HB; injection HB as <-; by apply elem_of_nil in Hq.
  - intros h p' B q Hh HB Hq. destruct (decide (p' = p)) as [->|Hne]; [by rewrite (HQp h Hh) in HB|].
    rewrite (HQ h p' Hh Hne) in HB. by eapply H7.
Qed.

(** A new channel is entered in the table. *)
Lemma chans_add s Q i p m b l :
  chans_ok s Q -> all_queues s !! i = Some None -> (next_block s <= p < b)%positive ->
  mq_rep m [] -> 0 < size m ->
  chans_ok (s <| msg_queues ::= <[p := m]> |> <| links := l |> <| all_queues ::= <[i := Some p]> |> <| next_block := b |>)
    (<[blocked_prod p := []]> (<[blocked_cons p := []]> Q)).
Proof.
  intros [H1 H2 H3 H4 H5 H6 H7] Hi Hb Hm Hsz. set (Q' := <[_ := _]> _).
  assert (Hfresh : forall j p', all_queues s !! j = Some (Some p') -> p' <> p).
  { intros j p' Hj ->. specialize (H5 _ _ Hj). lia. }
  assert (HQ : forall h p', chan_head h p' -> p' <> p -> Q' !! h = Q !! h).
  { intros h p' Hh Hne. unfold Q'. rewrite !lookup_insert_ne; [done|..]; intros <-; destruct Hh; congruence. }
  assert (HQp : forall h, chan_head h p -> Q' !! h = Some []).
  { intros h [-> | ->]; unfold Q'; rewrite ?lookup_insert_eq; [|done]. rewrite lookup_insert_ne by done. by rewrite lookup_insert_eq. }
  assert (Hlt : (i < length (all_queues s))%nat) by (by eapply lookup_lt_Some).
  assert (Hget : forall j p', <[i := Some p]> (all_queues s) !! j = Some (Some p') <->
    j = i /\ p' = p \/ all_queues s !! j = Some (Some p')).
  { intros j p'. destruct (decide (i = j)) as [<-|Hne].
    - rewrite list_lookup_insert_eq by done. split; [intros [= ->]; by left|]. intros [[_ ->]|Hj]; [done|congruence].
    - rewrite list_lookup_insert_ne by done. split; [by right|]. by intros [[-> _]|?]. }
  split; simpl.
  - by rewrite length_insert.
  - intros j p' [[-> ->]|Hj]%Hget _.
    + exists (size m), [], [], []. split; [|done]. split; simpl; try done.
      * unfold NBQUEUES. lia.
      * rewrite Nat2Z.id. by apply list_lookup_insert_eq.
      * exists m. by rewrite lookup_insert_eq.
      * apply HQp. by left.
      * apply HQp. by right.
    + pose proof (Hfresh _ _ Hj) as Hne.
      destruct (H2 j p' Hj ltac:(congruence)) as (cap & xs & C & P & [K1 K2 (m' & Hm' & K3) K4 K5 K6 K7] & Hcap).
      exists cap, xs, C, P. split; [|done]. split; simpl; try done.
      * apply Hget. by right.
      * exists m'. by rewrite lookup_insert_ne.
      * by rewrite (HQ _ p') by (done || by left).
      * by rewrite (HQ _ p') by (done || by right).
  - intros j k p' [[-> ->]|Hj]%Hget [[-> E1]|Hk]%Hget; [done|by destruct (Hfresh _ _ Hk)|subst; by destruct (Hfresh _ _ Hj)|by eapply H3].
  - intros h p' Hh. destruct (decide (p' = p)) as [->|Hne].
    + rewrite (HQp h Hh). split; [intros _; exists i; apply Hget; by left|eauto].
    + rewrite (HQ h p' Hh Hne), (H4 h p' Hh). split; intros [j Hj]; exists j; [apply Hget; by right|]. by apply Hget in Hj as [[_ ?]|?].
  - intros j p' [[-> ->]|Hj]%Hget; [lia|]. specialize (H5 _ _ Hj). lia.
  - intros q z Hz Hs. destruct (H6 q z Hz Hs) as (h & p' & B & Hh & Hb' & HB & Hq). exists h, p', B.
    rewrite (HQ h p'); [done|done|]. intros ->. destruct (proj1 (H4 h p Hh)) as [j Hj]; [by eexists|]. by apply (Hfresh _ _ Hj).
  - intros h p' B q Hh HB Hq. destruct (decide (p' = p)) as [->|Hne].
    + rewrite (HQp h Hh) in HB. injection HB as <-. by apply elem_of_nil in Hq.
    + rewrite (HQ h p' Hh Hne) in HB. by eapply H7.
Qed.

(** ** Sending and receiving *)

(** What a call of the running process does: it returns, or it releases a
    process, or it blocks and is to go on with [kb]. *)
Inductive chan_result s Q (c : ptr) (x : process) A L (kb : kont) (m : K kont) : Prop :=
  | chan_returns v out mq : m s = Ok (KRet v out, s <| msg_queues := mq |>) -> chans_ok (s <| msg_queues := mq |>) Q ->
      chan_result s Q c x A L kb m
  | chan_releases v out p h B r s1 Q1 : m s = scheduler (KRet v out) s1 -> chan_head h p -> Q !! h = Some (B ++ [r]) ->
      handed s Q A p h B r s1 Q1 -> sched_pre s1 Q1 c x (insert_prio (pfield s prio) r A) L -> chans_ok s1 Q1 ->
      chan_result s Q c x A L kb m
  | chan_blocks p h B s1 Q1 x1 : m s = scheduler kb s1 -> chan_head h p -> Q !! h = Some B ->
      blocked_at s Q h B c x s1 Q1 x1 -> sched_pre s1 Q1 c x1 A L -> chans_ok s1 Q1 -> chan_result s Q c x A L kb m.

(** An identifier is that of a channel or is rejected. *)
Lemma chans_fid s Q fid : chans_ok s Q -> valid_fid fid s = Ok (false, s) \/
  exists p cap xs C P, all_queues s !! Z.to_nat fid = Some (Some p) /\ Z.of_nat (Z.to_nat fid) = fid /\ chan s Q fid p cap xs C P /\ 0 < cap.
Proof.
  intros Hch. unfold valid_fid, NBQUEUES, mbind, M_bind, gets, mret, M_ret.
  destruct (Z.ltb_spec fid 0); [by left|]. destruct (Z.leb_spec 100 fid); [by left|]. cbn [orb].
  destruct (all_queues s !! Z.to_nat fid) as [[p|]|] eqn:Ep; [|by left..]. right.
  destruct (co_chan _ _ _ Hch _ _ Ep ltac:(done)) as (cap & xs & C & P & Hc & Hcap). rewrite Z2Nat.id in Hc by lia.
  exists p, cap, xs, C, P. rewrite Z2Nat.id by lia. done.
Qed.

Section Call.
Context (s : kstate) (Q : queues) (c : ptr) (x : process) (A L : list ptr).
Hypothesis Hpre : sched_pre s Q c x A L.
Hypothesis Ha : state x = ACTIF.
Hypothesis Hok : chans_ok s Q.

Lemma psend_result fid v : chan_result s Q c x A L (KPsend c) (psend fid v).
Proof.
  pose proof Hpre as [Hinv [_ Hx Hfree _] _ HA _ _ _ _ _].
  destruct (chans_fid s Q fid Hok) as [Hv|(p & cap & xs & C & P & Hp & Ef & Hch & Hcap)].
  { apply (chan_returns _ _ _ _ _ _ _ _ (-1) [] (msg_queues s)); [|by destruct s].
    unfold psend. eapply eq_trans; [eapply run_bind; exact Hv|]. by destruct s. }
  destruct (list_snoc_inv C) as [->|(C' & r & ->)].
  - destruct (decide (Z.of_nat (length xs) = cap)) as [Hfull|Hroom].
    + destruct (psend_full s Q c x A L fid p cap xs P v) as (s1 & Q1 & x1 & E1 & Hpre1 & _ & _ & Hch1 & Hba); [done..|].
      eapply (chan_blocks _ _ _ _ _ _ _ _ p (blocked_prod p) P s1 Q1 x1); [exact E1|by right|apply Hch|exact Hba|exact Hpre1|].
      eapply chans_blocked; [done|exact Hp|by right|apply Hch|done|done|by apply Hfree|exact Hba|]. rewrite Ef. eauto 10.
    + pose proof (ch_array _ _ _ _ _ _ _ _ Hch) as (m & _ & Hmr & <-). pose proof (mr_cap _ _ Hmr).
      destruct (psend_room s Q c x A L fid p (size m) xs P v) as (s1 & E1 & Hpre1 & Hch1 & m' & ->); [done..|lia|].
      apply (chan_returns _ _ _ _ _ _ _ _ 0 [] (<[p := m']> (msg_queues s))); [exact E1|].
      eapply (chans_store s Q _ p m'); [done|exact Hp|]. rewrite Ef. eauto 10.
  - assert (Hrc : r <> c) by (eapply blocked_not_running; [done..|apply Hch|apply elem_snoc_last]).
    destruct (psend_to_consumer s Q c x A L fid p cap xs C' P r v) as (s1 & Q1 & E1 & Hpre1 & Hch1 & _ & Hho); [done..|].
    eapply (chan_releases _ _ _ _ _ _ _ _ 0 [] p (blocked_cons p) C' r s1 Q1); [exact E1|by left|apply Hch|exact Hho|exact Hpre1|].
    eapply chans_handed; [done|apply Hinv|exact Hp|by left|apply Hch|exact Hho|]. rewrite Ef. eauto 10.
Qed.

Lemma preceive_result fid want : chan_result s Q c x A L (KPreceive c want) (preceive fid want).
Proof.
  pose proof Hpre as [Hinv [_ Hx Hfree _] _ HA _ _ _ _ _].
  destruct (chans_fid s Q fid Hok) as [Hv|(p & cap & xs & C & P & Hp & Ef & Hch & Hcap)].
  { apply (chan_returns _ _ _ _ _ _ _ _ (-1) [] (msg_queues s)); [|by destruct s].
    unfold preceive. eapply eq_trans; [eapply run_bind; exact Hv|]. by destruct s. }
  destruct (list_snoc_inv P) as [->|(P' & w & ->)].
  - destruct xs as [|v xs].
    + destruct (preceive_blocks s Q c x A L fid p cap C want) as (s1 & Q1 & x1 & E1 & Hpre1 & _ & Hch1 & Hba); [done..|].
      eapply (chan_blocks _ _ _ _ _ _ _ _ p (blocked_cons p) C s1 Q1 x1); [exact E1|by left|apply Hch|exact Hba|exact Hpre1|].
      eapply chans_blocked; [done|exact Hp|by left|apply Hch|done|done|by apply Hfree|exact Hba|]. rewrite Ef. eauto 10.
    + assert (C = []) as ->. { destruct C; [done|]. by destruct (ch_empty _ _ _ _ _ _ _ _ Hch ltac:(done)). }
      destruct (preceive_message s Q c x A L fid p cap v xs want) as (s1 & E1 & Hpre1 & Hch1 & m' & ->); [done..|].
      apply (chan_returns _ _ _ _ _ _ _ _ 0 (out_msg want v) (<[p := m']> (msg_queues s))); [exact E1|].
      eapply (chans_store s Q _ p m'); [done|exact Hp|]. rewrite Ef. eauto 10.
  - assert (Hwc : w <> c) by (eapply blocked_not_running; [done..|apply (ch_prod _ _ _ _ _ _ _ _ Hch)|apply elem_snoc_last]).
    destruct xs as [|v xs].
    { pose proof (ch_full _ _ _ _ _ _ _ _ Hch ltac:(by destruct P')) as Hf. simpl in Hf. lia. }
    destruct (preceive_full s Q c x A L fid p cap v xs C P' w want) as (s1 & Q1 & E1 & Hpre1 & Hch1 & _ & Hho); [done..|].
    eapply (chan_releases _ _ _ _ _ _ _ _ 0 _ p (blocked_prod p) P' w s1 Q1); [exact E1|by right|apply Hch|exact Hho|exact Hpre1|].
    eapply chans_handed; [done|apply Hinv|exact Hp|by right|apply Hch|exact Hho|]. rewrite Ef. eauto 10.
Qed.

Lemma pcount_reads fid want : exists v out, pcount fid want s = Ok (KRet v out, s).
Proof.
  pose proof Hpre as [Hinv _ _ _ _ _ _ _ _].
  destruct (chans_fid s Q fid Hok) as [Hv|(p & cap & xs & C & P & Hp & Ef & Hch & Hcap)].
  { exists (-1), []. unfold pcount. by rewrite (run_bind _ _ _ _ _ Hv). }
  destruct (run_valid_fid _ _ _ _ _ _ _ _ Hch) as [Ev Eq]. pose proof Hch as [_ _ (m & Hm & _) HC HP _ _].
  assert (Hlen : forall h B, Q !! h = Some B -> queue_length h s = Ok (Z.of_nat (length B), s)).
  { intros h B HB. unfold queue_length. run_step (apply wp_gets; split; reflexivity).
    run_step (eapply wp_lift; [eapply queue_for_each_rep; [apply Hinv|exact HB]|split; reflexivity]). done. }
  unfold pcount. rewrite (run_bind _ _ _ _ _ Ev). destruct want; cbn [negb orb]; [|by eexists _, _].
  rewrite (run_bind _ _ _ _ _ Eq). rewrite (run_bind _ _ _ p s) by done.
  assert (Erd : rd msg_queues (Some p) s = Ok (m, s)) by (apply wp_run; eapply (wp_rd msg_queues); [exact Hm|done]).
  rewrite (run_bind _ _ _ _ _ Erd). assert (Eem : qempty (blocked_cons p) s = Ok (bool_decide (C = []), s)).
  { apply wp_run. eapply wp_qempty; [apply (si_rep _ _ Hinv)|exact HC|done]. }
  rewrite (run_bind _ _ _ _ _ Eem). case_bool_decide; cbn [negb].
  - rewrite (run_bind _ _ _ _ _ (Hlen _ _ HP)). by eexists _, _.
  - rewrite (run_bind _ _ _ _ _ (Hlen _ _ HC)). by eexists _, _.
Qed.

End Call.

(** ** Emptying a queue of blocked processes *)

(** One turn of the loop. *)
Lemma free_blocked_step s Q A p h B r fuel :
  sched_inv s Q -> Q !! activatable_process_queue = Some A -> chan_head h p -> Q !! h = Some (B ++ [r]) ->
  exists s1 Q1, free_blocked_loop (S fuel) h s = free_blocked_loop fuel h s1 /\ handed s Q A p h B r s1 Q1 /\
    msg_queues s1 = msg_queues s /\ sched_inv s1 Q1.
Proof.
  intros Hinv HA Hh HB. destruct (chan_head_main h p Hh) as (Hh1 & Hh2 & Hh3).
  destruct (si_queued _ _ Hinv r) as [y Hy]; [eapply queued_in; [exact HB|apply elem_snoc_last]|].
  set (y1 := y <| message ::= fun m => m <| status := ERROR |> |> <| state := ACTIVATABLE |>).
  destruct (release_run s Q h B r A y y1 Hinv HB Hh1 HA Hy) as (l1 & l2 & E1 & E2 & Hinv2); [done|].
  assert (Hl1 : INIT_LINK r l1 = l1).
  { destruct (run_qout s Q h B r Hinv HB) as (l1' & E1' & Hinv1 & Hnq). rewrite E1 in E1'.
    assert (El : l1 = l1') by (apply (f_equal (fun o => match o with Ok (_, z) => links z | _ => l1 end)) in E1'; exact E1').
    subst l1'. unfold INIT_LINK. apply insert_id. eapply rep_unlinked; [apply (si_rep _ _ Hinv1)| |exact Hnq].
    apply (si_linked _ _ Hinv1). by exists y. }
  exists (stored s l2 r y1), (<[activatable_process_queue := insert_prio (pfield s prio) r A]> (<[h := B]> Q)).
  split; [|split; [|split; [done|by apply Hinv2]]].
  - cbn [free_blocked_loop]. run_step (eapply wp_qempty; [apply (si_rep _ _ Hinv)|exact HB|split; reflexivity]).
    rewrite bool_decide_false by (by destruct B). cbn match. rewrite (run_bind _ _ _ _ _ E1).
    run_step (eapply (wp_wr procs); [exact Hy|split; reflexivity]). rewrite (run_bind _ _ _ r (stored s l1 r y1)) by done.
    assert (Ei : kupd links (INIT_LINK r) (stored s l1 r y1) = Ok (tt, stored s l1 r y1)).
    { unfold kupd, modify, stored, upd. simpl. by rewrite Hl1. }
    rewrite (run_bind _ _ _ _ _ Ei), (run_bind _ _ _ _ _ E2). done.
  - split; [|done]. exists l2, (msg_queues s), y, y1. do 4 (split; [done|]). by destruct s.
Qed.

Section Emptying.
Context (I : kstate -> queues -> list ptr -> Prop) (p : ptr) (h : qhead).
Hypothesis Hh : chan_head h p.
Hypothesis Hsched : forall s Q A, I s Q A -> sched_inv s Q /\ Q !! activatable_process_queue = Some A.
Hypothesis Hstep : forall s Q A B r s1 Q1, I s Q A -> Q !! h = Some (B ++ [r]) -> handed s Q A p h B r s1 Q1 ->
  msg_queues s1 = msg_queues s -> sched_inv s1 Q1 -> I s1 Q1 (insert_prio (pfield s prio) r A).

Lemma free_blocked_loop_spec B : forall s Q A fuel, I s Q A -> Q !! h = Some B -> (length B < fuel)%nat ->
  exists s1 Q1 A1, free_blocked_loop fuel h s = Ok (tt, s1) /\ I s1 Q1 A1 /\ Q1 !! h = Some [] /\
    msg_queues s1 = msg_queues s /\ all_queues s1 = all_queues s /\
    (forall h', h' <> h -> h' <> activatable_process_queue -> Q1 !! h' = Q !! h').
Proof.
  induction B as [|r B IH] using rev_ind; intros s Q A fuel HI HB Hf; (destruct fuel as [|fuel]; [simpl in Hf; lia|]);
    destruct (Hsched _ _ _ HI) as [Hinv HA].
  - exists s, Q, A. split; [|done]. cbn [free_blocked_loop].
    run_step (eapply wp_qempty; [apply (si_rep _ _ Hinv)|exact HB|split; reflexivity]). by rewrite bool_decide_true.
  - destruct (free_blocked_step s Q A p h B r fuel Hinv HA Hh HB) as (s1 & Q1 & -> & Hho & Em & Hinv1).
    pose proof Hho as [(l & mq & y & y1 & _ & _ & _ & _ & Es) EQ]. destruct (chan_head_main h p Hh) as (Hh1 & _).
    destruct (IH s1 Q1 (insert_prio (pfield s prio) r A) fuel) as (s2 & Q2 & A2 & E2 & HI2 & HB2 & Em2 & Ea2 & EQ2).
    + by eapply Hstep.
    + by rewrite EQ, lookup_insert_ne, lookup_insert_eq.
    + rewrite length_app in Hf. simpl in Hf. lia.
    + exists s2, Q2, A2. split; [done|]. split; [done|]. split; [done|]. split; [congruence|]. split.
      * rewrite Ea2, Es. done.
      * intros h' H1 H2. by rewrite EQ2, EQ, !lookup_insert_ne.
Qed.

Lemma free_blocked_queue_spec s Q A B : I s Q A -> Q !! h = Some B ->
  exists s1 Q1 A1, free_blocked_queue h s = Ok (tt, s1) /\ I s1 Q1 A1 /\ Q1 !! h = Some [] /\
    msg_queues s1 = msg_queues s /\ all_queues s1 = all_queues s /\
    (forall h', h' <> h -> h' <> activatable_process_queue -> Q1 !! h' = Q !! h').
Proof.
  intros HI HB. destruct (Hsched _ _ _ HI) as [Hinv HA]. unfold free_blocked_queue.
  assert (Hf : (length B < walk_fuel procs s)%nat).
  { unfold walk_fuel. rewrite <- size_dom. destruct (rep_ring _ _ (si_rep _ _ Hinv) _ _ HB) as [_ Hnd].
    rewrite <- (size_list_to_set (C := gset ptr)) by done. apply Nat.lt_succ_r, subseteq_size. intros q.
    rewrite elem_of_list_to_set, elem_of_dom. intros Hq. apply (si_queued _ _ Hinv). exact (queued_in _ _ _ _ HB Hq). }
  rewrite (run_bind _ _ s (walk_fuel procs s) s) by done. by eapply free_blocked_loop_spec.
Qed.
End Emptying.

End Channels.
