(* ===== verification/MsgQueueWitness.v ===== *)
(** * MsgQueueWitness: the message queue properties on concrete states *)

From S2P Require Import Prelude.
From S2P Require Import Queue.
From S2P Require Import FrameDist.
From S2P Require Import Pages.
From S2P Require Import Kernel.
From S2P Require Import KernelRules.
From S2P Require Import ProcessFree.
From S2P Require Import Scheduler.
From S2P Require Import SchedulerSpec.
From S2P Require Import Demo.
From S2P Require Import MsgQueue.
From S2P Require Import MsgQueueSpec.
#[local] Open Scope Z_scope.
#[local] Existing Instance demo_env.

(** Adding the message queue 0, at address 10, without blocked processes. *)
Definition with_chan (s : kstate) (m : msg_queue_t) : kstate :=
  s <| msg_queues := <[10%positive := m]> ∅ |> <| all_queues := Some 10%positive :: replicate 99 None |>
    <| links ::= fun l => INIT_LIST_HEAD (blocked_prod 10%positive) (INIT_LIST_HEAD (blocked_cons 10%positive) l) |>.
Definition with_chan_Q (Q : queues) : queues :=
  <[blocked_prod 10%positive := []]> (<[blocked_cons 10%positive := []]> Q).

Lemma with_chan_pre s m Q c x A L :
  sched_pre s Q c x A L -> Q !! blocked_prod 10%positive = None -> Q !! blocked_cons 10%positive = None ->
  sched_pre (with_chan s m) (with_chan_Q Q) c x A L.
Proof.
  intros [Hinv [Hcur Hx Hfree Hready] Hk HA HL Hdue Hdead Hmain Hst] H1 H2.
  assert (Hq : forall p, queued (with_chan_Q Q) p -> queued Q p).
  { intros p (h & xs & HQ & Hp). unfold with_chan_Q in HQ. rewrite !lookup_insert in HQ.
    repeat case_decide; simplify_eq; [by apply elem_of_nil in Hp..|]. by exists h, xs. }
  assert (Hinv' : sched_inv (with_chan s m) (with_chan_Q Q)).
  { destruct Hinv as [Hr Hl Hqq Ht Hp Hc Hw]. split; try done.
    - simpl. apply rep_init_head; [apply rep_init_head; done|by rewrite lookup_insert_ne].
    - intros p Hps. unfold linked. simpl. unfold INIT_LIST_HEAD. rewrite !lookup_insert_ne by done. by apply Hl.
    - intros p Hqp. by apply Hqq, Hq.
    - intros L0 p y. unfold with_chan_Q. rewrite !lookup_insert_ne by done. apply Hw. }
  split; try done; unfold with_chan_Q; rewrite ?lookup_insert_ne by done; try done.
  split; try done; [intros Ha Hqp; by apply Hfree, Hq|]. intros A0. rewrite !lookup_insert_ne by done. apply Hready.
Qed.

(** Process 1 runs, the others are ready; the queue of capacity 3 holds 6 and 4. *)
Definition chan_array : msg_queue_t := mk_msg_queue (Some [4; 5; 6]) 3 2 1.
Definition chan_state : kstate := with_chan equal_state chan_array.

Lemma chan_array_rep : mq_rep chan_array [6; 4].
Proof.
  split; simpl; [lia| |done|lia|lia].
  exists [4; 5; 6]. split; [done|]. split; [done|]. intros [|[|i]] x; simpl; [by intros [= <-]..|by rewrite lookup_nil].
Qed.

Lemma chan_state_pre :
  sched_pre chan_state (with_chan_Q (demo_Q [3%positive; 2%positive] [])) 1%positive (demo_process 1 5 ACTIF 0) [3%positive; 2%positive] [].
Proof. apply with_chan_pre; [apply equal_pre|done|done]. Qed.

Lemma chan_state_chan :
  chan chan_state (with_chan_Q (demo_Q [3%positive; 2%positive] [])) 0 10%positive 3 [6; 4] [] [].
Proof. split; try done. exists chan_array. split; [done|]. split; [apply chan_array_rep|done]. Qed.

Lemma psend_refines_witness :
  exists s1, psend 0 42 chan_state = Ok (KRet 0 [], s1) /\
    sched_pre s1 (with_chan_Q (demo_Q [3%positive; 2%positive] [])) 1%positive (demo_process 1 5 ACTIF 0) [3%positive; 2%positive] [] /\
    chan s1 (with_chan_Q (demo_Q [3%positive; 2%positive] [])) 0 10%positive 3 [6; 4; 42] [] [].
Proof.
  refine (proj2 (proj2 (psend_refines chan_state _ _ _ _ _ 0 10%positive 3 [6; 4] [] [] 42 chan_state_pre eq_refl chan_state_chan)) eq_refl _).
  simpl. lia.
Defined.

Lemma preceive_refines_witness :
  exists s1, preceive 0 true chan_state = Ok (KRet 0 [6], s1) /\
    sched_pre s1 (with_chan_Q (demo_Q [3%positive; 2%positive] [])) 1%positive (demo_process 1 5 ACTIF 0) [3%positive; 2%positive] [] /\
    chan s1 (with_chan_Q (demo_Q [3%positive; 2%positive] [])) 0 10%positive 3 [4] [] [].
Proof.
  exact (proj2 (proj2 (preceive_refines chan_state _ _ _ _ _ 0 10%positive 3 [6; 4] [] [] chan_state_pre eq_refl chan_state_chan))
    6 [4] eq_refl eq_refl).
Defined.
