(* ===== verification/ConsoleSpec.v ===== *)
(** * ConsoleSpec: what the console input promises

    The circular buffer of the console is a bounded queue of characters; the
    keys that are not editing keys append to it, and [copy] takes a line of it
    as the comment of [cons_read] specifies.  The editing keys do not respect
    the start of the buffer, and one of them can loop for ever. *)

From S2P Require Import Prelude.
From S2P Require Import Queue.
From S2P Require Import FrameDist.
From S2P Require Import Pages.
From S2P Require Import Kernel.
From S2P Require Import KernelRules.
From S2P Require Import ProcessFree.
From S2P Require Import Scheduler.
From S2P Require Import Console.
#[local] Open Scope Z_scope.

Implicit Types (c : console_device_t) (xs : list Z).

(** ** Representation *)

(** The characters [xs] are in the cells from [temp] on, around the end. *)
Definition located c (temp : Z) xs : Prop :=
  forall i x, xs !! i = Some x -> buffer c !! Z.to_nat ((temp + Z.of_nat i) mod 20) = Some x.

(** The buffer of [c] holds [xs], the oldest character first. *)
Record cons_rep c xs : Prop := {
  cr_cells : length (buffer c) = 20%nat;
  cr_cap : (length xs <= 20)%nat;
  cr_start : 0 <= start_of_buffer_index c < 20;
  cr_last : last_written_char_index c =
    if bool_decide (xs = []) then -1 else (start_of_buffer_index c + Z.of_nat (length xs) - 1) mod 20;
  cr_empty : xs = [] -> start_of_buffer_index c = 0;
  cr_located : located c (start_of_buffer_index c) xs
}.

Lemma cons_rep_last c xs : cons_rep c xs -> -1 <= last_written_char_index c < 20.
Proof. intros [_ _ Hs -> _ _]. case_bool_decide; [lia|]. mlia. Qed.

Lemma full_spec c xs : cons_rep c xs -> is_buffer_full c = bool_decide (length xs = 20%nat).
Proof.
  intros Hc. pose proof (cons_rep_last _ _ Hc). destruct Hc as [_ Hcap Hs Hl _ _]. unfold is_buffer_full, BUFFER_SIZE.
  destruct xs as [|x xs]; [by rewrite Hl|]. rewrite bool_decide_false in Hl by done. cbn [length] in *.
  destruct (Z.eqb_spec (last_written_char_index c) (-1)) as [E|_]; [exfalso; rewrite Hl in E; mlia|].
  rewrite Z.rem_mod_nonneg by lia. rewrite Hl. case_bool_decide; [apply Z.eqb_eq|apply Z.eqb_neq]; mlia.
Qed.

Lemma set_buf_ok c i v : length (buffer c) = 20%nat -> 0 <= i < 20 -> set_buf c i v = Ok (c <| buffer ::= <[Z.to_nat i := v]> |>).
Proof.
  intros Hl Hi. unfold set_buf. rewrite Hl. destruct (Z.ltb_spec i 0); [lia|].
  destruct (Z.leb_spec (Z.of_nat 20) i); [lia|]. done.
Qed.

Lemma buf_ok c i x : 0 <= i -> buffer c !! Z.to_nat i = Some x -> buf c i = Ok x.
Proof.
  intros Hi Hx. unfold buf. destruct (Z.eqb_spec i (-1)); [lia|]. destruct (Z.ltb_spec i 0); [lia|]. by rewrite Hx.
Qed.

Lemma located_write c temp xs j v :
  located c temp xs -> 0 <= temp < 20 -> (length xs <= j < 20)%nat ->
  located (c <| buffer ::= <[Z.to_nat ((temp + Z.of_nat j) mod 20) := v]> |>) temp xs.
Proof.
  intros Hl Ht Hj i x Hi. simpl. pose proof (lookup_lt_Some _ _ _ Hi). rewrite list_lookup_insert_ne; [by apply Hl|]. mlia.
Qed.

(** ** Writing *)

Lemma kaddtobuffer_rep c xs ch :
  cons_rep c xs -> exists c', kaddtobuffer c ch = Ok c' /\ echo c' = echo c /\
    cons_rep c' (if bool_decide (length xs = 20%nat) then xs else xs ++ [ch]).
Proof.
  intros Hc. pose proof (cons_rep_last _ _ Hc) as Hlast. unfold kaddtobuffer. rewrite (full_spec c xs Hc).
  case_bool_decide as Hf; [by exists c|]. destruct Hc as [Hcells Hcap Hs Hl He Hloc].
  assert (Ei : Z.rem (last_written_char_index c + 1) BUFFER_SIZE = (start_of_buffer_index c + Z.of_nat (length xs)) mod 20).
  { unfold BUFFER_SIZE. rewrite Z.rem_mod_nonneg by lia. rewrite Hl. case_bool_decide as E; [|mlia]. subst xs.
    rewrite He by done. done. }
  rewrite Ei, set_buf_ok by (done || (simpl; mlia)). eexists. split; [done|]. split; [done|]. split; simpl.
  - by rewrite length_insert.
  - rewrite length_app. simpl. lia.
  - done.
  - rewrite bool_decide_false by (by destruct xs). rewrite length_app. simpl. f_equal. lia.
  - by destruct xs.
  - intros i x Hi. simpl. destruct (decide (i < length xs)%nat) as [Hlt|Hge].
    + rewrite lookup_app_l in Hi by done. by apply (located_write c _ xs (length xs)); [..|lia|].
    + assert (i = length xs) as -> by (apply lookup_lt_Some in Hi; rewrite length_app in Hi; simpl in Hi; lia).
      rewrite list_lookup_middle in Hi by done. simplify_eq. apply list_lookup_insert_eq. rewrite Hcells. mlia.
Qed.

(** ** Reading *)

(** A line of at most [n] characters: the characters up to the end of line,
    which is dropped if it is reached, and the rest. *)
Fixpoint read_line (n : nat) xs : list Z * list Z :=
  match n, xs with
  | O, _ | _, [] => ([], xs)
  | S n, x :: xs => if x =? NL then ([], xs) else let '(l, r) := read_line n xs in (x :: l, r)
  end.

Lemma located_tail c temp x xs : located c temp (x :: xs) -> located c ((temp + 1) mod 20) xs.
Proof. intros Hl i y Hi. rewrite <- (Hl (S i) y Hi). f_equal. mlia. Qed.

Lemma located_clear c temp x xs :
  located c temp (x :: xs) -> 0 <= temp < 20 -> (length xs < 20)%nat ->
  located (c <| buffer ::= <[Z.to_nat temp := 0]> |>) ((temp + 1) mod 20) xs.
Proof.
  intros Hl Ht Hlen i y Hi. simpl. pose proof (lookup_lt_Some _ _ _ Hi).
  rewrite list_lookup_insert_ne; [by apply (located_tail _ _ _ _ Hl)|mlia].
Qed.

(** What is left of a buffer after [temp] has moved to the characters [xs]. *)
Record cursor c (temp : Z) xs : Prop := {
  cu_cells : length (buffer c) = 20%nat;
  cu_cap : (length xs <= 20)%nat;
  cu_temp : 0 <= temp < 20;
  cu_last : last_written_char_index c = (temp + Z.of_nat (length xs) - 1) mod 20;
  cu_located : located c temp xs
}.

Lemma cursor_head c temp x xs : cursor c temp (x :: xs) -> buf c temp = Ok x.
Proof.
  intros [_ _ Ht _ Hl]. apply buf_ok; [lia|]. rewrite <- (Hl 0%nat x eq_refl). f_equal. mlia.
Qed.

Lemma cursor_at_last c temp x xs :
  cursor c temp (x :: xs) -> (temp =? wrapU 64 (last_written_char_index c)) = bool_decide (xs = []).
Proof.
  intros [_ Hc Ht Hl _]. cbn [length] in *. rewrite wrapU_id by (rewrite Hl; mlia). rewrite Hl.
  destruct xs; [rewrite bool_decide_true by done; apply Z.eqb_eq; simpl; mlia|].
  rewrite bool_decide_false by done. apply Z.eqb_neq. cbn [length] in *. mlia.
Qed.

Lemma cursor_step c temp x xs :
  cursor c temp (x :: xs) -> cursor (c <| buffer ::= <[Z.to_nat temp := 0]> |>) ((temp + 1) mod 20) xs.
Proof.
  intros [Hcells Hc Ht Hl Hloc]. cbn [length] in *. split; simpl.
  - by rewrite length_insert.
  - lia.
  - mlia.
  - rewrite Hl. mlia.
  - by apply (located_clear c temp x xs).
Qed.

Definition same_console c c' : Prop :=
  echo c' = echo c /\ screen c' = screen c /\ start_of_buffer_index c' = start_of_buffer_index c.

(** The loop copies a prefix [p] of the characters and stops at the limit, at
    an end of line or at the last character. *)
Lemma copy_loop_spec fuel : forall c temp i n acc x xs,
  cursor c temp (x :: xs) -> (length xs < fuel)%nat -> 0 <= i <= n ->
  exists c' temp' p y r, copy_loop fuel c temp i n acc = Ok (c', temp', i + Z.of_nat (length p), acc ++ p) /\
    x :: xs = p ++ y :: r /\ cursor c' temp' (y :: r) /\ same_console c c' /\ (NL ∉ p) /\
    i + Z.of_nat (length p) <= n /\ (i + Z.of_nat (length p) = n \/ y = NL \/ r = []).
Proof.
  induction fuel as [|fuel IH]; intros c temp i n acc x xs Hcu Hf Hi; [lia|]. cbn [copy_loop].
  assert (Hstop : i = n \/ x = NL \/ xs = [] ->
    exists c' temp' p y r, Ok (c, temp, i, acc) = Ok (c', temp', i + Z.of_nat (length p), acc ++ p) /\
      x :: xs = p ++ y :: r /\ cursor c' temp' (y :: r) /\ same_console c c' /\ (NL ∉ p) /\
      i + Z.of_nat (length p) <= n /\ (i + Z.of_nat (length p) = n \/ y = NL \/ r = [])).
  { intros Hs. exists c, temp, [], x, xs. simpl. rewrite Z.add_0_r, app_nil_r. split_and!; try done; [set_solver|lia]. }
  destruct (Z.ltb_spec i n) as [Hlt|Hge]; simpl; [|apply Hstop; left; lia].
  rewrite (cursor_head _ _ _ _ Hcu). simpl. rewrite (cursor_at_last _ _ _ _ Hcu).
  destruct (Z.eqb_spec x NL) as [->|Hnl]; simpl; [apply Hstop; tauto|].
  destruct xs as [|x' xs]; simpl; [apply Hstop; tauto|].
  rewrite set_buf_ok by (apply Hcu). simpl. rewrite Z.rem_mod_nonneg by (unfold BUFFER_SIZE; destruct Hcu; lia).
  destruct (IH (c <| buffer ::= <[Z.to_nat temp := 0]> |>) ((temp + 1) mod BUFFER_SIZE) (i + 1) n (acc ++ [x]) x' xs)
    as (c' & temp' & p & y & r & E1 & E2 & Hcu' & Hsame & Hnp & Hle & Hor).
  { by apply (cursor_step c temp x). }
  { simpl in Hf. lia. }
  { lia. }
  exists c', temp', (x :: p), y, r. rewrite E1, <- app_assoc. cbn [length app].
  replace (i + Z.of_nat (S (length p))) with (i + 1 + Z.of_nat (length p)) by lia.
  split_and!; try done; [by rewrite E2|]. set_solver.
Qed.

Lemma read_line_prefix p n y r : NL ∉ p -> (length p <= n)%nat ->
  read_line n (p ++ y :: r) = (p ++ (read_line (n - length p) (y :: r)).1, (read_line (n - length p) (y :: r)).2).
Proof.
  revert n. induction p as [|x p IH]; intros n Hp Hn.
  - rewrite Nat.sub_0_r. by destruct (read_line n _).
  - destruct n as [|n]; simpl in Hn; [lia|]. cbn [read_line app length Nat.sub].
    destruct (Z.eqb_spec x NL) as [Ex|_]; [exfalso; apply Hp; rewrite Ex; by left|].
    rewrite IH; [done|set_solver|lia].
Qed.

Lemma cursor_rep c temp xs : cursor c temp xs -> xs <> [] -> cons_rep (c <| start_of_buffer_index := temp |>) xs.
Proof. intros [? ? ? ? ?] Hne. split; try done. by rewrite bool_decide_false. Qed.

Lemma reset_rep c : length (buffer c) = 20%nat -> cons_rep (reset_buffer c) [].
Proof. intros Hc. split; simpl; try done; lia. Qed.

Lemma copy_rep c xs n :
  cons_rep c xs -> xs <> [] -> 0 <= n ->
  exists c', copy c n = Ok ((read_line (Z.to_nat n) xs).1, c') /\ cons_rep c' (read_line (Z.to_nat n) xs).2 /\ echo c' = echo c.
Proof.
  intros Hc Hne Hn. pose proof Hc as [Hcells Hcap Hs Hl He Hloc]. rewrite bool_decide_false in Hl by done.
  destruct xs as [|x xs]; [done|]. unfold copy.
  destruct (Z.eqb_spec (last_written_char_index c) (-1)) as [E|_]; [exfalso; rewrite Hl in E; mlia|]. cbn [negb assert_].
  destruct (copy_loop_spec (S (Z.to_nat BUFFER_SIZE)) c (start_of_buffer_index c) 0 n [] x xs)
    as (c' & temp' & p & y & r & E1 & E2 & Hcu & (Ee & _ & _) & Hnp & Hle & Hor).
  { by split. }
  { cbn [length] in Hcap. unfold BUFFER_SIZE. simpl. lia. }
  { lia. }
  rewrite E2, read_line_prefix by (done || lia). rewrite Z.add_0_l in *. unfold mbind. rewrite E1. simpl.
  destruct (Z.leb_spec n (Z.of_nat (length p))) as [Hge|Hlt].
  - replace (Z.to_nat n - length p)%nat with 0%nat by lia. simpl. rewrite app_nil_r. eexists. split; [done|].
    split; [by apply cursor_rep|done].
  - destruct (Z.to_nat n - length p)%nat as [|m] eqn:Em; [lia|]. cbn [read_line].
    rewrite (cursor_head _ _ _ _ Hcu). simpl. rewrite (cursor_at_last _ _ _ _ Hcu).
    destruct (Z.eqb_spec y NL) as [->|Hy]; simpl.
    + rewrite app_nil_r. destruct r as [|y' r]; simpl.
      * eexists. split; [done|]. split; [apply reset_rep, Hcu|done].
      * rewrite set_buf_ok by apply Hcu. simpl. eexists. split; [done|]. split; [|done].
        rewrite Z.rem_mod_nonneg by (unfold BUFFER_SIZE; destruct Hcu; lia). apply cursor_rep; [|done]. by apply (cursor_step c' temp' NL).
    + assert (r = []) as -> by (destruct Hor as [?|[?|?]]; [lia|done|done]). simpl.
      rewrite set_buf_ok by apply Hcu. simpl. replace (read_line m []) with (@nil Z, @nil Z) by (by destruct m). simpl.
      eexists. split; [done|]. split; [|done]. apply reset_rep. simpl. rewrite length_insert. apply Hcu.
Qed.

Lemma cursor_next c temp x xs : cursor c temp (x :: xs) -> cursor c ((temp + 1) mod 20) xs.
Proof.
  intros [Hcells Hc Ht Hl Hloc]. cbn [length] in *. split; [done|lia|mlia|rewrite Hl; mlia|by eapply located_tail].
Qed.

Lemma eol_loop_spec fuel : forall c temp x xs,
  cursor c temp (x :: xs) -> (length xs < fuel)%nat -> eol_loop fuel c temp = Ok (bool_decide (NL ∈ x :: xs)).
Proof.
  induction fuel as [|fuel IH]; intros c temp x xs Hcu Hf; [lia|]. cbn [eol_loop].
  rewrite (cursor_head _ _ _ _ Hcu). simpl. rewrite (cursor_at_last _ _ _ _ Hcu).
  destruct (Z.eqb_spec x NL) as [Ex|Hx]; simpl.
  { rewrite andb_false_r, bool_decide_true; [done|]. rewrite Ex. by left. }
  destruct xs as [|x' xs]; simpl.
  - rewrite bool_decide_false; [done|]. set_solver.
  - rewrite Z.rem_mod_nonneg by (unfold BUFFER_SIZE; destruct Hcu; lia).
    rewrite (IH c _ x' xs); [|by eapply cursor_next|simpl in Hf; lia]. f_equal. apply bool_decide_ext. set_solver.
Qed.

Lemma cons_rep_cursor c x xs : cons_rep c (x :: xs) -> cursor c (start_of_buffer_index c) (x :: xs).
Proof. by intros [? ? ? ? ? ?]. Qed.

Lemma detected_eol_spec c xs : cons_rep c xs -> detected_eol c = Ok (bool_decide (NL ∈ xs)).
Proof.
  intros Hc. unfold detected_eol, is_buffer_empty. pose proof Hc as [_ Hcap Hs Hl _ _]. destruct xs as [|x xs]; [by rewrite Hl|].
  rewrite bool_decide_false in Hl by done. cbn [length] in *.
  destruct (Z.eqb_spec (last_written_char_index c) (-1)) as [E|_]; [exfalso; rewrite Hl in E; mlia|].
  apply eol_loop_spec; [by apply cons_rep_cursor|]. unfold BUFFER_SIZE. simpl. lia.
Qed.

Lemma current_size_spec c xs : cons_rep c xs -> buffer_current_size c = Z.of_nat (length xs) mod 20.
Proof.
  intros [_ Hcap Hs Hl He _]. unfold buffer_current_size, cmod, BUFFER_SIZE.
  pose proof (Z.rem_bound_abs (last_written_char_index c - start_of_buffer_index c + 1) 20 ltac:(lia)).
  pose proof (Z.quot_rem' (last_written_char_index c - start_of_buffer_index c + 1) 20).
  destruct (Z.ltb_spec (Z.rem (last_written_char_index c - start_of_buffer_index c + 1) 20) 0);
    (case_bool_decide as E; [subst; rewrite He in * by done; simpl in *|]); mlia.
Qed.

Lemma must_wait_spec c xs n :
  cons_rep c xs -> must_wait c n = Ok (bool_decide ((NL ∉ xs) /\ length xs <> 20%nat /\ Z.of_nat (length xs) < n)).
Proof.
  intros Hc. unfold must_wait. rewrite (detected_eol_spec c xs Hc). simpl.
  rewrite (full_spec c xs Hc), (current_size_spec c xs Hc). pose proof (cr_cap _ _ Hc). f_equal.
  rewrite !bool_decide_and, !bool_decide_not, andb_assoc. destruct (decide (length xs = 20%nat)) as [E|E].
  - rewrite (bool_decide_true (length xs = 20%nat)) by done. by rewrite andb_false_r.
  - f_equal. rewrite Z.mod_small by lia. case_bool_decide; [by apply Z.ltb_lt|by apply Z.ltb_ge, Z.nlt_ge].
Qed.

(** ** The properties of the component *)

(** The keys that append a character, and the character. *)
Definition plain_key (ch : Z) : option Z :=
  if is_printable ch then Some ch else if (ch =? LF) || (ch =? CR) then Some NL else None.

Lemma echo_char_rep c xs ch : cons_rep c xs -> cons_rep (echo_char c ch) xs.
Proof. intros [? ? ? ? ? ?]. unfold echo_char. by destruct (echo c). Qed.


(** With the echo off, the key that deletes a word never terminates.  As
    soon as the buffer is not empty, one of the two loops of the key repeats
    for ever without changing anything: it runs out of any amount of fuel. *)
Theorem delete_word_diverges c x fuel :
  echo c = false -> last_written_char_index c <> -1 -> buf c (last_written_char_index c - 1) = Ok x ->
  delete_while fuel true (if x =? SPACE then fun y => y =? SPACE else fun y => negb (y =? SPACE)) c = Err OutOfFuel /\
  handle_key c DW = Err OutOfFuel.
Proof.
  intros He Hl Hx.
  assert (Hloop : forall f, f x = true -> forall n, delete_while n true f c = Err OutOfFuel).
  { intros f Hf. induction n as [|n IH]; [done|]. cbn [delete_while]. unfold last_but.
    destruct (Z.eqb_spec (last_written_char_index c) (-1)); [done|]. rewrite Hx. simpl. rewrite Hf, He. simpl. done. }
  split; [apply Hloop; by destruct (x =? SPACE) eqn:Ex; rewrite Ex|].
  change (handle_key c DW) with (c ← delete_while (key_fuel c) true (fun y => y =? SPACE) c;
    delete_while (key_fuel c) true (fun y => negb (y =? SPACE)) c).
  destruct (x =? SPACE) eqn:Ex.
  - by rewrite (Hloop (fun y => y =? SPACE) Ex).
  - assert (Hstop : forall n, delete_while (S n) true (fun y => y =? SPACE) c = Ok c).
    { intros n. cbn [delete_while]. unfold last_but. destruct (Z.eqb_spec (last_written_char_index c) (-1)); [done|].
      rewrite Hx. simpl. by rewrite Ex. }
    assert (Ek : delete_while (key_fuel c) true (fun y => y =? SPACE) c = Ok c) by apply Hstop.
    rewrite Ek. unfold mbind, res_bind. apply Hloop. by rewrite Ex.
Qed.

(** Erasing past the start of the buffer.  When the only character left
    is at a cell other than the first one, the backspace key removes it but
    leaves the buffer in a state that is neither empty nor usable: it is
    reported full, every further key is dropped, and a reader does not wait
    although there is nothing to read. *)
Theorem backspace_fills_buffer c x :
  cons_rep c [x] -> 1 < start_of_buffer_index c -> buffer c !! Z.to_nat (start_of_buffer_index c - 1) <> Some CR ->
  exists c', handle_key c BS = Ok c' /\ is_buffer_full c' = true /\
    (forall ch, kaddtobuffer c' ch = Ok c') /\ (forall n b, must_wait c' n = Ok b -> b = false).
Proof.
  intros [Hcells _ Hs Hl _ Hloc] Hs1 Hcr. rewrite bool_decide_false in Hl by done. simpl in Hl.
  assert (El : last_written_char_index c = start_of_buffer_index c) by mlia.
  destruct (lookup_lt_is_Some_2 (buffer c) (Z.to_nat (start_of_buffer_index c - 1))) as [y Hy]; [lia|].
  assert (Eh : exists c', handle_key c BS = Ok c' /\ last_written_char_index c' = start_of_buffer_index c - 1 /\
    start_of_buffer_index c' = start_of_buffer_index c).
  { cbn -[last_but delete_last]. unfold last_but. rewrite El.
    destruct (Z.eqb_spec (start_of_buffer_index c) (-1)); [lia|]. rewrite (buf_ok _ _ y) by (done || lia). simpl.
    destruct (Z.eqb_spec y CR); [congruence|]. simpl. unfold delete_last. rewrite El, set_buf_ok by (done || lia). simpl.
    eexists. split; [done|]. simpl. split; [by rewrite El|done]. }
  destruct Eh as (c' & -> & El' & Es'). exists c'. split; [done|].
  assert (Hfull : is_buffer_full c' = true).
  { unfold is_buffer_full, BUFFER_SIZE. rewrite El', Es'. destruct (Z.eqb_spec (start_of_buffer_index c - 1) (-1)); [lia|].
    apply Z.eqb_eq. rewrite Z.rem_mod_nonneg by lia. mlia. }
  split; [done|]. split; [intros ch; unfold kaddtobuffer; by rewrite Hfull|].
  intros n b Hw. unfold must_wait in Hw. destruct (detected_eol c') as [e|]; [|done]. simpl in Hw. rewrite Hfull in Hw.
  rewrite andb_false_r in Hw. simpl in Hw. by simplify_eq.
Qed.

(** ** Witnesses: consoles after some keys were typed and lines read *)
Definition type_keys (ks : list Z) c : console_device_t :=
  foldl (fun c k => match handle_key c k with Ok c' => c' | Err _ => c end) c ks.
Definition after_copy (n : Z) c : console_device_t := match copy c n with Ok (_, c') => c' | Err _ => c end.

Definition new_console : console_device_t := register_console (mk_console true (replicate 20 0) 5 7 false []).
Definition two_lines : console_device_t := Eval vm_compute in type_keys [104; 105; 13; 121; 111] new_console.
Definition one_left : console_device_t := Eval vm_compute in after_copy 10 (type_keys [104; 105; 13; 121] new_console).

Lemma two_lines_rep : cons_rep two_lines [104; 105; 10; 121; 111].
Proof.
  split; try done; [simpl; lia|].
  intros i x Hi. do 5 (destruct i as [|i]; [vm_compute in Hi |- *; congruence|]). done.
Qed.


Lemma delete_word_diverges_witness :
  let c := cons_echo 0 two_lines in
  delete_while 1000 true (fun y => negb (y =? SPACE)) c = Err OutOfFuel /\ handle_key c DW = Err OutOfFuel.
Proof. exact (delete_word_diverges (cons_echo 0 two_lines) 121 1000 eq_refl ltac:(done) eq_refl). Defined.

Lemma one_left_rep : cons_rep one_left [121].
Proof.
  split; try done; [simpl; lia|]. intros i x Hi. destruct i as [|i]; [vm_compute in Hi |- *; congruence|done].
Qed.

Lemma backspace_fills_buffer_witness :
  exists c', handle_key one_left BS = Ok c' /\ is_buffer_full c' = true /\
    (forall ch, kaddtobuffer c' ch = Ok c') /\ (forall n b, must_wait c' n = Ok b -> b = false).
Proof. exact (backspace_fills_buffer one_left 121 one_left_rep ltac:(done) ltac:(done)). Defined.
