(* ===== verification/ProcessApiSpec.v ===== *)
(** * ProcessApiSpec: the life of a process

    What [exit], [kill], [waitpid] and [chprio] do to the processes and to the
    scheduling queues, and two defects of the end of a process. *)

From S2P Require Import Prelude.
From S2P Require Import Queue.
From S2P Require Import FrameDist.
From S2P Require Import Pages.
From S2P Require Import Kernel.
From S2P Require Import KernelRules.
From S2P Require Import ProcessFree.
From S2P Require Import Scheduler.
From S2P Require Import SchedulerSpec.
From S2P Require Import Semaphore.
From S2P Require Import ProcessApi.
#[local] Open Scope Z_scope.

Section Life.
Context `{E : KEnv}.
Implicit Types (s : kstate) (Q : queues) (p : ptr).

(** ** Moving a process between queues *)

Lemma run_qdel s Q h xs p ys :
  sched_inv s Q -> Q !! h = Some (xs ++ p :: ys) ->
  exists l, qdel (Some p) s = Ok (tt, s <| links := l |>) /\ sched_inv (s <| links := l |>) (<[h := xs ++ ys]> Q).
Proof.
  intros Hinv HQ. assert (Hwp : wp (qdel (Some p)) (fun _ s' => exists l, s' = s <| links := l |> /\
    sched_inv s' (<[h := xs ++ ys]> Q)) s).
  { eapply wp_qdel; [apply (si_rep _ _ Hinv)|exact HQ|]. intros l Hd Hr. exists l. split; [done|].
    eapply sched_inv_relink; [done..|]. intros q Hq. left. rewrite elem_of_app, elem_of_cons in *. tauto. }
  apply wp_elim in Hwp as ([] & s' & E1 & l & -> & ?). eauto.
Qed.

(** A ready process is put at the place of its new priority. *)
Lemma requeue_ready s Q c x A L p xs ys (A1 := insert_prio (pfield s prio) p (xs ++ ys)) :
  sched_pre s Q c x A L -> A = xs ++ p :: ys ->
  exists l, (_ ← qdel (Some p); qadd (Some p) activatable_process_queue prio) s = Ok (tt, s <| links := l |>) /\
    sched_pre (s <| links := l |>) (<[activatable_process_queue := A1]> Q) c x A1 L.
Proof.
  intros Hpre ->. pose proof Hpre as [Hinv [Hcur Hx Hfree Hready] _ HA HL _ Hd _ _].
  destruct (run_qdel s Q activatable_process_queue xs p ys Hinv HA) as (l1 & E1 & Hinv1).
  assert (Hin : forall q, q ∈ xs ++ ys -> q ∈ xs ++ p :: ys) by (intros q; rewrite !elem_of_app, elem_of_cons; tauto).
  assert (Hp : p ∈ xs ++ p :: ys) by (rewrite elem_of_app, elem_of_cons; tauto).
  destruct (si_queued _ _ Hinv p) as [y Hy]; [exact (queued_in _ _ _ _ HA Hp)|].
  destruct (run_qadd (s <| links := l1 |>) _ activatable_process_queue (xs ++ ys) p y prio Hinv1) as (l2 & E2 & Hinv2);
    [apply lookup_insert_eq|exact Hy|exact (not_queued_del _ _ _ _ _ _ (si_rep _ _ Hinv) HA)|done|].
  exists l2. split; [by rewrite (run_bind _ _ _ _ _ E1)|]. rewrite insert_insert_eq in Hinv2.
  assert (Hq : forall q, q ∈ A1 -> q ∈ xs ++ p :: ys) by (intros q [->|Hq]%elem_of_insert_prio; auto).
  eapply sched_pre_step; [exact Hpre|exact Hinv2|done..|apply lookup_insert_eq| | | |].
  - by rewrite lookup_insert_ne.
  - by rewrite lookup_insert_ne.
  - intros Hqc. eapply queued_insert in Hqc as [?|Hqc]; [done| |exact HA]. exact (queued_in _ _ _ _ HA (Hq _ Hqc)).
  - intros Hqc. by eapply Hready, Hq.
Qed.

(** ** [chprio] *)

Definition with_prio (y : process) (new : Z) : process := y <| prio := new |>.

(** A valid call, up to the switch on the state of the process. *)
Lemma chprio_enters s Q id p y new :
  sched_inv s Q -> pid_process_hash_table s !! id = Some p -> procs s !! p = Some y -> MINPRIO <= new <= MAXPRIO ->
  state y <> ZOMBIE -> state y <> KILLED ->
  chprio id new s = match state y with
    | ACTIVATABLE => (_ ← (_ ← qdel (Some p); qadd (Some p) activatable_process_queue prio); scheduler (KRet (prio y) []))
    | ACTIF => scheduler (KRet (prio y) [])
    | BLOCKEDQUEUE => (_ ← qdel (Some p); m ← pget (Some p) message; h ← lift (deref (blocked_head m));
        _ ← qadd (Some p) h prio; mret (KRet (prio y) []))
    | BLOCKEDIO => (_ ← qdel (Some p); _ ← qadd (Some p) blocked_io_process_queue prio; mret (KRet (prio y) []))
    | _ => mret (KRet (prio y) [])
    end (s <| procs ::= <[p := with_prio y new]> |>).
Proof.
  intros Hinv Hp Hy Hnew Hz Hk. unfold chprio. run_step (apply wp_get_process; rewrite Hp; split; reflexivity). cbn match.
  destruct (Z.ltb_spec MAXPRIO new); [lia|]. destruct (Z.ltb_spec new MINPRIO); [lia|]. cbn [orb].
  unfold validate_action_process_valid. run_step (apply wp_bind; eapply wp_pget; [exact Hy|rewrite !bool_decide_false by done; apply wp_ret; split; reflexivity]).
  cbn [Z.ltb Z.compare]. run_step (eapply wp_pget; [exact Hy|split; reflexivity]).
  run_step (eapply wp_pset; [exact Hy|split; reflexivity]).
  run_step (eapply wp_pget; [apply lookup_insert_eq|split; reflexivity]). simpl.
  destruct (state y); try done. unfold mbind, M_bind. by destruct (qdel (Some p) _) as [[[] s1]|].
Qed.

Lemma with_prio_pre s Q c x A L p y new :
  sched_pre s Q c x A L -> p <> c -> procs s !! p = Some y ->
  sched_pre (s <| procs ::= <[p := with_prio y new]> |>) Q c x A L.
Proof.
  intros Hpre Hpc Hy. pose proof Hpre as [Hinv [Hcur Hx Hfree Hready] _ HA HL _ Hd _ _].
  eapply sched_pre_step; [exact Hpre|eapply sched_inv_proc; [done..|exact (si_ctx _ _ Hinv _ _ Hy)]|simpl; by rewrite lookup_insert_ne|done..|].
  intros Hin. by eapply Hready.
Qed.


(** [chprio] on a process that was just woken.  The scheduler leaves a
    woken sleeper in state [ASLEEP] in the ready list, and [chprio] moves only
    processes in state [ACTIVATABLE]: the process keeps its place, and a
    process of a lower priority is run before it. *)
Theorem chprio_misses_woken s Q c x B p t y z id new k :
  sched_pre s Q c x (p :: B ++ [t]) [] -> state x = ACTIF -> pid_process_hash_table s !! id = Some p ->
  procs s !! p = Some y -> state y = ASLEEP -> procs s !! t = Some z -> prio x <= prio z ->
  MINPRIO <= new <= MAXPRIO -> prio z < new ->
  exists s1, chprio id new s = Ok (KRet (prio y) [], s1) /\ pfield s1 prio p = new /\ pfield s1 prio t = prio z /\
    exists k' s2, scheduler k s1 = Ok (k', s2) /\ current_running_process_pid s2 = pid z /\
      (exists z', procs s2 !! t = Some z' /\ state z' = ACTIF).
Proof.
  intros Hpre Ha Hid Hy Hst Hz Hle Hnew Hlt. pose proof Hpre as [Hinv Hrun _ HA _ _ _ _ _].
  set (s1 := s <| procs ::= <[p := with_prio y new]> |>).
  destruct (rep_ring _ _ (si_rep _ _ Hinv) _ _ HA) as [_ Hnd]. apply NoDup_cons in Hnd as [Hnp _].
  rewrite elem_of_app, list_elem_of_singleton in Hnp. assert (Hpt : p <> t) by tauto.
  assert (Hpc : p <> c) by (intros ->; eapply (ru_ready _ _ _ _ Hrun); [exact HA|by left]).
  exists s1. split; [rewrite (chprio_enters s Q id p y new) by (done || by rewrite Hst); by rewrite Hst|].
  split; [unfold pfield; simpl; by rewrite lookup_insert_eq|].
  assert (Ept : pfield s1 prio t = prio z) by (unfold pfield; simpl; by rewrite lookup_insert_ne, Hz). split; [done|].
  pose proof (with_prio_pre _ _ _ _ _ _ p y new Hpre Hpc Hy) as Hpre1. fold s1 in Hpre1.
  pose proof (scheduler_spec k _ _ _ _ _ _ [] _ Hpre1 eq_refl) as Hwp.
  apply wp_elim in Hwp as (k' & s' & Erun & l & Hinv1 & Hrun1 & Hch). exists k', s'. split; [done|].
  assert (Hchosen : chosen s1 x (p :: B ++ [t]) = Some t).
  { unfold chosen. rewrite app_comm_cons, last_snoc, Ept, (proj2 (Z.ltb_ge _ _) Hle), andb_false_r. done. }
  rewrite Hchosen in Hch. destruct Hch as (z0 & B' & _ & Hz0 & -> & Hsw). simpl in Hz0. rewrite lookup_insert_ne in Hz0 by done.
  simplify_eq. destruct Hsw as [Hps -> _]. simpl. split; [done|]. rewrite Hps, lookup_insert_eq. by eexists.
Qed.

(** ** Children *)

(** From [h], the siblings [ks], all of them alive. *)
Fixpoint alive_siblings s (h : option ptr) (ks : list ptr) : Prop :=
  match ks with
  | [] => h = None
  | k :: ks => h = Some k /\ exists z, procs s !! k = Some z /\ state z <> ZOMBIE /\ alive_siblings s (next_sibling z) ks
  end.

Lemma alive_siblings_elem s h ks k : alive_siblings s h ks -> k ∈ ks -> is_Some (procs s !! k).
Proof.
  revert h. induction ks as [|k' ks IH]; intros h; simpl; [by intros _ ?%elem_of_nil|].
  intros (-> & z & Hz & _ & Hs) [->|Hin]%elem_of_cons; [by eexists|by eapply IH].
Qed.

Lemma orphans_loop_alive fuel : forall s h ks,
  alive_siblings s h ks -> (length ks < fuel)%nat -> orphans_loop fuel h s = Ok (0, s).
Proof.
  induction fuel as [|fuel IH]; intros s h ks Hs Hf; [lia|]. destruct ks as [|k ks]; simpl in Hs; [by subst h|].
  destruct Hs as (-> & z & Hz & Hst & Hs). cbn [orphans_loop]. run_step (eapply wp_pget; [exact Hz|split; reflexivity]).
  rewrite bool_decide_false by done. run_step (eapply wp_pget; [exact Hz|split; reflexivity]).
  apply (IH s _ ks Hs). simpl in Hf. lia.
Qed.

(** [x] has the living children [ks]. *)
Definition has_children s (x : process) (ks : list ptr) : Prop :=
  alive_siblings s (children_head x) ks /\ NoDup ks /\ children_tail x = last ks.

Lemma make_orphans_alive s p x ks :
  procs s !! p = Some x -> has_children s x ks -> make_children_orphans_and_kill_zombies (Some p) s = Ok (0, s).
Proof.
  intros Hx (Hs & Hnd & Ht). unfold make_children_orphans_and_kill_zombies.
  run_step (eapply wp_pget; [exact Hx|split; reflexivity]). run_step (eapply wp_pget; [exact Hx|split; reflexivity]).
  assert (Hloop : orphans_loop (walk_fuel procs s) (children_head x) s = Ok (0, s)).
  { eapply orphans_loop_alive; [exact Hs|]. unfold walk_fuel. rewrite <- size_dom, <- (size_list_to_set (C := gset ptr)) by done.
    apply Nat.lt_succ_r, subseteq_size. intros k. rewrite elem_of_list_to_set, elem_of_dom. by eapply alive_siblings_elem. }
  assert (Hrun : (fuel ← gets (walk_fuel procs); orphans_loop fuel (children_head x)) s = Ok (0, s)).
  { run_step (apply wp_gets; split; reflexivity). exact Hloop. }
  destruct (children_head x), (children_tail x); exact Hrun || done.
Qed.

(** ** Becoming a zombie *)

Definition zombie (x : process) : process := x <| state := ZOMBIE |>.

(** The parent does not wait: only the state of the process changes. *)
Section Ending.
Context (s0 s : kstate) (p : ptr) (x : process) (q : ptr) (y : process) (current_or_custom : bool) (id : Z).
Hypothesis Hp : (if current_or_custom then pid_process_hash_table s0 !! current_running_process_pid s0
   else pid_process_hash_table s0 !! id) = Some p.
Hypothesis Hmk : make_children_orphans_and_kill_zombies (Some p) s0 = Ok (0, s).
Hypothesis Hx : procs s !! p = Some x.
Hypothesis Hpar : parent x = Some q.
Hypothesis Hne : p <> q.
Hypothesis Hy : procs s !! q = Some y.

Lemma turn_zombie_quiet : state y <> ZOMBIE -> state y <> BLOCKEDWAITCHILD ->
  turn_current_process_into_a_zombie_or_kill_it current_or_custom id s0 = Ok (0, s <| procs ::= <[p := zombie x]> |>).
Proof.
  intros Hz Hw. unfold turn_current_process_into_a_zombie_or_kill_it.
  eapply eq_trans; [eapply (run_bind _ _ _ (Some p) s0)|].
  { destruct current_or_custom; apply wp_run; [apply wp_get_current|apply wp_get_process]; by rewrite Hp. }
  unfold or_fail. eapply eq_trans; [eapply run_bind, Hmk|]. cbn [Z.ltb Z.compare].
  run_step (eapply wp_pset; [exact Hx|split; reflexivity]).
  run_step (eapply wp_pget; [apply lookup_insert_eq|split; reflexivity]). simpl. rewrite Hpar.
  run_step (eapply wp_pget; [simpl; rewrite lookup_insert_ne by done; exact Hy|split; reflexivity]).
  by rewrite !bool_decide_false.
Qed.

(** The parent waits for a child: it is made ready. *)
Lemma turn_zombie_wakes Q A : sched_inv s Q -> Q !! activatable_process_queue = Some A ->
  state y = BLOCKEDWAITCHILD -> ~ queued Q q ->
  exists l, turn_current_process_into_a_zombie_or_kill_it current_or_custom id s0 =
      Ok (0, s <| procs ::= <[p := zombie x]> |> <| procs ::= <[q := y <| state := ACTIVATABLE |>]> |> <| links := l |>) /\
    sched_inv (s <| procs ::= <[p := zombie x]> |> <| procs ::= <[q := y <| state := ACTIVATABLE |>]> |> <| links := l |>)
      (<[activatable_process_queue := insert_prio (pfield s prio) q A]> Q).
Proof.
  intros Hinv HA Hw Hnq. set (s1 := s <| procs ::= <[p := zombie x]> |>).
  set (s2 := s1 <| procs ::= <[q := y <| state := ACTIVATABLE |>]> |>).
  assert (Hy1 : procs s1 !! q = Some y) by (simpl; by rewrite lookup_insert_ne).
  assert (Hinv2 : sched_inv s2 Q).
  { eapply sched_inv_proc; [|exact Hy1|done|done|exact (si_ctx _ _ Hinv _ _ Hy)].
    eapply sched_inv_proc; [exact Hinv|exact Hx|done|done|exact (si_ctx _ _ Hinv _ _ Hx)]. }
  destruct (run_qadd s2 Q activatable_process_queue A q (y <| state := ACTIVATABLE |>) prio Hinv2) as (l & Ea & Hinv3);
    [done|apply lookup_insert_eq|done|done|].
  exists l. split.
  - unfold turn_current_process_into_a_zombie_or_kill_it. eapply eq_trans; [eapply (run_bind _ _ _ (Some p) s0)|].
    { destruct current_or_custom; apply wp_run; [apply wp_get_current|apply wp_get_process]; by rewrite Hp. }
    unfold or_fail. eapply eq_trans; [eapply run_bind, Hmk|]. cbn [Z.ltb Z.compare].
    run_step (eapply wp_pset; [exact Hx|split; reflexivity]).
    run_step (eapply wp_pget; [apply lookup_insert_eq|split; reflexivity]). simpl. rewrite Hpar.
    run_step (eapply wp_pget; [exact Hy1|split; reflexivity]). rewrite Hw. cbn [bool_decide].
    run_step (eapply wp_pset; [exact Hy1|split; reflexivity]).
    eapply eq_trans; [eapply run_bind; exact Ea|]. done.
  - rewrite (insert_prio_ext _ (pfield s prio)) in Hinv3; [done|]. intros r _. unfold pfield. simpl.
    rewrite !lookup_insert. destruct (decide (q = r)) as [<-|]; [by rewrite Hy|].
    destruct (decide (p = r)) as [<-|]; [by rewrite Hx|done].
Qed.
End Ending.

(** ** [exit] *)

(** A process that is neither running nor queued loses the processor for good. *)
Lemma scheduler_leaves k s Q c x A L :
  sched_pre s Q c x A L -> state x <> ACTIF -> ~ queued Q c ->
  exists k' s' Q' r z x', scheduler k s = Ok (k', s') /\ sched_inv s' Q' /\ running s' Q' r z /\
    procs s' !! c = Some x' /\ state x' = state x /\ return_value x' = return_value x /\ ~ queued Q' c /\
    (A <> [] -> r <> c /\ state z = ACTIF).
Proof.
  intros Hpre Ha Hnq. destruct (wake_ready (pfield s wake_time) (pfield s prio) (counter s) (reverse L) A) as [rs A1] eqn:Ew.
  pose proof (scheduler_spec k _ _ _ _ _ _ _ _ Hpre Ew) as Hwp.
  apply wp_elim in Hwp as (k' & s' & Erun & l & Hinv1 & Hrun1 & Hch). pose proof Hpre as [_ _ _ HA HL _ _ _ _].
  assert (Hq1 : ~ queued (woken Q rs A1) c).
  { intros Hq. apply Hnq. eapply woken_not_queued; [done..| |done]. by eapply wake_ready_perm. }
  pose proof (ru_proc _ _ _ _ Hrun1) as Hx. unfold chosen in Hch. destruct (list_snoc_inv A1) as [->|(B & t & ->)].
  - destruct Hch as [-> ->]. eexists _, _, _, c, x, x. do 7 (split; [done|]). intros Hne. exfalso. apply Hne.
    pose proof (wake_ready_length _ _ _ _ _ _ _ Ew). destruct A; simpl in *; [done|lia].
  - rewrite last_snoc, bool_decide_false in Hch by done. destruct Hch as (y & B' & EB & Hy & -> & Hsw).
    apply app_inj_tail in EB as [<- _].
    assert (HA1 : woken Q rs (B ++ [t]) !! activatable_process_queue = Some (B ++ [t])) by apply lookup_insert_eq.
    assert (Hct : t <> c) by (intros ->; apply Hq1; eapply queued_in; [exact HA1|apply elem_snoc_last]).
    pose proof (switched_running _ _ _ _ _ _ _ _ _ Hsw Hrun1 HA1 Hy Hinv1) as Hrun2.
    eexists _, s', _, t, _, (left x k). split; [done|]. split; [apply Hsw|]. split; [exact Hrun2|].
    rewrite (sw_procs _ _ _ _ _ _ _ _ _ Hsw), lookup_insert_ne, lookup_insert_eq by done. split; [done|].
    unfold left. rewrite bool_decide_false by done. do 2 (split; [done|]). split; [|done].
    unfold ready_after. rewrite bool_decide_false by done. intros Hq. apply Hq1.
    eapply queued_insert in Hq as [Hq|Hq]; [done| |exact HA1]. eapply queued_in; [exact HA1|by apply elem_snoc_init].
Qed.

(** A running process with a living parent calls [exit]; [s] is the state once
    its children are dealt with. *)
Section Exit.
Context (s0 s : kstate) (Q : queues) (c : ptr) (x : process) (A L : list ptr) (q : ptr) (y : process) (v : Z).
Hypothesis Hcur0 : pid_process_hash_table s0 !! current_running_process_pid s0 = Some c.
Hypothesis Hx0 : procs s0 !! c = Some x.
Hypothesis Hmk : make_children_orphans_and_kill_zombies (Some c) s0 = Ok (0, s).
Hypothesis Hpre : sched_pre s Q c x A L.
Hypothesis Ha : state x = ACTIF.
Hypothesis Hpar : parent x = Some q.
Hypothesis Hcq : c <> q.
Hypothesis Hy : procs s !! q = Some y.
Hypothesis Hz : state y <> ZOMBIE.
Hypothesis Hwq : state y = BLOCKEDWAITCHILD -> ~ queued Q q.

Definition exit_wakes : bool := bool_decide (state y = BLOCKEDWAITCHILD).
Definition exit_ready : list ptr := if exit_wakes then insert_prio (pfield s prio) q A else A.
Definition exited : process := zombie x <| return_value := v |>.
Definition exit_procs : gmap ptr process :=
  <[c := exited]> (if exit_wakes then <[q := y <| state := ACTIVATABLE |>]> (procs s) else procs s).

Lemma exit_turned : exists s1, turn_current_process_into_a_zombie_or_kill_it true 0 s0 = Ok (0, s1) /\
  procs s1 !! c = Some (zombie x) /\ pid_process_hash_table s1 !! current_running_process_pid s1 = Some c /\
  sched_pre (s1 <| procs ::= <[c := exited]> |>) (<[activatable_process_queue := exit_ready]> Q) c exited exit_ready L /\
  exists l, s1 <| procs ::= <[c := exited]> |> = s <| procs := exit_procs |> <| links := l |>.
Proof.
  pose proof Hpre as [Hinv [Hcur Hx Hfree Hready] Hk HA HL Hdue Hdead Hmain Hst]. pose proof (Hfree Ha) as Hnq.
  unfold exit_ready, exit_procs, exit_wakes. case_bool_decide as Hw.
  - destruct (turn_zombie_wakes s0 s c x q y true 0 Hcur0 Hmk Hx Hpar Hcq Hy Q A) as (l & E1 & Hinv1); try done; [by apply Hwq|].
    eexists. split; [exact E1|]. assert (Hc1 : procs (s <| procs ::= <[c := zombie x]> |>
      <| procs ::= <[q := y <| state := ACTIVATABLE |>]> |> <| links := l |>) !! c = Some (zombie x)).
    { simpl. by rewrite lookup_insert_ne, lookup_insert_eq. }
    split; [exact Hc1|]. split; [exact Hcur|]. split.
    + assert (Hnr : c ∉ insert_prio (pfield s prio) q A) by (intros [->|Hin]%elem_of_insert_prio; [done|by eapply Hready]).
      split; try done; rewrite ?lookup_insert_ne, ?lookup_insert_eq by done; try done.
      * eapply sched_inv_proc; [exact Hinv1|exact Hc1|done|done|exact (si_ctx _ _ Hinv _ _ Hx)].
      * split; [exact Hcur|apply lookup_insert_eq|done|]. intros A0. rewrite lookup_insert_eq. by intros [= <-].
    + exists l. transitivity (s <| procs := <[c := exited]> (<[q := y <| state := ACTIVATABLE |>]> (<[c := zombie x]> (procs s))) |> <| links := l |>);
        [done|]. do 2 f_equal. by rewrite (insert_insert_ne (procs s)), insert_insert_eq.
  - eexists. split; [by eapply (turn_zombie_quiet s0 s c x q y true 0)|]. split; [apply lookup_insert_eq|]. split; [exact Hcur|].
    assert (Es : s <| procs ::= <[c := zombie x]> |> <| procs ::= <[c := exited]> |> = s <| procs := <[c := exited]> (procs s) |>).
    { transitivity (s <| procs := <[c := exited]> (<[c := zombie x]> (procs s)) |>); [done|]. by rewrite insert_insert_eq. }
    split; [|exists (links s); rewrite Es; by destruct s].
    rewrite insert_id by done. rewrite Es. by eapply (sched_pre_self s).
Qed.

Lemma exit_leaves k : exists s1, exit_process v k s0 = scheduler k s1 /\
  sched_pre s1 (<[activatable_process_queue := exit_ready]> Q) c exited exit_ready L /\
  (exists l, s1 = s <| procs := exit_procs |> <| links := l |>) /\
  exists k' s2 Q2 r z x', scheduler k s1 = Ok (k', s2) /\ sched_inv s2 Q2 /\ running s2 Q2 r z /\
    procs s2 !! c = Some x' /\ state x' = ZOMBIE /\ return_value x' = v /\ ~ queued Q2 c /\
    (exit_ready <> [] -> r <> c /\ state z = ACTIF).
Proof.
  destruct exit_turned as (s1 & E1 & Hc1 & Hcur1 & Hpre1 & Hform). pose proof Hpre as [_ [_ _ Hfree Hready] _ HA _ _ _ _ _].
  exists (s1 <| procs ::= <[c := exited]> |>). split; [|split; [done|split; [done|]]].
  - unfold exit_process. run_step (apply wp_get_current; rewrite Hcur0; split; reflexivity).
    unfold validate_action_process_valid. run_step (apply wp_bind; eapply wp_pget; [exact Hx0|rewrite Ha; apply wp_ret; split; reflexivity]).
    cbn [Z.ltb Z.compare]. eapply eq_trans; [eapply run_bind; exact E1|]. cbn [Z.ltb Z.compare].
    run_step (apply wp_get_current; rewrite Hcur1; split; reflexivity).
    run_step (eapply wp_pset; [exact Hc1|split; reflexivity]). done.
  - eapply (scheduler_leaves k) in Hpre1 as (k' & s2 & Q2 & r & z & x' & Hall); [|done|]; [by exists k', s2, Q2, r, z, x'|].
    intros Hq. eapply queued_insert in Hq as [Hq|Hq]; [by apply Hfree| |exact HA].
    unfold exit_ready in Hq. destruct exit_wakes; [|by eapply Hready]. apply elem_of_insert_prio in Hq as [?|Hq]; [done|by eapply Hready].
Qed.
End Exit.

(** The end of a process whose children live.  A running process with a living
    parent calls [exit]: it becomes a zombie that keeps its return value, is in
    no queue and does not run any more as long as another process is ready;
    its parent, if it was waiting for a child, is made ready, and nothing else
    of the scheduling changes. *)
Theorem exit_makes_zombie s Q c x A L ks q y v k :
  sched_pre s Q c x A L -> state x = ACTIF -> has_children s x ks -> parent x = Some q -> c <> q ->
  procs s !! q = Some y -> state y <> ZOMBIE -> (state y = BLOCKEDWAITCHILD -> ~ queued Q q) ->
  let A1 := if bool_decide (state y = BLOCKEDWAITCHILD) then insert_prio (pfield s prio) q A else A in
  exists s1, exit_process v k s = scheduler k s1 /\
    sched_pre s1 (<[activatable_process_queue := A1]> Q) c (zombie x <| return_value := v |>) A1 L /\
    exists k' s2 Q2 r z x', scheduler k s1 = Ok (k', s2) /\ sched_inv s2 Q2 /\ running s2 Q2 r z /\
      procs s2 !! c = Some x' /\ state x' = ZOMBIE /\ return_value x' = v /\ ~ queued Q2 c /\
      (A1 <> [] -> r <> c /\ state z = ACTIF).
Proof.
  intros Hpre Ha Hks Hpar Hcq Hy Hz Hwq A1. pose proof (ru_proc _ _ _ _ (sp_running _ _ _ _ _ _ Hpre)) as Hx.
  pose proof (ru_current _ _ _ _ (sp_running _ _ _ _ _ _ Hpre)) as Hcur. pose proof (make_orphans_alive s c x ks Hx Hks) as Hmk.
  destruct (exit_leaves s s Q c x A L q y v Hcur Hx Hmk Hpre Ha Hpar Hcq Hy Hz Hwq k) as (s1 & E1 & Hp1 & _ & Hrest).
  by exists s1.
Qed.

(** ** [kill] *)


(** killing a process that waits for a child halts the kernel.  Such a
    process is in no queue, but [kill] unlinks it all the same: the assertion
    of [queue_del] fails. *)
Theorem kill_waiting_parent s Q p x id :
  sched_inv s Q -> pid_process_hash_table s !! id = Some p -> procs s !! p = Some x ->
  state x = BLOCKEDWAITCHILD -> ~ queued Q p -> id <> idleId -> id <> kernelId ->
  current_running_process_pid s <> id ->
  kill id false s = Err AssertFailed.
Proof.
  intros Hinv Hp Hx Hst Hnq H1 H2 Hcur. assert (Hid : pid x = id).
  { apply (si_table _ _ Hinv) in Hp as (x' & Hx' & <-). by simplify_eq. }
  unfold kill. destruct (Z.eqb_spec id idleId); [done|]. destruct (Z.eqb_spec id kernelId); [done|]. cbn [orb].
  run_step (apply wp_get_process; rewrite Hp; split; reflexivity). cbn match.
  unfold validate_action_process_valid. run_step (apply wp_bind; eapply wp_pget; [exact Hx|rewrite Hst; apply wp_ret; split; reflexivity]).
  cbn [Z.ltb Z.compare]. run_step (eapply wp_pget; [exact Hx|split; reflexivity]).
  run_step (apply wp_gets; split; reflexivity). rewrite Hid. destruct (Z.eqb_spec id (current_running_process_pid s)); [congruence|].
  unfold kill_rest. apply run_bind_err. unfold leave_queue_process_if_needed.
  run_step (eapply wp_pget; [exact Hx|split; reflexivity]). rewrite Hst. rewrite bool_decide_false by done.
  apply run_bind_err. unfold qdel, mbind, M_bind, lift, gets. simpl.
  rewrite (queue_del_unqueued (links s) Q p); [done|apply Hinv|apply (si_linked _ _ Hinv); by eexists|done].
Qed.

(** ** The released pages *)

(** freeing a process that left two holes in its shared pages frees the
    first list node twice: [released_iter_prev] is never advanced. *)
Theorem released_pages_double_free s n1 n2 r1 r2 fuel :
  released_nodes s !! n1 = Some r1 -> next_released_page r1 = Some n2 -> n1 <> n2 ->
  released_nodes s !! n2 = Some r2 -> (2 <= fuel)%nat ->
  free_released_pages fuel (Some n1) (Some n1) s = Err BadAccess.
Proof.
  intros Hr1 Hn Hne Hr2 Hf. destruct fuel as [|[|fuel]]; [lia..|]. cbn [free_released_pages].
  run_step (eapply (wp_rd released_nodes); [exact Hr1|split; reflexivity]).
  unfold free at 1. eapply eq_trans; [eapply run_bind|].
  { run_step (eapply (wp_rd released_nodes); [exact Hr1|split; reflexivity]). reflexivity. }
  cbn beta. rewrite Hn.
  run_step (eapply (wp_rd released_nodes); [simpl; rewrite lookup_delete_ne by done; exact Hr2|split; reflexivity]).
  apply run_bind_err. unfold free. apply run_bind_err. unfold rd, mbind, M_bind, lift, gets. simpl.
  by rewrite lookup_delete_eq.
Qed.

End Life.
