(* ===== verification/ProcessApiWitness.v ===== *)
(** * ProcessApiWitness: the theorems on the life of a process, on small states

    Process 1 runs, process 2 is its parent and waits for it, process 3 is
    ready. *)

From S2P Require Import Prelude.
From S2P Require Import Queue.
From S2P Require Import FrameDist.
From S2P Require Import Pages.
From S2P Require Import Kernel.
From S2P Require Import KernelRules.
From S2P Require Import ProcessFree.
From S2P Require Import Scheduler.
From S2P Require Import SchedulerSpec.
From S2P Require Import Demo.
From S2P Require Import ProcessApi.
From S2P Require Import ProcessApiSpec.
#[local] Open Scope Z_scope.

Definition child_process : process := demo_process 1 5 ACTIF 0 <| parent := Some 2%positive |>.
Definition parent_process : process := demo_process 2 10 BLOCKEDWAITCHILD 0.
Definition family_state : kstate :=
  demo_state child_process parent_process (demo_process 3 20 ACTIVATABLE 0) [3%positive] [] 10.

Lemma family_pre : sched_pre family_state (demo_Q [3%positive] []) 1%positive child_process [3%positive] [].
Proof.
  apply demo_sched_pre; [|done|set_solver].
  apply demo_sched_inv; [done..| | |simpl; repeat constructor; set_solver|]; demo_list; unfold demo_ptr; auto.
Qed.

Lemma parent_unqueued : ~ queued (demo_Q [3%positive] []) 2%positive.
Proof. by intros ?%demo_queued%list_elem_of_singleton. Qed.

Lemma exit_makes_zombie_witness :
  let A1 := [2%positive; 3%positive] in
  exists s1, @exit_process demo_env 7 (KRet 0 []) family_state = @scheduler demo_env (KRet 0 []) s1 /\
    sched_pre s1 (<[activatable_process_queue := A1]> (demo_Q [3%positive] [])) 1%positive
      (zombie child_process <| return_value := 7 |>) A1 [] /\
    exists k' s2 Q2 r z x', @scheduler demo_env (KRet 0 []) s1 = Ok (k', s2) /\ sched_inv s2 Q2 /\ running s2 Q2 r z /\
      procs s2 !! 1%positive = Some x' /\ state x' = ZOMBIE /\ return_value x' = 7 /\ ~ queued Q2 1%positive /\
      (A1 <> [] -> r <> 1%positive /\ state z = ACTIF).
Proof.
  refine (@exit_makes_zombie demo_env _ _ _ _ _ _ [] 2%positive parent_process 7 (KRet 0 []) family_pre
    eq_refl _ eq_refl _ eq_refl _ (fun _ => parent_unqueued)); [|done..].
  split; [done|]. split; [constructor|done].
Defined.

Lemma kill_waiting_parent_witness : @kill demo_env 2 false family_state = Err AssertFailed.
Proof.
  refine (@kill_waiting_parent demo_env _ _ 2%positive parent_process 2 (sp_inv _ _ _ _ _ _ family_pre)
    eq_refl eq_refl eq_refl parent_unqueued _ _ _); done.
Defined.

(** Process 2 runs, its child 3 has ended, its parent 1 is ready.  Process 2
    ends, which frees 3 and lets 1 run; then 1 ends, finds the zombie 2 and
    walks the children 2 had. *)
Definition three_generations : kstate :=
  demo_state (demo_process 1 5 ACTIVATABLE 0 <| children_head := Some 2%positive |> <| children_tail := Some 2%positive |>)
    (demo_process 2 5 ACTIF 0 <| parent := Some 1%positive |> <| children_head := Some 3%positive |> <| children_tail := Some 3%positive |>)
    (demo_process 3 5 ZOMBIE 0 <| parent := Some 2%positive |>) [1%positive] [] 10 <| current_running_process_pid := 2 |>.

Lemma grandchild_use_after_free : exists k s1,
  @exit_process demo_env 0 KIret three_generations = Ok (k, s1) /\
  current_running_process_pid s1 = 1 /\ procs s1 !! 3%positive = None /\
  @exit_process demo_env 0 KIret s1 = Err BadAccess.
Proof. eexists _, _. split; [vm_compute; reflexivity|]. split; [reflexivity|]. split; reflexivity. Qed.

Definition holes_state : kstate :=
  family_state <| released_nodes := <[5%positive := mk_released 0 0 0 0 (Some 6%positive)]>
    (<[6%positive := mk_released 0 0 0 0 None]> ∅) |>.

Lemma released_pages_double_free_witness :
  free_released_pages 3 (Some 5%positive) (Some 5%positive) holes_state = Err BadAccess.
Proof.
  refine (@released_pages_double_free holes_state 5%positive 6%positive _ _ 3 eq_refl eq_refl _ eq_refl _); [done|lia].
Defined.


(** Process 2 was woken and is ready before process 3. *)
Definition woken_state : kstate :=
  demo_state (demo_process 1 1 ACTIF 0) (demo_process 2 3 ASLEEP 0) (demo_process 3 5 ACTIVATABLE 0)
    [2%positive; 3%positive] [] 10.

Lemma woken_pre :
  sched_pre woken_state (demo_Q [2%positive; 3%positive] []) 1%positive (demo_process 1 1 ACTIF 0) [2%positive; 3%positive] [].
Proof.
  apply demo_sched_pre; [|done|set_solver].
  apply demo_sched_inv; [done..| | |simpl; repeat constructor; set_solver|]; demo_list; unfold demo_ptr; auto.
Qed.

Lemma chprio_misses_woken_witness :
  exists s1, @chprio demo_env 2 9 woken_state = Ok (KRet 3 [], s1) /\ pfield s1 prio 2%positive = 9 /\
    pfield s1 prio 3%positive = 5 /\
    exists k' s2, @scheduler demo_env KIret s1 = Ok (k', s2) /\ current_running_process_pid s2 = 3 /\
      (exists z', procs s2 !! 3%positive = Some z' /\ state z' = ACTIF).
Proof.
  refine (@chprio_misses_woken demo_env _ _ _ _ [] 2%positive 3%positive _ _ 2 9 KIret woken_pre eq_refl eq_refl eq_refl
    eq_refl eq_refl _ _ _); [done|by unfold MINPRIO, MAXPRIO|done].
Defined.
