(* ===== verification/StartSpec.v ===== *)
(** * StartSpec: the creation of a process

    What [start_virtual] does to the kernel up to its last step, the test that
    may call the scheduler. *)

From S2P Require Import Prelude.
From S2P Require Import Queue.
From S2P Require Import FrameDist.
From S2P Require Import Pages.
From S2P Require Import Kernel.
From S2P Require Import KernelRules.
From S2P Require Import ProcessMemory.
From S2P Require Import PageFilling.
From S2P Require Import TableList.
From S2P Require Import ProcessMemorySpec.
From S2P Require Import Scheduler.
From S2P Require Import SchedulerSpec.
From S2P Require Import ProcessApi.
#[local] Open Scope Z_scope.

Section Start.
Context `{E : KEnv}.
Implicit Types (s : kstate) (Q : queues).

(** ** The entry of the process *)

Definition next_pid s : Z :=
  match process_id_list s with id :: _ => id | [] => wrapS 32 (pid_iterator s + 1) end.
Definition take_pid s : kstate :=
  match process_id_list s with
  | _ :: l => s <| process_id_list := l |>
  | [] => s <| pid_iterator ::= fun i => wrapS 32 (i + 1) |>
  end.

Lemma wp_new_pid (Φ : Z -> kstate -> Prop) s :
  Φ (next_pid s) (take_pid s) -> wp increment_pid_and_get_new_pid Φ s.
Proof.
  intros HΦ. unfold increment_pid_and_get_new_pid, next_pid, take_pid in *. apply wp_bind, wp_gets.
  destruct (process_id_list s) as [|id l]; [by apply wp_bind, wp_kupd, wp_gets|by apply wp_bind, wp_kput, wp_ret].
Qed.

Definition entry_of (x0 : process) (id : Z) (name : string) (sz pr : Z) : process :=
  x0 <| pid := id |> <| prio := pr |> <| process_name := Some name |> <| ssize := wrapU 32 (sz + PROCESS_SETUP_SIZE) |>
    <| page_table_level_2 := 0 |> <| page_tables_lvl_1_list := None |> <| released_pages_list := None |>.

(** The state with the new entry [y] at [p]. *)
Definition entered s (p : ptr) (y : process) : kstate :=
  take_pid s <| procs ::= <[p := y]> |> <| links ::= INIT_LINK p |>
    <| next_block := Pos.succ (Pos.succ (next_block s)) |> <| pid_process_hash_table ::= <[next_pid s := p]> |>.

Lemma take_pid_procs s : procs (take_pid s) = procs s.
Proof. unfold take_pid. by destruct (process_id_list s). Qed.

(** Writes of different fields commute. *)
Lemma swap_table s f g : s <| pid_process_hash_table ::= f |> <| procs ::= g |> = s <| procs ::= g |> <| pid_process_hash_table ::= f |>.
Proof. done. Qed.
Lemma swap_block s b g : s <| next_block := b |> <| procs ::= g |> = s <| procs ::= g |> <| next_block := b |>.
Proof. done. Qed.
Lemma swap_links s f g : s <| links ::= f |> <| procs ::= g |> = s <| procs ::= g |> <| links ::= f |>.
Proof. done. Qed.

Lemma entered_twice s p y y' : entered s p y <| procs ::= <[p := y']> |> = entered s p y'.
Proof. unfold entered. by rewrite swap_table, swap_block, swap_links, procs_twice. Qed.

Lemma entered_explicit s p y : exists pl it, pl = process_id_list (take_pid s) /\ it = pid_iterator (take_pid s) /\ entered s p y = s <| process_id_list := pl |> <| pid_iterator := it |>
  <| pid_process_hash_table := <[next_pid s := p]> (pid_process_hash_table s) |> <| procs := <[p := y]> (procs s) |>
  <| links := INIT_LINK p (links s) |> <| next_block := Pos.succ (Pos.succ (next_block s)) |>.
Proof.
  unfold entered, take_pid. generalize (next_pid s). intros id. destruct (process_id_list s) as [|i l] eqn:El.
  - exists [], (wrapS 32 (pid_iterator s + 1)). do 2 (split; [done|]). destruct s. simpl in El. by subst.
  - exists l, (pid_iterator s). do 2 (split; [done|]). by destruct s.
Qed.

Lemma entered_lookup s p y : procs (entered s p y) !! p = Some y.
Proof. apply (lookup_insert_eq (procs (take_pid s))). Qed.

(** The writes of [new_process_entry], in their order. *)
Lemma entry_writes s p x0 x1 x2 x3 x4 (T : gmap Z ptr -> gmap Z ptr) :
  take_pid (s <| next_block ::= Pos.succ |> <| procs ::= <[p := x0]> |> <| links ::= INIT_LINK p |>)
    <| procs ::= <[p := x1]> |> <| pid_process_hash_table ::= T |> <| procs ::= <[p := x2]> |> <| next_block ::= Pos.succ |>
    <| procs ::= <[p := x3]> |> <| procs ::= <[p := x4]> |> =
  take_pid s <| procs ::= <[p := x4]> |> <| links ::= INIT_LINK p |>
    <| next_block := Pos.succ (Pos.succ (next_block s)) |> <| pid_process_hash_table ::= T |>.
Proof.
  assert (Hb : forall s f g, s <| next_block ::= f |> <| procs ::= g |> = s <| procs ::= g |> <| next_block ::= f |>) by done.
  assert (Ht : take_pid (s <| next_block ::= Pos.succ |> <| procs ::= <[p := x0]> |> <| links ::= INIT_LINK p |>) =
    take_pid s <| procs ::= <[p := x0]> |> <| next_block ::= Pos.succ |> <| links ::= INIT_LINK p |>).
  { unfold take_pid. cbn [process_id_list upd]. by destruct (process_id_list s). }
  rewrite Ht. repeat first [rewrite swap_table|rewrite swap_links|rewrite Hb|rewrite procs_twice].
  assert (En : next_block (take_pid s) = next_block s) by (unfold take_pid; by destruct (process_id_list s)).
  rewrite <- En. generalize (take_pid s). by intros [].
Qed.

Lemma next_pid_ext s s' : process_id_list s' = process_id_list s -> pid_iterator s' = pid_iterator s -> next_pid s' = next_pid s.
Proof. unfold next_pid. by intros -> ->. Qed.

Lemma new_process_entry_spec name sz pr s p :
  (forall p, malloc_ok p = true) -> p = next_block s -> Z.of_nat (String.length name) <= MAX_SIZE_NAME ->
  wp (new_process_entry name sz pr) (fun r s' => r = Some p /\
    s' = entered s p (entry_of (junk_process p) (next_pid s) name sz pr)) s.
Proof.
  intros Hm Hp Hn. unfold new_process_entry. apply wp_bind. eapply (wp_malloc procs _ _ _ p); [done|by apply Hm|].
  apply wp_bind, wp_kupd, wp_bind, wp_new_pid. rewrite (next_pid_ext s) by done.
  apply wp_bind. eapply wp_pset; [rewrite take_pid_procs; simpl; apply lookup_insert_eq|].
  apply wp_bind, wp_kupd, wp_bind. eapply wp_pset; [simpl; apply lookup_insert_eq|].
  unfold process_name_copy. destruct (Z.ltb_spec MAX_SIZE_NAME (Z.of_nat (String.length name))); [lia|].
  apply wp_bind, wp_bind. unfold malloc_block. apply wp_bind, wp_gets, wp_bind, wp_kupd, wp_ret. rewrite Hm. cbn [negb].
  apply wp_bind. eapply wp_pset; [simpl; apply lookup_insert_eq|]. apply wp_ret. cbn.
  apply wp_bind. eapply (wp_wr procs); [simpl; apply lookup_insert_eq|]. apply wp_ret. split; [done|].
  by rewrite entry_writes.
Qed.

(** ** The context *)

(** The translation register of a process, and the context it starts from:
    user code at the bottom of its gigabyte, the stack pointer at the end of
    the pages reserved, the trap stack at the end of frame [sf]. *)
Definition user_satp (root id : Z) : Z :=
  Z.lor (Z.lor 0x8000000000000000 (Z.shiftr root 12)) (wrapU 64 (Z.shiftl id 44)).
Definition start_context (y : process) (sf arg : Z) : context_t :=
  mk_context (0x40000000 + FRAME_SIZE * stack_shift y) KUserEntry 0 arg (sf + FRAME_SIZE) 0x40000000
    (user_satp (page_table_level_2 y) (pid y)).
Definition with_context (y : process) (sf arg : Z) : process :=
  y <| sscratch_frame := sf |> <| context_process := Some (start_context y sf arg) |>.

Lemma frame_then_procs s m g : s <| frame_mem := m |> <| procs ::= g |> = s <| procs ::= g |> <| frame_mem := m |>.
Proof. done. Qed.

Lemma wp_get_frame f free (Φ : Z -> kstate -> Prop) s :
  free_ok (frame_mem s) (f :: free) -> free <> [] ->
  (forall m, free_ok m free -> words m = words (frame_mem s) -> Φ f (s <| frame_mem := m |>)) -> wp (in_frames get_frame) Φ s.
Proof.
  intros Hok Hne HΦ. pose proof (get_frame_spec _ _ _ Hok) as Eg. rewrite decide_False in Eg by done.
  apply wp_in_frames. eapply wp_intro; [exact Eg|]. apply HΦ; [by eapply get_frame_ok|done].
Qed.

Lemma setup_context_spec p y sf free arg s :
  (forall p, malloc_ok p = true) -> procs s !! p = Some y -> free_ok (frame_mem s) (sf :: free) -> free <> [] ->
  wp (setup_context (Some p) KUserEntry 0 arg 0x40000000) (fun r s' => r = 0 /\ exists m,
    s' = s <| procs ::= <[p := with_context y sf arg]> |> <| frame_mem := m |> <| next_block := Pos.succ (next_block s) |> /\
    free_ok m free /\ words m = words (frame_mem s)) s.
Proof.
  intros Hm Hy Hfree Hne. unfold setup_context. apply wp_bind. unfold malloc_block.
  apply wp_bind, wp_gets, wp_bind, wp_kupd, wp_ret. rewrite Hm. cbn [negb].
  apply wp_bind. eapply wp_rd; [exact Hy|]. cbn zeta. apply wp_bind. eapply wp_pset; [exact Hy|].
  apply wp_bind. eapply wp_get_frame; [exact Hfree|done|]. intros m Hm1 Hm2.
  assert (Hsf : sf <> 0) by (destruct Hfree as [_ _ Hf _]; apply Forall_cons in Hf as [Hf _]; pose proof (is_frame_pos _ Hf); lia).
  destruct (Z.eqb_spec sf 0) as [?|_]; [done|].
  apply wp_bind. eapply wp_pset; [simpl; apply lookup_insert_eq|].
  apply wp_bind. eapply wp_pset; [simpl; apply lookup_insert_eq|]. apply wp_ret. split; [done|].
  exists m. split; [|done]. rewrite !frame_then_procs, !procs_twice. by destruct s.
Qed.

(** ** The family *)

(** [x'] is [x] up to the links to its children, the last of which may have
    become [p], and its next sibling. *)
Definition kin (p : ptr) (x x' : process) : Prop :=
  x' = x <| children_head := children_head x' |> <| children_tail := children_tail x' |> <| next_sibling := next_sibling x' |> /\
  (children_tail x' = children_tail x \/ children_tail x' = Some p).
Definition family (p : ptr) (ps ps' : gmap ptr process) : Prop :=
  forall q, q <> p -> option_Forall2 (kin p) (ps !! q) (ps' !! q).

Lemma kin_refl p x : kin p x x.
Proof. split; [by destruct x|by left]. Qed.
Lemma kin_trans p x y z : kin p x y -> kin p y z -> kin p x z.
Proof.
  intros [E1 H1] [E2 H2]. split; [rewrite E2, E1; done|]. destruct H2 as [->|]; auto.
Qed.
(** The fields the scheduler and the semaphores read are kept. *)
Definition kin_same (x y : process) : Prop :=
  pid y = pid x /\ state y = state x /\ prio y = prio x /\ wake_time y = wake_time x /\ context_process y = context_process x.
Lemma kin_keeps p x y : kin p x y -> kin_same x y.
Proof. intros [-> _]. by destruct x. Qed.
Lemma family_refl p ps : family p ps ps.
Proof. intros q _. destruct (ps !! q); constructor. apply kin_refl. Qed.
Lemma family_trans p ps1 ps2 ps3 : family p ps1 ps2 -> family p ps2 ps3 -> family p ps1 ps3.
Proof.
  intros H1 H2 q Hq. specialize (H1 q Hq). specialize (H2 q Hq). destruct H1; inversion H2; subst; constructor.
  by eapply kin_trans.
Qed.
Lemma family_self p ps y : family p ps (<[p := y]> ps).
Proof. intros q Hq. rewrite lookup_insert_ne by done. by apply (family_refl p ps q). Qed.
Lemma family_insert p ps q x x' : ps !! q = Some x -> kin p x x' -> family p ps (<[q := x']> ps).
Proof.
  intros Hx Hk r Hr. rewrite lookup_insert. case_decide as Eq; [|by apply (family_refl p ps r)].
  rewrite <- Eq, Hx. by constructor.
Qed.
Lemma family_lookup p ps ps' q : family p ps ps' -> q <> p -> (is_Some (ps' !! q) <-> is_Some (ps !! q)).
Proof.
  intros Hf Hq. specialize (Hf q Hq). destruct Hf; split; intros [? Hx]; try done; by eexists.
Qed.

Lemma procs_then s ps g : s <| procs := ps |> <| procs ::= g |> = s <| procs := g ps |>.
Proof. done. Qed.

(** The caller, whose last child is a process, when there is one. *)
Definition parent_ok s (p : ptr) : Prop :=
  forall c, pid_process_hash_table s !! current_running_process_pid s = Some c ->
    c <> p /\ exists x, procs s !! c = Some x /\ forall t, children_tail x = Some t -> t <> p /\ is_Some (procs s !! t).

Definition linked_child (y : process) (parent_ : option ptr) : process :=
  y <| parent := parent_ |> <| children_head := None |> <| children_tail := None |> <| next_sibling := None |>.

(** The tree is being changed around [p]. *)
Definition relinked (p : ptr) (y : process) s s' : Prop :=
  exists ps, s' = s <| procs := ps |> /\ family p (procs s) ps /\ ps !! p = Some y.

Lemma relink_pset {A} p y s s' q (f : process -> A) `{!Upd f} v :
  relinked p y s s' -> q <> p -> is_Some (procs s !! q) -> (forall z, kin p z (z <| f := v |>)) ->
  wp (pset (Some q) f v) (fun _ s'' => relinked p y s s'') s'.
Proof.
  intros (ps & -> & Hf & Hp) Hq Hs Hk. destruct (proj2 (family_lookup p _ _ q Hf Hq) Hs) as [z Hz].
  eapply wp_pset; [exact Hz|]. exists (<[q := z <| f := v |>]> ps). split; [done|]. split.
  - eapply family_trans; [exact Hf|]. by eapply family_insert.
  - by rewrite lookup_insert_ne.
Qed.

Lemma link_to_parent_spec p y s (Φ : unit -> kstate -> Prop) :
  procs s !! p = Some y -> parent_ok s p ->
  (forall ps, family p (procs s) ps ->
    ps !! p = Some (linked_child y (pid_process_hash_table s !! current_running_process_pid s)) ->
    Φ tt (s <| procs := ps |>)) -> wp (link_to_parent p) Φ s.
Proof.
  intros Hy Hpar HΦ. unfold link_to_parent. apply wp_bind, wp_get_current. set (cur := pid_process_hash_table s !! _) in *.
  apply wp_bind. eapply wp_pset; [exact Hy|]. set (y1 := y <| parent := cur |>).
  apply wp_bind. eapply (wp_mono _ (fun _ s' => relinked p y1 s s')).
  2:{ intros [] s' (ps & -> & Hf & Hp). eapply (wp_wr procs); [exact Hp|]. rewrite procs_then.
      apply HΦ; [by eapply family_trans; [exact Hf|apply family_self]|apply lookup_insert_eq]. }
  assert (H1 : relinked p y1 s (s <| procs ::= <[p := y1]> |>)).
  { exists (<[p := y1]> (procs s)). split; [done|]. split; [apply family_self|apply lookup_insert_eq]. }
  destruct cur as [c|] eqn:Ec; [|by apply wp_ret].
  destruct (Hpar c Ec) as (Hcp & x & Hx & Ht).
  assert (Hkin : forall z, kin p z (z <| children_head := Some p |>) /\ kin p z (z <| children_tail := Some p |>) /\
    kin p z (z <| next_sibling := Some p |>)) by (intros z; split_and!; (split; [done|by (left + right)])).
  assert (Hget : procs (s <| procs ::= <[p := y1]> |>) !! c = Some x) by (simpl; by rewrite lookup_insert_ne).
  apply wp_bind. eapply wp_pget; [exact Hget|]. destruct (children_tail x) as [t|] eqn:Et; apply wp_bind.
  - destruct (Ht t eq_refl) as [Htp Hz]. eapply wp_mono; [by apply (relink_pset _ _ _ _ _ _ _ H1); try apply Hkin; try done|].
    intros [] s' H2. by apply (relink_pset _ _ _ _ _ _ _ H2); try apply Hkin; try done.
  - eapply wp_mono; [by apply (relink_pset _ _ _ _ _ _ _ H1); try apply Hkin; try done|].
    intros [] s' H2. by apply (relink_pset _ _ _ _ _ _ _ H2); try apply Hkin; try done.
Qed.

(** The caller is alive. *)
Definition caller_ok s : Prop :=
  current_running_process_pid s = -1 \/
  exists c x, pid_process_hash_table s !! current_running_process_pid s = Some c /\ procs s !! c = Some x /\
    state x <> ZOMBIE /\ state x <> KILLED.

(** The checks of the arguments, for a caller that is alive. *)
Lemma start_checks_run sz pr s : caller_ok s ->
  start_checks sz pr s = Ok (if bool_decide (MINPRIO <= pr <= MAXPRIO /\ 0 < sz) then 0 else -1, s).
Proof.
  intros Hc. unfold start_checks. rewrite (run_bind _ _ s (current_running_process_pid s) s) by done.
  assert (Ec : (if negb (current_running_process_pid s =? -1) then p ← get_current_process; validate_action_process_valid p
    else mret 0) s = Ok (0, s)).
  { destruct Hc as [->|(c & x & Hc & Hx & Hz & Hk)]; [done|]. destruct (negb _); [|done].
    rewrite (run_bind _ _ s (Some c) s)
      by (change (Ok (pid_process_hash_table s !! current_running_process_pid s, s) = Ok (Some c, s)); by rewrite Hc).
    apply wp_run. unfold validate_action_process_valid. apply wp_bind. eapply wp_pget; [exact Hx|].
    rewrite !bool_decide_false by done. by apply wp_ret. }
  rewrite (run_bind _ _ _ _ _ Ec). cbn [Z.ltb Z.compare].
  destruct (Z.leb_spec pr MAXPRIO), (Z.leb_spec MINPRIO pr), (Z.ltb_spec 0 sz); cbn [andb negb];
    first [rewrite bool_decide_true by lia|rewrite bool_decide_false by lia]; done.
Qed.

(** ** The creation *)

(** Memory for a process: the frames that its address space takes, in the
    order of the free list, the frame [sf] of its trap stack, and one more. *)
Record room s (app : uapps) (size root l1 : Z) (T : list Z) (ht : Z) (fs : list Z) (hf sf : Z) (rest : list Z) : Prop := {
  rm_program : program_ok app;
  rm_size : 0 < size <= GIGAPAGE_SIZE;
  rm_pages : length fs = (pages_of (code_size_of app) + pages_of size)%nat;
  rm_tables : enough T fs;
  rm_room : Z.of_nat (length T) < 128;
  rm_free : free_ok (frame_mem s) (root :: l1 :: T ++ ht :: fs ++ hf :: sf :: rest);
  rm_rest : rest <> [];
  rm_kernel : is_frame (kernel_table s) /\ kernel_table s ∉ root :: l1 :: T ++ ht :: fs ++ hf :: sf :: rest;
  rm_malloc : forall p, malloc_ok p = true;
  rm_fresh : allocated (pt_nodes s) s
}.

(** The new process, ready to run. *)
Definition activated (y : process) : process :=
  y <| return_value := 0 |> <| shared_pages := None |> <| released_pages_list := None |>
    <| proc_shared_hash_table := None |> <| sem_signal := 0 |> <| state := ACTIVATABLE |>.
Definition program_entry s (p : ptr) (name : string) (app : uapps) (sz pr : Z) : process :=
  entry_of (junk_process p) (next_pid s) name sz pr <| app_pointer := Some app |>.
Definition new_process s (p : ptr) (name : string) (app : uapps) (sz pr arg root : Z) (l1p : ptr) (shift sf : Z) : process :=
  activated (linked_child (with_context (mapped_process (program_entry s p name app sz pr) root l1p shift) sf arg)
    (pid_process_hash_table s !! current_running_process_pid s)).

Lemma activate_reaches p y s Q A :
  procs s !! p = Some y -> parent_ok s p -> rep (links s) Q -> Q !! activatable_process_queue = Some A ->
  linked s p -> ~ queued Q p -> p ∉ A -> (forall q, q ∈ A -> is_Some (procs s !! q)) ->
  exists ps l, let s1 := s <| procs := ps |> <| links := l |> in
    activate_new_process p s = check_if_new_prio_is_higher_and_call_scheduler (prio y) true 0 (KStart p) s1 /\
    family p (procs s) ps /\
    ps !! p = Some (activated (linked_child y (pid_process_hash_table s !! current_running_process_pid s))) /\
    dom l = dom (links s) /\ rep l (<[activatable_process_queue := insert_prio (pfield s1 prio) p A]> Q).
Proof.
  intros Hy Hpar Hrep HQ Hl Hnq HpA HA. set (cur := pid_process_hash_table s !! current_running_process_pid s).
  destruct (wp_elim _ _ _ (link_to_parent_spec p y s (fun _ s' => exists ps, s' = s <| procs := ps |> /\
    family p (procs s) ps /\ ps !! p = Some (linked_child y cur)) Hy Hpar ltac:(intros ps; by exists ps)))
    as ([] & ? & E1 & ps & -> & Hf & Hp).
  unfold activate_new_process. rewrite (run_bind _ _ _ _ _ E1).
  set (y1 := activated (linked_child y cur)). set (ps1 := <[p := y1]> ps).
  assert (E2 : wr procs (Some p) (fun x => x <| return_value := 0 |> <| shared_pages := None |>
    <| released_pages_list := None |> <| proc_shared_hash_table := None |> <| sem_signal := 0 |> <| state := ACTIVATABLE |>)
    (s <| procs := ps |>) = Ok (tt, s <| procs := ps1 |>)).
  { apply wp_run. eapply (wp_wr procs); [exact Hp|]. by rewrite procs_then. }
  rewrite (run_bind _ _ _ _ _ E2).
  assert (Hf1 : family p (procs s) ps1) by (eapply family_trans; [exact Hf|apply family_self]).
  assert (Hdom : forall q, q ∈ p :: A -> is_Some (procs (s <| procs := ps1 |>) !! q)).
  { intros q [->|Hq]%elem_of_cons; simpl; [unfold ps1; rewrite lookup_insert_eq; by eexists|].
    apply (family_lookup p (procs s)); [done|congruence|by apply HA]. }
  assert (Hq : wp (qadd (Some p) activatable_process_queue prio) (fun _ s' => exists l,
    s' = s <| procs := ps1 |> <| links := l |> /\ dom l = dom (links s) /\
    rep l (<[activatable_process_queue := insert_prio (pfield (s <| procs := ps1 |>) prio) p A]> Q)) (s <| procs := ps1 |>)).
  { eapply wp_qadd; [exact Hrep|exact HQ|exact Hl|exact Hnq|exact Hdom|]. intros l Hd Hr. by exists l. }
  apply wp_elim in Hq as ([] & ? & E3 & l & -> & Hd & Hr).
  rewrite (run_bind _ _ _ _ _ E3). exists ps1, l. cbn zeta.
  assert (E4 : pget (Some p) prio (s <| procs := ps1 |> <| links := l |>) = Ok (prio y, s <| procs := ps1 |> <| links := l |>)).
  { apply wp_run. eapply wp_pget; [simpl; apply lookup_insert_eq|]. by split. }
  rewrite (run_bind _ _ _ _ _ E4). split; [done|]. split; [done|]. split; [apply lookup_insert_eq|]. by split.
Qed.

Section Creation.
Context (s : kstate) (Q : queues) (A : list ptr) (name : string) (app : uapps) (sz pr arg : Z).
Context (root l1 : Z) (T : list Z) (ht : Z) (fs : list Z) (hf sf : Z) (rest : list Z).
Let p : ptr := next_block s.
Let cur : option ptr := pid_process_hash_table s !! current_running_process_pid s.

(** The hypotheses of a creation. *)
Record startable : Prop := {
  st_app : find_app name = Some app;
  st_name : Z.of_nat (String.length name) <= MAX_SIZE_NAME;
  st_count : nb_proc_running s < MAX_NB_PROCESS;
  st_caller : current_running_process_pid s = -1 /\ cur = None \/
    exists c x, cur = Some c /\ procs s !! c = Some x /\ state x <> ZOMBIE /\ state x <> KILLED;
  st_prio : MINPRIO <= pr <= MAXPRIO;
  st_size : 0 < sz;
  st_room : room s app (wrapU 32 (sz + PROCESS_SETUP_SIZE)) root l1 T ht fs hf sf rest;
  st_parent : forall c, cur = Some c -> exists x, procs s !! c = Some x /\
    forall t, children_tail x = Some t -> is_Some (procs s !! t);
  st_pid : 0 <= next_pid s /\ pid_process_hash_table s !! next_pid s = None;
  st_procs : allocated (procs s) s;
  st_queues : rep (links s) Q /\ Q !! activatable_process_queue = Some A;
  st_queued : forall q, queued Q q -> is_Some (procs s !! q)
}.

(** The state the creation leaves, before the test that may call the
    scheduler. *)
Record created s1 : Prop := {
  cr_frame : exists ps l m b ns pl it, s1 = s <| nb_proc_running := nb_proc_running s + 1 |> <| process_id_list := pl |>
    <| pid_iterator := it |> <| pid_process_hash_table := <[next_pid s := p]> (pid_process_hash_table s) |>
    <| procs := ps |> <| links := l |> <| frame_mem := m |> <| next_block := b |> <| pt_nodes := ns |>;
  cr_pids : process_id_list s1 = process_id_list (take_pid s) /\ pid_iterator s1 = pid_iterator (take_pid s);
  cr_family : family p (procs s) (procs s1);
  cr_process : exists l1p, procs s1 !! p =
    Some (new_process s p name app sz pr arg root l1p (Z.of_nat (length fs)) sf);
  cr_queue : rep (links s1) (<[activatable_process_queue := insert_prio (pfield s1 prio) p A]> Q);
  cr_linked : forall q, linked s q \/ q = p -> linked s1 q;
  cr_free : free_ok (frame_mem s1) rest;
  cr_grown : grown s s1 /\ (p < next_block s1)%positive;
  cr_tables : forall y l1p, procs s1 !! p = Some y -> page_tables_lvl_1_list y = Some l1p ->
    user_tables s1 l1p l1 (user_views T ht (Z.of_nat (length fs))) (Z.of_nat (length T)) 1 /\
    (p < l1p < next_block s1)%positive /\ older_kept l1p s s1;
  cr_entries : space_entries (frame_mem s1) l1 T ht fs hf;
  cr_user : forall m va, agree (root :: l1 :: T ++ [ht]) (frame_mem s1) m -> 2 ^ 30 <= va < 2 ^ 31 ->
    match user_page (Z.of_nat (length fs)) va with
    | Some g => exists f e, (fs ++ [hf]) !! g = Some f /\
        sv39_walk (word m) root va = Some (f + va mod 4096, e) /\ user_access e (page_exec app g)
    | None => sv39_walk (word m) root va = None
    end;
  cr_kernel : forall m va, agree [root; kernel_table s] (frame_mem s1) m -> vpn 2 va <> USERSPACE ->
    sv39_walk (word m) root va = sv39_walk (word m) (kernel_table s) va;
  cr_only : forall a, frame_of a ∉ root :: l1 :: T ++ ht :: fs ++ [hf] ->
    word (frame_mem s1) a = word (frame_mem s) a
}.

(** [start_virtual] once the entry is there. *)
Definition start_memory (size : Z) : K kont :=
  v ← process_memory_allocator (Some p) size;
  if v <? 0 then mret (KRet (-1) [])
  else v ← setup_context (Some p) KUserEntry 0 arg 0x40000000; if v <? 0 then mret (KRet (-1) []) else activate_new_process p.

Let s0 : kstate := s <| nb_proc_running := nb_proc_running s + 1 |>.
Let y1 : process := program_entry s p name app sz pr.
Let pids : list Z := process_id_list (take_pid s).
Let iter : Z := pid_iterator (take_pid s).
Let S2 : kstate := s0 <| process_id_list := pids |> <| pid_iterator := iter |>
  <| pid_process_hash_table := <[next_pid s := p]> (pid_process_hash_table s) |> <| procs := <[p := y1]> (procs s) |>
  <| links := INIT_LINK p (links s) |> <| next_block := Pos.succ (Pos.succ p) |>.

Lemma startable_caller : startable -> caller_ok s0.
Proof.
  intros Hst. destruct (st_caller Hst) as [[Hc _]|(c & x & Hc)]; [by left|right]. by exists c, x.
Qed.

Lemma start_enters : startable -> start_virtual (Some name) sz pr arg s = start_memory (ssize y1) S2.
Proof.
  intros Hst. pose proof Hst as [Happ Hname Hcount _ Hprio Hsize Hroom _ _ _ _ _]. unfold start_virtual.
  assert (E1 : count_new_process s = Ok (true, s0)).
  { unfold count_new_process. rewrite (run_bind _ _ s (nb_proc_running s) s) by done.
    destruct (Z.ltb_spec MAX_NB_PROCESS (nb_proc_running s + 1)); [lia|done]. }
  rewrite (run_bind _ _ _ _ _ E1). cbn [negb]. rewrite (run_bind _ _ _ _ _ (start_checks_run sz pr s0 (startable_caller Hst))).
  rewrite bool_decide_true by done. cbn [Z.ltb Z.compare].
  rewrite bool_decide_true by (rewrite Happ; by eexists). cbn [negb]. set (y0 := entry_of (junk_process p) (next_pid s) name sz pr).
  destruct (wp_elim _ _ _ (new_process_entry_spec name sz pr s0 p (rm_malloc _ _ _ _ _ _ _ _ _ _ _ Hroom) eq_refl Hname))
    as (r & ? & E3 & -> & ->).
  rewrite (run_bind _ _ _ _ _ E3). change (next_pid s0) with (next_pid s). fold y0.
  assert (E4 : pset (Some p) app_pointer (find_app name) (entered s0 p y0) = Ok (tt, entered s0 p y1)).
  { apply wp_run. eapply wp_pset; [apply entered_lookup|]. by rewrite entered_twice, Happ. }
  rewrite (run_bind _ _ _ _ _ E4).
  assert (E5 : pget (Some p) ssize (entered s0 p y1) = Ok (ssize y1, entered s0 p y1)).
  { apply wp_run. eapply wp_pget; [apply entered_lookup|by split]. }
  rewrite (run_bind _ _ _ _ _ E5). unfold start_memory. f_equal.
  destruct (entered_explicit s0 p y1) as (pl' & it' & -> & -> & ->). unfold S2, pids, iter, take_pid, s0.
  cbn [process_id_list upd]. by destruct (process_id_list s).
Qed.

Lemma start_allocation : startable -> allocation S2 p y1 app (ssize y1) root l1 T ht fs hf (sf :: rest).
Proof.
  intros [_ _ _ _ _ _ [Hpr Hsz Hpg Hen Hrm Hfree Hrest Hkt Hm Hfresh] _ _ _ _ _].
  split; try done; [apply lookup_insert_eq|]. intros q Hq. specialize (Hfresh q Hq).
  change (next_block S2) with (Pos.succ (Pos.succ (next_block s))). lia.
Qed.

(** The last steps, from the state [S4] where memory and context are there. *)
Lemma start_activates S4 (y3 : process) : startable ->
  procs S4 = <[p := y3]> (procs s) -> links S4 = INIT_LINK p (links s) ->
  pid_process_hash_table S4 = <[next_pid s := p]> (pid_process_hash_table s) ->
  current_running_process_pid S4 = current_running_process_pid s ->
  exists ps l, let s1 := S4 <| procs := ps |> <| links := l |> in
    activate_new_process p S4 = check_if_new_prio_is_higher_and_call_scheduler (prio y3) true 0 (KStart p) s1 /\
    family p (procs s) ps /\ ps !! p = Some (activated (linked_child y3 cur)) /\
    (forall q, linked s q \/ q = p -> is_Some (l !! inr q)) /\
    rep l (<[activatable_process_queue := insert_prio (pfield s1 prio) p A]> Q).
Proof.
  intros [_ _ _ Hcaller _ _ _ Hpar [Hid0 Hid] Hprocs [Hrep HQ] Hqd] Hprocs4 El Et Ec.
  assert (Hfresh_p : procs s !! p = None) by (by apply fresh_block).
  assert (Hnq : ~ queued Q p) by (intros Hq; apply Hqd in Hq as [? Hq]; congruence).
  assert (Hcur : pid_process_hash_table S4 !! current_running_process_pid S4 = cur).
  { rewrite Et, Ec, lookup_insert_ne; [done|]. intros Ei. destruct Hcaller as [[Em _]|(c & x & Hc & _)]; [lia|].
    unfold cur in Hc. congruence. }
  assert (Hparent : parent_ok S4 p).
  { intros c Hc. rewrite Hcur in Hc. destruct (Hpar c Hc) as (x & Hx & Ht). split; [congruence|]. exists x.
    rewrite Hprocs4, lookup_insert_ne by congruence. split; [done|]. intros t Htt. destruct (Ht t Htt) as [z Hz].
    split; [congruence|]. rewrite lookup_insert_ne by congruence. by exists z. }
  destruct (activate_reaches p y3 S4 Q A) as (ps & l & Erun & Hfam & Hnew & Hdom & Hrepl); try done.
  { rewrite Hprocs4. apply lookup_insert_eq. }
  { rewrite El. by apply (rep_init_link (links s)). }
  { unfold linked, INIT_LINK. rewrite El. unfold INIT_LINK. rewrite lookup_insert_eq. by eexists. }
  { intros Hin. apply Hnq. by eapply queued_in. }
  { intros q Hq. rewrite Hprocs4, lookup_insert_ne; [by apply Hqd; eapply queued_in|]. intros <-. apply Hnq. by eapply queued_in. }
  exists ps, l. cbn zeta. split; [exact Erun|]. rewrite Hcur in Hnew. split; [|split; [exact Hnew|split; [|exact Hrepl]]].
  - rewrite Hprocs4 in Hfam. eapply family_trans; [apply family_self|exact Hfam].
  - intros q Hq. rewrite <- elem_of_dom, Hdom, elem_of_dom, El. unfold INIT_LINK. rewrite lookup_insert.
    case_decide; [by eexists|]. destruct Hq as [Hq| ->]; done.
Qed.

Lemma start_reaches : startable ->
  exists s1, start_virtual (Some name) sz pr arg s =
      check_if_new_prio_is_higher_and_call_scheduler pr true 0 (KStart p) s1 /\ created s1.
Proof.
  intros Hst. pose proof (start_allocation Hst) as Hal. rewrite (start_enters Hst). unfold start_memory.
  pose proof (st_room Hst) as Hroom. pose proof (rm_malloc _ _ _ _ _ _ _ _ _ _ _ Hroom) as Hm.
  destruct (allocator_run _ _ _ _ _ _ _ _ _ _ _ _ Hal) as (S3 & E6 & Hb).
  rewrite (run_bind _ _ _ _ _ E6). cbn [Z.ltb Z.compare].
  pose proof (built_walk _ _ _ _ _ _ _ _ _ _ _ _ Hal _ Hb) as Hwalk.
  pose proof (built_kernel _ _ _ _ _ _ _ _ _ _ _ _ Hal _ Hb) as Hkern.
  pose proof (built_only _ _ _ _ _ _ _ _ _ _ _ _ Hal _ Hb) as Honly.
  pose proof (built_entries _ _ _ _ _ _ _ _ _ _ _ _ Hal _ Hb) as Hent.
  destruct Hb as [(l1p & m3 & b3 & ns3 & ->) Hf3 [Hg3 Hg3'] Htabs _]. set (y2 := mapped_process _ _ _ _) in *.
  match type of Hf3 with free_ok (frame_mem ?S) _ => set (S3 := S) in * end.
  assert (HS3 : procs S3 !! p = Some y2) by apply (lookup_insert_eq (procs S2)).
  destruct (wp_elim _ _ _ (setup_context_spec p y2 sf rest arg S3 Hm HS3 Hf3 (rm_rest _ _ _ _ _ _ _ _ _ _ _ Hroom)))
    as (r & ? & E7 & -> & m4 & -> & Hf4 & Hw4).
  rewrite (run_bind _ _ _ _ _ E7). cbn [Z.ltb Z.compare]. clear E6 E7. set (y3 := with_context y2 sf arg).
  match goal with |- exists s1, activate_new_process p ?S = _ /\ _ => set (S4 := S) end.
  assert (Hprocs4 : procs S4 = <[p := y3]> (procs s)).
  { change (<[p := y3]> (<[p := y2]> (<[p := y1]> (procs s))) = <[p := y3]> (procs s)). by rewrite !insert_insert_eq. }
  destruct (start_activates S4 y3 Hst Hprocs4 eq_refl eq_refl eq_refl) as (ps & l & Erun & Hfam & Hnew & Hlink & Hrepl).
  cbn zeta in Erun. exists (S4 <| procs := ps |> <| links := l |>). split; [exact Erun|].
  assert (Hword : word m4 = word (frame_mem S3)) by (unfold word; by rewrite Hw4).
  destruct (Htabs y2 l1p HS3 eq_refl) as (Htab & [Hlo Hhi] & Hold). clear Htabs.
  split; [|done|exact Hfam|by exists l1p|exact Hrepl|exact Hlink|exact Hf4|..].
  - exists ps, l, m4, (Pos.succ b3), ns3, pids, iter. reflexivity.
  - change (Pos.succ (Pos.succ p) <= b3)%positive in Hg3'. split; [split|].
    + intros q Hq. specialize (Hg3 q Hq). change (q < b3)%positive in Hg3. change (q < Pos.succ b3)%positive. lia.
    + change (p <= Pos.succ b3)%positive. lia.
    + change (p < Pos.succ b3)%positive. lia.
  - intros y l1p' Hy Hl. change (ps !! p = Some y) in Hy. rewrite Hnew in Hy. injection Hy as <-.
    assert (l1p' = l1p) as -> by (by injection Hl). split; [by eapply user_tables_ext; [|exact Htab]|].
    change (next_block S3) with b3 in Hhi. change (next_block S2) with (Pos.succ (Pos.succ p)) in Hlo.
    split; [change (p < l1p < Pos.succ b3)%positive; lia|]. intros r Hr. exact (Hold r Hr).
  - destruct Hent as [He1 He2]. change (frame_mem (S4 <| procs := ps |> <| links := l |>)) with m4.
    split; [intros a t Ht; rewrite <- (He1 a t Ht)|intros t gs j f Hin Hj; rewrite <- (He2 t gs j f Hin Hj)];
      unfold table_entry; by rewrite Hword.
  - intros m va Hag Hva. apply Hwalk; [|done]. intros t j Ht Hj. rewrite <- Hword. by apply Hag.
  - intros m va Hag Hva. apply Hkern; [|done]. intros t j Ht Hj. rewrite <- Hword. by apply Hag.
  - intros a Ha. change (frame_mem (S4 <| procs := ps |> <| links := l |>)) with m4. rewrite Hword. by apply Honly.
Qed.
(** The fields that the creation does not touch, and the other processes. *)
Lemma created_procs s1 q y : created s1 -> procs s1 !! q = Some y ->
  q = p /\ (exists l1p, y = new_process s p name app sz pr arg root l1p (Z.of_nat (length fs)) sf) \/
  q <> p /\ exists x, procs s !! q = Some x /\ kin p x y.
Proof.
  intros Hcr Hy. destruct (decide (q = p)) as [->|Hq]; [left|right]; (split; [done|]).
  - destruct (cr_process _ Hcr) as [l1p Hp]. exists l1p. congruence.
  - pose proof (cr_family _ Hcr q Hq) as Hf. rewrite Hy in Hf. inversion Hf as [x y' Hk E1|]; subst. by exists x.
Qed.

Lemma created_keeps s1 q x : created s1 -> q <> p -> procs s !! q = Some x -> exists y, procs s1 !! q = Some y /\ kin p x y.
Proof.
  intros Hcr Hq Hx. pose proof (cr_family _ Hcr q Hq) as Hf. rewrite Hx in Hf. inversion Hf as [x' y Hk E1 E2|]; subst. by exists y.
Qed.

Lemma created_fresh : startable -> procs s !! p = None.
Proof. intros Hst. by apply fresh_block, Hst. Qed.

Lemma created_dom s1 q : startable -> created s1 -> is_Some (procs s !! q) \/ q = p -> is_Some (procs s1 !! q).
Proof.
  intros Hst Hcr [[x Hx]| ->].
  - assert (Hq : q <> p) by (intros ->; pose proof (created_fresh Hst); congruence).
    destruct (created_keeps _ _ _ Hcr Hq Hx) as (y & -> & _). by eexists.
  - destruct (cr_process _ Hcr) as [l1p ->]. by eexists.
Qed.

Lemma created_current s1 : startable -> created s1 ->
  pid_process_hash_table s1 !! current_running_process_pid s1 = cur.
Proof.
  intros Hst Hcr. pose proof (st_pid Hst) as [Hid0 Hid].
  destruct (cr_frame _ Hcr) as (ps & l & m & b & ns & pl & it & ->).
  change (<[next_pid s := p]> (pid_process_hash_table s) !! current_running_process_pid s = cur).
  rewrite lookup_insert_ne; [done|]. intros Ei. destruct (st_caller Hst) as [[Ec _]|(c & x & Hc & _)]; [lia|].
  unfold cur in Hc. congruence.
Qed.

Lemma created_queued s1 q : startable ->
  queued (<[activatable_process_queue := insert_prio (pfield s1 prio) p A]> Q) q -> q = p \/ queued Q q.
Proof.
  intros Hst Hq. pose proof (st_queues Hst) as [_ HA]. eapply queued_insert in Hq as [Hq|Hq]; [by right| |exact HA].
  apply elem_of_insert_prio in Hq as [->|Hq]; [by left|]. right. by eapply (queued_in Q activatable_process_queue).
Qed.

(** The caller gives way when the new process has a higher priority. *)
Definition gives_way : bool :=
  match cur ≫= fun c => procs s !! c with
  | Some x => (0 <=? prio x) && (prio x <? pr)
  | None => false
  end.

Lemma created_calls s1 k : startable -> created s1 ->
  check_if_new_prio_is_higher_and_call_scheduler pr true 0 k s1 = if gives_way then scheduler k s1 else Ok (k, s1).
Proof.
  intros Hst Hcr. pose proof (st_prio Hst) as Hpr. pose proof (st_pid Hst) as [Hid0 Hid].
  pose proof (created_current _ Hst Hcr) as Hcur.
  unfold check_if_new_prio_is_higher_and_call_scheduler.
  destruct (Z.leb_spec pr MAXPRIO), (Z.leb_spec MINPRIO pr); try lia. cbn [andb negb].
  rewrite (run_bind _ _ s1 (current_running_process_pid s1) s1) by done. unfold getprio.
  assert (Hget : get_process_struct_of_pid (current_running_process_pid s1) s1 = Ok (cur, s1)) by (by rewrite <- Hcur).
  unfold gives_way. destruct (st_caller Hst) as [[_ Hn]|(c & x & Hc & Hx & Hz & Hk)].
  - assert (Eg : (p0 ← get_process_struct_of_pid (current_running_process_pid s1); match p0 with None => mret (-1) | Some _ =>
      v ← validate_action_process_valid p0; if v <? 0 then mret (-1) else pget p0 prio end) s1 = Ok (-1, s1)).
    { by rewrite (run_bind _ _ _ _ _ Hget), Hn. }
    rewrite (run_bind _ _ _ _ _ Eg), Hn. done.
  - pose proof (cr_family _ Hcr c) as Hf. assert (Hcp : c <> p).
    { intros ->. pose proof (st_procs Hst) as Hal. assert (Hfp : procs s !! p = None) by by apply fresh_block.
      by rewrite Hfp in Hx. }
    specialize (Hf Hcp). rewrite Hx in Hf. inversion Hf as [x0 x' Hkin E0 E1|]; subst x0. symmetry in E1.
    assert (Eg : (p0 ← get_process_struct_of_pid (current_running_process_pid s1); match p0 with None => mret (-1) | Some _ =>
      v ← validate_action_process_valid p0; if v <? 0 then mret (-1) else pget p0 prio end) s1 = Ok (prio x, s1)).
    { rewrite (run_bind _ _ _ _ _ Hget), Hc. apply wp_run. unfold validate_action_process_valid.
      assert (Es : state x' = state x /\ prio x' = prio x) by (destruct Hkin as [-> _]; by destruct x).
      destruct Es as [Es Ep]. apply wp_bind, wp_bind. eapply wp_pget; [exact E1|]. rewrite Es, !bool_decide_false by done.
      apply wp_ret. eapply wp_pget; [exact E1|]. by split. }
    rewrite (run_bind _ _ _ _ _ Eg), Hc. simpl. rewrite Hx.
    destruct (Z.ltb_spec (prio x) 0), (Z.leb_spec 0 (prio x)); try lia; [done|]. simpl. by destruct (prio x <? pr).
Qed.

(** The data of the scheduler stay in order. *)
Lemma created_inv s1 : startable -> created s1 -> sched_inv s Q ->
  sched_inv s1 (<[activatable_process_queue := insert_prio (pfield s1 prio) p A]> Q).
Proof.
  intros Hst Hcr [Hr Hl Hq Ht Hp Hc Hw]. pose proof (created_fresh Hst) as Hfp. pose proof (st_queues Hst) as [_ HA].
  pose proof (st_pid Hst) as [Hid0 Hid].
  assert (Hpr : forall q y, procs s1 !! q = Some y -> q = p /\ pid y = next_pid s /\ is_Some (context_process y) \/
    q <> p /\ exists x, procs s !! q = Some x /\ pid y = pid x /\ context_process y = context_process x /\ wake_time y = wake_time x).
  { intros q y [[-> [l1p ->]]|(Hqp & x & Hx & [-> _])]%created_procs; [left; split_and!; try done; by eexists|right|done].
    split; [done|]. by exists x. }
  assert (Htab : pid_process_hash_table s1 = <[next_pid s := p]> (pid_process_hash_table s)).
  { by destruct (cr_frame _ Hcr) as (ps & l & m & b & ns & pl & it & ->). }
  split.
  - apply Hcr.
  - intros q [y Hy]. apply (cr_linked _ Hcr). destruct (Hpr _ _ Hy) as [[-> _]|(_ & x & Hx & _)]; [by right|left; apply Hl; by eexists].
  - intros q [->|Hqq]%created_queued; [| |done]; apply created_dom; [done..|by right|done|done|left; by apply Hq].
  - intros id q. rewrite Htab, lookup_insert. case_decide as Ei.
    + subst id. split.
      * intros [= <-]. destruct (cr_process _ Hcr) as [l1p ->]. by eexists.
      * intros (y & Hy & Ey). destruct (Hpr _ _ Hy) as [[-> _]|(_ & x & Hx & Ep & _)]; [done|].
        assert (Hid' : pid_process_hash_table s !! next_pid s = Some q) by (apply Ht; exists x; split; [done|congruence]). congruence.
    + rewrite Ht. split.
      * intros (x & Hx & Ex). assert (Hqp : q <> p) by congruence.
        destruct (created_keeps _ _ _ Hcr Hqp Hx) as (y & Hy & [Ey _]). exists y. split; [exact Hy|by rewrite Ey].
      * intros (y & Hy & Ey). destruct (Hpr _ _ Hy) as [(_ & Ep & _)|(_ & x & Hx & Ep & _)]; [congruence|].
        exists x. split; [done|congruence].
  - intros q y Hy. destruct (Hpr _ _ Hy) as [(_ & -> & _)|(_ & x & Hx & -> & _)]; [done|by eapply Hp].
  - intros q y Hy. destruct (Hpr _ _ Hy) as [(_ & _ & ?)|(_ & x & Hx & _ & -> & _)]; [done|by eapply Hc].
  - intros L q y HL Hin Hy. rewrite lookup_insert_ne in HL by done.
    destruct (Hpr _ _ Hy) as [(-> & _)|(_ & x & Hx & _ & _ & ->)]; [|by eapply Hw].
    assert (Hqq : is_Some (procs s !! p)) by (by eapply Hq, queued_in). rewrite Hfp in Hqq. by apply is_Some_None in Hqq.
Qed.

(** C6: a process is created.  When a caller that is alive, or the kernel at
    its start, names a program that exists and memory suffices,
    [start_virtual] takes a new pid, registers it, and puts a process in the
    ready queue at the place of its priority, with the address space built
    from the program, the user entry point and its own stacks in its context,
    the caller as its parent; nothing else changes but the links of the
    caller's family.  It calls the scheduler when the new process has a higher
    priority than the caller, and returns the new pid. *)
Theorem start_virtual_creates : startable ->
  exists s1 y, created s1 /\ procs s1 !! p = Some y /\
    start_virtual (Some name) sz pr arg s = (if gives_way then scheduler (KStart p) s1 else Ok (KStart p, s1)) /\
    resume_start p s1 = Ok (KRet (next_pid s) [], s1) /\
    pid y = next_pid s /\ prio y = pr /\ state y = ACTIVATABLE /\ parent y = cur /\ page_table_level_2 y = root /\
    context_process y = Some (mk_context (0x40000000 + FRAME_SIZE * Z.of_nat (length fs)) KUserEntry 0 arg
      (sf + FRAME_SIZE) 0x40000000 (user_satp root (next_pid s))).
Proof.
  intros Hst. destruct (start_reaches Hst) as (s1 & Erun & Hcr). destruct (cr_process _ Hcr) as [l1p Hp].
  exists s1. eexists. split; [done|]. split; [exact Hp|]. rewrite Erun, created_calls by done. split; [done|].
  split; [|done]. unfold resume_start. apply wp_run, wp_bind. eapply wp_pget; [exact Hp|]. by apply wp_ret.
Qed.

End Creation.

(** ** Rejected calls *)

(** The calls that fail before anything but the count of processes changes:
    no name, no such program, a priority out of range, no stack. *)
Definition rejected (name : option string) (sz pr : Z) : Prop :=
  match name with
  | None => True
  | Some name => find_app name = None \/ ~ (MINPRIO <= pr <= MAXPRIO) \/ sz <= 0
  end.
Definition charged (name : option string) (n : Z) : Z :=
  match name with None => n | Some _ => if MAX_NB_PROCESS <? n + 1 then n else n + 1 end.

Lemma start_full name sz pr arg s : MAX_NB_PROCESS < nb_proc_running s + 1 ->
  start_virtual name sz pr arg s = Ok (KRet (-1) [], s).
Proof.
  intros Hn. destruct name as [name|]; [|done]. unfold start_virtual.
  rewrite (run_bind _ _ s false s); [done|]. unfold count_new_process.
  rewrite (run_bind _ _ s (nb_proc_running s) s) by done. by destruct (Z.ltb_spec MAX_NB_PROCESS (nb_proc_running s + 1)); [|lia].
Qed.

Lemma start_rejected name sz pr arg s : rejected name sz pr -> caller_ok s ->
  start_virtual name sz pr arg s = Ok (KRet (-1) [], s <| nb_proc_running := charged name (nb_proc_running s) |>).
Proof.
  intros Hrej Hc. destruct name as [name|]; [|by destruct s]. simpl in Hrej. unfold charged.
  destruct (Z.ltb_spec MAX_NB_PROCESS (nb_proc_running s + 1)) as [Hn|Hn].
  { rewrite start_full by done. by destruct s. }
  unfold start_virtual. set (s1 := s <| nb_proc_running := nb_proc_running s + 1 |>).
  assert (E1 : count_new_process s = Ok (true, s1)).
  { unfold count_new_process. rewrite (run_bind _ _ s (nb_proc_running s) s) by done.
    by destruct (Z.ltb_spec MAX_NB_PROCESS (nb_proc_running s + 1)); [lia|]. }
  rewrite (run_bind _ _ _ _ _ E1). cbn [negb]. rewrite (run_bind _ _ _ _ _ (start_checks_run sz pr s1 Hc)).
  case_bool_decide as Hok; [|done]. cbn [Z.ltb Z.compare]. rewrite bool_decide_false; [done|].
  destruct Hrej as [->|[?|?]]; [by intros [? ?]|tauto|lia].
Qed.

(** [n] calls in a row, by a process that goes on after each. *)
Fixpoint calls (n : nat) (m : K kont) : K unit :=
  match n with O => mret tt | S n => _ ← m; calls n m end.

(** C38: rejected calls use up the processes.  [start_virtual] counts the new
    process before it checks its arguments and does not take the count back
    when it rejects them: a process that asks often enough for a program that
    does not exist makes every later call fail, the valid ones too, although
    it has created none. *)
Theorem rejected_starts_exhaust name sz pr arg s (n : nat) :
  rejected (Some name) sz pr -> caller_ok s -> 0 <= nb_proc_running s <= MAX_NB_PROCESS ->
  exists s1, calls n (start_virtual (Some name) sz pr arg) s = Ok (tt, s1) /\
    s1 = s <| nb_proc_running := Z.min MAX_NB_PROCESS (nb_proc_running s + Z.of_nat n) |> /\
    (MAX_NB_PROCESS <= nb_proc_running s + Z.of_nat n ->
      forall name' sz' pr' arg', start_virtual name' sz' pr' arg' s1 = Ok (KRet (-1) [], s1)).
Proof.
  intros Hrej Hc Hn. eexists. split; [|split; [done|]].
  - revert s Hc Hn. induction n as [|n IH]; intros s Hc Hn.
    + simpl. f_equal. f_equal. rewrite Z.add_0_r, Z.min_r by lia. by destruct s.
    + simpl. rewrite (run_bind _ _ _ _ _ (start_rejected _ _ _ arg _ Hrej Hc)). rewrite IH; [|done|].
      * f_equal. f_equal. cbn [nb_proc_running upd charged]. destruct s; unfold upd; cbn. f_equal.
        destruct (Z.ltb_spec MAX_NB_PROCESS (nb_proc_running + 1)); lia.
      * cbn [nb_proc_running upd charged]. destruct (Z.ltb_spec MAX_NB_PROCESS (nb_proc_running s + 1)); lia.
  - intros Hm name' sz' pr' arg'. apply start_full. cbn [nb_proc_running upd]. lia.
Qed.

End Start.
