(* ===== verification/Isolation.v ===== *)
(** * Isolation: the address spaces of the processes side by side

    Every process has its directory, tables, pages and trap stack in frames of
    its own; what a user program writes in the pages it can reach changes no
    translation and no list of the kernel. *)

From S2P Require Import Prelude.
From S2P Require Import Queue.
From S2P Require Import FrameDist.
From S2P Require Import Pages.
From S2P Require Import Kernel.
From S2P Require Import KernelRules.
From S2P Require Import ProcessMemory.
From S2P Require Import TableList.
From S2P Require Import ProcessMemorySpec.
From S2P Require Import Scheduler.
From S2P Require Import SchedulerSpec.
From S2P Require Import ProcessApi.
From S2P Require Import StartSpec.
#[local] Open Scope Z_scope.

(** The frames of a process: the directory, the tables below it, the pages of
    the program and the stack, the heap page, the trap stack. *)
Record space : Type := mk_space {
  sp_root : Z; sp_tables : list Z; sp_code : list Z; sp_heap : Z; sp_trap : Z; sp_app : uapps
}.
Definition sp_pages (sp : space) : list Z := sp_code sp ++ [sp_heap sp].
Definition sp_frames (sp : space) : list Z := sp_root sp :: sp_tables sp ++ sp_pages sp ++ [sp_trap sp].

Section Isolation.
Context `{E : KEnv}.
Implicit Types (s : kstate) (m : fmem) (sp : space).

(** Two free lists of the same memory are the same. *)
Lemma chain_unique w l l' p : 0 ∉ l -> 0 ∉ l' -> chain w p l -> chain w p l' -> l = l'.
Proof.
  revert l' p. induction l as [|x l IH]; intros [|x' l'] p; cbn [chain]; try done.
  - intros _ H0 -> [<- _]. set_solver.
  - intros H0 _ [-> _] ->. set_solver.
  - intros H0 H0' [-> Hc] [<- Hc']. f_equal. eapply IH; [set_solver|set_solver|exact Hc|exact Hc'].
Qed.

Lemma frames_pos l : Forall is_frame l -> 0 ∉ l.
Proof. rewrite Forall_forall. intros Hl Hin. apply Hl, is_frame_pos in Hin. lia. Qed.

Lemma free_ok_unique m l l' : free_ok m l -> free_ok m l' -> l = l'.
Proof. intros [H1 _ H3 _] [H1' _ H3' _]. eapply chain_unique; [by apply frames_pos..|exact H1|exact H1']. Qed.

(** The memory [m'] is [m] up to the frames in [W]. *)
Definition changed_in (W : list Z) m m' : Prop := forall a, frame_of a ∉ W -> word m' a = word m a.

Lemma changed_agree S W m m' : changed_in W m m' -> Forall is_frame S -> (forall t, t ∈ S -> t ∉ W) -> agree S m m'.
Proof.
  rewrite Forall_forall. intros Hw Hf Hd t j Ht Hj. apply Hw. rewrite pte_at_frame by auto. by apply Hd.
Qed.

(** The free list, empty when the allocator has not been set up. *)
Definition free_frames m (free : list Z) : Prop := mem_ptr m = 0 /\ free = [] \/ free_ok m free.

Lemma free_frames_ok m free F : free_frames m free -> free_ok m F -> free = F.
Proof.
  intros [[H0 ->]|Hf] HF; [|by eapply free_ok_unique]. destruct HF as [Hc Hn Hfr _]. destruct F as [|x F]; [done|].
  destruct Hc as [Hx _]. apply Forall_cons in Hfr as [Hx' _]. apply is_frame_pos in Hx'. lia.
Qed.

Lemma changed_free W m m' free : mem_ptr m' = mem_ptr m -> changed_in W m m' -> free_frames m free -> (forall f, f ∈ free -> f ∉ W) -> free_frames m' free.
Proof.
  intros Hp Hw [[H0 ->]|[Hc Hn Hf Hd]] Hdis; [left; split; [congruence|done]|right]. split; try done. rewrite Hp.
  eapply chain_ext; [|exact Hc]. intros x Hx. symmetry. apply Hw. rewrite is_frame_of by (by eapply Forall_forall). by apply Hdis.
Qed.

(** What the translation of a process does. *)
Definition space_ok (kt : Z) m sp : Prop :=
  (forall va, 2 ^ 30 <= va < 2 ^ 31 ->
    match user_page (Z.of_nat (length (sp_code sp))) va with
    | Some g => exists f e, sp_pages sp !! g = Some f /\
        sv39_walk (word m) (sp_root sp) va = Some (f + va mod 4096, e) /\ user_access e (page_exec (sp_app sp) g)
    | None => sv39_walk (word m) (sp_root sp) va = None
    end) /\
  forall va, vpn 2 va <> USERSPACE -> sv39_walk (word m) (sp_root sp) va = sv39_walk (word m) kt va.

Record space_held (kt : Z) m (free : list Z) sp : Prop := {
  sh_frames : Forall is_frame (sp_frames sp);
  sh_nodup : NoDup (sp_frames sp);
  sh_free : forall f, f ∈ sp_frames sp -> f ∉ free;
  sh_kernel : is_frame kt /\ kt ∉ sp_frames sp;
  sh_ok : forall m', agree (kt :: sp_root sp :: sp_tables sp) m m' -> space_ok kt m' sp
}.

(** The kernel's directory gives users nothing. *)
Definition kernel_closed (kt : Z) m : Prop :=
  forall m' va pa e, agree [kt] m m' -> vpn 2 va <> USERSPACE -> sv39_walk (word m') kt va = Some (pa, e) -> resU e = 0.

(** The spaces [S] of the processes that have one, apart from one another. *)
Record spaces_ok s (S : gmap ptr space) (free : list Z) : Prop := {
  so_free : free_frames (frame_mem s) free;
  so_procs : forall p x, procs s !! p = Some x -> page_table_level_2 x <> 0 ->
    exists sp, S !! p = Some sp /\ sp_root sp = page_table_level_2 x;
  so_held : forall p sp, S !! p = Some sp -> space_held (kernel_table s) (frame_mem s) free sp;
  so_apart : forall p q sp sq f, S !! p = Some sp -> S !! q = Some sq -> f ∈ sp_frames sp -> f ∈ sp_frames sq -> p = q;
  so_kernel : kernel_table s ∉ free /\ kernel_closed (kernel_table s) (frame_mem s)
}.
Definition memory_ok s : Prop := exists S free, spaces_ok s S free.

(** The frames that the user code of a process reaches. *)
Definition reaches s (p : ptr) (f : Z) : Prop :=
  exists x va pa e, procs s !! p = Some x /\ page_table_level_2 x <> 0 /\ 0 <= va < 2 ^ 39 /\
    sv39_walk (word (frame_mem s)) (page_table_level_2 x) va = Some (pa, e) /\ resU e = 1 /\ frame_of pa = f.

Lemma vpn2_user va : 0 <= va < 2 ^ 39 -> vpn 2 va = USERSPACE -> 2 ^ 30 <= va < 2 ^ 31.
Proof. unfold vpn, USERSPACE. change (2 ^ (12 + 9 * 2)) with (2 ^ 30). intros Hva Hv. mlia. Qed.

Lemma reaches_page s S free p f : spaces_ok s S free -> reaches s p f -> exists sp, S !! p = Some sp /\ f ∈ sp_pages sp.
Proof.
  intros Hs (x & va & pa & e & Hx & Hn & Hva & Hw & Hu & Hf). destruct (so_procs _ _ _ Hs _ _ Hx Hn) as (sp & Hsp & Hr).
  exists sp. split; [done|]. pose proof (so_held _ _ _ Hs _ _ Hsp) as [Hfr _ _ _ Hok]. destruct (Hok _ (agree_refl _ _)) as [H1 H2].
  rewrite <- Hr in Hw. destruct (decide (vpn 2 va = USERSPACE)) as [Hv|Hv].
  - specialize (H1 va (vpn2_user va Hva Hv)). destruct (user_page _ va) as [g|]; [|congruence].
    destruct H1 as (f' & e' & Hf' & Hw' & _). apply list_elem_of_lookup_2 in Hf' as Hin. rewrite Hw in Hw'. injection Hw' as Epa _.
    assert (Hif : is_frame f').
    { rewrite Forall_forall in Hfr. apply Hfr. unfold sp_frames. rewrite elem_of_cons, !elem_of_app. tauto. }
    replace f with f'; [done|]. rewrite <- Hf, Epa. destruct Hif as [_ Hm]. unfold frame_of. mlia.
  - rewrite H2 in Hw by done. pose proof (proj2 (so_kernel _ _ _ Hs) _ _ _ _ (agree_refl _ _) Hv Hw). lia.
Qed.

(** No frame is reached by two processes, and none that is reached is free, a
    directory, a trap stack or in use by the kernel. *)
Definition isolated s : Prop := forall p f, reaches s p f ->
  is_frame f /\ f <> kernel_table s /\ (forall F, free_ok (frame_mem s) F -> f ∉ F) /\
  (forall q y, procs s !! q = Some y -> f <> page_table_level_2 y) /\
  forall q, q <> p -> ~ reaches s q f.

Lemma pages_in sp f : f ∈ sp_pages sp -> f ∈ sp_frames sp /\ (NoDup (sp_frames sp) -> f ∉ sp_root sp :: sp_tables sp).
Proof.
  unfold sp_frames. intros Hf. split; [set_solver|]. intros [Hr (_ & Hd & _)%NoDup_app]%NoDup_cons.
  rewrite elem_of_cons. intros [->|Ht]; [apply Hr; set_solver|]. apply (Hd _ Ht). set_solver.
Qed.

Lemma spaces_isolated s : memory_ok s -> isolated s.
Proof.
  intros (S & free & Hs) p f Hp. destruct (reaches_page _ _ _ _ _ Hs Hp) as (sp & Hsp & Hf).
  pose proof (so_held _ _ _ Hs _ _ Hsp) as [Hfr Hnd Hfree [_ Hk] _]. destruct (pages_in _ _ Hf) as [Hin Hout]. split_and!.
  - rewrite Forall_forall in Hfr. by apply Hfr.
  - intros ->. done.
  - intros F HF. rewrite <- (free_frames_ok _ _ _ (so_free _ _ _ Hs) HF). by apply Hfree.
  - intros q y Hy E1. destruct (decide (page_table_level_2 y = 0)) as [E0|Hn].
    { rewrite Forall_forall in Hfr. apply Hfr, is_frame_pos in Hin. lia. }
    destruct (so_procs _ _ _ Hs _ _ Hy Hn) as (sq & Hsq & Hr). assert (p = q) as <-.
    { eapply (so_apart _ _ _ Hs _ _ _ _ f Hsp Hsq Hin). rewrite E1, <- Hr. by left. }
    rewrite Hsp in Hsq. injection Hsq as <-. apply (Hout Hnd). rewrite E1, <- Hr. by left.
  - intros q Hq Hr. destruct (reaches_page _ _ _ _ _ Hs Hr) as (sq & Hsq & Hf').
    destruct (pages_in _ _ Hf') as [Hin' _]. by destruct Hq; eapply (so_apart _ _ _ Hs).
Qed.

(** ** What keeps the spaces *)

(** Steps of the kernel that do not touch the memory of the processes. *)
Lemma memory_ok_step s s' :
  memory_ok s -> frame_mem s' = frame_mem s -> kernel_table s' = kernel_table s ->
  (forall q y', procs s' !! q = Some y' -> exists y, procs s !! q = Some y /\ page_table_level_2 y' = page_table_level_2 y) ->
  memory_ok s'.
Proof.
  intros (S & free & [H1 H2 H3 H4 H5]) Em Ek Hback. exists S, free. split; rewrite ?Em, ?Ek; [exact H1| |exact H3|exact H4|exact H5].
  intros p x' Hx' Hn. destruct (Hback _ _ Hx') as (x & Hx & E1). rewrite E1 in *. by eapply H2.
Qed.

(** The writes of the user code of a process. *)
Definition user_write s (p : ptr) m' : Prop :=
  mem_ptr m' = mem_ptr (frame_mem s) /\ forall a, ~ reaches s p (frame_of a) -> word m' a = word (frame_mem s) a.

Lemma held_later kt m free sp W m' :
  changed_in W m m' -> (forall f, f ∈ kt :: sp_root sp :: sp_tables sp -> f ∉ W) ->
  space_held kt m free sp -> space_held kt m' free sp.
Proof.
  intros Hch Hd [H1 H2 H3 [H4 H4'] H5]. split; [exact H1|exact H2|exact H3|by split|]. intros m2 Hag. apply H5. eapply agree_trans; [|exact Hag].
  apply (changed_agree _ W); [done| |done]. apply Forall_cons. split; [done|]. rewrite Forall_forall in *. intros f Hf. apply H1.
  unfold sp_frames. rewrite elem_of_cons, elem_of_app in *. tauto.
Qed.

Lemma closed_later kt m W m' : changed_in W m m' -> is_frame kt -> kt ∉ W -> kernel_closed kt m -> kernel_closed kt m'.
Proof.
  intros Hch Hf Hk Hc m2 va pa e Hag. apply Hc. eapply agree_trans; [|exact Hag]. apply (changed_agree _ W); [done| |].
  - by apply Forall_singleton.
  - by intros t ->%list_elem_of_singleton.
Qed.

Lemma user_write_changed s S free p m' : spaces_ok s S free -> user_write s p m' ->
  changed_in (from_option sp_pages [] (S !! p)) (frame_mem s) m'.
Proof.
  intros Hs [Hp Hw] a Ha. apply Hw. intros Hr.
  destruct (reaches_page _ _ _ _ _ Hs Hr) as (sp & Hsp & Hf). by rewrite Hsp in Ha.
Qed.

(** User code may write wherever it can. *)
Lemma user_write_memory s p m' : memory_ok s -> user_write s p m' -> memory_ok (s <| frame_mem := m' |>).
Proof.
  intros (S & free & Hs) Hw. pose proof (user_write_changed _ _ _ _ _ Hs Hw) as Hch. exists S, free.
  destruct (S !! p) as [sp|] eqn:Hsp; cbn [from_option] in Hch.
  - pose proof (so_held _ _ _ Hs _ _ Hsp) as [Hfr Hnd Hfree [Hkf Hk] _].
    assert (HW : forall f, f ∈ sp_pages sp -> f ∈ sp_frames sp) by (intros f Hf; by apply pages_in).
    destruct Hs as [H1 H2 H3 H4 [H5 H5']]. split; [|exact H2| |exact H4|].
    + eapply changed_free; [apply Hw|exact Hch|done|]. intros f Hf Hin. by apply (Hfree f); [apply HW|].
    + intros q sq Hq. eapply held_later; [exact Hch| |by apply (H3 q)].
      intros f [->|Hf]%elem_of_cons Hin; [by apply Hk, HW|]. assert (p = q) as <-.
      { eapply (H4 p q sp sq f); [done|done|by apply HW|]. unfold sp_frames. rewrite elem_of_cons, elem_of_app in *. tauto. }
      simplify_eq. by destruct (pages_in _ _ Hin) as [_ Hout]; apply (Hout Hnd).
    + split; [done|]. eapply closed_later; [exact Hch|done| |done]. intros Hin. by apply Hk, HW.
  - destruct Hs as [H1 H2 H3 H4 [H5 H5']].
    assert (Hag : forall S' m2, agree S' m' m2 -> agree S' (frame_mem s) m2).
    { intros S' m2 Hm t j Ht Hj. rewrite Hm by done. apply Hch, not_elem_of_nil. }
    split; [|exact H2| |exact H4|].
    + eapply changed_free; [apply Hw|exact Hch|done|]. intros f _. apply not_elem_of_nil.
    + intros q sq Hq. destruct (H3 q sq Hq) as [G1 G2 G3 G4 G5]. split; [exact G1|exact G2|exact G3|exact G4|]. intros m2 Hm. apply G5. by apply Hag.
    + split; [done|]. intros m2 va pa e Hm. apply H5'. by apply Hag.
Qed.

(** ** A creation *)
Section Creation.
Context {s : kstate} {Q : queues} {A : list ptr} {name : string} {app : uapps} {sz pr arg root l1 : Z}.
Context {T : list Z} {ht : Z} {fs : list Z} {hf sf : Z} {rest : list Z} {s1 : kstate}.
Context (Hst : startable s Q A name app sz pr root l1 T ht fs hf sf rest).
Context (Hcr : created s Q A name app sz pr arg root l1 T ht fs hf sf rest s1).
Let p : ptr := next_block s.

Definition new_space : space := mk_space root (l1 :: T ++ [ht]) fs hf sf app.
Let taken : list Z := root :: l1 :: T ++ ht :: fs ++ [hf].

Lemma new_frames : sp_frames new_space = root :: l1 :: (T ++ [ht]) ++ (fs ++ [hf]) ++ [sf].
Proof. done. Qed.

Lemma free_split : root :: l1 :: T ++ ht :: fs ++ hf :: sf :: rest = sp_frames new_space ++ rest.
Proof. rewrite new_frames. simpl. by rewrite <- !app_assoc. Qed.

Lemma created_changed : changed_in (sp_frames new_space) (frame_mem s) (frame_mem s1).
Proof.
  intros a Ha. apply (cr_only _ _ _ _ _ _ _ _ _ _ _ _ _ _ _ _ _ Hcr). rewrite new_frames in Ha.
  rewrite !elem_of_cons, elem_of_app, elem_of_cons in *. rewrite !elem_of_app, !list_elem_of_singleton in *. tauto.
Qed.

Lemma created_table : kernel_table s1 = kernel_table s.
Proof. by destruct (cr_frame _ _ _ _ _ _ _ _ _ _ _ _ _ _ _ _ _ Hcr) as (ps & l & m & b & ns & pl & it & ->). Qed.

Lemma held_sub kt m free free' sp : (forall f, f ∈ free' -> f ∈ free) -> space_held kt m free sp -> space_held kt m free' sp.
Proof.
  intros Hs [H1 H2 H3 H4 H5]. split; [exact H1|exact H2| |exact H4|exact H5]. intros f Hf Hin.
  apply (H3 f Hf). by apply Hs.
Qed.

Lemma new_held : space_held (kernel_table s) (frame_mem s1) rest new_space.
Proof.
  destruct (rm_free _ _ _ _ _ _ _ _ _ _ _ (st_room _ _ _ _ _ _ _ _ _ _ _ _ _ _ _ Hst)) as [_ _ Hf Hd].
  destruct (rm_kernel _ _ _ _ _ _ _ _ _ _ _ (st_room _ _ _ _ _ _ _ _ _ _ _ _ _ _ _ Hst)) as [Hk1 Hk2].
  rewrite free_split in Hf, Hd, Hk2. apply Forall_app in Hf as [Hf _]. apply NoDup_app in Hd as (Hd & Hdis & _).
  split; [exact Hf|exact Hd|exact Hdis| |].
  - split; [done|]. intros Hin. apply Hk2, elem_of_app. by left.
  - intros m Hag. split.
    + intros va Hva. apply (cr_user _ _ _ _ _ _ _ _ _ _ _ _ _ _ _ _ _ Hcr); [|done].
      intros t j Ht. apply Hag. by right.
    + intros va Hva. apply (cr_kernel _ _ _ _ _ _ _ _ _ _ _ _ _ _ _ _ _ Hcr); [|done].
      intros t j Ht. apply Hag. rewrite !elem_of_cons, elem_of_nil in Ht. rewrite !elem_of_cons. cbn [sp_root new_space]. tauto.
Qed.

Lemma created_spaces S free : spaces_ok s S free -> spaces_ok s1 (<[p := new_space]> S) rest.
Proof.
  intros [H1 H2 H3 H4 [H5 H5']]. pose proof (st_room _ _ _ _ _ _ _ _ _ _ _ _ _ _ _ Hst) as Hroom.
  pose proof (free_frames_ok _ _ _ H1 (rm_free _ _ _ _ _ _ _ _ _ _ _ Hroom)) as Ef. rewrite free_split in Ef.
  destruct (rm_kernel _ _ _ _ _ _ _ _ _ _ _ Hroom) as [Hkf _].
  assert (Hnew : forall f, f ∈ sp_frames new_space -> f ∈ free) by (intros f Hf; rewrite Ef; apply elem_of_app; by left).
  assert (Hold : forall q sq, S !! q = Some sq -> forall f, f ∈ sp_frames sq -> f ∉ sp_frames new_space).
  { intros q sq Hq f Hf Hin. by apply (sh_free _ _ _ _ (H3 _ _ Hq) f Hf), Hnew. }
  split.
  - right. apply Hcr.
  - intros q y Hy Hn. destruct (created_procs _ _ _ _ _ _ _ _ _ _ _ _ _ _ _ _ _ _ _ Hcr Hy) as [[-> [l1p ->]]|(Hq & x & Hx & [Ek _])].
    + exists new_space. split; [apply lookup_insert_eq|done].
    + rewrite lookup_insert_ne by (intros Ep; by apply Hq). 
      assert (Ep : page_table_level_2 y = page_table_level_2 x) by (rewrite Ek; by destruct x).
      rewrite Ep in *. by eapply H2.
  - rewrite created_table. intros q sq. rewrite lookup_insert. case_decide as Eq; [intros [= <-]; apply new_held|]. intros Hq.
    apply (held_sub _ _ free); [intros f Hf; rewrite Ef; apply elem_of_app; by right|].
    eapply held_later; [apply created_changed| |by apply (H3 q)]. intros f [->|Hf]%elem_of_cons.
    + intros Hin. by apply H5, Hnew.
    + eapply Hold; [exact Hq|]. unfold sp_frames. rewrite elem_of_cons, elem_of_app in *. tauto.
  - intros q q' sq sq' f. rewrite !lookup_insert. case_decide as E1; case_decide as E2; [congruence|..].
    + intros [= <-] Hq' Hf Hf'. by destruct (Hold _ _ Hq' f Hf').
    + intros Hq [= <-] Hf Hf'. by destruct (Hold _ _ Hq f Hf).
    + apply H4.
  - rewrite created_table. split; [intros Hin; apply H5; rewrite Ef; apply elem_of_app; by right|].
    eapply closed_later; [apply created_changed|done| |done]. intros Hin. by apply H5, Hnew.
Qed.

Lemma created_memory : memory_ok s -> memory_ok s1.
Proof. intros (S & free & Hs). eexists _, _. by apply (created_spaces S free). Qed.
End Creation.

End Isolation.
