(* ===== verification/ProcessFreeSpec.v ===== *)
(** * ProcessFreeSpec: what a process gives back

    [free_process_memory] walks the tables of a process and hands the frames
    they map, the tables themselves and the trap stack to the free list.  A
    process that was created and is freed leaves the free list with the frames
    it had before, each of them once. *)

From S2P Require Import Prelude.
From S2P Require Import Queue.
From S2P Require Import FrameDist.
From S2P Require Import Pages.
From S2P Require Import Kernel.
From S2P Require Import KernelRules.
From S2P Require Import ProcessMemory.
From S2P Require Import PageFilling.
From S2P Require Import TableList.
From S2P Require Import ProcessMemorySpec.
From S2P Require Import ProcessFree.
From S2P Require Import Scheduler.
From S2P Require Import SchedulerSpec.
From S2P Require Import ProcessApi.
From S2P Require Import StartSpec.
From S2P Require Import Isolation.
#[local] Open Scope Z_scope.

Section Release.
Context `{E : KEnv}.
Implicit Types (s : kstate) (m : fmem).

(** ** Frames *)

Lemma changed_in_refl W m : changed_in W m m.
Proof. by intros a _. Qed.
Lemma changed_in_trans W W' m m' m'' : changed_in W m m' -> changed_in W' m' m'' -> changed_in (W ++ W') m m''.
Proof. intros H1 H2 a Ha. rewrite not_elem_of_app in Ha. rewrite H2, H1; tauto. Qed.
Lemma changed_in_sub W W' m m' : (forall f, f ∈ W -> f ∈ W') -> changed_in W m m' -> changed_in W' m m'.
Proof. intros Hs H a Ha. apply H. auto. Qed.

Lemma wp_release f free (Q : unit -> fmem -> Prop) m :
  free_ok m free -> is_frame f -> f ∉ free ->
  (forall m', free_ok m' (f :: free) -> changed_in [f] m m' -> Q tt m') -> wp (release_frame f) Q m.
Proof.
  intros Hok Hf Hn HQ. eapply wp_intro; [by apply release_frame_spec|]. apply HQ; [by apply release_frame_ok|].
  intros a Ha. rewrite word_insert, decide_False; [done|]. intros <-. apply Ha. rewrite is_frame_of by done. by left.
Qed.

(** The frames [gs] can be given back one after the other. *)
Record releasable (free gs : list Z) : Prop := {
  rl_frames : Forall is_frame gs;
  rl_nodup : NoDup gs;
  rl_taken : forall g, g ∈ gs -> g ∉ free
}.

Lemma releasable_app free gs gs' : releasable free (gs ++ gs') <-> releasable free gs /\ releasable (reverse gs ++ free) gs'.
Proof.
  split.
  - intros [[H1 H1']%Forall_app (H2 & Hd & H2')%NoDup_app H3]. split; (split; [done|done|]).
    + intros g Hg. apply H3, elem_of_app. by left.
    + intros g Hg. rewrite elem_of_app, elem_of_reverse. intros [Hin|Hin]; [by apply (Hd g)|].
      by apply (H3 g); [apply elem_of_app; right|].
  - intros [[H1 H2 H3] [H1' H2' H3']]. split.
    + by apply Forall_app.
    + apply NoDup_app. split; [done|]. split; [|done]. intros g Hg Hg'. apply (H3' g Hg'), elem_of_app. left. by apply elem_of_reverse.
    + intros g [Hg|Hg]%elem_of_app; [by apply H3|]. intros Hin. apply (H3' g Hg), elem_of_app. by right.
Qed.

(** A run that gave back [gs]. *)
Definition gave_back (free gs : list Z) m m' : Prop := free_ok m' (reverse gs ++ free) /\ changed_in gs m m'.

Lemma gave_back_app free gs gs' m m' m'' :
  gave_back free gs m m' -> gave_back (reverse gs ++ free) gs' m' m'' -> gave_back free (gs ++ gs') m m''.
Proof.
  intros [_ H1] [H2 H2']. split; [by rewrite reverse_app, <- app_assoc|]. by eapply changed_in_trans.
Qed.
Lemma gave_back_nil free m : free_ok m free -> gave_back free [] m m.
Proof. intros Hok. split; [done|apply changed_in_refl]. Qed.

(** The entries of the table [t] from [i] on address the frames [gs]. *)
Definition maps_from m (t i : Z) (gs : list Z) : Prop :=
  forall j g, gs !! j = Some g -> find_pte_adress (table_entry m t (i + Z.of_nat j)) = g.

Lemma maps_from_changed W m m' t i gs : is_frame t -> t ∉ W -> changed_in W m m' -> 0 <= i -> i + Z.of_nat (length gs) <= 512 ->
  maps_from m t i gs -> maps_from m' t i gs.
Proof.
  intros Ht HW Hch Hi Hl Hm j g Hg. rewrite <- (Hm j g Hg). apply lookup_lt_Some in Hg. unfold table_entry.
  rewrite Hch; [done|]. by rewrite pte_at_frame by (done || lia).
Qed.

Lemma free_frames_spec t gs : forall i free m,
  is_frame t -> t ∉ gs -> 0 <= i -> i + Z.of_nat (length gs) <= 512 -> maps_from m t i gs ->
  releasable free gs -> free_ok m free ->
  wp (free_frames_loop (length gs) t i) (fun _ m' => gave_back free gs m m') m.
Proof.
  induction gs as [|g gs IH]; intros i free m Ht Htg Hi Hl Hm Hr Hok; cbn [length free_frames_loop] in *.
  { by apply wp_ret, gave_back_nil. }
  rewrite not_elem_of_cons in Htg. destruct Htg as [Hne Htg]. apply (releasable_app _ [g]) in Hr as [[Hg _ Hn] Hr].
  rewrite Forall_singleton in Hg. apply wp_bind. apply wp_load; [apply pte_at_addr; [done|lia]|].
  pose proof (Hm 0%nat g eq_refl) as E0. rewrite Z.add_0_r in E0. unfold table_entry in E0. rewrite E0. apply wp_bind.
  eapply wp_release; [done|done|apply Hn; by left|]. intros m1 Hok1 Hch1.
  eapply wp_mono; [apply (IH (i + 1) (g :: free))|]; try done; try lia.
  - intros j f Hj. replace (i + 1 + Z.of_nat j) with (i + Z.of_nat (S j)) by lia.
    apply (maps_from_changed [g] m m1 t i (g :: gs)); try done. by rewrite list_elem_of_singleton.
  - intros [] m2 H2. by apply (gave_back_app free [g] gs m m1 m2).
Qed.

Lemma free_indexed_spec t i k gs free (Q : Z -> kstate -> Prop) s :
  is_frame t -> t ∉ gs -> 0 <= i -> k = i + Z.of_nat (length gs) -> k <= 512 -> maps_from (frame_mem s) t i gs ->
  releasable free gs -> free_ok (frame_mem s) free ->
  (forall m', gave_back free gs (frame_mem s) m' -> Q 0 (s <| frame_mem := m' |>)) ->
  wp (free_frames_indexed t i k) Q s.
Proof.
  intros Ht Htg Hi -> Hk Hm Hr Hok HQ. unfold free_frames_indexed. pose proof (is_frame_pos t Ht).
  destruct (Z.eqb_spec t 0); [lia|]. replace (i + Z.of_nat (length gs) - i) with (Z.of_nat (length gs)) by lia. rewrite Nat2Z.id.
  apply wp_bind, wp_in_frames. eapply wp_mono; [by apply free_frames_spec|]. intros [] m' Hg. by apply wp_ret, HQ.
Qed.

(** ** Tables *)

(** The node [n] of a level-0 table of the program or of the heap, the block
    [b] being its table and the frames it maps. *)
Definition block_node (n : page_table_link_list_t) (b : Z * list Z) : Prop :=
  plain n /\ pt_table n = b.1 /\ usage n = Z.of_nat (length b.2) /\ index n < SHARED_MEMORY_START.
Definition block_ok m (b : Z * list Z) : Prop :=
  is_frame b.1 /\ Z.of_nat (length b.2) <= 512 /\ maps_from m b.1 0 b.2.

Lemma block_changed W m m' b : changed_in W m m' -> b.1 ∉ W -> block_ok m b -> block_ok m' b.
Proof. intros Hch Hb (H1 & H2 & H3). split; [done|]. split; [done|]. by apply (maps_from_changed W m). Qed.

Lemma free_plain_spec p n b free (Q : Z -> kstate -> Prop) s :
  pt_nodes s !! p = Some n -> block_node n b -> block_ok (frame_mem s) b -> b.1 ∉ b.2 ->
  releasable free b.2 -> free_ok (frame_mem s) free ->
  (forall m', gave_back free b.2 (frame_mem s) m' -> Q 0 (s <| frame_mem := m' |>)) ->
  wp (free_frames_page_table (Some p)) Q s.
Proof.
  intros Hp ((E1 & E2 & E3) & Et & Eu & Ei) (Hf & Hl & Hm) Hn Hr Hok HQ. unfold free_frames_page_table.
  apply wp_bind. eapply wp_rd; [exact Hp|]. rewrite E1, E2, E3. cbn [Z.eqb andb].
  destruct (Z.leb_spec SHARED_MEMORY_START (index n)); [lia|]. apply wp_bind. rewrite Et, Eu.
  eapply free_indexed_spec; [done|done|lia|lia|done|done|done|done|]. intros m' Hg. by apply wp_ret, HQ.
Qed.

Definition delete_all {A} (ps : list ptr) (h : gmap ptr A) : gmap ptr A := foldr delete h ps.

Lemma delete_all_lookup {A} ps (h : gmap ptr A) r : delete_all ps h !! r = if decide (r ∈ ps) then None else h !! r.
Proof.
  induction ps as [|p ps IH]; cbn [delete_all foldr]; [by rewrite decide_False by apply not_elem_of_nil|].
  fold (delete_all ps h). rewrite lookup_delete. destruct (decide (p = r)) as [->|E1].
  - by rewrite decide_True by by left.
  - rewrite IH. apply decide_ext. rewrite elem_of_cons. naive_solver.
Qed.
Lemma delete_all_comm {A} p ps (h : gmap ptr A) : delete p (delete_all ps h) = delete_all ps (delete p h).
Proof. induction ps as [|r ps IH]; [done|]. cbn [delete_all foldr]. fold (delete_all ps h) (delete_all ps (delete p h)). by rewrite delete_delete, IH. Qed.

Lemma free_tables_spec l : forall blocks h free fuel s,
  nseg (pt_nodes s) h l None -> NoDup l.*1 -> Forall2 (fun e b => block_node e.2 b) l blocks ->
  Forall (block_ok (frame_mem s)) blocks -> (forall b, b ∈ blocks -> b.1 ∉ concat blocks.*2) ->
  releasable free (concat blocks.*2) -> free_ok (frame_mem s) free -> (length l < fuel)%nat ->
  wp (free_lvl0_tables fuel h) (fun _ s' => exists m', gave_back free (concat blocks.*2) (frame_mem s) m' /\
    s' = s <| pt_nodes ::= delete_all l.*1 |> <| frame_mem := m' |>) s.
Proof.
  induction l as [|[p n] l IH]; intros blocks h free fuel s Hseg Hnd Hb Hok Hsep Hr Hf Hfuel;
    destruct fuel as [|fuel]; cbn [length] in Hfuel; try lia; cbn [free_lvl0_tables].
  { inversion Hb; subst. simpl in Hseg. subst h. apply wp_ret. exists (frame_mem s). split; [by apply gave_back_nil|]. by destruct s. }
  inversion Hb as [|? b ? blocks' Hnb Hb']; subst. destruct Hseg as (-> & Hp & Hseg). csimpl in *.
  apply NoDup_cons in Hnd as [Hpl Hnd]. apply Forall_cons in Hok as [Hok Hoks]. apply releasable_app in Hr as [Hr1 Hr2].
  apply wp_bind. eapply wp_rd; [exact Hp|]. apply wp_bind.
  eapply free_plain_spec; [exact Hp|exact Hnb|exact Hok| |exact Hr1|exact Hf|].
  { intros Hin. apply (Hsep b); [by left|]. apply elem_of_app. by left. }
  intros m1 Hg1. apply wp_bind. eapply (wp_free pt_nodes); [exact Hp|].
  eapply wp_mono; [apply (IH blocks' _ (reverse b.2 ++ free))|].
  - eapply nseg_frame; [|exact Hseg]. intros r Hin. simpl. rewrite lookup_delete_ne; [done|]. by intros <-.
  - done.
  - done.
  - apply Forall_forall. intros b' Hin. rewrite Forall_forall in Hoks. eapply block_changed; [apply Hg1| |by apply Hoks].
    intros Hin'. apply (Hsep b'); [by right|]. apply elem_of_app. by left.
  - intros b' Hin Hin'. apply (Hsep b'); [by right|]. apply elem_of_app. by right.
  - done.
  - apply Hg1.
  - lia.
  - intros [] s' (m' & Hg & ->). exists m'. split; [by eapply gave_back_app|]. 
    transitivity (s <| pt_nodes := delete_all l.*1 (delete p (pt_nodes s)) |> <| frame_mem := m' |>); [by destruct s|].
    rewrite <- delete_all_comm. by destruct s.
Qed.

(** ** An address space *)

Section Space.
Context (l1p : ptr) (nodes : list ptr) (root l1 : Z) (T : list Z) (ht : Z) (fs : list Z) (hf sf : Z).

(** The nodes and the entries of the tables below the directory. *)
Record tables_held s : Prop := {
  th_nodes : exists n1 l, tables_rep s l1p n1 l /\ l.*1 = nodes /\ view <$> l.*2 = user_views T ht (Z.of_nat (length fs)) /\
    pt_table n1 = l1 /\ stack_usage n1 = Z.of_nat (length T) /\ heap_usage n1 = 1 /\ shared_memory_usage n1 = 0 /\
    Forall plain l.*2;
  th_entries : space_entries (frame_mem s) l1 T ht fs hf;
  th_enough : enough T fs;
  th_tables : 0 < Z.of_nat (length T) < 128
}.

Lemma tables_held_frame s s' :
  (forall r, r ∈ l1p :: nodes -> pt_nodes s' !! r = pt_nodes s !! r) ->
  agree (l1 :: T ++ [ht]) (frame_mem s) (frame_mem s') -> tables_held s -> tables_held s'.
Proof.
  intros Hns Hag [(n1 & l & [H1 H2 H3 H4] & El & Hr) He Hen HT]. split; [|eapply entries_agree; [|exact Hag|done]; lia|done|done].
  exists n1, l. split; [|done]. split; [|eapply nseg_frame; [|exact H2]|done|done].
  - by rewrite Hns by left.
  - intros r Hin. apply Hns. right. by rewrite <- El.
Qed.

(** The frames in the order in which they are given back. *)
Definition given : list Z := (fs ++ [hf]) ++ (T ++ [ht]) ++ [l1; root; sf].

Context (Hframes : Forall is_frame given) (Hnodup : NoDup given).

Lemma given_parts : Forall is_frame (T ++ [ht]) /\ is_frame l1 /\ l1 ∉ fs ++ [hf] /\ l1 ∉ T ++ [ht] /\
  (forall t, t ∈ T ++ [ht] -> t ∉ fs ++ [hf]).
Proof.
  unfold given in *. rewrite !(Forall_app _ (_ ++ _)), Forall_cons in Hframes.
  apply NoDup_app in Hnodup as (_ & Hd & (_ & Hd2 & _)%NoDup_app). split_and!; try tauto.
  - intros Hin. apply (Hd l1 Hin), elem_of_app. right. by left.
  - intros Hin. apply (Hd2 l1 Hin). by left.
  - intros t Ht Hin. apply (Hd t Hin), elem_of_app. by left.
Qed.

Lemma user_blocks_frames : enough T fs -> concat (user_blocks T ht fs hf).*2 = fs ++ [hf].
Proof. intros [_ Hn]. unfold user_blocks. rewrite fmap_app, concat_app. csimpl. by rewrite blocks_frames. Qed.

Lemma user_blocks_table b : b ∈ user_blocks T ht fs hf -> b.1 ∈ T ++ [ht].
Proof.
  unfold user_blocks. rewrite !elem_of_app, !list_elem_of_singleton. intros [Hb| ->]; [left|by right].
  rewrite <- (blocks_tables T fs). by apply list_elem_of_fmap_2.
Qed.

Lemma user_blocks_ok m : enough T fs -> space_entries m l1 T ht fs hf -> Forall (block_ok m) (user_blocks T ht fs hf).
Proof.
  intros Hen [_ Hp]. destruct given_parts as (Hf & _). pose proof TABLE_eq. apply Forall_forall. intros b Hb. split_and!.
  - rewrite Forall_forall in Hf. by apply Hf, user_blocks_table.
  - unfold user_blocks in Hb. rewrite elem_of_app, list_elem_of_singleton in Hb. destruct Hb as [Hb| ->]; [|done].
    destruct b as [t gs]. apply blocks_short in Hb. simpl. lia.
  - destruct b as [t gs]. intros j g Hg. rewrite Z.add_0_l. by apply (Hp t gs).
Qed.

Lemma user_nodes_blocks (l : list (ptr * page_table_link_list_t)) : enough T fs -> Z.of_nat (length T) < 128 ->
  view <$> l.*2 = user_views T ht (Z.of_nat (length fs)) -> Forall plain l.*2 ->
  Forall2 (fun e b => block_node e.2 b) l (user_blocks T ht fs hf).
Proof.
  intros Hen HT Hv Hpl. unfold user_views in Hv. rewrite (blocks_views _ _ _ Hen) in Hv.
  assert (Hl : length l = length (user_blocks T ht fs hf)).
  { apply (f_equal length) in Hv. rewrite !length_fmap, length_app, length_imap in Hv. unfold user_blocks. by rewrite length_app. }
  apply Forall2_same_length_lookup_2; [done|]. intros i [p n] b Hi Hb.
  assert (Hvi : Some (view n) = (imap (fun j b => block_view (0 + Z.of_nat j) b) (blocks_of T fs) ++ [(HEAP_SPACE_START, ht, 1)]) !! i)
    by (rewrite <- Hv, !list_lookup_fmap, Hi; done).
  rewrite Forall_forall in Hpl. split; [by apply Hpl, list_elem_of_fmap; exists (p, n); split; [|by eapply list_elem_of_lookup_2]|].
  unfold user_blocks in Hb. destruct (decide (i < length (blocks_of T fs))%nat) as [Hlt|Hge].
  - rewrite lookup_app_l in Hb by done. rewrite lookup_app_l in Hvi by (by rewrite length_imap). rewrite list_lookup_imap, Hb in Hvi. simpl in Hvi.
    unfold block_view, view in Hvi. injection Hvi as Ei Et Eu. rewrite blocks_length in Hlt. unfold SHARED_MEMORY_START.
    split_and!; [done|done|simpl; lia].
  - assert (i = length (blocks_of T fs)) as ->.
    { apply lookup_lt_Some in Hb. rewrite length_app in Hb. simpl in Hb. lia. }
    rewrite list_lookup_middle in Hb by done. injection Hb as <-. rewrite lookup_app_r in Hvi by (rewrite length_imap; lia).
    rewrite length_imap, Nat.sub_diag in Hvi. unfold view in Hvi. injection Hvi as Ei Et Eu. unfold SHARED_MEMORY_START.
    simpl. rewrite Ei. done.
Qed.

(** The level-1 table gives back the level-0 tables. *)
Lemma links_map m : space_entries m l1 T ht fs hf -> maps_from m l1 0 T /\ maps_from m l1 HEAP_SPACE_START [ht].
Proof.
  intros [Hl _]. split.
  - intros j t Hj. apply Hl. unfold user_links. apply elem_of_app. left. apply elem_of_lookup_imap. by exists j, t.
  - intros [|j] t Hj; [|done]. injection Hj as <-. apply Hl. unfold user_links. apply elem_of_app. right.
    apply list_elem_of_singleton. f_equal; lia.
Qed.

Lemma free_level1_spec n1 free (Q : Z -> kstate -> Prop) s :
  pt_nodes s !! l1p = Some n1 -> pt_table n1 = l1 -> stack_usage n1 = Z.of_nat (length T) -> heap_usage n1 = 1 ->
  shared_memory_usage n1 = 0 -> 0 < Z.of_nat (length T) < 128 -> maps_from (frame_mem s) l1 0 T ->
  maps_from (frame_mem s) l1 HEAP_SPACE_START [ht] -> releasable free (T ++ [ht]) -> free_ok (frame_mem s) free ->
  (forall m', gave_back free (T ++ [ht]) (frame_mem s) m' -> Q 0 (s <| frame_mem := m' |>)) ->
  wp (free_frames_page_table (Some l1p)) Q s.
Proof.
  intros Hn Et Es Eh Esh HT Hm1 Hm2 Hr Hok HQ. destruct given_parts as (_ & Hl & _ & Hl' & _).
  rewrite not_elem_of_app in Hl'. destruct (proj1 (releasable_app _ _ _) Hr) as [Hr1 Hr2].
  unfold free_frames_page_table. apply wp_bind. eapply wp_rd; [exact Hn|]. rewrite Es, Eh, Esh, Et.
  destruct (Z.eqb_spec (Z.of_nat (length T)) 0); [lia|]. cbn [andb]. unfold STACK_CODE_SPACE_START.
  apply wp_bind. eapply (free_indexed_spec l1 0 _ T free); [done|tauto|lia|done|lia|done|done|done|]. intros m1 Hg1.
  apply wp_bind. eapply (free_indexed_spec l1 HEAP_SPACE_START _ [ht] (reverse T ++ free)); try done; [tauto|..].
  { apply (maps_from_changed T (frame_mem s)); [done|tauto|apply Hg1|done|done|done]. }
  { apply Hg1. }
  intros m2 Hg2. apply wp_bind.
  eapply (free_indexed_spec l1 SHARED_MEMORY_START _ [] (reverse [ht] ++ reverse T ++ free)); try done; [apply not_elem_of_nil|..].
  { split; [done|constructor|]. by intros g ?%elem_of_nil. }
  { apply Hg2. }
  intros m3 Hg3. apply wp_ret. apply (HQ m3).
  pose proof (gave_back_app _ _ _ _ _ _ Hg1 Hg2) as Hg. rewrite app_assoc, <- reverse_app in Hg3.
  pose proof (gave_back_app _ _ _ _ _ _ Hg Hg3) as Hg'. by rewrite app_nil_r in Hg'.
Qed.

Lemma wp_release_state g free (Q : unit -> kstate -> Prop) s :
  free_ok (frame_mem s) free -> is_frame g -> g ∉ free ->
  (forall m', gave_back free [g] (frame_mem s) m' -> Q tt (s <| frame_mem := m' |>)) -> wp (in_frames (release_frame g)) Q s.
Proof. intros Hok Hg Hn HQ. apply wp_in_frames. eapply wp_release; [exact Hok|done|done|]. intros m' H1 H2. by apply HQ. Qed.

(** The last three frames. *)
Lemma release_roots y free (Q : unit -> kstate -> Prop) s p :
  procs s !! p = Some y -> sscratch_frame y = sf ->
  releasable free [l1; root; sf] -> free_ok (frame_mem s) free ->
  (forall m', gave_back free [l1; root; sf] (frame_mem s) m' -> Q tt (s <| frame_mem := m' |>)) ->
  wp (_ ← in_frames (release_frame l1); _ ← in_frames (release_frame root); sscratch ← pget (Some p) sscratch_frame;
    in_frames (release_frame sscratch)) Q s.
Proof.
  intros Hp Es Hr Hok HQ. destruct (proj1 (releasable_app free [l1] [root; sf]) Hr) as [[Hf1 _ Hn1] Hr2].
  destruct (proj1 (releasable_app _ [root] [sf]) Hr2) as [[Hf2 _ Hn2] [Hf3 _ Hn3]]. rewrite Forall_singleton in Hf1, Hf2, Hf3.
  apply wp_bind. eapply wp_release_state; [exact Hok|done|apply Hn1; by left|]. intros m1 Hg1.
  apply wp_bind. eapply wp_release_state; [apply Hg1|done|apply Hn2; by left|]. intros m2 Hg2.
  apply wp_bind. eapply wp_pget; [exact Hp|]. rewrite Es.
  eapply wp_release_state; [apply Hg2|done|apply Hn3; by left|]. intros m3 Hg3. apply (HQ m3).
  apply (gave_back_app free [l1] [root; sf] _ m1 m3 Hg1). exact (gave_back_app _ [root] [sf] _ m2 m3 Hg2 Hg3).
Qed.

Lemma free_tables_run p y free s :
  procs s !! p = Some y -> page_table_level_2 y = root -> page_tables_lvl_1_list y = Some l1p -> sscratch_frame y = sf ->
  tables_held s -> releasable free given -> free_ok (frame_mem s) free ->
  wp (free_process_tables (Some p)) (fun _ s' => exists m', gave_back free given (frame_mem s) m' /\
    s' = s <| pt_nodes ::= delete_all (l1p :: nodes) |> <| frame_mem := m' |>) s.
Proof.
  intros Hp Er El Es [(n1 & l & Hrep & Enodes & Hv & Et & Hsu & Hhu & Hsh & Hpl) Hent Hen HT] Hr Hok.
  destruct given_parts as (Hft & Hfl & Hl1 & Hl1' & Hsep). pose proof Hrep as [H1 Hseg _ [Hnl Hnd]%NoDup_cons].
  unfold given in Hr. destruct (proj1 (releasable_app _ _ _) Hr) as [Hra Hr']. destruct (proj1 (releasable_app _ _ _) Hr') as [Hrb Hrc].
  unfold free_process_tables. apply wp_bind. eapply wp_pget; [exact Hp|]. rewrite Er.
  assert (Hroot : 0 < root). { destruct Hrc as [Hf _ _]. rewrite !Forall_cons in Hf. destruct Hf as (_ & Hf & _). by apply is_frame_pos. }
  destruct (Z.eqb_spec root 0); [lia|]. apply wp_bind. eapply wp_pget; [exact Hp|]. rewrite El.
  apply wp_bind. eapply wp_rd; [exact H1|]. apply wp_bind, wp_gets. destruct (rep_fuel _ _ _ _ Hrep) as [k ->].
  apply wp_bind. eapply wp_mono.
  { apply (free_tables_spec l (user_blocks T ht fs hf) _ free); try done; rewrite ?user_blocks_frames by done.
    - apply user_nodes_blocks; [done|lia|done|done].
    - by apply user_blocks_ok.
    - intros b Hb. by apply Hsep, user_blocks_table.
    - done.
    - lia. }
  rewrite user_blocks_frames by done. intros [] s1 (m1 & Hg1 & ->). rewrite Enodes in Hnl. rewrite Enodes.
  match goal with |- wp _ _ ?S => set (s1 := S) end.
  assert (Hn1 : pt_nodes s1 !! l1p = Some n1) by (simpl; by rewrite delete_all_lookup, decide_False).
  destruct (links_map _ Hent) as [Hm1 Hm2]. apply wp_bind.
  eapply (free_level1_spec n1 (reverse (fs ++ [hf]) ++ free)); [exact Hn1|done..| | |exact Hrb|apply Hg1|].
  { apply (maps_from_changed (fs ++ [hf]) (frame_mem s)); [done|done|apply Hg1|done|lia|done]. }
  { apply (maps_from_changed (fs ++ [hf]) (frame_mem s)); [done|done|apply Hg1|done|done|done]. }
  intros m2 Hg2. apply wp_bind. eapply wp_rd; [exact Hn1|]. rewrite Et.
  pose proof (gave_back_app _ _ _ _ _ _ Hg1 Hg2) as Hg.
  assert (Hfin : wp (_ ← in_frames (release_frame l1); _ ← in_frames (release_frame root);
    sscratch ← pget (Some p) sscratch_frame; in_frames (release_frame sscratch))
    (fun _ s' => wp (Kernel.free pt_nodes (Some l1p)) (fun _ s' => exists m', gave_back free given (frame_mem s) m' /\
      s' = s <| pt_nodes ::= delete_all (l1p :: nodes) |> <| frame_mem := m' |>) s') (s1 <| frame_mem := m2 |>)).
  { eapply release_roots; [exact Hp|done|exact Hrc|apply Hg2|]. intros m3 Hg3. eapply (wp_free pt_nodes); [exact Hn1|].
    exists m3. split; [|by destruct s]. unfold given. rewrite app_assoc. eapply gave_back_app; [exact Hg|].
    rewrite reverse_app, <- app_assoc. exact Hg3. }
  unfold wp, mbind, M_bind in Hfin |- *. destruct (in_frames (release_frame l1) _) as [[[] s2]|]; [|done].
  destruct (in_frames (release_frame root) s2) as [[[] s3]|]; [|done].
  destruct (pget (Some p) sscratch_frame s3) as [[v s4]|]; [|done].
  destruct (in_frames (release_frame v) s4) as [[[] s5]|]; [|done]. exact Hfin.
Qed.

(** ** A process *)

(** The process [y] at [p] has this address space and no shared page. *)
Record owned s (p : ptr) (y : process) : Prop := {
  ow_process : procs s !! p = Some y;
  ow_root : page_table_level_2 y = root;
  ow_list : page_tables_lvl_1_list y = Some l1p;
  ow_trap : sscratch_frame y = sf;
  ow_shared : proc_shared_hash_table y = None;
  ow_tables : tables_held s
}.

(** The state once the process is gone and its memory is [m]. *)
Definition freed s (p : ptr) (y : process) m : kstate :=
  s <| nb_proc_running ::= fun n => wrapS 32 (n - 1) |> <| pt_nodes ::= delete_all (l1p :: nodes) |> <| frame_mem := m |>
    <| pid_process_hash_table ::= delete (pid y) |> <| procs ::= delete p |> <| next_block ::= Pos.succ |>
    <| process_id_list ::= cons (pid y) |> <| links ::= delete (inr p) |>.

(** The writes to the process before its block is freed do not matter. *)
Lemma freed_writes s p y1 y2 m n f g :
  s <| nb_proc_running := n |> <| pt_nodes ::= f |> <| frame_mem := m |> <| pid_process_hash_table ::= g |>
    <| procs ::= <[p := y1]> |> <| procs ::= <[p := y2]> |> <| next_block ::= Pos.succ |> <| process_id_list ::= cons (pid y1) |>
    <| procs ::= delete p |> <| links ::= delete (inr p) |> =
  s <| nb_proc_running := n |> <| pt_nodes ::= f |> <| frame_mem := m |> <| pid_process_hash_table ::= g |>
    <| procs ::= delete p |> <| next_block ::= Pos.succ |> <| process_id_list ::= cons (pid y1) |> <| links ::= delete (inr p) |>.
Proof.
  transitivity (s <| nb_proc_running := n |> <| pt_nodes ::= f |> <| frame_mem := m |> <| pid_process_hash_table ::= g |>
    <| procs := delete p (<[p := y2]> (<[p := y1]> (procs s))) |> <| next_block ::= Pos.succ |>
    <| process_id_list ::= cons (pid y1) |> <| links ::= delete (inr p) |>); [done|].
  by rewrite !delete_insert_eq.
Qed.

Lemma free_memory_run s p y free :
  (forall b, malloc_ok b = true) -> owned s p y -> releasable free given -> free_ok (frame_mem s) free ->
  exists m', gave_back free given (frame_mem s) m' /\ free_process_memory (Some p) s = Ok (0, freed s p y m').
Proof.
  intros Hm [Hp Er El Es Esh Hth] Hr Hok.
  assert (Hwp : wp (free_process_memory (Some p)) (fun r s' => exists m', gave_back free given (frame_mem s) m' /\
    r = 0 /\ s' = freed s p y m') s).
  2:{ apply wp_elim in Hwp as (r & s' & Hrun & m' & Hg & -> & ->). by exists m'. }
  unfold free_process_memory. apply wp_bind, wp_kupd, wp_bind. unfold free_process_shared.
  apply wp_bind. eapply wp_pget; [exact Hp|]. rewrite Esh. apply wp_ret, wp_bind.
  eapply wp_mono; [apply (free_tables_run p y free); try done; by apply (tables_held_frame s)|]. intros [] s1 (m' & Hg & ->).
  apply wp_bind. eapply wp_pget; [exact Hp|]. apply wp_bind, wp_kupd.
  pose (y1 := y <| context_process := None |>). pose (y2 := y1 <| process_name := None |>).
  apply wp_bind. eapply wp_pset; [exact Hp|]. apply wp_bind. apply (wp_pset p y1); [apply lookup_insert_eq|].
  apply wp_bind. unfold save_pid, malloc_block. apply wp_bind, wp_bind, wp_gets, wp_bind, wp_kupd, wp_ret. rewrite Hm.
  apply wp_bind, wp_kupd, wp_ret. apply wp_bind. unfold free_process_block. apply wp_bind.
  apply (wp_free procs p y2); [apply lookup_insert_eq|]. apply wp_kupd, wp_ret. exists m'. split; [exact Hg|]. split; [done|].
  exact (freed_writes s p y1 y2 m' (wrapS 32 (nb_proc_running s - 1)) (delete_all (l1p :: nodes)) (delete (pid y))).
Qed.

End Space.

Lemma owned_frame (l1p : ptr) nodes root l1 T ht fs hf sf s s' p y y' :
  owned l1p nodes root l1 T ht fs hf sf s p y -> procs s' !! p = Some y' ->
  page_table_level_2 y' = page_table_level_2 y -> page_tables_lvl_1_list y' = page_tables_lvl_1_list y ->
  sscratch_frame y' = sscratch_frame y -> proc_shared_hash_table y' = proc_shared_hash_table y ->
  (forall r, r ∈ l1p :: nodes -> pt_nodes s' !! r = pt_nodes s !! r) ->
  agree (l1 :: T ++ [ht]) (frame_mem s) (frame_mem s') -> owned l1p nodes root l1 T ht fs hf sf s' p y'.
Proof. intros [H1 H2 H3 H4 H5 H6] Hp E2 E3 E4 E5 Hn Ha. split; try congruence. by eapply tables_held_frame. Qed.

(** ** From the creation to the release *)
Section Creation.
Context {s : kstate} {Q : queues} {A : list ptr} {name : string} {app : uapps} {sz pr arg root l1 : Z}.
Context {T : list Z} {ht : Z} {fs : list Z} {hf sf : Z} {rest : list Z} {s1 : kstate}.
Context (Hst : startable s Q A name app sz pr root l1 T ht fs hf sf rest).
Context (Hcr : created s Q A name app sz pr arg root l1 T ht fs hf sf rest s1).
Let p : ptr := next_block s.
Let taken : list Z := given root l1 T ht fs hf sf.

Lemma taken_perm : taken ++ rest ≡ₚ root :: l1 :: T ++ ht :: fs ++ hf :: sf :: rest.
Proof. unfold taken, given. simpl. rewrite <- !app_assoc. simpl. solve_Permutation. Qed.

Lemma taken_frames : Forall is_frame taken /\ NoDup taken /\ releasable rest taken.
Proof.
  destruct (rm_free _ _ _ _ _ _ _ _ _ _ _ (st_room _ _ _ _ _ _ _ _ _ _ _ _ _ _ _ Hst)) as [_ _ Hf Hd].
  rewrite <- taken_perm in Hf, Hd. apply Forall_app in Hf as [Hf _]. apply NoDup_app in Hd as (Hd & Hdis & _). by split_and!.
Qed.

Lemma created_owned : exists l1p nodes y, owned l1p nodes root l1 T ht fs hf sf s1 p y /\
  (forall r, r ∈ l1p :: nodes -> is_Some (pt_nodes s1 !! r) /\ (p < r)%positive).
Proof.
  destruct (cr_process _ _ _ _ _ _ _ _ _ _ _ _ _ _ _ _ _ Hcr) as [l1p Hp].
  destruct (cr_tables _ _ _ _ _ _ _ _ _ _ _ _ _ _ _ _ _ Hcr _ l1p Hp eq_refl) as (Htab & [Hlo Hhi] & Hold).
  destruct Htab as (n1 & l & Hrep & Hv & Et & Hsu & Hhu & Hsh & Hus & Hpl & Hol).
  pose proof (st_room _ _ _ _ _ _ _ _ _ _ _ _ _ _ _ Hst) as [_ _ Hlen Hen HT _ _ _ _ _].
  exists l1p, l.*1. eexists. split.
  - split; [exact Hp|done|done|done|done|]. split; [exists n1, l; by split_and!|apply Hcr|done|].
    split; [|done]. destruct T; [|simpl; lia]. destruct Hen as [_ Hen]. simpl in Hen. unfold pages_of in Hlen. lia.
  - intros r [->|Hr]%elem_of_cons; [split; [by rewrite (tr_l1 _ _ _ _ Hrep)|exact Hlo]|]. split.
    + apply list_elem_of_fmap in Hr as ([q n] & -> & Hin). apply list_elem_of_split in Hin as (a & b & ->).
      pose proof (tr_seg _ _ _ _ Hrep) as (m & _ & _ & Hq & _)%nseg_app. by eexists.
    + rewrite Forall_forall in Hol. specialize (Hol r Hr). unfold p. lia.
Qed.
End Creation.

(** What happens to a process between its creation and its release leaves its
    space in place: the fields of the process that describe it, the nodes and
    the contents of its tables. *)
Record space_kept s1 s2 (p : ptr) (S : list Z) (y2 : process) : Prop := {
  sk_process : procs s2 !! p = Some y2;
  sk_fields : forall y1, procs s1 !! p = Some y1 -> page_table_level_2 y2 = page_table_level_2 y1 /\
    page_tables_lvl_1_list y2 = page_tables_lvl_1_list y1 /\ sscratch_frame y2 = sscratch_frame y1 /\
    proc_shared_hash_table y2 = proc_shared_hash_table y1;
  sk_nodes : forall r, is_Some (pt_nodes s1 !! r) -> (p < r)%positive -> pt_nodes s2 !! r = pt_nodes s1 !! r;
  sk_tables : agree S (frame_mem s1) (frame_mem s2)
}.

(** C7: what a process takes it gives back.  Let [start_virtual] create a
    process, and let anything happen that leaves its tables in place, the
    process having no shared page.  Then [free_process_memory] returns 0; the
    free list is the one before with every frame the creation had taken in
    front of it, each of them once, so that a process that is freed at once
    leaves a permutation of the free list it found; no other frame is written;
    the process, its pid and its queue links are gone, the pid can be taken
    again and the count of processes is one less. *)
Theorem created_process_freed s Q A name app sz pr arg root l1 T ht fs hf sf rest :
  startable s Q A name app sz pr root l1 T ht fs hf sf rest ->
  let p := next_block s in let taken := given root l1 T ht fs hf sf in
  taken ++ rest ≡ₚ root :: l1 :: T ++ ht :: fs ++ hf :: sf :: rest /\
  exists s1, start_virtual (Some name) sz pr arg s =
      (if gives_way s pr then scheduler (KStart p) s1 else Ok (KStart p, s1)) /\
    free_ok (frame_mem s1) rest /\ is_Some (procs s1 !! p) /\
    forall s2 y2 free, space_kept s1 s2 p (l1 :: T ++ [ht]) y2 -> free_ok (frame_mem s2) free ->
      (forall f, f ∈ taken -> f ∉ free) ->
      exists s3, free_process_memory (Some p) s2 = Ok (0, s3) /\
        free_ok (frame_mem s3) (reverse taken ++ free) /\
        (forall a, frame_of a ∉ taken -> word (frame_mem s3) a = word (frame_mem s2) a) /\
        procs s3 = delete p (procs s2) /\ pid_process_hash_table s3 = delete (pid y2) (pid_process_hash_table s2) /\
        links s3 = delete (inr p) (links s2) /\ process_id_list s3 = pid y2 :: process_id_list s2 /\
        nb_proc_running s3 = wrapS 32 (nb_proc_running s2 - 1) /\
        (forall r, (r < p)%positive -> pt_nodes s3 !! r = pt_nodes s2 !! r).
Proof.
  intros Hst p taken. split; [apply taken_perm|]. destruct (start_reaches _ _ _ _ _ _ _ arg _ _ _ _ _ _ _ _ Hst) as (s1 & Erun & Hcr).
  exists s1. split; [by rewrite Erun, (created_calls _ _ _ _ _ _ _ _ _ _ _ _ _ _ _ _ s1 _ Hst Hcr)|]. split; [apply Hcr|]. split.
  { destruct (cr_process _ _ _ _ _ _ _ _ _ _ _ _ _ _ _ _ _ Hcr) as [l1p Hp]. exact (mk_is_Some _ _ Hp). }
  intros s2 y2 free [K1 K2 K3 K4] Hok Hdis.
  destruct (created_owned Hst Hcr) as (l1p & nodes & y1 & Hown & Hnodes). destruct (taken_frames Hst) as (Hf & Hd & _).
  destruct (K2 _ (ow_process _ _ _ _ _ _ _ _ _ _ _ _ Hown)) as (E1 & E2 & E3 & E4).
  assert (Hown2 : owned l1p nodes root l1 T ht fs hf sf s2 p y2).
  { eapply owned_frame; [exact Hown|exact K1|done..| |exact K4]. intros r Hr. by apply K3; apply Hnodes. }
  destruct (free_memory_run l1p nodes root l1 T ht fs hf sf Hf Hd s2 p y2 free) as (m' & [Hg Hch] & Erun2); try done.
  { apply (rm_malloc _ _ _ _ _ _ _ _ _ _ _ (st_room _ _ _ _ _ _ _ _ _ _ _ _ _ _ _ Hst)). }
  eexists. split; [exact Erun2|]. split; [exact Hg|]. split; [exact Hch|]. do 5 (split; [reflexivity|]).
  intros r Hr. change (pt_nodes (freed l1p nodes s2 p y2 m')) with (delete_all (l1p :: nodes) (pt_nodes s2)).
  rewrite delete_all_lookup, decide_False; [done|]. intros Hin. destruct (Hnodes r Hin) as [_ Hlt]. unfold p in Hr. lia.
Qed.

End Release.
