(* ===== verification/WaitSpec.v ===== *)
(** * WaitSpec: a parent and its children

    The children of a process are a linked list of siblings; [waitpid] looks
    for one that has ended, takes it out of the list and frees it, or blocks
    until a child ends. *)

From S2P Require Import Prelude.
From S2P Require Import Queue.
From S2P Require Import FrameDist.
From S2P Require Import Pages.
From S2P Require Import Kernel.
From S2P Require Import KernelRules.
From S2P Require Import ProcessFree.
From S2P Require Import Scheduler.
From S2P Require Import SchedulerSpec.
From S2P Require Import ProcessApi.
From S2P Require Import ProcessApiSpec.
From S2P Require Import Isolation.
From S2P Require Import ProcessFreeSpec.
#[local] Open Scope Z_scope.

(** ** Lists of siblings *)

(** From [h], the siblings [l], the last of which is followed by [e]. *)
Fixpoint sibs (ps : gmap ptr process) (h : option ptr) (l : list ptr) (e : option ptr) : Prop :=
  match l with
  | [] => h = e
  | p :: l => h = Some p /\ exists x, ps !! p = Some x /\ sibs ps (next_sibling x) l e
  end.

(** The children of [x], first to last. *)
Record children (ps : gmap ptr process) (x : process) (l : list ptr) : Prop := {
  cd_list : sibs ps (children_head x) l None;
  cd_nodup : NoDup l;
  cd_tail : children_tail x = last l
}.

Section Siblings.
Implicit Types (ps : gmap ptr process) (l : list ptr).

Lemma sibs_app ps h l1 l2 e : sibs ps h (l1 ++ l2) e <-> exists m, sibs ps h l1 m /\ sibs ps m l2 e.
Proof. revert h. induction l1 as [|a l1 IH]; intros h; simpl; [naive_solver|]. setoid_rewrite IH. naive_solver. Qed.

Lemma sibs_frame ps ps' h l e : (forall p, p ∈ l -> next_sibling <$> ps' !! p = next_sibling <$> ps !! p) ->
  sibs ps h l e -> sibs ps' h l e.
Proof.
  revert h. induction l as [|p l IH]; intros h Hf; [done|]. intros (-> & x & Hx & Hl). split; [done|].
  specialize (Hf p) as Hp. rewrite Hx in Hp. destruct (ps' !! p) as [x'|] eqn:Hx'; [|by discriminate Hp; left].
  exists x'. split; [done|]. assert (next_sibling x' = next_sibling x) as -> by (specialize (Hp ltac:(by left)); by injection Hp).
  apply IH; [|done]. intros q Hq. apply Hf. by right.
Qed.

Lemma sibs_in ps h l e p : sibs ps h l e -> p ∈ l -> is_Some (ps !! p).
Proof. intros Hl (l1 & l2 & ->)%list_elem_of_split. apply sibs_app in Hl as (m & _ & _ & x & Hx & _). by exists x. Qed.

Lemma sibs_length ps h l e : NoDup l -> sibs ps h l e -> (length l <= base.size ps)%nat.
Proof.
  intros Hnd Hl. rewrite <- size_dom, <- (size_list_to_set (C := gset ptr)) by done.
  apply subseteq_size. intros p. rewrite elem_of_list_to_set, elem_of_dom. by eapply sibs_in.
Qed.

(** The last of some siblings is linked to something else. *)
Lemma sibs_relink ps h l b z e e' : b ∉ l -> ps !! b = Some z -> sibs ps h (l ++ [b]) e ->
  sibs (<[b := z <| next_sibling := e' |>]> ps) h (l ++ [b]) e'.
Proof.
  intros Hb Hz (m & Hl & -> & _)%sibs_app. apply sibs_app. exists (Some b). split.
  - eapply sibs_frame; [|exact Hl]. intros p Hp. rewrite lookup_insert_ne; [done|]. by intros <-.
  - split; [done|]. eexists. by split; [apply lookup_insert_eq|].
Qed.

Lemma children_frame ps ps' x x' l : (forall p, p ∈ l -> next_sibling <$> ps' !! p = next_sibling <$> ps !! p) ->
  children_head x' = children_head x -> children_tail x' = children_tail x -> children ps x l -> children ps' x' l.
Proof. intros Hf Eh Et [H1 H2 H3]. split; [rewrite Eh; by eapply sibs_frame|done|congruence]. Qed.

End Siblings.

Section Wait.
Context `{E : KEnv}.
Implicit Types (s : kstate) (ps : gmap ptr process).

(** ** The search among the children *)

Lemma find_child_none test l : forall fuel h b s,
  sibs (procs s) h l None -> (forall p x, p ∈ l -> procs s !! p = Some x -> test x = false) -> (length l < fuel)%nat ->
  exists b', find_child fuel test h b s = Ok ((None, b'), s).
Proof.
  induction l as [|p l IH]; intros fuel h b s Hs Ht Hf; (destruct fuel as [|fuel]; [lia|]); cbn [find_child length] in *.
  - rewrite Hs. by eexists.
  - destruct Hs as (-> & x & Hx & Hs). destruct (IH fuel (next_sibling x) (Some p) s Hs) as [b' E1]; [|lia|].
    { intros q y Hq. apply Ht. by right. }
    exists b'. run_step (eapply (wp_rd procs); [exact Hx|split; reflexivity]). rewrite (Ht p x); [done|by left|done].
Qed.

Definition before_child (pre : list ptr) (b : option ptr) : option ptr := match last pre with Some a => Some a | None => b end.

Lemma find_child_some test q y pre : forall fuel h b s e,
  sibs (procs s) h (pre ++ [q]) e -> procs s !! q = Some y -> test y = true ->
  (forall p x, p ∈ pre -> procs s !! p = Some x -> test x = false) -> (length pre < fuel)%nat ->
  find_child fuel test h b s = Ok ((Some q, before_child pre b), s).
Proof.
  induction pre as [|p pre IH]; intros fuel h b s e Hs Hy Hty Ht Hf; (destruct fuel as [|fuel]; [lia|]);
    cbn [find_child length app] in *.
  - destruct Hs as (-> & x & Hx & _). assert (x = y) as -> by congruence. run_step (eapply (wp_rd procs); [exact Hy|split; reflexivity]). by rewrite Hty.
  - destruct Hs as (-> & x & Hx & Hs). run_step (eapply (wp_rd procs); [exact Hx|split; reflexivity]).
    rewrite (Ht p x) by (done || by left). rewrite (IH fuel _ (Some p) s e); try done; [|intros r z Hr; apply Ht; by right|lia].
    unfold before_child. rewrite last_cons. by destruct (last pre).
Qed.

(** ** Taking a child out of the list *)

(** [y'] is [y] up to the links of the family. *)
Definition relinked (y y' : process) : Prop :=
  y' = y <| children_head := children_head y' |> <| children_tail := children_tail y' |> <| next_sibling := next_sibling y' |>.

Lemma relinked_refl y : relinked y y. Proof. by destruct y. Qed.

(** The child [q] is out of the list of [c]. *)
Record unlinked ps ps' (c : ptr) (pre : list ptr) (q : ptr) (post : list ptr) : Prop := {
  ul_children : exists x', ps' !! c = Some x' /\ children ps' x' (pre ++ post);
  ul_links : forall r, option_Forall2 relinked (ps !! r) (ps' !! r);
  ul_other : forall r, r <> c -> r ∉ pre -> ps' !! r = ps !! r;
  ul_heads : forall r z z', r <> c -> ps !! r = Some z -> ps' !! r = Some z' ->
    children_head z' = children_head z /\ children_tail z' = children_tail z
}.

Lemma relinked_one ps r z z' : ps !! r = Some z -> relinked z z' ->
  forall r', option_Forall2 relinked (ps !! r') (<[r := z']> ps !! r').
Proof.
  intros Hz Hr r'. rewrite lookup_insert. case_decide as Er; [subst; rewrite Hz; by constructor|].
  destruct (ps !! r'); constructor. apply relinked_refl.
Qed.

Lemma relinked_trans_fun ps1 ps2 ps3 : (forall r, option_Forall2 relinked (ps1 !! r) (ps2 !! r)) ->
  (forall r, option_Forall2 relinked (ps2 !! r) (ps3 !! r)) -> forall r, option_Forall2 relinked (ps1 !! r) (ps3 !! r).
Proof.
  intros H1 H2 r. specialize (H1 r). specialize (H2 r). destruct H1 as [y1 y2 E1|]; inversion H2 as [a y3 E2|]; subst; constructor.
  unfold relinked in *. rewrite E2, E1. done.
Qed.

Section Unlink.
Context (s : kstate) (c q : ptr) (x y : process) (pre post : list ptr).
Hypothesis Hx : procs s !! c = Some x.
Hypothesis Hy : procs s !! q = Some y.
Hypothesis Hpar : parent y = Some c.
Hypothesis Hch : children (procs s) x (pre ++ q :: post).
Hypothesis Hc : c ∉ pre ++ q :: post.

Lemma after_child : sibs (procs s) (next_sibling y) post None.
Proof. pose proof (cd_list _ _ _ Hch) as (m & _ & -> & y' & Hy' & Hl)%sibs_app. congruence. Qed.

Lemma not_in : c <> q /\ c ∉ pre /\ c ∉ post /\ q ∉ pre /\ q ∉ post /\ forall p, p ∈ pre -> p ∉ post.
Proof.
  pose proof (cd_nodup _ _ _ Hch) as (_ & Hd & [Hq _]%NoDup_cons)%NoDup_app. rewrite elem_of_app, elem_of_cons in Hc.
  split_and!; try tauto.
  - intros Hin. apply (Hd q Hin). by left.
  - intros p Hp Hin. apply (Hd p Hp). by right.
Qed.

(** The parent alone changes: [q] was its first child. *)
Lemma unlinked_head x' : pre = [] -> relinked x x' -> children_head x' = next_sibling y -> children_tail x' = last post ->
  unlinked (procs s) (<[c := x']> (procs s)) c pre q post.
Proof.
  intros Epre Hr Eh Et. destruct not_in as (H1 & H2 & H3 & H4 & H5 & _). pose proof after_child as Haft.
  pose proof (cd_nodup _ _ _ Hch) as (_ & _ & [_ Hnp]%NoDup_cons)%NoDup_app. rewrite Epre. split.
  - exists x'. split; [apply lookup_insert_eq|]. split; [|exact Hnp|done]. rewrite Eh.
    eapply sibs_frame; [|exact Haft]. intros p Hp. rewrite lookup_insert_ne; [done|]. by intros ->.
  - by eapply relinked_one.
  - intros r Hr1 _. by rewrite lookup_insert_ne.
  - intros r z z' Hr1 Hz. rewrite lookup_insert_ne, Hz by done. by intros [= ->].
Qed.

(** The sibling [b] before [q] changes, and the parent may. *)
Lemma unlinked_later pre' b z x' : pre = pre' ++ [b] -> procs s !! b = Some z -> relinked x x' ->
  children_head x' = children_head x -> children_tail x' = last (pre ++ post) ->
  unlinked (procs s) (<[c := x']> (<[b := z <| next_sibling := next_sibling y |>]> (procs s))) c pre q post.
Proof.
  intros Epre Hz Hr Eh Et. destruct not_in as (H1 & H2 & H3 & H4 & H5 & Hd). pose proof after_child as Haft.
  pose proof (cd_nodup _ _ _ Hch) as (Hnd & _ & [_ Hnp]%NoDup_cons)%NoDup_app. pose proof (cd_list _ _ _ Hch) as Hlist.
  rewrite Epre in Hlist, Hnd, Hd, H2, H4, Et |- *. rewrite not_elem_of_app, list_elem_of_singleton in H2. destruct H2 as [H2 Hcb].
  pose proof Hnd as (_ & Hb & _)%NoDup_app. assert (Hbp : b ∉ pre') by (intros Hin; apply (Hb b Hin); by left).
  split.
  - exists x'. split; [apply lookup_insert_eq|]. split; [|apply NoDup_app; by split_and!|done]. rewrite Eh. apply sibs_app.
    exists (next_sibling y). split.
    + apply sibs_app in Hlist as (m & Hl & _).
      eapply sibs_frame; [|eapply (sibs_relink _ _ _ _ z); [exact Hbp|exact Hz|exact Hl]].
      intros p Hp. rewrite lookup_insert_ne; [done|]. intros <-. rewrite elem_of_app, list_elem_of_singleton in Hp. tauto.
    + eapply sibs_frame; [|exact Haft]. intros p Hp. rewrite !lookup_insert_ne; [done| |].
      * intros <-. apply (Hd b); [|done]. apply elem_of_app. right. by left.
      * by intros <-.
  - eapply relinked_trans_fun; [eapply relinked_one; [exact Hz|]|eapply relinked_one; [|exact Hr]].
    + by destruct z.
    + by rewrite lookup_insert_ne by congruence.
  - intros r Hr1 Hr2. rewrite !lookup_insert_ne; [done| |done]. intros <-. apply Hr2, elem_of_app. right. by left.
  - intros r z0 z' Hr1 Hz0. rewrite lookup_insert_ne by done. rewrite lookup_insert. case_decide as Er.
    + subst. rewrite Hz in Hz0. intros [= <-]. injection Hz0 as <-. done.
    + rewrite Hz0. by intros [= ->].
Qed.

Lemma unlink_enter b : before_child pre (Some q) = Some b ->
  free_process_arg_and_fix_tree_link (Some q) (Some b) s =
    (_ ← (if bool_decide (pre = []) && bool_decide (post = []) then
            _ ← pset (Some c) children_tail None; pset (Some c) children_head None
          else if bool_decide (pre = []) then
            next ← pget (Some q) next_sibling; pset (Some c) children_head next
          else if bool_decide (post = []) then
            _ ← pset (Some b) next_sibling None; pset (Some c) children_tail (Some b)
          else next ← pget (Some q) next_sibling; pset (Some b) next_sibling next);
     free_child_zombie_process (Some q)) s.
Proof.
  intros Eb. destruct not_in as (H1 & H2 & H3 & H4 & H5 & Hd). destruct Hch as [Hl Hnd Ht]. rewrite last_app_cons in Ht.
  assert (Hh : exists h, children_head x = Some h /\ (Some q = Some h <-> pre = [])).
  { destruct pre as [|h pre']; [destruct Hl as (-> & _); by exists q|destruct Hl as (-> & _); exists h; split; [done|]].
    split; [|done]. intros [= ->]. destruct H4. by left. }
  destruct Hh as (h & Eh & Hhq). assert (Htl : exists t, children_tail x = Some t /\ (Some q = Some t <-> post = [])).
  { rewrite Ht, last_cons. destruct (last post) as [t|] eqn:El.
    - exists t. split; [done|]. apply last_Some_elem_of in El. split; [intros [= ->]; done|intros ->; by apply elem_of_nil in El].
    - exists q. split; [done|]. apply last_None in El. by split. }
  destruct Htl as (t & Et & Htq). unfold free_process_arg_and_fix_tree_link.
  run_step (eapply wp_pget; [exact Hy|rewrite Hpar; split; reflexivity]).
  run_step (eapply wp_pget; [exact Hx|rewrite Eh; split; reflexivity]).
  run_step (eapply wp_pget; [exact Hx|rewrite Et; split; reflexivity]).
  rewrite (bool_decide_ext _ _ Hhq), (bool_decide_ext _ _ Htq). case_bool_decide as Ep; [|done].
  by destruct (proj2 Hhq Ep).
Qed.

Lemma unlink_run : exists ps, unlinked (procs s) ps c pre q post /\
  free_process_arg_and_fix_tree_link (Some q) (before_child pre (Some q)) s =
    free_child_zombie_process (Some q) (s <| procs := ps |>).
Proof.
  destruct not_in as (H1 & H2 & H3 & H4 & H5 & Hd). pose proof after_child as Ha.
  pose proof Hch as [Hl Hnd Ht]. rewrite last_app_cons in Ht.
  assert (Hbef : exists b, before_child pre (Some q) = Some b) by (unfold before_child; destruct (last pre); by eexists).
  destruct Hbef as [b Eb]. rewrite Eb, (unlink_enter b Eb).
  assert (Hend : post <> [] -> last post = children_tail x).
  { intros Hne. rewrite Ht, last_cons. destruct (last post) eqn:El; [done|]. by apply last_None in El. }
  destruct (decide (pre = [])) as [Ep|Ep]; rewrite ?(bool_decide_eq_true_2 (pre = [])), ?(bool_decide_eq_false_2 (pre = [])) by done;
    cbn [andb].
  - destruct (decide (post = [])) as [Eo|Eo]; rewrite ?(bool_decide_eq_true_2 (post = [])), ?(bool_decide_eq_false_2 (post = [])) by done.
    + set (x' := x <| children_tail := None |> <| children_head := None |>).
      exists (<[c := x']> (procs s)). split.
      * apply unlinked_head; try done; [|by rewrite Eo]. rewrite Eo in Ha. by rewrite Ha.
      * run_step (apply wp_bind; eapply wp_pset; [exact Hx|eapply wp_pset; [apply lookup_insert_eq|split; reflexivity]]).
        by rewrite procs_twice.
    + exists (<[c := x <| children_head := next_sibling y |>]> (procs s)). split.
      * apply unlinked_head; try done. by rewrite Hend.
      * assert (Eh : children_head x = Some q) by (rewrite Ep in Hl; apply Hl).
        run_step (apply wp_bind; eapply wp_pget; [exact Hy|eapply wp_pset; [exact Hx|split; reflexivity]]). done.
  - assert (exists pre', pre = pre' ++ [b]) as [pre' Epre].
    { destruct (list_snoc_inv pre) as [?|(pre' & b' & ->)]; [done|]. exists pre'. unfold before_child in Eb. rewrite last_snoc in Eb. congruence. }
    assert (Hbin : b ∈ pre) by (rewrite Epre; apply elem_of_app; right; by left).
    destruct (sibs_in _ _ _ _ b Hl) as [z Hz]; [apply elem_of_app; by left|].
    assert (Hbc : b <> c) by congruence. assert (Hbq : b <> q) by congruence.
    destruct (decide (post = [])) as [Eo|Eo]; rewrite ?(bool_decide_eq_true_2 (post = [])), ?(bool_decide_eq_false_2 (post = [])) by done.
    + rewrite Eo in Ha. simpl in Ha.
      exists (<[c := x <| children_tail := Some b |>]> (<[b := z <| next_sibling := next_sibling y |>]> (procs s))). split.
      * eapply unlinked_later; try done. simpl. by rewrite Eo, app_nil_r, Epre, last_snoc.
      * rewrite Ha. run_step (apply wp_bind; eapply wp_pset; [exact Hz|eapply wp_pset;
          [simpl; rewrite lookup_insert_ne by done; exact Hx|split; reflexivity]]). done.
    + exists (<[b := z <| next_sibling := next_sibling y |>]> (procs s)). split.
      * rewrite <- (insert_id (<[b := z <| next_sibling := next_sibling y |>]> (procs s)) c x) by (by rewrite lookup_insert_ne).
        eapply unlinked_later; try done; [apply relinked_refl|]. rewrite last_app, Hend, Ht, last_cons by done.
        destruct (last post) eqn:El; [done|]. by apply last_None in El.
      * run_step (apply wp_bind; eapply wp_pget; [exact Hy|eapply wp_pset; [exact Hz|split; reflexivity]]). done.
Qed.
End Unlink.

(** ** The call *)

(** The child [waitpid pid_] stops at. *)
Definition picks (pid_ : Z) (y : process) : bool :=
  if pid_ <? 0 then bool_decide (state y = ZOMBIE) else pid y =? pid_.

Section Call.
Context (s : kstate) (c : ptr) (x : process) (pid_ : Z).
Hypothesis Hcur : pid_process_hash_table s !! current_running_process_pid s = Some c.
Hypothesis Hx : procs s !! c = Some x.

Lemma wait_fuel l h e : NoDup l -> sibs (procs s) h l e -> (length l < walk_fuel procs s)%nat.
Proof. intros Hnd Hl. pose proof (sibs_length _ _ _ _ Hnd Hl). unfold walk_fuel. lia. Qed.

(** The current process is read with its children. *)
Lemma waitpid_enter h t : children_head x = Some h -> children_tail x = Some t ->
  waitpid pid_ true s =
    (if pid_ <? 0 then waitpid_any true
     else fuel ← gets (walk_fuel procs); '(temp, before) ← find_child fuel (picks pid_) (Some h) (Some h);
          match temp, before with
          | Some child, Some before => waitpid_child child before true
          | _, _ => mret (KRet (-1) [])
          end) s.
Proof.
  intros Eh Et. unfold waitpid, get_current_process, getpid, get_process_struct_of_pid.
  run_step (apply wp_get_current; rewrite Hcur; split; reflexivity).
  run_step (eapply wp_pget; [exact Hx|rewrite Eh; split; reflexivity]).
  run_step (eapply wp_pget; [exact Hx|rewrite Et; split; reflexivity]).
  unfold picks. by destruct (pid_ <? 0).
Qed.

Lemma waitpid_any_enter : pid_ < 0 ->
  waitpid_any true s =
    ('(temp, before) ← find_child (walk_fuel procs s) (picks pid_) (children_head x) (children_head x);
     match temp with
     | Some _ => waitpid_finish temp before true
     | None => _ ← pset (Some c) state BLOCKEDWAITCHILD; scheduler (KWaitAny true)
     end) s.
Proof.
  intros Hp. unfold waitpid_any, picks.
  run_step (apply wp_get_current; rewrite Hcur; split; reflexivity).
  run_step (eapply wp_pget; [exact Hx|split; reflexivity]).
  destruct (Z.ltb_spec pid_ 0); [done|lia].
Qed.

Lemma children_ends l : children (procs s) x l -> l <> [] -> exists h t, children_head x = Some h /\ children_tail x = Some t.
Proof.
  intros [Hl _ Ht] Hne. destruct l as [|h l]; [done|]. destruct Hl as (Eh & _). exists h. rewrite Ht, last_cons.
  destruct (last l) as [t|]; eauto.
Qed.

(** [q] is the first child that is picked. *)
Section Picked.
Context (pre : list ptr) (q : ptr) (post : list ptr) (y : process).
Hypothesis Hch : children (procs s) x (pre ++ q :: post).
Hypothesis Hy : procs s !! q = Some y.
Hypothesis Hpicks : picks pid_ y = true.
Hypothesis Hpre : forall p z, p ∈ pre -> procs s !! p = Some z -> picks pid_ z = false.

Lemma children_find : find_child (walk_fuel procs s) (picks pid_) (children_head x) (children_head x) s =
  Ok ((Some q, before_child pre (Some q)), s).
Proof.
  pose proof Hch as [Hl Hnd _].
  assert (Hf : (length pre < walk_fuel procs s)%nat).
  { pose proof (wait_fuel _ _ _ Hnd Hl) as Hlt. rewrite length_app in Hlt. lia. }
  rewrite (cons_middle q pre post), app_assoc in Hl. apply sibs_app in Hl as (e & Hl & _).
  pose proof (find_child_some (picks pid_) q y pre _ _ (children_head x) s e Hl Hy Hpicks Hpre Hf) as ->.
  unfold before_child. destruct pre as [|a pre']; [by destruct Hl as (-> & _)|]. rewrite last_cons. by destruct (last pre').
Qed.

Lemma waitpid_one : 0 <= pid_ ->
  exists b, Some b = before_child pre (Some q) /\ waitpid pid_ true s = waitpid_child q b true s.
Proof.
  intros Hpos. destruct (children_ends _ Hch) as (h & t & Eh & Et); [by destruct pre|].
  assert (Hsome : exists b, before_child pre (Some q) = Some b) by (unfold before_child; destruct (last pre); eauto).
  destruct Hsome as [b Eb]. exists b. split; [done|]. rewrite (waitpid_enter h t Eh Et). destruct (Z.ltb_spec pid_ 0); [lia|].
  run_step (apply wp_gets; split; reflexivity). rewrite <- Eh. eapply eq_trans; [eapply run_bind, children_find|].
  cbn beta iota. by rewrite Eb.
Qed.

Lemma waitpid_found : state y = ZOMBIE -> waitpid pid_ true s = waitpid_finish (Some q) (before_child pre (Some q)) true s.
Proof.
  intros Hz. destruct (Z.ltb_spec pid_ 0) as [Hneg|Hpos].
  - destruct (children_ends _ Hch) as (h & t & Eh & Et); [by destruct pre|]. rewrite (waitpid_enter h t Eh Et).
    destruct (Z.ltb_spec pid_ 0); [|lia]. rewrite (waitpid_any_enter Hneg). eapply eq_trans; [eapply run_bind, children_find|]. done.
  - destruct (waitpid_one Hpos) as (b & <- & ->). unfold waitpid_child.
    run_step (eapply wp_pget; [exact Hy|rewrite Hz; split; reflexivity]). done.
Qed.

Lemma waitpid_waits_one : 0 <= pid_ -> state y <> ZOMBIE ->
  exists b, Some b = before_child pre (Some q) /\
    waitpid pid_ true s = scheduler (KWaitPid q b true) (s <| procs ::= <[c := x <| state := BLOCKEDWAITCHILD |>]> |>).
Proof.
  intros Hpos Hz. destruct (waitpid_one Hpos) as (b & Eb & ->). exists b. split; [done|]. unfold waitpid_child.
  run_step (eapply wp_pget; [exact Hy|split; reflexivity]). rewrite bool_decide_eq_false_2 by done.
  run_step (apply wp_get_current; rewrite Hcur; split; reflexivity). run_step (eapply wp_pset; [exact Hx|split; reflexivity]). done.
Qed.
End Picked.

(** No child is picked. *)
Lemma waitpid_refuses l : children (procs s) x l -> (forall p z, p ∈ l -> procs s !! p = Some z -> picks pid_ z = false) ->
  l = [] \/ 0 <= pid_ -> waitpid pid_ true s = Ok (KRet (-1) [], s).
Proof.
  intros Hch Hno Hor. pose proof Hch as [Hl Hnd Ht]. destruct (decide (l = [])) as [->|Hne].
  - unfold waitpid. run_step (apply wp_get_current; rewrite Hcur; split; reflexivity).
    run_step (eapply wp_pget; [exact Hx|rewrite Hl; split; reflexivity]).
    run_step (eapply wp_pget; [exact Hx|rewrite Ht; split; reflexivity]). done.
  - destruct (children_ends _ Hch Hne) as (h & t & Eh & Et). rewrite (waitpid_enter h t Eh Et).
    destruct Hor as [?|Hpos]; [done|]. destruct (Z.ltb_spec pid_ 0); [lia|].
    run_step (apply wp_gets; split; reflexivity). rewrite <- Eh.
    destruct (find_child_none (picks pid_) l (walk_fuel procs s) (children_head x) (children_head x) s Hl Hno) as [b Efind].
    { by eapply wait_fuel. }
    eapply eq_trans; [eapply run_bind; exact Efind|]. done.
Qed.

(** The caller waits. *)
Lemma waitpid_waits_any l : children (procs s) x l -> l <> [] -> pid_ < 0 ->
  (forall p z, p ∈ l -> procs s !! p = Some z -> state z <> ZOMBIE) ->
  waitpid pid_ true s = scheduler (KWaitAny true) (s <| procs ::= <[c := x <| state := BLOCKEDWAITCHILD |>]> |>).
Proof.
  intros Hch Hne Hneg Hno. pose proof Hch as [Hl Hnd Ht]. destruct (children_ends _ Hch Hne) as (h & t & Eh & Et).
  rewrite (waitpid_enter h t Eh Et). destruct (Z.ltb_spec pid_ 0) as [_|]; [|lia]. rewrite (waitpid_any_enter Hneg).
  destruct (find_child_none (picks pid_) l (walk_fuel procs s) (children_head x) (children_head x) s Hl) as [b Efind].
  - intros p z Hp Hz. unfold picks. destruct (Z.ltb_spec pid_ 0); [|lia]. apply bool_decide_eq_false_2. by eapply Hno.
  - by eapply wait_fuel.
  - eapply eq_trans; [eapply run_bind; exact Efind|]. cbn beta iota. run_step (eapply wp_pset; [exact Hx|split; reflexivity]). done.
Qed.

End Call.

(** The child is read, taken out of the list and freed. *)
Lemma finish_reaps s c x pre q post y l1p nodes root l1 T ht fs hf sf free :
  procs s !! c = Some x -> children (procs s) x (pre ++ q :: post) -> c ∉ pre ++ q :: post ->
  procs s !! q = Some y -> parent y = Some c -> state y = ZOMBIE -> pid y <> current_running_process_pid s ->
  let given := given root l1 T ht fs hf sf in
  Forall is_frame given -> NoDup given -> owned l1p nodes root l1 T ht fs hf sf s q y -> (forall b, malloc_ok b = true) ->
  releasable free given -> free_ok (frame_mem s) free ->
  exists ps m', unlinked (procs s) ps c pre q post /\ gave_back free given (frame_mem s) m' /\
    waitpid_finish (Some q) (before_child pre (Some q)) true s =
      Ok (KRet (pid y) [return_value y], freed l1p nodes (s <| procs := ps |>) q y m').
Proof.
  intros Hx Hch Hc Hy Hpar Hz Hid g Hf Hd Hown Hm Hr Hok.
  destruct (unlink_run s c q x y pre post Hx Hy Hpar Hch Hc) as (ps & Hul & Erun).
  destruct (not_in s c q x pre post Hch Hc) as (Hcq & _ & _ & Hqp & _).
  assert (Hy' : ps !! q = Some y) by (by rewrite (ul_other _ _ _ _ _ _ Hul)).
  assert (Hown' : owned l1p nodes root l1 T ht fs hf sf (s <| procs := ps |>) q y).
  { eapply owned_frame; [exact Hown|exact Hy'|done..|]. by intros t j _ _. }
  destruct (free_memory_run l1p nodes root l1 T ht fs hf sf Hf Hd (s <| procs := ps |>) q y free Hm Hown' Hr Hok) as (m' & Hg & Efree).
  exists ps, m'. split; [done|]. split; [done|]. unfold waitpid_finish.
  run_step (eapply (wp_rd procs); [exact Hy|split; reflexivity]). eapply eq_trans; [eapply run_bind|].
  - rewrite Erun. unfold free_child_zombie_process. run_step (eapply wp_pget; [exact Hy'|rewrite Hz; split; reflexivity]). cbn.
    run_step (eapply wp_pget; [exact Hy'|split; reflexivity]). run_step (apply wp_gets; split; reflexivity). simpl.
    destruct (Z.eqb_spec (pid y) (current_running_process_pid s)); [done|]. exact Efree.
  - done.
Qed.

Lemma relinked_fields y y' : relinked y y' -> pid y' = pid y /\ state y' = state y /\ prio y' = prio y /\ parent y' = parent y.
Proof. by intros ->. Qed.

(** C8: [waitpid] reaps a child.  Among the children of the caller let [q] be
    the first that [waitpid pid_] stops at, and let it be a zombie that owns an
    address space without shared pages.  Then the call returns the pid of [q]
    and the value it exited with; the list of the children is the one before
    without [q], in its order, whether [q] was the first, the last, the only
    one or one in between; no process changes but in its links, [q] and its pid
    are gone, and every frame of its space is back in the free list, once, the
    contents of the other frames being kept. *)
Theorem waitpid_reaps s c x pid_ pre q post y l1p nodes root l1 T ht fs hf sf free :
  pid_process_hash_table s !! current_running_process_pid s = Some c -> procs s !! c = Some x ->
  children (procs s) x (pre ++ q :: post) -> c ∉ pre ++ q :: post ->
  procs s !! q = Some y -> parent y = Some c -> state y = ZOMBIE -> pid y <> current_running_process_pid s ->
  picks pid_ y = true -> (forall p z, p ∈ pre -> procs s !! p = Some z -> picks pid_ z = false) ->
  (forall b, malloc_ok b = true) -> let given := given root l1 T ht fs hf sf in
  owned l1p nodes root l1 T ht fs hf sf s q y -> releasable free given -> free_ok (frame_mem s) free ->
  exists s' x', waitpid pid_ true s = Ok (KRet (pid y) [return_value y], s') /\
    procs s' !! c = Some x' /\ children (procs s') x' (pre ++ post) /\
    procs s' !! q = None /\ (forall r, r <> q -> option_Forall2 relinked (procs s !! r) (procs s' !! r)) /\
    pid_process_hash_table s' = delete (pid y) (pid_process_hash_table s) /\
    free_ok (frame_mem s') (reverse given ++ free) /\
    (forall a, frame_of a ∉ given -> word (frame_mem s') a = word (frame_mem s) a) /\
    current_running_process_pid s' = current_running_process_pid s /\
    process_id_list s' = pid y :: process_id_list s.
Proof.
  intros Hcur Hx Hch Hc Hy Hpar Hz Hid Hpk Hpre Hm g Hown Hr Hok. pose proof (rl_frames _ _ Hr) as Hf. pose proof (rl_nodup _ _ Hr) as Hd.
  destruct (finish_reaps s c x pre q post y l1p nodes root l1 T ht fs hf sf free) as (ps & m' & Hul & [Hg Hk] & Erun); try done.
  destruct Hul as [(x' & Hx' & Hch') Hlinks _ _]. pose proof (not_in s c q x pre post Hch Hc) as (Hcq & _ & _ & Hqp & Hqo & _).
  eexists _, x'. split; [rewrite (waitpid_found s c x pid_ Hcur Hx pre q post y) by done; exact Erun|].
  change (procs (freed _ _ _ _ _ _)) with (delete q ps). split; [by rewrite lookup_delete_ne|]. split; [|split; [|split]].
  - eapply children_frame; [|done|done|exact Hch']. intros p Hp. rewrite lookup_delete_ne; [done|]. intros <-.
    apply elem_of_app in Hp. tauto.
  - apply lookup_delete_eq.
  - intros r Hrq. by rewrite lookup_delete_ne.
  - by split_and!.
Qed.

(** C28: [waitpid] when no child can be reaped.  With no children, or with the
    pid of no child, the call returns -1 and changes nothing; with any pid
    accepted and no zombie among the children, and with the pid of a child
    that has not ended, the caller becomes [BLOCKEDWAITCHILD] and the
    scheduler runs, to come back to the same search or to the same child. *)
Theorem waitpid_outcomes s c x l pid_ :
  pid_process_hash_table s !! current_running_process_pid s = Some c -> procs s !! c = Some x -> children (procs s) x l ->
  let waiting := s <| procs ::= <[c := x <| state := BLOCKEDWAITCHILD |>]> |> in
  (l = [] \/ 0 <= pid_ -> (forall p z, p ∈ l -> procs s !! p = Some z -> picks pid_ z = false) ->
    waitpid pid_ true s = Ok (KRet (-1) [], s)) /\
  (l <> [] -> pid_ < 0 -> (forall p z, p ∈ l -> procs s !! p = Some z -> state z <> ZOMBIE) ->
    waitpid pid_ true s = scheduler (KWaitAny true) waiting) /\
  (forall pre q post y, 0 <= pid_ -> l = pre ++ q :: post -> procs s !! q = Some y -> pid y = pid_ -> state y <> ZOMBIE ->
    (forall p z, p ∈ pre -> procs s !! p = Some z -> pid z <> pid_) ->
    exists b, Some b = before_child pre (Some q) /\ waitpid pid_ true s = scheduler (KWaitPid q b true) waiting).
Proof.
  intros Hcur Hx Hch w. split; [|split].
  - intros Hor Hno. by eapply waitpid_refuses.
  - intros Hne Hneg Hno. by eapply waitpid_waits_any.
  - intros pre q post y Hpos -> Hy Ep Hz Hpre. assert (Hpk : forall z, picks pid_ z = (pid z =? pid_)).
    { intros z. unfold picks. by destruct (Z.ltb_spec pid_ 0); [lia|]. }
    eapply waitpid_waits_one; try done; [rewrite Hpk; lia|]. intros p z Hp Hzz. rewrite Hpk. specialize (Hpre p z Hp Hzz). lia.
Qed.

End Wait.
