(* ===== verification/ExitSpec.v ===== *)
(** * ExitSpec: the children of a process that ends

    [exit] walks the children of the process: it frees the zombies and leaves
    the others.  The theorem on [exit] holds for a process with any children,
    the zombies among them having none. *)

From S2P Require Import Prelude.
From S2P Require Import Queue.
From S2P Require Import FrameDist.
From S2P Require Import Pages.
From S2P Require Import Kernel.
From S2P Require Import KernelRules.
From S2P Require Import ProcessMemorySpec.
From S2P Require Import ProcessFree.
From S2P Require Import Scheduler.
From S2P Require Import SchedulerSpec.
From S2P Require Import ProcessApi.
From S2P Require Import ProcessApiSpec.
From S2P Require Import Isolation.
From S2P Require Import ProcessFreeSpec.
From S2P Require Import WaitSpec.
#[local] Open Scope Z_scope.

(** The address space of a process, as its creation lays it out: the nodes of
    its tables, the tables and the frames. *)
Record space : Type := mk_space {
  sp_list : ptr; sp_nodes : list ptr; sp_root : Z; sp_l1 : Z; sp_tables : list Z; sp_heap_table : Z;
  sp_frames : list Z; sp_heap : Z; sp_trap : Z
}.
Definition space_frames (a : space) : list Z :=
  given (sp_root a) (sp_l1 a) (sp_tables a) (sp_heap_table a) (sp_frames a) (sp_heap a) (sp_trap a).
Definition space_blocks (a : space) : list ptr := sp_list a :: sp_nodes a.

(** The children of a process in order, the zombies with their spaces. *)
Definition child : Type := ptr * option space.
Definition spaces (l : list child) : list space := omap snd l.
Definition gone (l : list child) : list ptr := omap (fun i => (fun _ => i.1) <$> i.2) l.
Definition gone_frames (l : list child) : list Z := mjoin (space_frames <$> spaces l).
Definition gone_blocks (l : list child) : list ptr := mjoin (space_blocks <$> spaces l).

Section Exit.
Context `{E : KEnv}.
Implicit Types (s : kstate) (l : list child).

Definition owns s (p : ptr) (y : process) (a : space) : Prop :=
  owned (sp_list a) (sp_nodes a) (sp_root a) (sp_l1 a) (sp_tables a) (sp_heap_table a) (sp_frames a) (sp_heap a) (sp_trap a) s p y.

(** A child is alive, or a zombie without children that owns its space. *)
Definition child_ok s (i : child) : Prop := exists y, procs s !! i.1 = Some y /\
  match i.2 with
  | None => state y <> ZOMBIE
  | Some a => state y = ZOMBIE /\ children_head y = None /\ children_tail y = None /\
      pid y <> current_running_process_pid s /\ owns s i.1 y a
  end.

(** ** Freeing one zombie *)

Definition without s (q : ptr) (y : process) (a : space) m : kstate := freed (sp_list a) (sp_nodes a) s q y m.

Lemma free_zombie s q y a free :
  (forall b, malloc_ok b = true) -> owns s q y a -> state y = ZOMBIE -> pid y <> current_running_process_pid s ->
  releasable free (space_frames a) -> free_ok (frame_mem s) free ->
  exists m', gave_back free (space_frames a) (frame_mem s) m' /\ free_child_zombie_process (Some q) s = Ok (0, without s q y a m').
Proof.
  intros Hm Hown Hz Hid Hr Hok. pose proof (ow_process _ _ _ _ _ _ _ _ _ _ _ _ Hown) as Hy.
  destruct (free_memory_run _ _ _ _ _ _ _ _ _ (rl_frames _ _ Hr) (rl_nodup _ _ Hr) s q y free Hm Hown Hr Hok) as (m' & Hg & Efree).
  exists m'. split; [done|]. unfold free_child_zombie_process. run_step (eapply wp_pget; [exact Hy|rewrite Hz; split; reflexivity]). cbn.
  run_step (eapply wp_pget; [exact Hy|split; reflexivity]). run_step (apply wp_gets; split; reflexivity). simpl.
  destruct (Z.eqb_spec (pid y) (current_running_process_pid s)); [done|]. exact Efree.
Qed.

Lemma owns_blocks s p y a : owns s p y a -> NoDup (space_blocks a).
Proof.
  intros [_ _ _ _ _ [(n1 & l & [_ _ _ Hnd] & El & _) _ _ _]]. unfold space_blocks. by rewrite <- El.
Qed.

(** The scheduler does not see it. *)
Lemma without_inv s Q q y a m : sched_inv s Q -> procs s !! q = Some y -> ~ queued Q q -> sched_inv (without s q y a m) Q.
Proof.
  intros [H1 H2 H3 H4 H5 H6 H7] Hy Hnq. split; simpl.
  - by apply rep_delete_link.
  - intros p [z Hz]. rewrite lookup_delete in Hz. case_decide as Ep; [done|]. unfold linked. simpl.
    rewrite lookup_delete_ne by congruence. by apply H2; exists z.
  - intros p Hp. rewrite lookup_delete_ne by (by intros ->). by apply H3.
  - intros id p. rewrite !lookup_delete. case_decide as Ei; [|case_decide as Ep].
    + split; [done|]. intros (x & Hx & Ex). case_decide as Ep; [done|]. destruct Ep.
      assert (Hq : pid_process_hash_table s !! id = Some q) by (apply H4; by exists y).
      assert (Hp : pid_process_hash_table s !! id = Some p) by (apply H4; by exists x). congruence.
    + split; [|by intros (x & ? & _)]. intros Hp. subst p. apply H4 in Hp as (x & Hx & Ex). destruct Ei. congruence.
    + apply H4.
  - intros p x Hx. rewrite lookup_delete in Hx. case_decide; [done|]. by eapply H5.
  - intros p x Hx. rewrite lookup_delete in Hx. case_decide; [done|]. by eapply H6.
  - intros L p x HL Hp Hx. rewrite lookup_delete in Hx. case_decide; [done|]. by eapply H7.
Qed.

(** Another space is not touched. *)
Lemma gave_back_agree free gs m m' ts : gave_back free gs m m' -> Forall is_frame ts -> (forall t, t ∈ ts -> t ∉ gs) -> agree ts m m'.
Proof.
  intros [_ Hch] Hf Hd t j Ht Hj. rewrite Forall_forall in Hf. apply Hch. rewrite pte_at_frame by (auto || lia). auto.
Qed.

Lemma without_owns s q y a m p z b free :
  owns s p z b -> p <> q -> gave_back free (space_frames a) (frame_mem s) m ->
  (forall r, r ∈ space_blocks b -> r ∉ space_blocks a) -> Forall is_frame (space_frames b) ->
  (forall t, t ∈ space_frames b -> t ∉ space_frames a) -> owns (without s q y a m) p z b.
Proof.
  intros Hown Hne Hg Hb Hf Hd. eapply owned_frame; [exact Hown|..]; try done.
  - simpl. rewrite lookup_delete_ne by done. exact (ow_process _ _ _ _ _ _ _ _ _ _ _ _ Hown).
  - intros r Hr. change (pt_nodes (without s q y a m)) with (delete_all (space_blocks a) (pt_nodes s)).
    rewrite delete_all_lookup, decide_False; [done|]. by apply Hb.
  - assert (Hin : forall t, t ∈ sp_l1 b :: sp_tables b ++ [sp_heap_table b] -> t ∈ space_frames b).
    { intros t. unfold space_frames, given. rewrite !elem_of_cons, !elem_of_app, !list_elem_of_singleton, !elem_of_cons. tauto. }
    eapply gave_back_agree; [exact Hg| |].
    + apply Forall_forall. intros t Ht. rewrite Forall_forall in Hf. auto.
    + intros t Ht. auto.
Qed.

(** ** The walk over the children *)

(** The zombies of [l] are gone from [s], the state being [s']. *)
Record orphaned (free : list Z) s l s' : Prop := {
  op_frame : exists n ns m tb b ids lk, s' = s <| nb_proc_running := n |> <| pt_nodes := ns |> <| frame_mem := m |>
    <| pid_process_hash_table := tb |> <| procs := delete_all (gone l) (procs s) |> <| next_block := b |>
    <| process_id_list := ids |> <| links := lk |>;
  op_memory : gave_back free (gone_frames l) (frame_mem s) (frame_mem s');
  op_pids : process_id_list s' = reverse (pfield s pid <$> gone l) ++ process_id_list s;
  op_sched : forall Q, sched_inv s Q -> (forall p, p ∈ gone l -> ~ queued Q p) -> sched_inv s' Q
}.

Lemma gone_in l p : p ∈ gone l -> p ∈ l.*1.
Proof.
  unfold gone. rewrite list_elem_of_omap. intros ([q [a|]] & Hin & [= <-]). apply list_elem_of_fmap. by exists (q, Some a).
Qed.

Lemma orphaned_nil free s : free_ok (frame_mem s) free -> orphaned free s [] s.
Proof.
  intros Hok. split; [|by apply gave_back_nil|done|done]. exists (nb_proc_running s), (pt_nodes s), (frame_mem s),
    (pid_process_hash_table s), (next_block s), (process_id_list s), (links s). by destruct s.
Qed.

Lemma orphaned_alive free s q l s' : orphaned free s l s' -> orphaned free s ((q, None) :: l) s'.
Proof. by intros [H1 H2 H3 H4]. Qed.

Lemma orphaned_zombie free s q y a m l s' :
  procs s !! q = Some y -> q ∉ l.*1 -> gave_back free (space_frames a) (frame_mem s) m ->
  orphaned (reverse (space_frames a) ++ free) (without s q y a m) l s' -> orphaned free s ((q, Some a) :: l) s'.
Proof.
  intros Hy Hq Hg [(n & ns & m' & tb & b & ids & lk & Es) H2 H3 H4].
  assert (Hgone : q ∉ gone l) by (by intros Hin%gone_in). split.
  - exists n, ns, m', tb, b, ids, lk. rewrite Es. change (gone ((q, Some a) :: l)) with (q :: gone l).
    cbn [delete_all foldr]. fold (delete_all (gone l) (procs s)). rewrite delete_all_comm. done.
  - eapply gave_back_app; [exact Hg|exact H2].
  - rewrite H3. change (gone ((q, Some a) :: l)) with (q :: gone l). cbn [fmap list_fmap].
    rewrite reverse_cons, <- app_assoc. rewrite (pfield_eq _ _ _ _ Hy). f_equal. f_equal. apply list_fmap_ext.
    intros i p Hp. unfold pfield. simpl. rewrite lookup_delete_ne; [done|]. intros <-. apply Hgone. by eapply list_elem_of_lookup_2.
  - intros Q Hinv Hnq. apply H4.
    + apply without_inv; [done|done|]. apply Hnq. by left.
    + intros p Hp. apply Hnq. by right.
Qed.

(** What the walk needs of the rest of the children. *)
Record walkable (free : list Z) s (h : option ptr) l : Prop := {
  wk_list : sibs (procs s) h l.*1 None;
  wk_nodup : NoDup l.*1;
  wk_children : Forall (child_ok s) l;
  wk_blocks : NoDup (gone_blocks l);
  wk_frames : releasable free (gone_frames l);
  wk_free : free_ok (frame_mem s) free
}.

Lemma in_gone_frames l i a t : i ∈ l -> i.2 = Some a -> t ∈ space_frames a -> t ∈ gone_frames l.
Proof.
  intros Hi Ha Ht. unfold gone_frames. apply list_elem_of_join. exists (space_frames a). split; [done|].
  apply list_elem_of_fmap_2. unfold spaces. apply list_elem_of_omap. by exists i.
Qed.
Lemma in_gone_blocks l i a r : i ∈ l -> i.2 = Some a -> r ∈ space_blocks a -> r ∈ gone_blocks l.
Proof.
  intros Hi Ha Ht. unfold gone_blocks. apply list_elem_of_join. exists (space_blocks a). split; [done|].
  apply list_elem_of_fmap_2. unfold spaces. apply list_elem_of_omap. by exists i.
Qed.

Lemma walkable_alive free s h q l : walkable free s h ((q, None) :: l) ->
  exists z, procs s !! q = Some z /\ h = Some q /\ state z <> ZOMBIE /\ walkable free s (next_sibling z) l.
Proof.
  intros [(-> & z & Hz & Hl) [_ Hnd]%NoDup_cons [(z' & Hz' & Hst) Hch]%Forall_cons Hb Hf Hok]. simpl in *.
  assert (z' = z) as -> by congruence. by exists z.
Qed.

Lemma walkable_zombie free s h q a l m : walkable free s h ((q, Some a) :: l) ->
  gave_back free (space_frames a) (frame_mem s) m ->
  exists z, procs s !! q = Some z /\ h = Some q /\ q ∉ l.*1 /\
    walkable (reverse (space_frames a) ++ free) (without s q z a m) (next_sibling z) l.
Proof.
  intros [(-> & z & Hz & Hl) [Hq Hnd]%NoDup_cons [_ Hch]%Forall_cons Hb Hf Hok] Hg. simpl in *.
  exists z. do 3 (split; [done|]). change (gone_blocks _) with (space_blocks a ++ gone_blocks l) in Hb.
  change (gone_frames _) with (space_frames a ++ gone_frames l) in Hf. apply NoDup_app in Hb as (_ & Hdb & Hb).
  pose proof (rl_nodup _ _ Hf) as (_ & Hdf & _)%NoDup_app. destruct (proj1 (releasable_app _ _ _) Hf) as [_ Hf2].
  split; [|done| |done|done|apply Hg].
  - eapply sibs_frame; [|exact Hl]. intros p Hp. simpl. rewrite lookup_delete_ne; [done|]. by intros <-.
  - rewrite Forall_forall in Hch |- *. intros i Hi. destruct (Hch i Hi) as (y & Hy & Hrest). exists y.
    assert (Hne : i.1 <> q) by (intros <-; apply Hq; by apply list_elem_of_fmap_2). split; [simpl; by rewrite lookup_delete_ne|].
    destruct i.2 as [b|] eqn:Eb; [|done]. destruct Hrest as (E1 & E2 & E3 & E4 & Hown). do 4 (split; [done|]).
    eapply without_owns; [done|done|exact Hg|..].
    + intros r Hr Hr'. apply (Hdb r Hr'). by eapply in_gone_blocks.
    + pose proof (rl_frames _ _ Hf2) as Hff. rewrite Forall_forall in Hff. apply Forall_forall. intros t Ht.
      apply Hff. by eapply in_gone_frames.
    + intros t Ht Ht'. apply (Hdf t Ht'). by eapply in_gone_frames.
Qed.

Lemma orphans_loop_spec l : (forall b, malloc_ok b = true) -> forall fuel s h free, walkable free s h l -> (length l < fuel)%nat ->
  exists s', orphans_loop fuel h s = Ok (0, s') /\ orphaned free s l s'.
Proof.
  intros Hm. induction l as [|[q [a|]] l IH]; intros fuel s h free Hw Hf; (destruct fuel as [|fuel]; [lia|]); cbn [length] in Hf.
  - exists s. rewrite (wk_list _ _ _ _ Hw). split; [done|]. by apply orphaned_nil, Hw.
  - pose proof (wk_children _ _ _ _ Hw) as [(y & Hy & Hz & Eh & Et & Hid & Hown) _]%Forall_cons. simpl in *.
    pose proof (wk_frames _ _ _ _ Hw) as Hr. change (gone_frames _) with (space_frames a ++ gone_frames l) in Hr.
    destruct (proj1 (releasable_app _ _ _) Hr) as [Hr1 _].
    destruct (free_zombie s q y a free Hm Hown Hz Hid Hr1 (wk_free _ _ _ _ Hw)) as (m & Hg & Efree).
    destruct (walkable_zombie _ _ _ _ _ _ m Hw Hg) as (z & Hz' & -> & Hq & Hw'). assert (z = y) as -> by congruence.
    destruct (IH fuel _ _ _ Hw') as (s' & Eloop & Ho); [lia|]. exists s'. split; [|by eapply orphaned_zombie].
    cbn [orphans_loop]. run_step (eapply wp_pget; [exact Hy|rewrite Hz; split; reflexivity]). cbn [bool_decide].
    run_step (eapply wp_pget; [exact Hy|rewrite Eh; split; reflexivity]). run_step (eapply wp_pget; [exact Hy|rewrite Et; split; reflexivity]).
    run_step (apply wp_ret; split; reflexivity). run_step (eapply wp_pget; [exact Hy|split; reflexivity]).
    unfold or_fail. eapply eq_trans; [eapply run_bind; exact Efree|]. exact Eloop.
  - destruct (walkable_alive _ _ _ _ _ Hw) as (z & Hz & -> & Hst & Hw'). destruct (IH fuel s _ _ Hw') as (s' & Eloop & Ho); [lia|].
    exists s'. split; [|by apply orphaned_alive]. cbn [orphans_loop].
    run_step (eapply wp_pget; [exact Hz|split; reflexivity]). rewrite bool_decide_false by done.
    run_step (eapply wp_pget; [exact Hz|split; reflexivity]). exact Eloop.
Qed.

Lemma make_orphans_spec s p x l free : (forall b, malloc_ok b = true) -> procs s !! p = Some x ->
  children (procs s) x l.*1 -> walkable free s (children_head x) l ->
  exists s', make_children_orphans_and_kill_zombies (Some p) s = Ok (0, s') /\ orphaned free s l s'.
Proof.
  intros Hm Hx [Hl Hnd Ht] Hw. assert (Hfuel : (length l < walk_fuel procs s)%nat).
  { pose proof (wait_fuel s _ _ _ Hnd Hl) as Hlt. by rewrite length_fmap in Hlt. }
  destruct (orphans_loop_spec l Hm _ s _ free Hw Hfuel) as (s' & Eloop & Ho). exists s'. split; [|done].
  unfold make_children_orphans_and_kill_zombies.
  run_step (eapply wp_pget; [exact Hx|split; reflexivity]). run_step (eapply wp_pget; [exact Hx|split; reflexivity]).
  destruct l as [|i l].
  - rewrite Hl, Ht in *. cbn. cbn in Eloop. done.
  - destruct Hl as (Eh & _). rewrite Eh in *. run_step (apply wp_gets; split; reflexivity). exact Eloop.
Qed.

(** ** [exit] *)

Lemma gone_zombie s l p : Forall (child_ok s) l -> p ∈ gone l -> exists z, procs s !! p = Some z /\ state z = ZOMBIE.
Proof.
  intros Hl (i & Hi & Ei)%list_elem_of_omap. rewrite Forall_forall in Hl. destruct (Hl i Hi) as (z & Hz & Hrest).
  destruct i.2; [|done]. injection Ei as <-. exists z. split; [done|]. apply Hrest.
Qed.

Lemma orphaned_lookup free s l s' r : orphaned free s l s' -> procs s' !! r = if decide (r ∈ gone l) then None else procs s !! r.
Proof. intros [(n & ns & m & tb & b & ids & lk & ->) _ _ _]. apply delete_all_lookup. Qed.

(** The running process is not a child that is gone. *)
Lemma orphaned_pre free s l s' Q c x A L : orphaned free s l s' -> Forall (child_ok s) l ->
  (forall p, p ∈ gone l -> ~ queued Q p) -> sched_pre s Q c x A L -> state x = ACTIF -> sched_pre s' Q c x A L.
Proof.
  intros Ho Hl Hnq Hpre Ha. pose proof Hpre as [Hinv [Hcur Hx Hfree Hready] Hk HA HL Hdue Hdead Hmain Hst].
  pose proof (op_sched _ _ _ _ Ho Q Hinv Hnq) as Hinv'. pose proof (orphaned_lookup _ _ _ _ c Ho) as Hc.
  rewrite decide_False, Hx in Hc.
  2:{ intros Hin. destruct (gone_zombie _ _ _ Hl Hin) as (z & Hz & Es). congruence. }
  assert (Epid : pid_process_hash_table s' !! current_running_process_pid s' = Some c).
  { apply (si_table _ _ Hinv'). exists x. split; [done|]. destruct Ho as [(n & ns & m & tb & b & ids & lk & ->) _ _ _]. simpl.
    apply (si_table _ _ Hinv) in Hcur as (x' & Hx' & <-). congruence. }
  assert (Hsame : counter s' = counter s /\ scheduler_main s' = scheduler_main s /\ started_user_process s' = started_user_process s).
  { by destruct Ho as [(n & ns & m & tb & b & ids & lk & ->) _ _ _]. }
  destruct Hsame as (Ec & Em & Es). split; rewrite ?Ec, ?Em, ?Es; done.
Qed.

(** C9: the end of a process and of its children.  A running process with a
    living parent calls [exit]; each of its children is alive, or a zombie
    without children that owns its address space.  Then it becomes a zombie
    that keeps its return value, is in no queue and does not run any more as
    long as another process is ready; its parent, if it was waiting for a
    child, is made ready at its priority; exactly the zombies among the
    children are gone, their pids can be taken again and their frames are back
    in the free list, once, and no other process and no other frame
    changes. *)
Theorem exit_reaps s Q c x A L q y v k l free :
  sched_pre s Q c x A L -> state x = ACTIF -> parent x = Some q -> c <> q ->
  procs s !! q = Some y -> state y <> ZOMBIE -> (state y = BLOCKEDWAITCHILD -> ~ queued Q q) ->
  (forall b, malloc_ok b = true) ->
  children (procs s) x l.*1 -> Forall (child_ok s) l -> (forall p, p ∈ gone l -> ~ queued Q p) ->
  NoDup (gone_blocks l) -> releasable free (gone_frames l) -> free_ok (frame_mem s) free ->
  let A1 := if bool_decide (state y = BLOCKEDWAITCHILD) then insert_prio (pfield s prio) q A else A in
  exists s1, exit_process v k s = scheduler k s1 /\
    sched_pre s1 (<[activatable_process_queue := A1]> Q) c (zombie x <| return_value := v |>) A1 L /\
    (forall r, r <> c -> r <> q -> procs s1 !! r = if decide (r ∈ gone l) then None else procs s !! r) /\
    procs s1 !! q = Some (if bool_decide (state y = BLOCKEDWAITCHILD) then y <| state := ACTIVATABLE |> else y) /\
    process_id_list s1 = reverse (pfield s pid <$> gone l) ++ process_id_list s /\
    free_ok (frame_mem s1) (reverse (gone_frames l) ++ free) /\
    (forall a, frame_of a ∉ gone_frames l -> word (frame_mem s1) a = word (frame_mem s) a) /\
    exists k' s2 Q2 r z x', scheduler k s1 = Ok (k', s2) /\ sched_inv s2 Q2 /\ running s2 Q2 r z /\
      procs s2 !! c = Some x' /\ state x' = ZOMBIE /\ return_value x' = v /\ ~ queued Q2 c /\
      (A1 <> [] -> r <> c /\ state z = ACTIF).
Proof.
  intros Hpre Ha Hpar Hcq Hy Hz Hwq Hm Hch Hl Hnq Hb Hr Hok A1. pose proof Hpre as [Hinv [Hcur Hx Hfree Hready] _ HA _ _ _ _ _].
  destruct (make_orphans_spec s c x l free Hm Hx Hch) as (s' & Emk & Ho); [by destruct Hch; split|].
  pose proof (orphaned_pre _ _ _ _ _ _ _ _ _ Ho Hl Hnq Hpre Ha) as Hpre'.
  assert (Hqg : q ∉ gone l) by (intros Hin; destruct (gone_zombie _ _ _ Hl Hin) as (z & Hz' & Es); congruence).
  assert (Hy' : procs s' !! q = Some y) by (by rewrite (orphaned_lookup _ _ _ _ _ Ho), decide_False).
  destruct (exit_leaves s s' Q c x A L q y v Hcur Hx Emk Hpre' Ha Hpar Hcq Hy' Hz Hwq k) as (s1 & E1 & Hp1 & (lk & Es1) & Hrest).
  assert (EA : exit_ready s' A q y = A1).
  { unfold exit_ready, exit_wakes, A1. case_bool_decide; [|done]. apply insert_prio_ext. intros r Hr'.
    unfold pfield. rewrite (orphaned_lookup _ _ _ _ _ Ho), decide_False; [done|]. intros Hin.
    apply elem_of_cons in Hr' as [->|Hr']; [done|]. apply (Hnq r Hin). by eapply queued_in. }
  rewrite EA in Hp1, Hrest. exists s1. split; [done|]. split; [done|].
  pose proof Ho as [_ [Hg Hk] Hids _]. split; [|split; [|split; [|split; [|split; [|done]]]]].
  - intros r Hrc Hrq. rewrite Es1. simpl. unfold exit_procs. rewrite lookup_insert_ne by done.
    rewrite <- (orphaned_lookup _ _ _ _ _ Ho). destruct (exit_wakes y); [by rewrite lookup_insert_ne|done].
  - rewrite Es1. simpl. unfold exit_procs, exit_wakes. rewrite lookup_insert_ne by done. case_bool_decide; [apply lookup_insert_eq|done].
  - by rewrite Es1.
  - by rewrite Es1.
  - rewrite Es1. exact Hk.
Qed.

(** A zombie keeps the list of the children it freed when it ended.  Its own
    parent, when it ends, walks that list: the call reads a process that is
    not allocated any more. *)
Theorem exit_walks_freed s c x z y g v k :
  pid_process_hash_table s !! current_running_process_pid s = Some c -> procs s !! c = Some x -> state x = ACTIF ->
  children_head x = Some z -> procs s !! z = Some y -> state y = ZOMBIE -> children_head y = Some g -> procs s !! g = None ->
  exit_process v k s = Err BadAccess.
Proof.
  intros Hcur Hx Ha Eh Hy Hz Eg Hg. unfold exit_process. run_step (apply wp_get_current; rewrite Hcur; split; reflexivity).
  unfold validate_action_process_valid. run_step (apply wp_bind; eapply wp_pget; [exact Hx|rewrite Ha; apply wp_ret; split; reflexivity]).
  cbn [Z.ltb Z.compare]. apply run_bind_err. unfold turn_current_process_into_a_zombie_or_kill_it.
  run_step (apply wp_get_current; rewrite Hcur; split; reflexivity). unfold or_fail. apply run_bind_err.
  unfold make_children_orphans_and_kill_zombies. run_step (eapply wp_pget; [exact Hx|rewrite Eh; split; reflexivity]).
  run_step (eapply wp_pget; [exact Hx|split; reflexivity]). run_step (apply wp_gets; split; reflexivity).
  assert (Hf : exists f, walk_fuel procs s = S (S f)).
  { unfold walk_fuel. rewrite <- (insert_delete_id _ _ _ Hx), map_size_insert_None by apply lookup_delete_eq. by eexists. }
  destruct Hf as [f ->]. cbn [orphans_loop]. run_step (eapply wp_pget; [exact Hy|rewrite Hz; split; reflexivity]). cbn [bool_decide].
  run_step (eapply wp_pget; [exact Hy|rewrite Eg; split; reflexivity]). run_step (eapply wp_pget; [exact Hy|split; reflexivity]).
  apply run_bind_err. apply run_bind_err. unfold pget, rd, mbind, M_bind. simpl. by rewrite Hg.
Qed.

End Exit.
