(* ===== verification/MachineInv.v ===== *)
(** * MachineInv: the invariant of the kernel between two traps

    What holds of the scheduler's data, of the semaphores, of the message
    queues, of the processes and of their memory whenever the kernel is left,
    and how a call of the scheduler re-establishes it. *)

From stdpp Require Export relations.
From S2P Require Import Prelude.
From S2P Require Import Queue.
From S2P Require Import FrameDist.
From S2P Require Import Pages.
From S2P Require Import Kernel.
From S2P Require Import KernelRules.
From S2P Require Import ProcessFree.
From S2P Require Import Scheduler.
From S2P Require Import SchedulerSpec.
From S2P Require Import Semaphore.
From S2P Require Import SemaphoreSpec.
From S2P Require Import MsgQueue.
From S2P Require Import MsgQueueSpec.
From S2P Require Import ChannelSpec.
From S2P Require Import ProcessApi.
From S2P Require Import Traps.
From S2P Require Import ProcessApiSpec.
From S2P Require Import TableList.
From S2P Require Import StartSpec.
From S2P Require Import Isolation.
#[local] Open Scope Z_scope.

(** The continuations that are not in the middle of a kernel call. *)
Definition user_code (k : kont) : bool :=
  match k with KRet _ _ | KIret | KUserEntry | KKernelEntry => true | _ => false end.

Section Machine.
Context `{E : KEnv}.

(** ** The invariant *)

Definition kont_ok s (k : kont) : Prop :=
  match k with
  | KWait p | KStart p | KPsend p | KPreceive p _ => is_Some (procs s !! p)
  | KTick _ => True
  | k => user_code k = true
  end.

(** The processes are known blocks; the last child of a process is one; the
    address spaces are apart. *)
Record resources_ok s : Prop := {
  fo_alloc : allocated (procs s) s;
  fo_tail : forall p z t, procs s !! p = Some z -> children_tail z = Some t -> is_Some (procs s !! t);
  fo_memory : memory_ok s
}.

(** A process keeps the fields the resources depend on. *)
Definition same_parts (y y' : process) : Prop :=
  children_tail y' = children_tail y /\ page_table_level_2 y' = page_table_level_2 y.

Lemma resources_ok_step s s' :
  resources_ok s -> frame_mem s' = frame_mem s -> kernel_table s' = kernel_table s -> (next_block s <= next_block s')%positive ->
  (forall q, is_Some (procs s !! q) -> is_Some (procs s' !! q)) ->
  (forall q y', procs s' !! q = Some y' -> exists y, procs s !! q = Some y /\ same_parts y y') ->
  resources_ok s'.
Proof.
  intros [Ha Ht Hm] Em Ek Hb Hf Hback. split.
  - intros q [y' Hy]. destruct (Hback _ _ Hy) as (y & Hy0 & _). specialize (Ha q ltac:(by eexists)). lia.
  - intros q y' t Hy Htl. destruct (Hback _ _ Hy) as (y & Hy0 & E1 & _). rewrite E1 in Htl. apply Hf. by eapply Ht.
  - apply (memory_ok_step s); [done..|]. intros q y' Hy. destruct (Hback _ _ Hy) as (y & Hy0 & _ & E2). by exists y.
Qed.

(** [c] runs, [A] are the ready processes, [L] the sleeping ones, [W] the
    waiters of each semaphore. *)
Record kernel_inv s (Q : queues) (c : ptr) (x : process) (A L : list ptr) W : Prop := {
  ki_pre : sched_pre s Q c x A L;
  ki_active : state x = ACTIF;
  ki_sems : sem_shape s Q W;
  ki_counts : counts_ok s W;
  ki_idle : exists i z, procs s !! i = Some z /\ pid z = idleId /\ (i ∈ A \/ i = c);
  ki_ready : forall p z, procs s !! p = Some z -> state z = ACTIVATABLE -> p ∈ A;
  ki_one : forall p z, procs s !! p = Some z -> state z = ACTIF -> p = c;
  ki_states : forall p z, procs s !! p = Some z -> state z <> BLOCKEDIO /\ state z <> BLOCKEDWAITCHILD;
  ki_konts : forall p z, procs s !! p = Some z -> kont_ok s (resume_point z);
  ki_block : parent_block s = false;
  ki_resources : resources_ok s
}.
Definition machine_inv (m : kont * kstate) : Prop :=
  kont_ok m.2 m.1 /\ exists Q c x A L W, kernel_inv m.2 Q c x A L W /\ chans_ok m.2 Q.

(** ** Calls that reach the scheduler *)

(** The state a call leaves when it calls the scheduler: the running process
    may be blocked by then. *)
Record entering s Q c x A L W : Prop := {
  en_pre : sched_pre s Q c x A L;
  en_state : state x <> ACTIVATABLE;
  en_sems : sem_shape s Q W;
  en_counts : counts_ok s W;
  en_idle : exists i z, procs s !! i = Some z /\ pid z = idleId /\ (i ∈ A \/ i = c /\ state x = ACTIF);
  en_ready : forall p z, procs s !! p = Some z -> state z = ACTIVATABLE -> p ∈ A;
  en_one : forall p z, procs s !! p = Some z -> state z = ACTIF -> p = c;
  en_states : forall p z, procs s !! p = Some z -> state z <> BLOCKEDIO /\ state z <> BLOCKEDWAITCHILD;
  en_konts : forall p z, procs s !! p = Some z -> kont_ok s (resume_point z);
  en_block : parent_block s = false;
  en_resources : resources_ok s
}.

Lemma inv_enters s Q c x A L W : kernel_inv s Q c x A L W -> entering s Q c x A L W.
Proof.
  intros [Hpre Ha Hs Hco (i & z & Hz & Hid & Hi) Hr H1 Hst Hk Hb Hfo]. split; try done; [by rewrite Ha|].
  exists i, z. naive_solver.
Qed.

Lemma enters_inv s Q c x A L W : entering s Q c x A L W -> state x = ACTIF -> kernel_inv s Q c x A L W.
Proof. intros [Hpre _ Hs Hco (i & z & Hz & Hid & Hi) Hr H1 Hst Hk Hb Hfo] Ha. split; try done. exists i, z. naive_solver. Qed.

(** The semaphores change, and nothing else but the heap. *)
Lemma entering_sems s s' Q c x A L W W' :
  procs s' = procs s -> links s' = links s -> pid_process_hash_table s' = pid_process_hash_table s ->
  current_running_process_pid s' = current_running_process_pid s -> scheduler_main s' = scheduler_main s ->
  started_user_process s' = started_user_process s -> counter s' = counter s -> parent_block s' = false ->
  frame_mem s' = frame_mem s -> kernel_table s' = kernel_table s -> (next_block s <= next_block s')%positive ->
  sem_shape s' Q W' -> counts_ok s' W' -> entering s Q c x A L W -> entering s' Q c x A L W'.
Proof.
  intros Ep El Et Ec Em Es En E1 E2 E3 Hb Hsh' Hco' [[Hinv [Hcur Hx Hfree Hready] Hk HA HL Hdue Hdead Hmain Hst] Ha _ _ Hi Hr H1 Hs Hko Hpb Hfo].
  split; unfold kont_ok in *; rewrite ?Ep; try done.
  - split; rewrite ?Em, ?Es, ?En; try done; [by eapply sched_inv_frame|by split; rewrite ?Et, ?Ec, ?Ep].
  - apply (resources_ok_step s); [done|done|done|done|by rewrite Ep|]. rewrite Ep. intros q y' Hy'. by exists y'.
Qed.

Lemma resume_point_left x k : is_Some (context_process x) -> resume_point (left x k) = k.
Proof. intros [ctx Hc]. unfold left, resume_point, saved. case_bool_decide; simpl; by rewrite Hc. Qed.

Lemma left_state x k : state (left x k) = if bool_decide (state x = ACTIF) then ACTIVATABLE else state x.
Proof. unfold left. by case_bool_decide. Qed.

Lemma kont_ok_frame s s' k : (forall p, is_Some (procs s !! p) -> is_Some (procs s' !! p)) -> kont_ok s k -> kont_ok s' k.
Proof. destruct k; simpl; auto. Qed.

Lemma left_parts x k : same_parts x (left x k).
Proof. unfold left. by case_bool_decide. Qed.

(** The processes after a move, one by one. *)
Lemma moved_procs k s Q c x A L k' s' Q' r z A' L' p y' :
  moved k s Q c x A L k' s' Q' r z A' L' -> procs s !! c = Some x -> procs s' !! p = Some y' ->
  exists y, procs s !! p = Some y /\ pid y' = pid y /\ same_parts y y' /\
    (p = r /\ y' = z /\ resume_point y' = resume_point y \/ p = c /\ p <> r /\ y' = left x k \/ p <> r /\ p <> c /\ y' = y).
Proof.
  intros [Hpre' _ _ Hps _ _ _ _ _] Hx Hy'. pose proof (ru_proc _ _ _ _ (sp_running _ _ _ _ _ _ Hpre')) as Hz.
  destruct Hps as [(-> & Eps & ->)|(Hrc & y & Hy & -> & Eps)].
  - rewrite Eps in *. exists y'. do 3 (split; [done|]). destruct (decide (p = c)); [subst; left|right; right]; naive_solver.
  - rewrite Eps, lookup_insert_eq in Hz. simplify_eq. rewrite Eps, !lookup_insert in Hy'. repeat case_decide; simplify_eq.
    + exists y. do 3 (split; [done|]). by left.
    + exists x. split; [done|]. split; [apply left_same|]. split; [apply left_parts|]. right. left. split_and!; congruence.
    + exists y'. do 3 (split; [done|]). right. right. split_and!; congruence.
Qed.

Lemma moved_sems k s Q c x A L k' s' Q' r z A' L' W :
  moved k s Q c x A L k' s' Q' r z A' L' -> procs s !! c = Some x -> sem_shape s Q W -> sem_shape s' Q' W.
Proof.
  intros Hmv Hx Hsh. pose proof Hmv as [_ _ Hfr Hps _ Hqs Hch _ _].
  eapply (sem_shape_frame s); [by rewrite Hfr..| |done]. intros sm ns w y _ _ Hy Hst Hq.
  assert (Hq' : ~ queued Q' w.2) by (intros [?|[Ec Ha]]%Hqs; [done|rewrite Ec in Hy; simplify_eq; congruence]).
  destruct Hps as [(-> & -> & _)|(Hrc & y0 & Hy0 & _ & ->)]; [by exists y|].
  rewrite lookup_insert_ne by (intros ->; destruct Hch; done).
  destruct (decide (w.2 = c)) as [Ec|]; [|rewrite lookup_insert_ne by done; by exists y].
  rewrite Ec in *. rewrite lookup_insert_eq. simplify_eq. exists (left x k). split_and!; [done| |done].
  rewrite left_state. by rewrite Hst.
Qed.

(** The process that gets the processor was not in a message queue. *)
Lemma moved_blocked k s Q c x A L k' s' Q' r z A' L' :
  moved k s Q c x A L k' s' Q' r z A' L' -> sched_pre s Q c x A L -> chans_ok s Q -> blocked_same s s'.
Proof.
  intros [Hpre' Ha' _ Hps _ _ _ Hfrom _] Hpre Hch. pose proof Hpre as [Hinv [_ Hx _ _] _ HA HL _ _ _ _].
  destruct Hps as [(-> & Eps & _)|(Hrc & y & Hy & _ & Eps)]; [by apply blocked_same_refl|].
  assert (Hys : state y <> BLOCKEDQUEUE).
  { intros Hs. destruct (co_blocked _ _ _ Hch r y Hy Hs) as (h & p & B & Hh & _ & HB & Hin).
    destruct (chan_head_main h p Hh) as (H1 & H2 & _). destruct Hfrom as [|[Hf|Hf]]; [done|..].
    - apply H1. by eapply (rep_disj _ _ (si_rep _ _ Hinv)).
    - apply H2. by eapply (rep_disj _ _ (si_rep _ _ Hinv)). }
  intros q. rewrite Eps, !lookup_insert. case_decide as E1; [subst q|case_decide as E2; [subst q|by split; intros w Hw ?; exists w]].
  - split; [by intros z' [= <-]|]. intros z0 Hz0 Hs. congruence.
  - assert (Hl : state (left x k) = BLOCKEDQUEUE <-> state x = BLOCKEDQUEUE).
    { rewrite left_state. case_bool_decide as Ha; [|done]. rewrite Ha. done. }
    assert (Hm : message (left x k) = message x) by (unfold left; by case_bool_decide).
    split; intros w Hw Hs.
    + injection Hw as <-. exists x. rewrite Hm. tauto.
    + assert (w = x) as -> by congruence. eexists. rewrite Hm. tauto.
Qed.

Lemma enter_scheduler k s Q c x A L W :
  entering s Q c x A L W -> chans_ok s Q -> kont_ok s k -> exists m, scheduler k s = Ok m /\ machine_inv m.
Proof.
  intros [Hpre Hstx Hsh Hco (i & zi & Hzi & Hid & Hi) Hr H1 Hst Hk Hb Hfo] Hch0 Hkok.
  assert (Hor : state x = ACTIF \/ A <> []).
  { destruct Hi as [Hi|[_ Ha]]; [right|by left]. intros ->. by apply elem_of_nil in Hi. }
  destruct (scheduler_moves k s Q c x A L Hpre Hor) as (k' & s' & Q' & r & z & A' & L' & E1 & Hmv).
  exists (k', s'). split; [done|]. pose proof (ru_proc _ _ _ _ (sp_running _ _ _ _ _ _ Hpre)) as Hx.
  pose proof Hmv as [Hpre' Ha' Hfr Hps Hrdy Hqs Hch _ Hheads].
  assert (Hdom : forall p, is_Some (procs s !! p) -> is_Some (procs s' !! p)).
  { intros p Hp. destruct Hps as [(_ & -> & _)|(_ & y & _ & _ & ->)]; [done|]. rewrite !lookup_insert. by repeat case_decide. }
  assert (Hproc : forall p y', procs s' !! p = Some y' -> exists y, procs s !! p = Some y /\ pid y' = pid y /\ same_parts y y' /\
    (p = r /\ y' = z /\ resume_point y' = resume_point y \/ p = c /\ p <> r /\ y' = left x k \/ p <> r /\ p <> c /\ y' = y)).
  { intros p y' Hy'. by eapply moved_procs. }
  destruct (Hst c x Hx) as [Hst1 Hst2].
  assert (Hleft : state (left x k) <> ACTIF /\ (state (left x k) = ACTIVATABLE -> state x = ACTIF) /\
    state (left x k) <> BLOCKEDIO /\ state (left x k) <> BLOCKEDWAITCHILD).
  { rewrite left_state. by case_bool_decide. }
  split.
  - eapply kont_ok_frame; [exact Hdom|]. destruct Hps as [(_ & _ & ->)|(_ & y & Hy & -> & _)]; [done|by eapply Hk].
  - exists Q', r, z, A', L', W. cbn [snd]. split; [split; try done|].
    + by eapply moved_sems.
    + intros sm ns x'. assert (Esm : sems s' = sems s) by (by rewrite Hfr). rewrite Esm. apply Hco.
    + destruct (Hdom i) as [yi Hyi]; [by eexists|]. destruct (Hproc _ _ Hyi) as (y & Hy & Epid & _).
      exists i, yi. split; [done|]. split; [congruence|]. destruct (Hrdy i Hi) as [->|]; auto.
    + intros p y' Hy' Hs. destruct (Hproc _ _ Hy') as (y & Hy & _ & _ & [(-> & -> & _)|[(-> & Hne & ->)|(Hr1 & Hc1 & ->)]]); [congruence|..].
      * destruct (Hrdy c) as [->|]; [right; split; [done|by apply Hleft]|done|done].
      * destruct (Hrdy p) as [->|]; [left; by eapply Hr|done|done].
    + intros p y' Hy' Hs. destruct (Hproc _ _ Hy') as (y & Hy & _ & _ & [(-> & -> & _)|[(-> & Hne & ->)|(Hr1 & Hc1 & ->)]]); [done|..].
      * by destruct Hleft.
      * by destruct Hc1; eapply H1.
    + intros p y' Hy'. destruct (Hproc _ _ Hy') as (y & Hy & _ & _ & [(-> & -> & _)|[(-> & Hne & ->)|(Hr1 & Hc1 & ->)]]).
      * by rewrite Ha'.
      * tauto.
      * by eapply Hst.
    + intros p y' Hy'. eapply kont_ok_frame; [exact Hdom|].
      destruct (Hproc _ _ Hy') as (y & Hy & _ & _ & [(-> & -> & ->)|[(-> & Hne & ->)|(Hr1 & Hc1 & ->)]]); [by eapply Hk| |by eapply Hk].
      rewrite resume_point_left; [done|]. by eapply (si_ctx _ _ (sp_inv _ _ _ _ _ _ Hpre)).
    + by rewrite Hfr.
    + apply (resources_ok_step s); [done|by rewrite Hfr|by rewrite Hfr|rewrite Hfr; simpl; lia|done|].
      intros q y' Hy'. destruct (Hproc _ _ Hy') as (y & Hy & _ & Ht & _). by exists y.
    + eapply (chans_frame None s); [exact Hch0|by rewrite Hfr|by rewrite Hfr|rewrite Hfr; simpl; lia| |by eapply moved_blocked].
      intros h p Hh. destruct (chan_head_main h p Hh) as (? & ? & _). by apply Hheads.
Qed.


(** ** Changes that keep the invariant *)

Lemma kernel_inv_resources s s' Q c x A L W :
  procs s' = procs s -> links s' = links s -> pid_process_hash_table s' = pid_process_hash_table s ->
  current_running_process_pid s' = current_running_process_pid s -> scheduler_main s' = scheduler_main s ->
  started_user_process s' = started_user_process s -> sems s' = sems s -> blocked_nodes s' = blocked_nodes s ->
  semaphore_table s' = semaphore_table s -> next_block s' = next_block s -> parent_block s' = parent_block s ->
  resources_ok s' -> kernel_inv s Q c x A L W -> kernel_inv s' Q c x A L W.
Proof.
  intros Ep El Et Ec Em Es E1 E2 E3 E4 E5 Hfo [[Hinv [Hcur Hx Hfree Hready] Hk HA HL Hdue Hdead Hmain Hst] Ha Hsh Hco Hi Hr H1 Hs Hko Hb _].
  split; unfold counts_ok, kont_ok in *; rewrite ?Ep, ?E1, ?E5; try done.
  - split; rewrite ?Em, ?Es; try done; [by eapply sched_inv_frame|by split; rewrite ?Et, ?Ec, ?Ep|].
    intros Hin. destruct (Hfree Ha). by eapply (queued_in Q asleep_process_queue).
  - eapply (sem_shape_frame s); [done..| |done]. rewrite Ep. intros; eauto.
Qed.

Lemma kernel_inv_frame s s' Q c x A L W :
  procs s' = procs s -> links s' = links s -> pid_process_hash_table s' = pid_process_hash_table s ->
  current_running_process_pid s' = current_running_process_pid s -> scheduler_main s' = scheduler_main s ->
  started_user_process s' = started_user_process s -> sems s' = sems s -> blocked_nodes s' = blocked_nodes s ->
  semaphore_table s' = semaphore_table s -> next_block s' = next_block s -> parent_block s' = parent_block s ->
  frame_mem s' = frame_mem s -> kernel_table s' = kernel_table s ->
  kernel_inv s Q c x A L W -> kernel_inv s' Q c x A L W.
Proof.
  intros Ep El Et Ec Em Es E1 E2 E3 E4 E5 E6 E7 Hki. apply (kernel_inv_resources s); try done.
  apply (resources_ok_step s); [apply Hki|done|done|rewrite E4; lia|by rewrite Ep|]. rewrite Ep. intros q y' Hy'. by exists y'.
Qed.

Lemma kernel_inv_user s Q c x A L W m :
  kernel_inv s Q c x A L W -> user_write s c m -> kernel_inv (s <| frame_mem := m |>) Q c x A L W.
Proof.
  intros Hki Hm. apply (kernel_inv_resources s); try done. destruct (ki_resources _ _ _ _ _ _ _ Hki) as [Ha Ht Hmem].
  split; [done|done|]. by apply (user_write_memory s c).
Qed.

(** A process keeps what the queues and the table depend on. *)
Definition same_shape (y y' : process) : Prop :=
  pid y' = pid y /\ state y' = state y /\ context_process y' = context_process y /\ wake_time y' = wake_time y /\
  same_parts y y'.

Lemma kernel_inv_update s Q c x A L W p y y' :
  kernel_inv s Q c x A L W -> procs s !! p = Some y -> same_shape y y' ->
  kernel_inv (s <| procs ::= <[p := y']> |>) Q c (if decide (p = c) then y' else x) A L W.
Proof.
  intros [Hpre Ha Hsh Hco (i & z & Hz & Hid & Hi) Hr H1 Hs Hko Hb Hfo] Hy (E1 & E2 & E3 & E4 & E5).
  pose proof Hpre as [Hinv [Hcur Hx Hfree Hready] Hk HA HL Hdue Hdead Hmain Hst].
  assert (Hback : forall q z, procs (s <| procs ::= <[p := y']> |>) !! q = Some z ->
    exists z0, procs s !! q = Some z0 /\ pid z = pid z0 /\ state z = state z0 /\ resume_point z = resume_point z0).
  { intros q z0. simpl. rewrite lookup_insert. case_decide; [|intros; by exists z0]. intros [= <-]. subst q. exists y.
    split_and!; try done. unfold resume_point. by rewrite E3. }
  split; try done.
  - case_decide as Epc.
    + subst p. simplify_eq. eapply (sched_pre_self s); try done. congruence.
    + eapply sched_pre_step; [exact Hpre|..]; try done; [|simpl; by rewrite lookup_insert_ne|intros Hin; by eapply Hready].
      eapply sched_inv_proc; try done. rewrite E3. by eapply si_ctx.
  - case_decide; [|done]. subst p. simplify_eq. congruence.
  - eapply (sem_shape_frame s); [done..| |done]. intros sm ns w y1 _ _ Hy1 Hst1 Hq. simpl. rewrite lookup_insert.
    case_decide as Ew; [|by exists y1]. rewrite <- Ew in Hy1. simplify_eq. exists y'. split_and!; [done|congruence|done].
  - destruct (decide (p = i)) as [->|]; [exists i, y'|exists i, z]; simpl.
    + rewrite lookup_insert_eq. simplify_eq. split_and!; [done|congruence|done].
    + by rewrite lookup_insert_ne.
  - intros q w Hw Hq. destruct (Hback _ _ Hw) as (w0 & Hw0 & _ & Es & _). eapply Hr; [done|congruence].
  - intros q w Hw Hq. destruct (Hback _ _ Hw) as (w0 & Hw0 & _ & Es & _). eapply H1; [done|congruence].
  - intros q w Hw. destruct (Hback _ _ Hw) as (w0 & Hw0 & _ & -> & _). by eapply Hs.
  - intros q w Hw. destruct (Hback _ _ Hw) as (w0 & Hw0 & _ & _ & ->). eapply kont_ok_frame; [|by eapply Hko].
    intros q' [? ?]. simpl. rewrite lookup_insert. by case_decide.
  - apply (resources_ok_step s); [done|done|done|simpl; lia|..].
    + intros q' [? ?]. simpl. rewrite lookup_insert. by case_decide.
    + intros q w. simpl. rewrite lookup_insert. case_decide as Eq; [|intros Hw; by exists w].
      intros [= <-]. rewrite <- Eq. by exists y.
Qed.

(** The blocked processes of a message queue change places, or leave it. *)
Lemma kernel_inv_queue s Q c x A L W h p B B' l :
  kernel_inv s Q c x A L W -> chan_head h p -> Q !! h = Some B -> (forall q, q ∈ B' -> q ∈ B) ->
  sched_inv (s <| links := l |>) (<[h := B']> Q) -> kernel_inv (s <| links := l |>) (<[h := B']> Q) c x A L W.
Proof.
  intros [Hpre Ha Hsh Hco Hi Hr H1 Hs Hko Hb Hfo] Hh HB Hsub Hinv. destruct (chan_head_main h p Hh) as (Hh1 & Hh2 & Hh3).
  pose proof Hpre as [_ [Hcur Hx Hfree Hready] Hk HA HL Hdue Hdead Hmain Hst].
  assert (Hq : forall q, queued (<[h := B']> Q) q -> queued Q q).
  { intros q (h' & B0 & HB0 & Hin). rewrite lookup_insert in HB0. case_decide as Eh; [|by exists h', B0].
    injection HB0 as <-. exists h, B. auto. }
  split; try done.
  - eapply (sched_pre_step s); try done; rewrite ?lookup_insert_ne by done; try done; [by apply Hq|by apply Hready].
  - eapply (sem_shape_frame s); [done..| |done]. intros sm ns w y _ _ Hy Hst' Hnq. exists y. split_and!; [done..|].
    intros Hq'. by apply Hnq, Hq.
  - by apply (resources_ok_step s); [..|intros q y' Hy'; exists y'].
Qed.

(** Queues of message queues come and go, all of them empty. *)
Lemma kernel_inv_heads s Q Q' c x A L W l mq aq b :
  kernel_inv s Q c x A L W -> rep l Q' -> (forall q, queued Q' q <-> queued Q q) ->
  (forall q, is_Some (links s !! inr q) -> is_Some (l !! inr q)) ->
  (forall h, h ∈ [activatable_process_queue; asleep_process_queue; dead_process_queue] -> Q' !! h = Q !! h) ->
  (next_block s <= b)%positive ->
  kernel_inv (s <| msg_queues := mq |> <| links := l |> <| all_queues := aq |> <| next_block := b |>) Q' c x A L W.
Proof.
  intros [Hpre Ha Hsh Hco Hi Hr H1 Hs Hko Hb Hfo] Hrep Hq Hl Hmain Hblk. set (s' := _ <| next_block := b |>).
  assert (E1 : Q' !! activatable_process_queue = Q !! activatable_process_queue) by (apply Hmain; by left).
  assert (E2 : Q' !! asleep_process_queue = Q !! asleep_process_queue) by (apply Hmain; right; by left).
  assert (E3 : Q' !! dead_process_queue = Q !! dead_process_queue) by (apply Hmain; right; right; by left).
  pose proof Hpre as [[K1 K2 K3 K4 K5 K6 K7] [Hcur Hx Hfree Hready] _ HA HL _ Hdead _ _].
  assert (Hinv' : sched_inv s' Q').
  { split; try done.
    - intros q Hp. apply Hl, K2, Hp.
    - intros q Hq'. by apply K3, Hq.
    - intros L0 q y HL0. rewrite E2 in HL0. by apply K7. }
  split; try done.
  - eapply (sched_pre_step s); [exact Hpre|exact Hinv'|exact Hx|done..|by rewrite E1|by rewrite E2|by rewrite E3|by apply Hq|by apply Hready].
  - eapply (sem_shape_grow s); [done..|exact Hblk| |done]. intros sm ns w y _ _ Hy Hst Hnq. exists y. by rewrite Hq.
  - apply (resources_ok_step s); [done|done|done|exact Hblk|done|]. intros q y' Hy'. by exists y'.
Qed.

(** A change outside the processes and the message queues. *)
Lemma chans_rest s s' Q : procs s' = procs s -> all_queues s' = all_queues s -> msg_queues s' = msg_queues s ->
  next_block s' = next_block s -> chans_ok s Q -> chans_ok s' Q.
Proof.
  intros Ep Ea Em Eb Hch. eapply (chans_frame None s); [exact Hch|done|done|rewrite Eb; lia|done|by apply blocked_same_refl].
Qed.

Lemma inv_intro k s Q c x A L W : user_code k = true -> kernel_inv s Q c x A L W -> chans_ok s Q -> machine_inv (k, s).
Proof. intros Hk Hi Hch. split; [by destruct k|]. by exists Q, c, x, A, L, W. Qed.

Definition safe_run (m : K kont) s : Prop := exists m', m s = Ok m' /\ machine_inv m'.

Lemma safe_return s Q c x A L W k :
  kernel_inv s Q c x A L W -> chans_ok s Q -> user_code k = true -> safe_run (mret k) s.
Proof. intros Hi Hch Hk. exists (k, s). split; [done|]. by eapply inv_intro. Qed.

End Machine.
