(* ===== verification/MachineCalls.v ===== *)
(** * MachineCalls: the system calls keep the invariant

    One lemma per system call, or per family of them: called by the running
    process from a state of the invariant, it does not fail and leaves a state
    of the invariant, through the scheduler where it calls it. *)

From stdpp Require Export relations.
From S2P Require Import Prelude.
From S2P Require Import Queue.
From S2P Require Import FrameDist.
From S2P Require Import Pages.
From S2P Require Import Kernel.
From S2P Require Import KernelRules.
From S2P Require Import ProcessFree.
From S2P Require Import Scheduler.
From S2P Require Import SchedulerSpec.
From S2P Require Import Semaphore.
From S2P Require Import SemaphoreSpec.
From S2P Require Import SemaphoreTable.
From S2P Require Import MsgQueue.
From S2P Require Import MsgQueueSpec.
From S2P Require Import ChannelSpec.
From S2P Require Import ProcessApi.
From S2P Require Import Traps.
From S2P Require Import ProcessApiSpec.
From S2P Require Import TableList.
From S2P Require Import StartSpec.
From S2P Require Import Isolation.
From S2P Require Import MachineInv.
#[local] Open Scope Z_scope.

Section Calls.
Context `{E : KEnv}.

(** A process that is created finds memory and a new pid, or the call is
    rejected. *)
Definition start_allowed (name : option string) (sz pr : Z) (s : kstate) : Prop :=
  rejected name sz pr \/ nb_proc_running s = MAX_NB_PROCESS \/
  exists n app root l1 T ht fs hf sf rest, name = Some n /\ find_app n = Some app /\
    Z.of_nat (String.length n) <= MAX_SIZE_NAME /\
    nb_proc_running s < MAX_NB_PROCESS /\ MINPRIO <= pr <= MAXPRIO /\ 0 < sz /\
    room s app (wrapU 32 (sz + PROCESS_SETUP_SIZE)) root l1 T ht fs hf sf rest /\
    0 <= next_pid s /\ pid_process_hash_table s !! next_pid s = None.

(** A call that only reads. *)
Lemma read_event s Q c x A L W (m : K Z) : kernel_inv s Q c x A L W -> chans_ok s Q -> (exists v, m s = Ok (v, s)) -> safe_run (ret m) s.
Proof.
  intros Hki Hch [v E1]. exists (KRet v [], s). unfold ret. rewrite (run_bind _ _ _ _ _ E1). split; [done|]. by eapply inv_intro.
Qed.

(** The states in which a process may call the scheduler. *)
Definition leaves_cpu (st : process_state) : bool :=
  match st with ACTIVATABLE | BLOCKEDIO | BLOCKEDWAITCHILD => false | _ => true end.

(** The running process changes and leaves its place: only it and the links
    are written. *)
Lemma self_enters s Q c x A L W s1 Q1 x1 l L1 :
  kernel_inv s Q c x A L W -> pid x <> idleId -> s1 = s <| links := l |> <| procs ::= <[c := x1]> |> ->
  context_process x1 = context_process x -> same_parts x x1 -> leaves_cpu (state x1) = true ->
  (forall q, queued Q1 q -> queued Q q \/ q = c) -> sched_pre s1 Q1 c x1 A L1 -> entering s1 Q1 c x1 A L1 W.
Proof.
  intros [Hpre Ha Hsh Hco (i & z & Hz & Hid & Hi) Hrd H1 Hs Hko Hb Hfo] Hidle -> Ectx Hsame Hst Hq Hpre1.
  assert (Hst1 : state x1 <> ACTIVATABLE) by (by intros E1; rewrite E1 in Hst).
  assert (Hst2 : state x1 <> BLOCKEDIO /\ state x1 <> BLOCKEDWAITCHILD) by (by split; intros E1; rewrite E1 in Hst). pose proof Hpre as [_ [_ Hx _ _] _ _ _ _ _ _ _].
  assert (Hback : forall q w, <[c := x1]> (procs s) !! q = Some w -> q = c /\ w = x1 \/ q <> c /\ procs s !! q = Some w).
  { intros q w. rewrite lookup_insert. case_decide; [intros [= <-]; by left|by right]. }
  assert (Hdom : forall q, is_Some (procs s !! q) -> is_Some (<[c := x1]> (procs s) !! q)).
  { intros q Hq'. rewrite lookup_insert. by case_decide. }
  split; try done.
  - eapply (sem_shape_frame s); [done..| |done]. intros sm ns w y HW Hin Hy Hsty Hnq.
    assert (Hwc : w.2 <> c) by by eapply waiter_not_running. exists y. split; [simpl; by rewrite lookup_insert_ne|].
    split; [done|]. intros [?|?]%Hq; done.
  - assert (Hic : i <> c) by congruence. exists i, z. split; [simpl; by rewrite lookup_insert_ne|]. naive_solver.
  - intros q w Hw Hq'. destruct (Hback _ _ Hw) as [[-> ->]|[_ Hw0]]; [done|by eapply Hrd].
  - intros q w Hw Hq'. destruct (Hback _ _ Hw) as [[-> ->]|[_ Hw0]]; [done|by eapply H1].
  - intros q w Hw. destruct (Hback _ _ Hw) as [[-> ->]|[_ Hw0]]; [done|by eapply Hs].
  - intros q w Hw. eapply kont_ok_frame; [exact Hdom|]. destruct (Hback _ _ Hw) as [[-> ->]|[_ Hw0]]; [|by eapply Hko].
    unfold resume_point. rewrite Ectx. by apply (Hko c x).
  - apply (resources_ok_step s); [done|done|done|simpl; lia|exact Hdom|].
    intros q w Hw. destruct (Hback _ _ Hw) as [[-> ->]|[_ Hw0]]; [by exists x|by exists w].
Qed.

(** ** Semaphores *)

Lemma sem_entering s Q c x A L W sm a ps sig s1 Q1 W1 :
  kernel_inv s Q c x A L W -> sem_after s Q W sm c A L a ps sig s1 Q1 W1 ->
  (c ∈ a_waiters a -> pid x <> idleId) -> c ∉ ps ->
  exists x1, entering s1 Q1 c x1 (foldl (fun A p => insert_prio (pfield s prio) p A) A ps) L W1.
Proof.
  intros [Hpre Ha Hsh Hco (i & z & Hz & Hid & Hi) Hr H1 Hs Hko Hb Hfo]
    [(x1 & Hpre1 & Hst1 & Hx1) _ _ Hsh1 Hco1 _ Hps Hpb Hblk Hrest _] Hidle Hcps.
  pose proof (ru_proc _ _ _ _ (sp_running _ _ _ _ _ _ Hpre)) as Hx. destruct (Hx1 x Hx) as (Epid & Ectx & Etl & Ept & _).
  pose proof (ru_proc _ _ _ _ (sp_running _ _ _ _ _ _ Hpre1)) as Hc1. exists x1.
  assert (HA : forall p, p ∈ foldl (fun A p => insert_prio (pfield s prio) p A) A ps <-> p ∈ ps \/ p ∈ A)
    by (intros p; by rewrite fold_insert_perm, elem_of_app).
  assert (Hback : forall q y1, procs s1 !! q = Some y1 -> q = c /\ y1 = x1 \/ q <> c /\ exists y0, procs s !! q = Some y0 /\
    (q ∈ ps /\ y1 = signalled y0 sig \/ q ∉ ps /\ y1 = y0)).
  { intros q y1 Hy1. destruct (decide (q = c)) as [->|Hne]; [left; split; congruence|right]. split; [done|]. rewrite Hps in Hy1 by done.
    case_decide; [|by exists y1; auto]. destruct (procs s !! q) as [y0|]; [|done]. simpl in Hy1. simplify_eq. exists y0. auto. }
  assert (Hdom : forall q, is_Some (procs s !! q) -> is_Some (procs s1 !! q)).
  { intros q [y0 Hy0]. destruct (decide (q = c)) as [->|Hne]; [by eexists|]. rewrite Hps, Hy0 by done.
    destruct (decide (q ∈ ps)); by eexists. }
  split; try done.
  - rewrite Hst1. by case_bool_decide.
  - destruct (decide (i = c)) as [->|Hic].
    + exists c, x1. simplify_eq. split; [done|]. split; [congruence|]. right. split; [done|]. rewrite Hst1.
      rewrite bool_decide_false; [done|]. intros Hin. by apply Hidle.
    + destruct (Hdom i) as [z1 Hz1]; [by eexists|]. exists i, z1. split; [done|].
      destruct (Hback _ _ Hz1) as [[? _]|(_ & y0 & Hy0 & Hor)]; [done|]. simplify_eq.
      split; [by destruct Hor as [[_ ->]|[_ ->]]|]. left. apply HA. destruct Hi; [by right|done].
  - intros q y1 Hy1 Hq. apply HA. destruct (Hback _ _ Hy1) as [[-> ->]|(_ & y0 & Hy0 & [[? _]|[_ ->]])]; [|by left|right; by eapply Hr].
    rewrite Hst1 in Hq. by case_bool_decide.
  - intros q y1 Hy1 Hq. destruct (Hback _ _ Hy1) as [[-> ->]|(_ & y0 & Hy0 & [[_ ->]|[_ ->]])]; [done|done|by eapply H1].
  - intros q y1 Hy1. destruct (Hback _ _ Hy1) as [[-> ->]|(_ & y0 & Hy0 & [[_ ->]|[_ ->]])]; [|done|by eapply Hs].
    rewrite Hst1. by case_bool_decide.
  - intros q y1 Hy1. destruct (Hback _ _ Hy1) as [[-> ->]|(_ & y0 & Hy0 & Hor)]; (eapply kont_ok_frame; [exact Hdom|]).
    + unfold resume_point. rewrite Ectx. fold (resume_point x). by eapply Hko.
    + replace (resume_point y1) with (resume_point y0) by (by destruct Hor as [[_ ->]|[_ ->]]). by eapply Hko.
  - by rewrite Hpb.
  - destruct Hrest as (Hm1 & Hm2 & _). apply (resources_ok_step s); [done..|]. intros q y1 Hy1.
    destruct (Hback _ _ Hy1) as [[-> ->]|(_ & y0 & Hy0 & Hor)]; [by exists x|]. exists y0. split; [done|].
    by destruct Hor as [[_ ->]|[_ ->]].
Qed.

(** The processes of the message queues are not concerned. *)
Lemma sem_chans s Q c x A L W sm a ps sig s1 Q1 W1 :
  kernel_inv s Q c x A L W -> chans_ok s Q -> sem_after s Q W sm c A L a ps sig s1 Q1 W1 ->
  (forall p, p ∈ ps -> exists y, procs s !! p = Some y /\ state y <> BLOCKEDQUEUE) -> chans_ok s1 Q1.
Proof.
  intros [Hpre Ha _ _ _ _ _ _ _ _ _] Hch [(x1 & Hpre1 & Hst1 & Hx1) _ _ _ _ _ Hps _ Hblk (_ & _ & Ea & Em) HQ] Hrel.
  pose proof (ru_proc _ _ _ _ (sp_running _ _ _ _ _ _ Hpre)) as Hx. pose proof (ru_proc _ _ _ _ (sp_running _ _ _ _ _ _ Hpre1)) as Hc1.
  eapply (chans_frame None s); [exact Hch|exact Ea|exact Em|exact Hblk|..].
  - intros h p Hh. apply HQ. by destruct (chan_head_main h p Hh).
  - intros q. destruct (decide (q = c)) as [->|Hqc].
    + split; intros z Hz Hs; [|congruence]. assert (z = x1) as -> by congruence. rewrite Hst1 in Hs. by case_bool_decide.
    + rewrite Hps by done. destruct (decide (q ∈ ps)) as [Hin|_]; [|by split; intros z Hz ?; exists z].
      destruct (Hrel q Hin) as (y & Hy & Hns). rewrite Hy. split; intros z [= <-] Hs; [done|congruence].
Qed.

(** The calls other than [wait] add no waiter. *)
Lemma sem_spec_waiters pr c op n ps a rel sig p :
  sem_spec pr c op (mk_asem n ps) = inr (a, rel, sig) ->
  (p ∈ rel -> p ∈ ps) /\ (p ∈ a_waiters a -> p ∈ ps \/ op = CallWait).
Proof.
  assert (Htd : forall k, (p ∈ take k ps -> p ∈ ps) /\ (p ∈ drop k ps -> p ∈ ps)).
  { intros k. rewrite <- (take_drop k ps) at 2 4. rewrite elem_of_app. tauto. }
  destruct op; simpl; intros Hsp; repeat case_match; simplify_eq; simpl; rewrite ?elem_of_nil; try tauto.
  - destruct ps; simpl in *; rewrite ?elem_of_cons, ?elem_of_nil in *; tauto.
  - specialize (Htd (Z.to_nat n0)). tauto.
Qed.

Lemma sem_event s Q c x A L W op id :
  kernel_inv s Q c x A L W -> chans_ok s Q -> call_ok op s -> (op = CallWait -> pid x <> idleId) -> safe_run (sem_run op id) s.
Proof.
  intros Hki Hch Hok Hidle. pose proof Hki as [Hpre Ha Hsh Hco _ _ _ _ _ Hb _].
  pose proof (ru_proc _ _ _ _ (sp_running _ _ _ _ _ _ Hpre)) as Hx.
  destruct (semaphore_table s !! id) as [sm|] eqn:Hid.
  2:{ exists (KRet (-1) [], s). split; [by apply no_semaphore|by eapply inv_intro]. }
  destruct (sh_table _ _ _ Hsh _ _ Hid) as [ns HW]. destruct (sh_rep _ _ _ Hsh _ _ HW) as (x0 & Hx0 & _).
  destruct (sem_spec (pfield s prio) c op (mk_asem (count x0) ns.*2)) as [v|[[a ps] sig]] eqn:Hsp.
  - destruct (sem_error op id s Q c x A L sm x0 ns.*2 v) as (x' & E1 & Hx'); try done.
    eexists. split; [exact E1|]. eapply inv_intro; [done|eapply (kernel_inv_update s); [done..|]; by destruct Hx' as [-> | ->]|].
    eapply (chans_frame None s); [exact Hch|done..|simpl; lia|done|].
    eapply blocked_same_one; [done|exact Hx|by destruct Hx' as [-> | ->]..].
  - destruct (sem_calls_scheduler s Q c x A L W id sm ns x0 op a ps sig) as (k & s1 & Q1 & W1 & E1 & Ek & Hsa); try done.
    assert (Hnw : c ∉ ns.*2) by (intros Hin; by eapply waiters_procs in Hin as [_ ?]).
    destruct (sem_spec_waiters _ _ _ _ _ _ _ _ c Hsp) as [Hrel Hwt].
    destruct (sem_entering s Q c x A L W sm a ps sig s1 Q1 W1) as (x1 & Hen); [done..| |naive_solver|].
    { intros Hin. apply Hidle. naive_solver. }
    assert (Hch1 : chans_ok s1 Q1).
    { eapply sem_chans; [exact Hki|exact Hch|exact Hsa|]. intros p Hp.
      destruct (sem_spec_waiters _ _ _ _ _ _ _ _ p Hsp) as [Hpw _]. apply Hpw in Hp. apply list_elem_of_fmap in Hp as (w & -> & Hw).
      destruct (sh_wait _ _ _ Hsh _ _ _ HW Hw) as (y & Hy & Hsty & _). exists y. split; [done|]. by rewrite Hsty. }
    unfold safe_run. rewrite E1. eapply enter_scheduler; [exact Hen|exact Hch1|]. subst k. destruct op; try done. simpl.
    pose proof (ru_proc _ _ _ _ (sp_running _ _ _ _ _ _ (en_pre _ _ _ _ _ _ _ Hen))). by eexists.
Qed.

(** A semaphore that is created finds memory, its count fits 16 bits. *)
Definition screate_allowed (k : Z) s : Prop := k <= MAX_COUNT /\ malloc_ok (next_block s) = true.

Lemma screate_event s Q c x A L W k :
  kernel_inv s Q c x A L W -> chans_ok s Q -> screate_allowed k s -> safe_run (ret (screate k)) s.
Proof.
  intros Hki Hch (Hmax & Hm). pose proof (screate_run s k Hm) as E1.
  assert (Hsame : screate k s = Ok (-1, s) -> safe_run (ret (screate k)) s).
  { intros E2. apply (read_event s Q c x A L W); [done..|by eexists]. }
  destruct (Z.ltb_spec k 0); cbn [orb] in E1; [by apply Hsame|].
  destruct (_ =? NB_MAX_SEMS); [by apply Hsame|].
  assert (Hnew : forall v s', s' = with_semaphore s k \/ s' = named_semaphore s k -> machine_inv (KRet v [], s')).
  { intros v s' Hs'. assert (Hprocs : procs s' = procs s /\ all_queues s' = all_queues s /\ msg_queues s' = msg_queues s /\
      next_block s' = Pos.succ (next_block s) /\ sems s' = <[next_block s := mk_sem k None]> (sems s)) by by destruct Hs' as [-> | ->].
    destruct Hprocs as (Ep & Ea & Em & Eb & Es). eapply (inv_intro _ _ Q c x A L (<[next_block s := []]> W)); [done| |].
    - apply enters_inv; [|apply Hki]. apply inv_enters in Hki.
      eapply (entering_sems s); [by destruct Hs' as [-> | ->]..|rewrite Eb; lia| | |exact Hki].
      + eapply (sem_shape_add s _ _ _ k); [apply Hki|done|by destruct Hs' as [-> | ->]|done|done|].
        destruct Hs' as [-> | ->]; [by left|by right].
      + eapply counts_ok_add; [apply Hki|done|lia].
    - eapply (chans_frame None s); [exact Hch|done|done|rewrite Eb; lia|done|by apply blocked_same_refl]. }
  destruct (next_semaphore s <? 0); eexists; (split; [unfold ret; by rewrite (run_bind _ _ _ _ _ E1)|]); apply Hnew; [by left|by right].
Qed.

Lemma sdelete_event s Q c x A L W id : kernel_inv s Q c x A L W -> chans_ok s Q -> safe_run (sdelete id) s.
Proof.
  intros Hki Hch. pose proof Hki as [Hpre Ha Hsh Hco _ _ _ _ _ _ _]. destruct (semaphore_table s !! id) as [sm|] eqn:Hid.
  2:{ assert (Hget : get_semaphore_struct id s = Ok (semaphore_table s !! id, s)) by done. exists (KRet (-1) [], s).
    split; [|by eapply inv_intro]. unfold sdelete. by rewrite (run_bind _ _ _ _ _ Hget), Hid. }
  destruct (sh_table _ _ _ Hsh _ _ Hid) as [ns HW].
  destruct (sdelete_after s Q c x A L W id sm ns) as (s1 & Q1 & s2 & Haft & E1 & Es2 & Hsh2 & Hco2); [done..|].
  pose proof (ru_proc _ _ _ _ (sp_running _ _ _ _ _ _ Hpre)) as Hx.
  assert (Hns : forall p, p ∈ ns.*2 -> is_Some (procs s !! p) /\ p <> c) by (intros p; by eapply waiters_procs).
  destruct (sem_entering s Q c x A L W sm _ _ _ s1 Q1 _ Hki Haft) as [x1 Hen].
  { intros Hin. by apply elem_of_nil in Hin. }
  { by intros [_ ?]%Hns. }
  unfold safe_run. rewrite E1. eapply enter_scheduler; [| |done].
  - subst s2. eapply (entering_sems s1); [done..|apply Hen|done|done|simpl; lia|exact Hsh2|exact Hco2|exact Hen].
  - subst s2. eapply (chans_rest s1); [done..|]. eapply sem_chans; [exact Hki|exact Hch|exact Haft|].
    intros p (w & -> & Hw)%list_elem_of_fmap. destruct (sh_wait _ _ _ Hsh _ _ _ HW Hw) as (y & Hy & Hsty & _).
    exists y. split; [done|]. by rewrite Hsty.
Qed.

(** ** Processes *)

Section Creation.
Context {s : kstate} {Q : queues} {A : list ptr} {name : string} {app : uapps} {sz pr arg root l1 : Z}.
Context {T : list Z} {ht : Z} {fs : list Z} {hf sf : Z} {rest : list Z} {s1 : kstate}.
Context (Hst : startable s Q A name app sz pr root l1 T ht fs hf sf rest).
Context (Hcr : created s Q A name app sz pr arg root l1 T ht fs hf sf rest s1).
Let p : ptr := next_block s.
Let A1 : list ptr := insert_prio (pfield s1 prio) p A.
Let Q1 : queues := <[activatable_process_queue := A1]> Q.

Lemma created_other q x : procs s !! q = Some x -> q <> p.
Proof. intros Hx ->. pose proof (created_fresh _ _ _ _ _ _ _ _ _ _ _ _ _ _ _ Hst) as Hf. fold p in Hf. congruence. Qed.

Lemma created_dom1 q : is_Some (procs s !! q) \/ q = p -> is_Some (procs s1 !! q).
Proof. by eapply created_dom. Qed.

(** The processes after the creation. *)
Lemma created_back q y : procs s1 !! q = Some y ->
  q = p /\ state y = ACTIVATABLE /\ resume_point y = KUserEntry /\ children_tail y = None \/
  q <> p /\ exists x, procs s !! q = Some x /\ kin_same x y /\
    (children_tail y = children_tail x \/ children_tail y = Some p).
Proof.
  intros [[-> [l1p ->]]|(Hq & x & Hx & Hk)]%(created_procs _ _ _ _ _ _ _ _ _ _ _ _ _ _ _ _ _ _ _ Hcr); [by left|right].
  split; [done|]. exists x. split; [done|]. split; [by apply (kin_keeps p)|apply Hk].
Qed.

Lemma created_forth q x : procs s !! q = Some x -> exists y, procs s1 !! q = Some y /\ kin_same x y.
Proof.
  intros Hx. pose proof (created_other _ _ Hx) as Hq.
  destruct (created_keeps _ _ _ _ _ _ _ _ _ _ _ _ _ _ _ _ _ _ _ Hcr Hq Hx) as (y & Hy & Hk). exists y.
  split; [done|]. by apply (kin_keeps p).
Qed.

Lemma created_resources : resources_ok s -> resources_ok s1.
Proof.
  intros [Ha Ht Hm]. destruct (cr_grown _ _ _ _ _ _ _ _ _ _ _ _ _ _ _ _ _ Hcr) as [[_ Hb] Hp]. split.
  - intros q [y Hy]. destruct (created_back _ _ Hy) as [[-> _]|(_ & x & Hx & _)]; [done|].
    specialize (Ha q ltac:(by eexists)). lia.
  - intros q y t Hy Htl. destruct (created_back _ _ Hy) as [(_ & _ & _ & E1)|(_ & x & Hx & _ & [E1|E1])]; [congruence|..];
      apply created_dom1; [left; eapply Ht; [exact Hx|congruence]|right; congruence].
  - by apply (created_memory Hst Hcr).
Qed.

(** The scheduler can be called. *)
Lemma created_pre c x L : sched_pre s Q c x A L -> state x = ACTIF ->
  exists x1, sched_pre s1 Q1 c x1 A1 L /\ kin_same x x1.
Proof.
  intros [Hinv [Hcur Hx Hfree Hready] Hk HA HL Hdue Hdead Hmain Hstd] Ha.
  destruct (created_forth _ _ Hx) as (x1 & Hx1 & Hs). pose proof Hs as (E1 & E2 & _). exists x1. split; [|done].
  pose proof (created_inv _ _ _ _ _ _ _ _ _ _ _ _ _ _ _ _ _ Hst Hcr Hinv) as Hinv1.
  pose proof (created_current _ _ _ _ _ _ _ _ _ _ _ _ _ _ _ _ _ Hst Hcr) as Hcur1. rewrite Hcur in Hcur1.
  pose proof (created_other _ _ Hx) as Hcp.
  destruct (cr_frame _ _ _ _ _ _ _ _ _ _ _ _ _ _ _ _ _ Hcr) as (ps & l & m & b & ns & pl & it & Es1).
  split; unfold Q1; rewrite ?lookup_insert_ne by done; try done; try (by rewrite Es1).
  - split; [done|done| |].
    + intros _ [->|Hq]%(created_queued _ _ _ _ _ _ _ _ _ _ _ _ _ _ _ _ _ Hst); [done|by apply Hfree].
    + intros A0 HA0. unfold Q1 in HA0. rewrite lookup_insert_eq in HA0. injection HA0 as <-. unfold A1.
      rewrite elem_of_insert_prio. intros [->|Hin]; [done|by eapply Hready].
  - by rewrite E2.
  - by rewrite lookup_insert_eq.
  - intros Hin. destruct (Hfree Ha). by eapply (queued_in Q asleep_process_queue).
Qed.

(** The invariant around a creation. *)
Lemma created_event c x L W : kernel_inv s Q c x A L W -> exists x1, kernel_inv s1 Q1 c x1 A1 L W.
Proof.
  intros [Hpre Ha Hsh Hco (i & z & Hz & Hid & Hi) Hr H1 Hs Hko Hb Hfo].
  destruct (created_pre _ _ _ Hpre Ha) as (x1 & Hpre1 & (E1 & E2 & _)). exists x1.
  assert (HA1 : forall q, q ∈ A1 <-> q = p \/ q ∈ A) by (intros q; apply elem_of_insert_prio).
  destruct (cr_frame _ _ _ _ _ _ _ _ _ _ _ _ _ _ _ _ _ Hcr) as (ps & l & m & b & ns & pl & it & Es1).
  split; [done|congruence| | | | | | | | |by apply created_resources].
  - eapply (sem_shape_grow s); [by rewrite Es1..|apply Hcr| |done]. intros sm ns0 w y _ _ Hy Hsty Hq.
    destruct (created_forth _ _ Hy) as (y1 & Hy1 & (_ & E3 & _)). exists y1. split; [done|]. split; [congruence|].
    intros [Hw|?]%(created_queued _ _ _ _ _ _ _ _ _ _ _ _ _ _ _ _ _ Hst); [|done].
    by apply (created_other _ _ Hy).
  - intros sm ns0 x0. rewrite Es1. apply Hco.
  - destruct (created_forth _ _ Hz) as (z1 & Hz1 & (E3 & _)). exists i, z1. rewrite HA1. split_and!; [done|congruence|tauto].
  - intros q y Hy Hsy. apply HA1. destruct (created_back _ _ Hy) as [[-> _]|(_ & y0 & Hy0 & (_ & E3 & _) & _)]; [by left|right].
    eapply Hr; [exact Hy0|congruence].
  - intros q y Hy Hsy. destruct (created_back _ _ Hy) as [(_ & Es & _)|(_ & y0 & Hy0 & (_ & E3 & _) & _)]; [congruence|].
    eapply H1; [exact Hy0|congruence].
  - intros q y Hy. destruct (created_back _ _ Hy) as [(_ & -> & _)|(_ & y0 & Hy0 & (_ & -> & _) & _)]; [done|by eapply Hs].
  - intros q y Hy. destruct (created_back _ _ Hy) as [(_ & _ & -> & _)|(_ & y0 & Hy0 & (_ & _ & _ & _ & E3) & _)]; [done|].
    eapply kont_ok_frame; [intros ? ?; apply created_dom1; by left|]. unfold resume_point. rewrite E3. by eapply Hko.
  - by rewrite Es1.
Qed.

(** No message queue is concerned. *)
Lemma created_chans : chans_ok s Q -> chans_ok s1 Q1.
Proof.
  intros Hch. destruct (cr_frame _ _ _ _ _ _ _ _ _ _ _ _ _ _ _ _ _ Hcr) as (ps & l & m & b & ns & pl & it & Es1).
  destruct (cr_grown _ _ _ _ _ _ _ _ _ _ _ _ _ _ _ _ _ Hcr) as [[_ Hb] _].
  eapply (chans_frame None s); [exact Hch|by rewrite Es1|by rewrite Es1|exact Hb|..].
  - intros h q Hh. unfold Q1. rewrite lookup_insert_ne; [done|]. intros <-. by destruct (chan_head_main _ _ Hh).
  - assert (Hmsg : forall x y, kin p x y -> state y = state x /\ message y = message x) by (by intros x y [-> _]).
    intros q. split; intros z Hz Hs.
    + destruct (created_procs _ _ _ _ _ _ _ _ _ _ _ _ _ _ _ _ _ _ _ Hcr Hz) as [[-> [l1p ->]]|(Hq & x & Hx & Hk)]; [done|].
      destruct (Hmsg _ _ Hk) as [E1 E2]. exists x. rewrite E2. split_and!; [done|congruence|done].
    + destruct (created_keeps _ _ _ _ _ _ _ _ _ _ _ _ _ _ _ _ _ _ _ Hcr (created_other _ _ Hz) Hz) as (y & Hy & Hk).
      destruct (Hmsg _ _ Hk) as [E1 E2]. exists y. rewrite E2. split_and!; [done|congruence|done].
Qed.
End Creation.

Lemma room_startable s Q c x A L W name app sz pr root l1 T ht fs hf sf rest :
  kernel_inv s Q c x A L W -> find_app name = Some app -> Z.of_nat (String.length name) <= MAX_SIZE_NAME ->
  nb_proc_running s < MAX_NB_PROCESS -> MINPRIO <= pr <= MAXPRIO -> 0 < sz ->
  room s app (wrapU 32 (sz + PROCESS_SETUP_SIZE)) root l1 T ht fs hf sf rest ->
  0 <= next_pid s -> pid_process_hash_table s !! next_pid s = None ->
  startable s Q A name app sz pr root l1 T ht fs hf sf rest.
Proof.
  intros [Hpre Ha _ _ _ _ _ _ _ _ Hfo]. intros. destruct Hpre as [Hinv [Hcur Hx _ _] _ HA _ _ _ _ _]. split; try done.
  - right. exists c, x. rewrite Ha. by split_and!.
  - rewrite Hcur. intros ? [= <-]. exists x. split; [done|]. intros t. by apply (fo_tail _ Hfo c).
  - apply Hfo.
  - split; [apply Hinv|done].
  - apply Hinv.
Qed.

Lemma start_event s Q c x A L W name sz pr arg :
  kernel_inv s Q c x A L W -> chans_ok s Q -> start_allowed name sz pr s -> safe_run (start_virtual name sz pr arg) s.
Proof.
  intros Hki Hch [Hrej|[Hfull|(n & app & root & l1 & T & ht & fs & hf & sf & rest & -> & ? & ? & ? & ? & ? & ? & ? & ?)]]; unfold safe_run.
  - rewrite start_rejected; [|done|].
    + eexists. split; [done|]. eapply inv_intro; [done|by eapply (kernel_inv_frame s)|by eapply (chans_rest s)].
    + pose proof (ki_pre _ _ _ _ _ _ _ Hki) as [_ [Hcur Hx _ _] _ _ _ _ _ _ _]. right. exists c, x.
      rewrite (ki_active _ _ _ _ _ _ _ Hki). by split_and!.
  - rewrite start_full by lia. eexists. split; [done|]. by eapply inv_intro.
  - assert (Hst : startable s Q A n app sz pr root l1 T ht fs hf sf rest) by by eapply room_startable.
    destruct (start_reaches _ _ _ _ _ _ _ arg _ _ _ _ _ _ _ _ Hst) as (s1 & -> & Hcr).
    rewrite (created_calls _ _ _ _ _ _ _ _ _ _ _ _ _ _ _ _ s1 _ Hst Hcr).
    destruct (created_event Hst Hcr _ _ _ _ Hki) as (x1 & Hki1).
    assert (Hp : is_Some (procs s1 !! next_block s)) by (eapply created_dom; [done..|by right]).
    pose proof (created_chans Hst Hcr Hch) as Hch1.
    destruct (gives_way _ _); [eapply enter_scheduler; [by apply inv_enters|done|done]|].
    eexists. split; [done|]. split; [done|]. by eexists _, c, x1, _, L, W.
Qed.

(** ** The clock *)

Lemma wait_clock_event s Q c x A L W clock :
  kernel_inv s Q c x A L W -> chans_ok s Q -> pid x <> idleId -> 0 <= clock -> 0 <= counter s -> counter s + clock < 2 ^ 63 ->
  safe_run (wait_clock clock) s.
Proof.
  intros Hki Hch Hidle H0 Hc Hov. pose proof (ki_pre _ _ _ _ _ _ _ Hki) as Hpre. pose proof (ki_active _ _ _ _ _ _ _ Hki) as Ha.
  destruct (wait_clock_pre _ _ _ _ _ _ _ Hpre Ha H0 Hc Hov) as (l & E1 & Hpre1). set (x1 := asleep_until x _) in *.
  pose proof Hpre as [_ [_ Hx Hfree _] _ _ HL _ _ _ _]. unfold safe_run. rewrite E1. eapply enter_scheduler; [| |done].
  - eapply (self_enters s Q); [exact Hki|exact Hidle|reflexivity|done|done|done| |exact Hpre1].
    intros q Hq. eapply queued_insert in Hq as [Hq|Hq]; [by left| |exact HL].
    apply elem_of_insert_prio in Hq as [->|Hq]; [by right|left]. by eapply (queued_in Q asleep_process_queue).
  - eapply (chans_frame None s); [exact Hch|done|done|simpl; lia| |].
    + intros h p Hh. rewrite lookup_insert_ne; [done|]. intros <-. by destruct (chan_head_main _ _ Hh) as (_ & ? & _).
    + eapply blocked_same_one; [done|exact Hx|by rewrite Ha|done].
Qed.

(** ** Priorities *)

(** A process that is blocked in a message queue is put at the place of its
    priority in that queue. *)
Lemma requeue_blocked s Q c x A L W p y v :
  kernel_inv s Q c x A L W -> chans_ok s Q -> procs s !! p = Some y -> state y = BLOCKEDQUEUE ->
  safe_run (_ ← qdel (Some p); m ← pget (Some p) message; h ← lift (deref (blocked_head m));
    _ ← qadd (Some p) h prio; mret (KRet v [])) s.
Proof.
  intros Hki Hch Hy Hs. pose proof (ki_pre _ _ _ _ _ _ _ Hki) as [Hinv _ _ _ _ _ _ _ _].
  destruct (co_blocked _ _ _ Hch p y Hy Hs) as (h & p0 & B & Hh & Hb & HB & Hin). destruct (chan_head_main h p0 Hh) as (Hh1 & Hh2 & Hh3).
  apply list_elem_of_split in Hin as (xs & ys & ->). destruct (run_qdel s Q h xs p ys Hinv HB) as (l1 & E1 & Hinv1).
  destruct (run_qadd (s <| links := l1 |>) _ h (xs ++ ys) p y prio Hinv1) as (l2 & E2 & Hinv2);
    [apply lookup_insert_eq|exact Hy|exact (not_queued_del _ _ _ _ _ _ (si_rep _ _ Hinv) HB)|done|].
  rewrite insert_insert_eq in Hinv2. change (s <| links := l1 |> <| links := l2 |>) with (s <| links := l2 |>) in *.
  set (B' := insert_prio _ p (xs ++ ys)) in *.
  assert (Hperm : B' ≡ₚ xs ++ p :: ys) by (unfold B'; by rewrite insert_prio_perm, Permutation_middle).
  exists (KRet v [], s <| links := l2 |>). split.
  - rewrite (run_bind _ _ _ _ _ E1). run_step (eapply wp_pget; [exact Hy|split; reflexivity]). rewrite Hb.
    run_step (eapply wp_lift; [done|split; reflexivity]). rewrite (run_bind _ _ _ _ _ E2). done.
  - eapply inv_intro; [done| |by eapply chans_reorder]. eapply kernel_inv_queue; [exact Hki|exact Hh|exact HB| |exact Hinv2].
    intros q. by rewrite Hperm.
Qed.

Lemma chprio_event s Q c x A L W id new : kernel_inv s Q c x A L W -> chans_ok s Q -> safe_run (chprio id new) s.
Proof.
  intros Hki Hch. pose proof Hki as [Hpre Ha _ _ _ Hr H1 Hs _ _ _].
  assert (Hfail : forall v, chprio id new s = Ok (KRet v [], s) -> safe_run (chprio id new) s).
  { intros v E1. eexists. split; [exact E1|]. by eapply inv_intro. }
  assert (Hget : get_process_struct_of_pid id s = Ok (pid_process_hash_table s !! id, s)) by done.
  destruct (pid_process_hash_table s !! id) as [p|] eqn:Hp.
  2:{ apply (Hfail (-1)). unfold chprio. by rewrite (run_bind _ _ _ _ _ Hget). }
  destruct ((MAXPRIO <? new) || (new <? MINPRIO)) eqn:Erange.
  { apply (Hfail (-1)). unfold chprio. by rewrite (run_bind _ _ _ _ _ Hget), Erange. }
  destruct (proj1 (si_table _ _ (sp_inv _ _ _ _ _ _ Hpre) id p) Hp) as (y & Hy & _).
  destruct (decide (state y = ZOMBIE \/ state y = KILLED)) as [Hdead|Hlive].
  { apply (Hfail (-1)). unfold chprio. rewrite (run_bind _ _ _ _ _ Hget), Erange.
    unfold validate_action_process_valid. destruct Hdead as [Es|Es];
      (run_step (apply wp_bind; eapply wp_pget; [exact Hy|rewrite Es; apply wp_ret; split; reflexivity])); done. }
  apply orb_false_iff in Erange as [Hmax%Z.ltb_ge Hmin%Z.ltb_ge]. unfold safe_run.
  rewrite (chprio_enters s Q id p y new) by (lia || tauto || done || apply Hpre). set (s1 := s <| procs ::= _ |>).
  assert (Hki1 : kernel_inv s1 Q c (if decide (p = c) then with_prio y new else x) A L W) by by eapply kernel_inv_update.
  assert (Hch1 : chans_ok s1 Q).
  { eapply (chans_frame None s); [exact Hch|done|done|simpl; lia|done|]. by eapply (blocked_same_one s s1 p y (with_prio y new)). }
  destruct (Hs p y Hy) as [Hnio Hnwc]. destruct (state y) eqn:Es; try done; try (by eapply safe_return).
  - eapply enter_scheduler; [by apply inv_enters|done|done].
  - pose proof (Hr p y Hy Es) as Hin. apply list_elem_of_split in Hin as (xs & ys & EA).
    assert (Hpc : p <> c) by (intros ->; pose proof (ru_proc _ _ _ _ (sp_running _ _ _ _ _ _ Hpre)); congruence).
    rewrite decide_False in Hki1 by done. destruct Hki1 as [Hpre1 Ha1 Hsh1 Hco1 (i & z & Hz & Hid & Hi) Hr1 H11 Hs1 Hko1 Hb1 Hfo1].
    destruct (requeue_ready s1 Q c x A L p xs ys Hpre1 EA) as (l & E1 & Hpre2). rewrite (run_bind _ _ _ _ _ E1).
    set (A1 := insert_prio _ _ _) in *.
    assert (HA1 : forall q, q ∈ A1 <-> q ∈ A).
    { intros q. unfold A1. rewrite elem_of_insert_prio, EA, !elem_of_app, elem_of_cons. tauto. }
    assert (Hch2 : chans_ok (s1 <| links := l |>) (<[activatable_process_queue := A1]> Q)).
    { eapply (chans_frame None s1); [exact Hch1|done|done|simpl; lia| |by apply blocked_same_refl].
      intros h q Hh. rewrite lookup_insert_ne; [done|]. intros <-. by destruct (chan_head_main _ _ Hh). }
    eapply (enter_scheduler _ _ _ c x A1 L W); [|exact Hch2|done]. split; try done; [congruence| | | |].
    + eapply (sem_shape_frame s1); [done..| |exact Hsh1]. intros sm ns w y0 _ _ Hy0 Hst Hq. exists y0. split_and!; try done.
      intros Hq2. eapply queued_insert in Hq2 as [?|Hq2]; [done| |apply (sp_ready _ _ _ _ _ _ Hpre1)].
      apply Hq. eapply queued_in; [apply (sp_ready _ _ _ _ _ _ Hpre1)|by apply HA1].
    + exists i, z. rewrite HA1. naive_solver.
    + intros q y0 Hy0 Hst. apply HA1. by eapply Hr1.
    + apply (resources_ok_step s1); [done|done|done|simpl; lia|done|]. intros q y0 Hy0. by exists y0.
  - eapply requeue_blocked; [exact Hki1|exact Hch1|apply lookup_insert_eq|exact Es].
Qed.

(** ** Message queues *)

(** A process is released from a message queue. *)
Section Handed.
Context {s : kstate} {Q : queues} {c : ptr} {x : process} {A L : list ptr} {W : gmap ptr (list waiter)}.
Context {p : ptr} {h : qhead} {B : list ptr} {r : ptr} {s1 : kstate} {Q1 : queues}.
Hypothesis Hki : kernel_inv s Q c x A L W.
Hypothesis Hh : chan_head h p.
Hypothesis HB : Q !! h = Some (B ++ [r]).
Hypothesis Hr : exists y, procs s !! r = Some y /\ state y = BLOCKEDQUEUE.
Hypothesis Hho : handed s Q A p h B r s1 Q1.
Hypothesis Hinv1 : sched_inv s1 Q1.
Let A1 : list ptr := insert_prio (pfield s prio) r A.

Lemma handed_other q : q = c \/ q ∈ A -> q <> r.
Proof.
  pose proof (ki_pre _ _ _ _ _ _ _ Hki) as [Hinv [_ _ Hfree _] _ HA _ _ _ _ _]. destruct (chan_head_main h p Hh) as (H1 & _).
  assert (Hin : r ∈ B ++ [r]) by apply elem_snoc_last. intros [->|Hq] ->.
  - apply (Hfree (ki_active _ _ _ _ _ _ _ Hki)). exact (queued_in _ _ _ _ HB Hin).
  - apply H1. exact (rep_disj _ _ (si_rep _ _ Hinv) _ _ _ _ _ HB HA Hin Hq).
Qed.

Lemma handed_queues : Q1 = <[activatable_process_queue := A1]> (<[h := B]> Q) /\ forall q, queued Q1 q -> queued Q q.
Proof.
  pose proof (ki_pre _ _ _ _ _ _ _ Hki) as [_ _ _ HA _ _ _ _ _]. destruct Hho as [_ EQ]. split; [exact EQ|].
  destruct (chan_head_main h p Hh) as (H1 & _). intros q Hq. rewrite EQ in Hq.
  assert (HA' : <[h := B]> Q !! activatable_process_queue = Some A) by (by rewrite lookup_insert_ne).
  apply (queued_insert _ _ _ _ _ HA') in Hq as [Hq|Hq].
  - apply (queued_insert _ _ _ _ _ HB) in Hq as [Hq|Hq]; [done|]. eapply queued_in; [exact HB|by apply elem_snoc_init].
  - apply elem_of_insert_prio in Hq as [->|Hq]; [eapply queued_in; [exact HB|apply elem_snoc_last]|].
    exact (queued_in _ _ _ _ HA Hq).
Qed.

(** The processes, one by one. *)
Lemma handed_back q z : procs s1 !! q = Some z ->
  q <> r /\ procs s !! q = Some z \/ q = r /\ state z = ACTIVATABLE /\ exists y, procs s !! r = Some y /\ messaged y z.
Proof.
  destruct Hho as [(l & mq & y & y1 & Hy & Hm & Hs1 & _ & ->) _]. simpl. rewrite lookup_insert.
  case_decide as Eq; [|left; by split]. intros [= <-]. right. split; [done|]. split; [done|]. by exists y.
Qed.

Lemma handed_forth q z : procs s !! q = Some z -> exists z', procs s1 !! q = Some z' /\ (q <> r -> z' = z).
Proof.
  destruct Hho as [(l & mq & y & y1 & Hy & Hm & Hs1 & _ & ->) _]. simpl. rewrite lookup_insert. intros Hz.
  case_decide; [by exists y1|by exists z].
Qed.

Lemma handed_pre : sched_pre s1 Q1 c x A1 L.
Proof.
  pose proof (ki_pre _ _ _ _ _ _ _ Hki) as Hpre. pose proof Hpre as [_ [_ Hx _ Hready] _ HA HL _ Hdead _ _].
  destruct handed_queues as [EQ Hq]. destruct (chan_head_main h p Hh) as (H1 & H2 & H3).
  destruct (handed_forth c x Hx) as (x' & Hx' & Ex'). rewrite (Ex' (handed_other c (or_introl eq_refl))) in Hx'.
  destruct Hho as [(l & mq & y & y1 & _ & _ & _ & _ & Es) _].
  eapply (sched_pre_step s); [exact Hpre|exact Hinv1|exact Hx'|by rewrite Es..| | | |by apply Hq|].
  - by rewrite EQ, lookup_insert_eq.
  - by rewrite EQ, !lookup_insert_ne.
  - by rewrite EQ, !lookup_insert_ne.
  - intros [Hc|Hin]%elem_of_insert_prio; [exact (handed_other c (or_introl eq_refl) Hc)|by eapply Hready].
Qed.

Lemma handed_inv : kernel_inv s1 Q1 c x A1 L W.
Proof.
  pose proof Hki as [_ Ha Hsh Hco (i & z & Hz & Hid & Hi) Hrd H1 Hs Hko Hb Hfo]. destruct handed_queues as [EQ Hq].
  destruct Hr as (yr & Hyr & Hsr). pose proof Hho as [(l & mq & y & y1 & _ & _ & _ & _ & Es) _].
  assert (Hdom : forall q, is_Some (procs s !! q) -> is_Some (procs s1 !! q)).
  { intros q [w Hw]. destruct (handed_forth q w Hw) as (w' & Hw' & _). by exists w'. }
  split; try done; [exact handed_pre| | | | | | | | |].
  - eapply (sem_shape_frame s); [by rewrite Es..| |done]. intros sm ns w y0 _ _ Hy0 Hst Hnq.
    destruct (handed_forth _ _ Hy0) as (y' & Hy' & Ey'). exists y'. assert (Hwr : w.2 <> r) by (intros Ew; rewrite Ew in Hy0; congruence).
    rewrite (Ey' Hwr) in *. split_and!; [done..|]. intros Hq1. by apply Hnq, Hq.
  - intros sm ns x0. rewrite Es. apply Hco.
  - destruct (handed_forth i z Hz) as (z' & Hz' & Ez'). rewrite (Ez' (handed_other i ltac:(tauto))) in Hz'. exists i, z.
    split; [done|]. split; [done|]. destruct Hi as [Hi|Hi]; [left; apply elem_of_insert_prio; by right|by right].
  - intros q w Hw Hst. apply elem_of_insert_prio. destruct (handed_back q w Hw) as [[_ Hw0]|[-> _]]; [right; by eapply Hrd|by left].
  - intros q w Hw Hst. destruct (handed_back q w Hw) as [[_ Hw0]|(_ & Hact & _)]; [by eapply H1|congruence].
  - intros q w Hw. destruct (handed_back q w Hw) as [[_ Hw0]|(_ & -> & _)]; [by eapply Hs|done].
  - intros q w Hw. eapply kont_ok_frame; [exact Hdom|]. destruct (handed_back q w Hw) as [[_ Hw0]|(-> & _ & y0 & Hy0 & Hm)]; [by eapply Hko|].
    rewrite Hm. by apply (Hko r y0).
  - by rewrite Es.
  - apply (resources_ok_step s); [done|by rewrite Es|by rewrite Es|rewrite Es; simpl; lia|done|].
    intros q w Hw. destruct (handed_back q w Hw) as [[_ Hw0]|(-> & _ & y0 & Hy0 & Hm)]; [by exists w|]. exists y0. split; [done|].
    rewrite Hm. done.
Qed.
End Handed.

(** The running process blocks itself in a message queue. *)
Lemma blocked_enters s Q c x A L W p h B s1 Q1 x1 :
  kernel_inv s Q c x A L W -> pid x <> idleId -> chan_head h p -> Q !! h = Some B ->
  blocked_at s Q h B c x s1 Q1 x1 -> sched_pre s1 Q1 c x1 A L -> entering s1 Q1 c x1 A L W.
Proof.
  intros Hki Hidle Hh HB [[l Es] (Hm & Hst & _) EQ] Hpre1.
  eapply (self_enters s Q); [exact Hki|exact Hidle|exact Es|by rewrite Hm|by rewrite Hm|by rewrite Hst| |exact Hpre1].
  intros q Hq. rewrite EQ in Hq. eapply queued_insert in Hq as [Hq|Hq]; [by left| |exact HB].
  apply elem_of_insert_prio in Hq as [->|Hq]; [by right|left]. exact (queued_in _ _ _ _ HB Hq).
Qed.

(** [psend] and [preceive] *)
Lemma chan_event s Q c x A L W kb m :
  kernel_inv s Q c x A L W -> chans_ok s Q -> pid x <> idleId -> (forall s', is_Some (procs s' !! c) -> kont_ok s' kb) ->
  chan_result s Q c x A L kb m -> safe_run m s.
Proof.
  intros Hki Hch Hidle Hkb [v out mq E1 Hch1|v out p h B r s1 Q1 E1 Hh HB Hho Hpre1 Hch1|p h B s1 Q1 x1 E1 Hh HB Hba Hpre1 Hch1]; unfold safe_run.
  - eexists. split; [exact E1|]. eapply inv_intro; [done| |exact Hch1]. by eapply (kernel_inv_frame s).
  - rewrite E1. eapply enter_scheduler; [apply inv_enters|exact Hch1|done].
    apply (handed_inv Hki Hh HB); [|done|apply Hpre1].
    destruct (co_waiting _ _ _ Hch h p (B ++ [r]) r Hh HB) as (z & Hz & Hs & _); [apply elem_snoc_last|by exists z].
  - rewrite E1. eapply enter_scheduler; [by eapply blocked_enters|exact Hch1|]. apply Hkb.
    rewrite (ru_proc _ _ _ _ (sp_running _ _ _ _ _ _ Hpre1)). by eexists.
Qed.

(** A message queue is emptied of its blocked processes. *)
Section Emptied.
Context (c : ptr) (x : process) (L : list ptr) (W : gmap ptr (list waiter)) (i : nat) (p : ptr).

Definition emptying s Q A : Prop :=
  kernel_inv s Q c x A L W /\ chans_except (Some p) s Q /\ all_queues s !! i = Some (Some p).

Lemma emptying_queue s Q A h : emptying s Q A -> chan_head h p ->
  exists s1 Q1 A1, free_blocked_queue h s = Ok (tt, s1) /\ emptying s1 Q1 A1 /\ Q1 !! h = Some [] /\
    msg_queues s1 = msg_queues s /\ all_queues s1 = all_queues s /\
    (forall h', h' <> h -> h' <> activatable_process_queue -> Q1 !! h' = Q !! h').
Proof.
  intros HI Hh. pose proof HI as (Hki & Hch & Hi). destruct (proj2 (co_known _ _ _ Hch h p Hh) (ex_intro _ i Hi)) as [B HB].
  eapply (free_blocked_queue_spec emptying p h Hh); [| |exact HI|exact HB].
  - intros s0 Q0 A0 (Hki0 & _ & _). split; apply Hki0.
  - intros s0 Q0 A0 B0 r s1 Q1 (Hki0 & Hch0 & Hi0) HB0 Hho _ Hinv1.
    assert (Hr : exists y, procs s0 !! r = Some y /\ state y = BLOCKEDQUEUE).
    { destruct (co_waiting _ _ _ Hch0 h p (B0 ++ [r]) r Hh HB0) as (z & Hz & Hs & _); [apply elem_snoc_last|by exists z]. }
    split; [exact (handed_inv Hki0 Hh HB0 Hr Hho Hinv1)|]. split.
    + eapply chans_handed; [exact Hch0|apply (ki_pre _ _ _ _ _ _ _ Hki0)|exact Hi0|exact Hh|exact HB0|exact Hho|done].
    + by destruct Hho as [(l & mq & y & y1 & _ & _ & _ & _ & ->) _].
Qed.

Lemma emptying_both s Q A : emptying s Q A ->
  exists s1 Q1 A1, (_ ← free_blocked_queue (blocked_cons p); free_blocked_queue (blocked_prod p)) s = Ok (tt, s1) /\ emptying s1 Q1 A1 /\
    Q1 !! blocked_cons p = Some [] /\ Q1 !! blocked_prod p = Some [] /\ msg_queues s1 = msg_queues s /\ all_queues s1 = all_queues s.
Proof.
  intros HI. destruct (emptying_queue s Q A (blocked_cons p) HI (or_introl eq_refl)) as (s1 & Q1 & A1 & E1 & HI1 & HC & Em1 & Ea1 & _).
  destruct (emptying_queue s1 Q1 A1 (blocked_prod p) HI1 (or_intror eq_refl)) as (s2 & Q2 & A2 & E2 & HI2 & HP & Em2 & Ea2 & HQ2).
  exists s2, Q2, A2. split; [by rewrite (run_bind _ _ _ _ _ E1)|]. split; [done|]. split; [by rewrite HQ2|]. split; [done|]. split; congruence.
Qed.
End Emptied.

(** [preset] *)
Lemma preset_event s Q c x A L W fid : kernel_inv s Q c x A L W -> chans_ok s Q -> safe_run (preset fid) s.
Proof.
  intros Hki Hch. unfold safe_run, preset. destruct (chans_fid s Q fid Hch) as [Hv|(p & cap & xs & C & P & Hp & Ef & Hc & Hcap)].
  { eexists. split; [eapply eq_trans; [eapply run_bind; exact Hv|reflexivity]|]. by eapply inv_intro. }
  destruct (run_valid_fid _ _ _ _ _ _ _ _ Hc) as [Ev Eq]. rewrite (run_bind _ _ _ _ _ Ev). cbn [negb].
  rewrite (run_bind _ _ _ _ _ Eq), (run_bind _ _ s p s) by done. pose proof Hc as [_ _ (m & Hm & [M1 M2 M3 M4 M5] & Hsz) _ _ _ _].
  set (m0 := m <| number_of_msgs := 0 |> <| iffc := 0 |>). set (s0 := s <| msg_queues ::= <[p := m0]> |>).
  rewrite (run_bind _ _ s tt s0) by (apply wp_run; eapply (wp_wr msg_queues); [exact Hm|done]).
  assert (HI : emptying c x L W (Z.to_nat fid) p s0 Q A).
  { split; [by eapply (kernel_inv_frame s)|]. split; [by eapply chans_hold|done]. }
  destruct (emptying_both _ _ _ _ _ _ _ _ _ HI) as (s1 & Q1 & A1 & E1 & (Hki1 & Hch1 & Hi1) & HC & HP & Em & Ea).
  assert (Hch2 : chans_ok s1 Q1).
  { eapply chans_restore; [exact Hch1|exact Hi1|]. rewrite Ef. exists cap, [], [], []. split; [|done].
    split; try done; [apply Hc|]. exists m0. rewrite Em. split; [apply lookup_insert_eq|]. split; [|exact Hsz].
    destruct M2 as (arr & M2 & M2' & _). split; simpl; try done; try lia. exists arr. split; [done|]. split; [done|]. intros j y Hj. by rewrite lookup_nil in Hj. }
  apply inv_enters in Hki1. destruct (enter_scheduler (KRet 0 []) _ _ _ _ _ _ _ Hki1 Hch2 eq_refl) as (m' & E2 & Hm').
  exists m'. split; [|done]. rewrite <- E2. unfold mbind, M_bind in E1 |- *.
  destruct (free_blocked_queue (blocked_cons p) s0) as [[[] s2]|]; [|done]. by rewrite E1.
Qed.

(** [pdelete] *)
Lemma pdelete_event s Q c x A L W fid : kernel_inv s Q c x A L W -> chans_ok s Q -> safe_run (pdelete fid) s.
Proof.
  intros Hki Hch. unfold safe_run, pdelete. destruct (chans_fid s Q fid Hch) as [Hv|(p & cap & xs & C & P & Hp & Ef & Hc & Hcap)].
  { eexists. split; [eapply eq_trans; [eapply run_bind; exact Hv|reflexivity]|]. by eapply inv_intro. }
  destruct (run_valid_fid _ _ _ _ _ _ _ _ Hc) as [Ev Eq]. rewrite (run_bind _ _ _ _ _ Ev). cbn [negb].
  rewrite (run_bind _ _ _ _ _ Eq), (run_bind _ _ s p s) by done. pose proof Hc as [_ _ (m & Hm & _) _ _ _ _].
  assert (HI : emptying c x L W (Z.to_nat fid) p s Q A).
  { split; [done|]. split; [|done]. assert (Es : s = s <| msg_queues ::= <[p := m]> |>).
    { transitivity (s <| msg_queues := <[p := m]> (msg_queues s) |>); [rewrite insert_id by done; by destruct s|done]. }
    rewrite Es at 1. by eapply chans_hold. }
  destruct (emptying_both _ _ _ _ _ _ _ _ _ HI) as (s1 & Q1 & A1 & E1 & (Hki1 & Hch1 & Hi1) & HC & HP & Em & Ea).
  set (l := delete (inl (blocked_prod p)) (delete (inl (blocked_cons p)) (links s1))).
  set (s2 := s1 <| msg_queues ::= delete p |> <| links := l |> <| all_queues ::= <[Z.to_nat fid := None]> |>).
  assert (Hch2 : chans_ok s2 (delete (blocked_prod p) (delete (blocked_cons p) Q1))) by by eapply chans_remove.
  assert (HP' : delete (blocked_cons p) Q1 !! blocked_prod p = Some []) by by rewrite lookup_delete_ne.
  assert (Hki2 : kernel_inv s2 (delete (blocked_prod p) (delete (blocked_cons p) Q1)) c x A1 L W).
  { pose proof (kernel_inv_heads s1 Q1 (delete (blocked_prod p) (delete (blocked_cons p) Q1)) c x A1 L W l
      (delete p (msg_queues s1)) (<[Z.to_nat fid := None]> (all_queues s1)) (next_block s1) Hki1) as Hki2. apply Hki2.
    - apply rep_delete_head; [apply rep_delete_head; [apply (ki_pre _ _ _ _ _ _ _ Hki1)|exact HC]|exact HP'].
    - intros q. by rewrite queued_delete, queued_delete.
    - intros q Hq. unfold l. by rewrite !lookup_delete_ne.
    - intros h Hh. rewrite !elem_of_cons, elem_of_nil in Hh. rewrite !lookup_delete_ne; [done|..]; intros <-; naive_solver.
    - lia. }
  destruct (enter_scheduler (KRet 0 []) _ _ _ _ _ _ _ (inv_enters _ _ _ _ _ _ _ Hki2) Hch2 eq_refl) as (m' & E2 & Hm').
  exists m'. split; [|done]. rewrite <- E2.
  assert (Hm1 : msg_queues s1 !! p = Some m) by congruence.
  assert (Efree : Kernel.free msg_queues (Some p) s1 = Ok (tt, s1 <| msg_queues ::= delete p |>)).
  { apply wp_run. by eapply (wp_free msg_queues). }
  unfold mbind, M_bind in E1 |- *. destruct (free_blocked_queue (blocked_cons p) s) as [[[] s0]|]; [|done].
  rewrite E1, Efree. done.
Qed.

(** [pcreate]: with room for a message, and memory, or rejected. *)
Definition pcreate_allowed (count_ : Z) s : Prop :=
  count_ < 0 \/ 0 < count_ /\ 4 * count_ < 2147483647 /\ malloc_ok (next_block s) = true /\
    malloc_ok (Pos.succ (next_block s)) = true.

Lemma first_free_spec qs : forall i, first_free qs i = -1 \/
  exists k, first_free qs i = i + Z.of_nat k /\ qs !! k = Some None.
Proof.
  induction qs as [|[q|] qs IH]; intros i; simpl; [by left| |right; exists 0%nat; split; [lia|done]].
  destruct (IH (i + 1)) as [->|(k & -> & Hk)]; [by left|]. right. exists (S k). split; [lia|done].
Qed.

Lemma pcreate_event s Q c x A L W count_ :
  kernel_inv s Q c x A L W -> chans_ok s Q -> pcreate_allowed count_ s -> safe_run (ret (pcreate count_)) s.
Proof.
  intros Hki Hch [Hneg|(Hpos & Hmax & Hm1 & Hm2)].
  { apply (read_event s Q c x A L W); [done..|]. unfold pcreate. destruct (Z.ltb_spec count_ 0); [by eexists|lia]. }
  destruct (first_free_spec (all_queues s) 0) as [Eno|(k & Ek & Hk)].
  { apply (read_event s Q c x A L W); [done..|]. unfold pcreate. destruct (Z.ltb_spec count_ 0); [lia|]. eexists.
    unfold get_first_free_index, mbind, M_bind, gets, mret, M_ret. by rewrite Eno. }
  set (p := next_block s). set (m := mk_msg_queue (Some (replicate (Z.to_nat count_) (junk_word p))) count_ 0 0).
  set (l := INIT_LIST_HEAD (blocked_prod p) (INIT_LIST_HEAD (blocked_cons p) (links s))).
  set (s1 := s <| msg_queues ::= <[p := m]> |> <| links := l |> <| all_queues ::= <[k := Some p]> |> <| next_block := Pos.succ (Pos.succ p) |>).
  set (Q1 := <[blocked_prod p := []]> (<[blocked_cons p := []]> Q)).
  assert (Hnone : forall h, chan_head h p -> Q !! h = None).
  { intros h Hh. apply eq_None_not_Some. intros Hs. apply (co_known _ _ _ Hch h p Hh) in Hs as [j Hj].
    pose proof (co_fresh _ _ _ Hch _ _ Hj). unfold p in *. lia. }
  assert (Hch1 : chans_ok s1 Q1).
  { eapply chans_add; [done|done|unfold p; lia| |simpl; lia]. split; simpl; try done; try lia.
    eexists. split; [done|]. rewrite length_replicate. split; [lia|]. intros j y Hj. by rewrite lookup_nil in Hj. }
  assert (HC : <[blocked_cons p := []]> Q !! blocked_prod p = None) by (rewrite lookup_insert_ne by done; apply Hnone; by right).
  assert (Hki1 : kernel_inv s1 Q1 c x A L W).
  { apply (kernel_inv_heads s Q Q1 c x A L W l (<[p := m]> (msg_queues s)) (<[k := Some p]> (all_queues s)) (Pos.succ (Pos.succ p)) Hki).
    - apply rep_init_head; [|exact HC]. apply rep_init_head; [apply (ki_pre _ _ _ _ _ _ _ Hki)|apply Hnone; by left].
    - intros q. unfold Q1. rewrite (queued_insert_nil _ _ _ HC), (queued_insert_nil _ _ _ (Hnone _ (or_introl eq_refl))). done.
    - intros q Hq. unfold l, INIT_LIST_HEAD. by rewrite !lookup_insert_ne.
    - intros h Hh. rewrite !elem_of_cons, elem_of_nil in Hh. unfold Q1. rewrite !lookup_insert_ne; [done|..]; intros <-; naive_solver.
    - unfold p. lia. }
  exists (KRet (Z.of_nat k) [], s1). split; [|by eapply inv_intro].
  unfold ret, pcreate. destruct (Z.ltb_spec count_ 0); [lia|]. eapply eq_trans; [eapply run_bind|reflexivity].
  rewrite (run_bind _ _ s (Z.of_nat k) s) by (unfold get_first_free_index, mbind, M_bind, gets, mret, M_ret; by rewrite Ek).
  destruct (Z.ltb_spec (Z.of_nat k) 0); [lia|].
  run_step (eapply (wp_malloc msg_queues junk_queue); [reflexivity|exact Hm1|split; reflexivity]).
  run_step (apply wp_kupd; split; reflexivity). destruct (Z.leb_spec 2147483647 (4 * count_)); [lia|].
  run_step (unfold malloc_block; apply wp_bind, wp_gets, wp_bind, wp_kupd, wp_ret; split; [exact Hm2|reflexivity]). cbn [negb].
  run_step (eapply (wp_wr msg_queues); [apply lookup_insert_eq|split; reflexivity]).
  run_step (apply wp_kupd; split; reflexivity). run_step (apply wp_kupd; split; reflexivity).
  transitivity (@Ok (Z * kstate) (Z.of_nat k, s <| msg_queues := <[p := m]> (<[p := junk_queue p]> (msg_queues s)) |> <| links := l |>
    <| all_queues := <[Z.to_nat (Z.of_nat k) := Some p]> (all_queues s) |> <| next_block := Pos.succ (Pos.succ p) |>)); [reflexivity|].
  by rewrite insert_insert_eq, Nat2Z.id.
Qed.

(** ** The end of a process *)

(** A process whose children are alive and whose parent is alive. *)
Definition can_end s (p : ptr) (x : process) : Prop := exists ks q y,
  has_children s x ks /\ parent x = Some q /\ p <> q /\ procs s !! q = Some y /\ state y <> ZOMBIE.

Lemma exit_event s Q c x A L W v :
  kernel_inv s Q c x A L W -> chans_ok s Q -> pid x <> idleId -> can_end s c x -> safe_run (exit_process v (KRet 0 [])) s.
Proof.
  intros Hki Hch Hidle (ks & q & y & Hks & Hpar & Hcq & Hy & Hz). pose proof (ki_pre _ _ _ _ _ _ _ Hki) as Hpre.
  pose proof (ki_active _ _ _ _ _ _ _ Hki) as Ha. pose proof Hpre as [_ [Hcur Hx _ _] _ HA _ _ _ _ _].
  destruct (ki_states _ _ _ _ _ _ _ Hki q y Hy) as [_ Hnw].
  destruct (exit_leaves s s Q c x A L q y v Hcur Hx (make_orphans_alive s c x ks Hx Hks) Hpre Ha Hpar Hcq Hy Hz ltac:(done) (KRet 0 []))
    as (s1 & E1 & Hpre1 & (l & Es1) & _).
  assert (Hw : exit_wakes y = false) by by apply bool_decide_eq_false_2. unfold exit_ready, exit_procs in *. rewrite Hw in *.
  rewrite insert_id in Hpre1 by done. unfold safe_run. rewrite E1. eapply enter_scheduler; [| |done].
  - eapply (self_enters s Q _ _ _ L _ _ _ _ l); [exact Hki|exact Hidle|exact Es1|done|done|done|by left|exact Hpre1].
  - eapply (chans_frame None s); [exact Hch|by rewrite Es1|by rewrite Es1|rewrite Es1; simpl; lia|done|].
    eapply blocked_same_one; [by rewrite Es1|exact Hx|by rewrite Ha|done].
Qed.

(** ** The other calls *)

Lemma getprio_reads s Q id : sched_inv s Q -> exists v, getprio id s = Ok (v, s).
Proof.
  intros Hinv. unfold getprio. assert (Hget : get_process_struct_of_pid id s = Ok (pid_process_hash_table s !! id, s)) by done.
  rewrite (run_bind _ _ _ _ _ Hget). destruct (pid_process_hash_table s !! id) as [p|] eqn:Hp; [|by eexists].
  destruct (proj1 (si_table _ _ Hinv id p) Hp) as (y & Hy & _).
  assert (Hv : validate_action_process_valid (Some p) s =
    Ok (if bool_decide (state y = ZOMBIE) || bool_decide (state y = KILLED) then -1 else 0, s)).
  { unfold validate_action_process_valid. run_step (eapply wp_pget; [exact Hy|split; reflexivity]). by destruct (_ || _). }
  rewrite (run_bind _ _ _ _ _ Hv). destruct (_ || _); [by eexists|]. exists (prio y).
  apply wp_run. eapply wp_pget; [exact Hy|done].
Qed.

Lemma scount_reads s Q W id : sem_shape s Q W -> exists v, scount id s = Ok (v, s).
Proof.
  intros Hsh. unfold scount. assert (Hget : get_semaphore_struct id s = Ok (semaphore_table s !! id, s)) by done.
  rewrite (run_bind _ _ _ _ _ Hget). destruct (semaphore_table s !! id) as [sm|] eqn:Hid; [|by eexists].
  destruct (sh_table _ _ _ Hsh _ _ Hid) as [ns HW]. destruct (sh_rep _ _ _ Hsh _ _ HW) as (x0 & Hx0 & _).
  eexists. run_step (eapply (wp_rd sems); [exact Hx0|split; reflexivity]). reflexivity.
Qed.

(** The console is not concerned. *)
Lemma console_event s Q c x A L W con v : kernel_inv s Q c x A L W -> chans_ok s Q ->
  machine_inv (KRet v [], s <| console_dev := con |>).
Proof. intros Hki Hch. eapply inv_intro; [done|by eapply (kernel_inv_frame s)|by eapply (chans_rest s)]. Qed.

Lemma show_ps_info_reads s Q : sched_inv s Q -> exists v, show_ps_info s = Ok (v, s).
Proof.
  intros Hinv. unfold show_ps_info. rewrite (run_bind _ _ s (pid_iterator s) s) by done. generalize (Z.to_nat (pid_iterator s + 1)) 0.
  intros n. induction n as [|n IH]; intros i; [by eexists|]. cbn [ps_lines].
  assert (Hget : get_process_struct_of_pid i s = Ok (pid_process_hash_table s !! i, s)) by done.
  rewrite (run_bind _ _ _ _ _ Hget). destruct (IH (i + 1)) as [ls Els]. destruct (pid_process_hash_table s !! i) as [p|] eqn:Hp.
  - destruct (proj1 (si_table _ _ Hinv i p) Hp) as (y & Hy & _). exists ([(pid y, process_name y, state y)] ++ ls).
    assert (Eline : (x ← rd procs (Some p); mret [(pid x, process_name x, state x)]) s = Ok ([(pid y, process_name y, state y)], s)).
    { apply wp_run, wp_bind. eapply (wp_rd procs); [exact Hy|done]. }
    by rewrite (run_bind _ _ _ _ _ Eline), (run_bind _ _ _ _ _ Els).
  - exists ls. rewrite (run_bind _ _ s [] s) by done. by rewrite (run_bind _ _ _ _ _ Els).
Qed.

Lemma tick_event s Q c x A L W k : kernel_inv s Q c x A L W -> chans_ok s Q -> kont_ok s k ->
  safe_run (_ ← kupd counter (fun n => wrapU 64 (n + 1)); scheduler k) s.
Proof.
  intros Hki Hch Hk. unfold safe_run. rewrite (run_bind _ _ s tt (s <| counter ::= (fun n => wrapU 64 (n + 1)) |>)) by done.
  eapply enter_scheduler; [eapply inv_enters, (kernel_inv_frame s); done|by eapply (chans_rest s)|by eapply (kont_ok_frame s)].
Qed.

End Calls.
