(* ===== verification/Machine.v ===== *)
(** * Machine: the system from trap to trap

    The processor runs at a continuation, on a kernel state.  In user code a
    timer interrupt or a system call may arrive at any point, and the program
    writes in its pages; a process that was suspended inside the kernel goes on
    with its call.  The system calls covered are those on the clock, the
    priorities, the semaphores and the message queues, the output on the
    console, the creation of processes, and their end. *)

From stdpp Require Export relations.
From S2P Require Import Prelude.
From S2P Require Import Queue.
From S2P Require Import FrameDist.
From S2P Require Import Pages.
From S2P Require Import Kernel.
From S2P Require Import KernelRules.
From S2P Require Import ProcessFree.
From S2P Require Import Scheduler.
From S2P Require Import SchedulerSpec.
From S2P Require Import Semaphore.
From S2P Require Import SemaphoreSpec.
From S2P Require Import MsgQueue.
From S2P Require Import MsgQueueSpec.
From S2P Require Import ChannelSpec.
From S2P Require Import ProcessApi.
From S2P Require Import Console.
From S2P Require Import Traps.
From S2P Require Import ProcessApiSpec.
From S2P Require Import TableList.
From S2P Require Import StartSpec.
From S2P Require Import Isolation.
From S2P Require Import MachineInv.
From S2P Require Import MachineCalls.
#[local] Open Scope Z_scope.

Inductive event : Type := Tick | Ecall (tf : trap_frame).

Section Machine.
Context `{E : KEnv}.
Context (virt : bool) (user_string : Z -> option string) (user_bytes : Z -> Z -> list Z) (clk_freq : Z).

Definition trap (e : event) : K kont :=
  match e with
  | Tick => strap_interrupt virt (if virt then intr_s_software else intr_s_timer)
  | Ecall tf => strap_exception user_string user_bytes clk_freq CAUSE_USER_ECALL tf
  end.

(** The calls that need nothing of the state. *)
Definition plain_calls : list Z :=
  [SYSC_getpid; SYSC_getprio; SYSC_chprio; SYSC_current_clock; SYSC_clock_settings; SYSC_scount; SYSC_signal; SYSC_signaln;
   SYSC_try_wait; SYSC_sdelete; SYSC_pcount; SYSC_preset; SYSC_pdelete; SYSC_cons_write; SYSC_cons_echo; SYSC_show_ps_info;
   SYSC_show_programs; SYSC_info_queue].

(** The calls covered.  The idle process neither blocks nor ends; a wait finds
    memory for its node, the new count of [sreset] fits 16 bits, dates do not
    overflow, a process, a semaphore or a message queue that is created finds
    memory, and the process a new pid; a process that ends has no dead child, and its
    parent is alive. *)
Inductive call_allowed (tf : trap_frame) (s : kstate) : Prop :=
  | allow_plain : a7 tf ∈ plain_calls -> call_allowed tf s
  | allow_start : a7 tf = SYSC_start -> start_allowed (user_string (a0 tf)) (a1 tf) (int_arg (a2 tf)) s -> call_allowed tf s
  | allow_wait : a7 tf = SYSC_wait -> current_running_process_pid s <> idleId -> call_ok CallWait s -> call_allowed tf s
  | allow_sreset : a7 tf = SYSC_sreset -> int_arg (a1 tf) <= 32767 -> call_allowed tf s
  | allow_clock ticks : a7 tf = SYSC_wait_clock /\ ticks = a0 tf \/ a7 tf = SYSC_sleep /\ ticks = a0 tf / TIC_PER ->
      current_running_process_pid s <> idleId -> 0 <= ticks -> 0 <= counter s -> counter s + ticks < 2 ^ 63 -> call_allowed tf s
  | allow_message : a7 tf = SYSC_psend \/ a7 tf = SYSC_preceive -> current_running_process_pid s <> idleId -> call_allowed tf s
  | allow_screate : a7 tf = SYSC_screate -> screate_allowed (short_arg (a0 tf)) s -> call_allowed tf s
  | allow_pcreate : a7 tf = SYSC_pcreate -> pcreate_allowed (int_arg (a0 tf)) s -> call_allowed tf s
  | allow_exit c x : a7 tf = SYSC_exit -> current_running_process_pid s <> idleId ->
      pid_process_hash_table s !! current_running_process_pid s = Some c -> procs s !! c = Some x -> can_end s c x -> call_allowed tf s.

Definition allowed (e : event) (s : kstate) : Prop :=
  match e with Tick => True | Ecall tf => call_allowed tf s end.

(** A step is a trap in user code, the rest of a kernel call that was suspended,
    or writes of the user code of the current process in its pages. *)
Inductive machine_step : kont * kstate -> kont * kstate -> Prop :=
  | step_trap k s e m : user_code k = true -> allowed e s -> trap e s = Ok m -> machine_step (k, s) m
  | step_kernel k s m : user_code k = false -> resume k s = Ok m -> machine_step (k, s) m
  | step_user k s c m : user_code k = true -> pid_process_hash_table s !! current_running_process_pid s = Some c ->
      user_write s c m -> machine_step (k, s) (k, s <| frame_mem := m |>).

Section Safe.
Context (s : kstate) (Q : queues) (c : ptr) (x : process) (A L : list ptr) (W : gmap ptr (list waiter)).
Hypothesis Hki : kernel_inv s Q c x A L W.
Hypothesis Hch : chans_ok s Q.

Lemma current_pid : pid x = current_running_process_pid s.
Proof.
  pose proof (sp_running _ _ _ _ _ _ (ki_pre _ _ _ _ _ _ _ Hki)) as [Hcur Hx _ _].
  apply (si_table _ _ (sp_inv _ _ _ _ _ _ (ki_pre _ _ _ _ _ _ _ Hki))) in Hcur as (x' & Hx' & <-). congruence.
Qed.

Lemma plain_safe tf : a7 tf ∈ plain_calls -> safe_run (trap (Ecall tf)) s.
Proof.
  change (trap (Ecall tf)) with (syscall_handler user_string user_bytes clk_freq tf). unfold syscall_handler.
  pose proof (sp_inv _ _ _ _ _ _ (ki_pre _ _ _ _ _ _ _ Hki)) as Hinv.
  assert (Hret : forall v out, machine_inv (KRet v out, s)) by by intros; eapply inv_intro.
  unfold plain_calls. rewrite !elem_of_cons, elem_of_nil. intros Hin. destruct_or! Hin; try done; rewrite Hin.
  - by apply (read_event s Q c x A L W); [..|eexists].
  - apply (read_event s Q c x A L W); [done..|by eapply getprio_reads].
  - by eapply chprio_event.
  - by apply (read_event s Q c x A L W); [..|eexists].
  - eexists. split; [reflexivity|apply Hret].
  - apply (read_event s Q c x A L W); [done..|by eapply scount_reads, Hki].
  - by apply (sem_event s Q c x A L W CallSignal).
  - by apply (sem_event s Q c x A L W (CallSignaln _)).
  - by apply (sem_event s Q c x A L W CallTryWait).
  - by eapply sdelete_event.
  - destruct (pcount_reads s Q c x A L (ki_pre _ _ _ _ _ _ _ Hki) Hch (int_arg (a0 tf)) (nz (a1 tf))) as (v & out & E1).
    exists (KRet v out, s). split; [exact E1|apply Hret].
  - by eapply preset_event.
  - by eapply pdelete_event.
  - destruct (cons_write (console_dev s) (user_bytes (a0 tf) (a1 tf))) as [v con] eqn:Ew.
    exists (KRet v [], s <| console_dev := con |>). split; [|by eapply console_event].
    transitivity ((let '(v, con) := cons_write (console_dev s) (user_bytes (a0 tf) (a1 tf)) in
      _ ← kput console_dev con; mret (KRet v [])) s); [reflexivity|by rewrite Ew].
  - eexists. split; [reflexivity|]. by eapply console_event.
  - destruct (show_ps_info_reads s Q Hinv) as [v E1]. exists (KRet 0 [], s). split; [|apply Hret].
    transitivity ((_ ← show_ps_info; mret (KRet 0 [])) s); [reflexivity|by rewrite (run_bind _ _ _ _ _ E1)].
  - eexists. split; [reflexivity|apply Hret].
  - eexists. split; [reflexivity|apply Hret].
Qed.

(** A trap in user code is handled without a fault and keeps the invariant. *)
Lemma trap_safe e : allowed e s -> safe_run (trap e) s.
Proof.
  pose proof (ki_pre _ _ _ _ _ _ _ Hki) as Hpre. destruct e as [|tf].
  { intros _. unfold trap. destruct virt; [|by eapply tick_event].
    assert (Hki0 : kernel_inv (s <| sstatus_sie := false |>) Q c x A L W) by by eapply (kernel_inv_frame s).
    assert (Hch0 : chans_ok (s <| sstatus_sie := false |>) Q) by by eapply (chans_rest s).
    exact (tick_event _ _ _ _ _ _ _ (KTick true) Hki0 Hch0 I). }
  unfold allowed. intros [Hin|E1 Hs|E1 Hid Hok|E1 Hle|ticks Hor Hid H0 Hc Hov|Hor Hid|E1 Hal|E1 Hal|c' x' E1 Hid Hcur Hx Hend]; [by apply plain_safe|..];
    change (trap (Ecall tf)) with (syscall_handler user_string user_bytes clk_freq tf); unfold syscall_handler;
    try rewrite <- current_pid in Hid.
  - rewrite E1. by eapply start_event.
  - rewrite E1. by apply (sem_event s Q c x A L W CallWait).
  - rewrite E1. by apply (sem_event s Q c x A L W (CallSreset _)).
  - destruct Hor as [[E1 ->]|[E1 ->]]; rewrite E1; by eapply (wait_clock_event s Q c x A L W).
  - assert (Hkb : forall s' : kstate, is_Some (procs s' !! c) -> kont_ok s' (KPsend c) /\ forall want, kont_ok s' (KPreceive c want)) by done.
    destruct Hor as [E1|E1]; rewrite E1.
    + eapply (chan_event s Q c x A L W (KPsend c)); [done..|exact (psend_result s Q c x A L Hpre (ki_active _ _ _ _ _ _ _ Hki) Hch _ _)].
    + eapply (chan_event s Q c x A L W (KPreceive c _)); [done..|exact (preceive_result s Q c x A L Hpre (ki_active _ _ _ _ _ _ _ Hki) Hch _ _)].
  - rewrite E1. by eapply screate_event.
  - rewrite E1. by eapply pcreate_event.
  - pose proof (sp_running _ _ _ _ _ _ Hpre) as [Hcur' Hx' _ _]. rewrite Hcur' in Hcur. injection Hcur as <-.
    assert (x' = x) as -> by congruence. rewrite E1. by eapply exit_event.
Qed.

(** A suspended call goes on without a fault and keeps the invariant. *)
Lemma resume_safe k : kont_ok s k -> user_code k = false -> safe_run (resume k) s.
Proof.
  assert (Hret : forall v out, machine_inv (KRet v out, s)) by by intros; eapply inv_intro.
  intros Hk Hu. destruct k; try done; simpl in Hk |- *; try destruct Hk as [y Hy].
  - unfold resume_tick. assert (Hki1 : kernel_inv (s <| sstatus_sie := true |>) Q c x A L W) by by eapply (kernel_inv_frame s).
    assert (Hch1 : chans_ok (s <| sstatus_sie := true |>) Q) by by eapply (chans_rest s).
    unfold safe_run. rewrite (run_bind _ _ s tt (s <| sstatus_sie := true |>)) by done.
    destruct again; [exact (tick_event _ _ _ _ _ _ _ (KTick false) Hki1 Hch1 I)|by eapply safe_return].
  - exists (KRet (pid y) [], s). unfold resume_start. split; [|apply Hret].
    run_step (eapply wp_pget; [exact Hy|split; reflexivity]). done.
  - exists (KRet (sem_signal y) [], s). unfold resume_wait. split; [|apply Hret].
    run_step (eapply wp_pget; [exact Hy|split; reflexivity]). done.
  - eexists. unfold resume_psend. split; [run_step (eapply wp_pget; [exact Hy|split; reflexivity]); reflexivity|].
    case_bool_decide; apply Hret.
  - eexists. unfold resume_preceive. split; [run_step (eapply wp_pget; [exact Hy|split; reflexivity]); reflexivity|].
    case_bool_decide; apply Hret.
Qed.
End Safe.

(** The invariant, and what it says of a state. *)
Lemma steps_safe m m' : machine_inv m -> rtc machine_step m m' -> machine_inv m'.
Proof.
  intros Hm Hsteps. induction Hsteps as [|m1 m2 m3 Hstep _ IH]; [done|]. apply IH. destruct Hm as (Hk & Q & c & x & A & L & W & Hki & Hch).
  destruct Hstep as [k s e m Hu Hal E1|k s m Hu E1|k s c' m Hu Hc Hw].
  - destruct (trap_safe s Q c x A L W Hki Hch e Hal) as (m'' & E2 & Hinv). congruence.
  - destruct (resume_safe s Q c x A L W Hki Hch k Hk Hu) as (m'' & E2 & Hinv). congruence.
  - assert (c' = c) as -> by (pose proof (sp_running _ _ _ _ _ _ (ki_pre _ _ _ _ _ _ _ Hki)) as [Hcur _ _ _]; simpl in *; congruence).
    eapply inv_intro; [done|by eapply kernel_inv_user|by eapply (chans_rest s)].
Qed.

(** The kernel handles whatever comes next, and exactly one process is
    active, the one whose pid is the current one. *)
Definition healthy (m : kont * kstate) : Prop :=
  (if user_code m.1 then forall e, allowed e m.2 -> exists m', trap e m.2 = Ok m'
   else exists m', resume m.1 m.2 = Ok m') /\
  exists c x, pid_process_hash_table m.2 !! current_running_process_pid m.2 = Some c /\
    procs m.2 !! c = Some x /\ (forall p z, procs m.2 !! p = Some z -> (state z = ACTIF <-> p = c)) /\ isolated m.2.

Lemma inv_healthy m : machine_inv m -> healthy m.
Proof.
  destruct m as [k s]. intros (Hk & Q & c & x & A & L & W & Hki & Hch). unfold healthy. simpl in *. split.
  - destruct (user_code k) eqn:Hu.
    + intros e Hal. destruct (trap_safe s Q c x A L W Hki Hch e Hal) as (m'' & E2 & _). by exists m''.
    + destruct (resume_safe s Q c x A L W Hki Hch k Hk Hu) as (m'' & E2 & _). by exists m''.
  - pose proof (sp_running _ _ _ _ _ _ (ki_pre _ _ _ _ _ _ _ Hki)) as [Hcur Hx _ _]. exists c, x. do 2 (split; [done|]).
    split; [|by apply spaces_isolated, (ki_resources _ _ _ _ _ _ _ Hki)].
    intros p z Hz. split; [by eapply ki_one|]. intros ->. pose proof (ki_active _ _ _ _ _ _ _ Hki). congruence.
Qed.


End Machine.
