(* ===== verification/MachineWitness.v ===== *)
(** * MachineWitness: the system on a small state

    The idle process 1 runs, process 2 waits on a semaphore, process 3 is
    ready.  Process 1 signals the semaphore, the timer ticks, and the process
    that was waiting uses a message queue. *)

From S2P Require Import Prelude.
From S2P Require Import Queue.
From S2P Require Import FrameDist.
From S2P Require Import Pages.
From S2P Require Import Kernel.
From S2P Require Import KernelRules.
From S2P Require Import ProcessFree.
From S2P Require Import Scheduler.
From S2P Require Import SchedulerSpec.
From S2P Require Import Demo.
From S2P Require Import Semaphore.
From S2P Require Import SemaphoreSpec.
From S2P Require Import SemaphoreWitness.
From S2P Require Import Traps.
From S2P Require Import ProcessMemorySpec.
From S2P Require Import Isolation.
From S2P Require Import MsgQueue.
From S2P Require Import ChannelSpec.
From S2P Require Import MachineInv.
From S2P Require Import MachineCalls.
From S2P Require Import Machine.
#[local] Open Scope Z_scope.
#[local] Existing Instance demo_env.

Definition demo_step := machine_step false (fun _ => None) (fun _ _ => []) 10000000.
Definition demo_trap := trap false (fun _ => None) (fun _ _ => []) 10000000.

Lemma one_waiter_inv : machine_inv (KIret, one_waiter).
Proof.
  split; [done|]. exists (demo_Q [3%positive] []), 1%positive, (demo_process 1 5 ACTIF 0), [3%positive], [], one_waiter_W.
  assert (Hp : forall p z, procs one_waiter !! p = Some z -> p = 1%positive /\ z = demo_process 1 5 ACTIF 0 \/
    p = 2%positive /\ z = demo_process 2 10 BLOCKEDSEMAPHORE 0 \/ p = 3%positive /\ z = demo_process 3 3 ACTIVATABLE 0).
  { intros p z. apply demo_procs. }
  split; [|by apply no_chans; [|intros h p [-> | ->]|intros p z [[-> ->]|[[-> ->]|[-> ->]]]%Hp]].
  split; [exact one_waiter_pre|done|exact one_waiter_shape|exact one_waiter_counts| | | | | |done|].
  - exists 1%positive, (demo_process 1 5 ACTIF 0). split_and!; [done|done|by right].
  - intros p z [[-> ->]|[[-> ->]|[-> ->]]]%Hp Hs; try done. by left.
  - intros p z [[-> ->]|[[-> ->]|[-> ->]]]%Hp Hs; done.
  - intros p z [[-> ->]|[[-> ->]|[-> ->]]]%Hp; done.
  - intros p z [[-> ->]|[[-> ->]|[-> ->]]]%Hp; done.
  - split; [intros p [z [[-> _]|[[-> _]|[-> _]]]%Hp]; done|intros p z t [[-> ->]|[[-> ->]|[-> ->]]]%Hp; done|].
    exists ∅, []. split; try done.
    + by left.
    + intros p z [[-> ->]|[[-> ->]|[-> ->]]]%Hp; done.
    + split; [apply not_elem_of_nil|]. intros m va pa e Hag _ Hw. unfold sv39_walk in Hw.
      rewrite Hag in Hw; [done|by left|]. unfold vpn. apply Z.mod_pos_bound. lia.
Qed.

(** The result of a run, the initial state where there is none. *)
Definition result (r : res (kont * kstate)) : kont * kstate := match r with Ok m => m | Err _ => (KIret, one_waiter) end.
Definition signal_call : event := Ecall (mk_tf 7 0 0 0 SYSC_signal).
Definition after_signal : kont * kstate := result (demo_trap signal_call one_waiter).
Definition after_wake : kont * kstate := result (demo_trap Tick after_signal.2).
Definition create_call : event := Ecall (mk_tf 1 0 0 0 SYSC_pcreate).
Definition after_create : kont * kstate := result (demo_trap create_call after_wake.2).
Definition send_call : event := Ecall (mk_tf 0 42 0 0 SYSC_psend).
Definition after_send : kont * kstate := result (demo_trap send_call after_create.2).
Definition after_block : kont * kstate := result (demo_trap send_call after_send.2).
Definition after_tick : kont * kstate := result (demo_trap Tick after_block.2).

Lemma demo_trap_step m e m' : user_code m.1 = true -> allowed (fun _ => None) e m.2 -> demo_trap e m.2 = Ok m' -> demo_step m m'.
Proof. destruct m as [k s]. intros Hu Hal E1. exact (step_trap _ _ _ _ k s e m' Hu Hal E1). Qed.

(** The process that waited is woken, creates a message queue for one message,
    sends one, and blocks on the next. *)
Lemma demo_steps : rtc demo_step (KIret, one_waiter) after_tick.
Proof.
  assert (Hplain : forall tf s, bool_decide (a7 tf ∈ plain_calls) = true -> allowed (fun _ => None) (Ecall tf) s).
  { intros tf s Hin%bool_decide_eq_true. by apply allow_plain. }
  eapply rtc_l; [|eapply rtc_l; [|eapply rtc_l; [|eapply rtc_l; [|eapply rtc_l; [|eapply rtc_l; [|apply rtc_refl]]]]]].
  - apply (demo_trap_step _ signal_call after_signal); [done|by apply Hplain|by vm_compute].
  - apply (demo_trap_step _ Tick after_wake); [by vm_compute|done|by vm_compute].
  - apply (demo_trap_step _ create_call after_create); [by vm_compute| |by vm_compute].
    apply allow_pcreate; [done|]. right. by vm_compute.
  - apply (demo_trap_step _ send_call after_send); [by vm_compute| |by vm_compute]. apply allow_message; [by left|by vm_compute].
  - apply (demo_trap_step _ send_call after_block); [by vm_compute| |by vm_compute]. apply allow_message; [by left|by vm_compute].
  - apply (demo_trap_step _ Tick after_tick); [by vm_compute|done|by vm_compute].
Qed.

