(* ===== verification/System.v ===== *)
(** * System: from the reset to the first user program

    The kernel's data at the reset, [kernel_start] up to the creation of the
    idle process and of the shell, the first tick, and the life of the system
    after it. *)

From stdpp Require Import relations.
From S2P Require Import Prelude.
From S2P Require Import Queue.
From S2P Require Import FrameDist.
From S2P Require Import Pages.
From S2P Require Import Kernel.
From S2P Require Import KernelRules.
From S2P Require Import ProcessMemory.
From S2P Require Import TableList.
From S2P Require Import ProcessMemorySpec.
From S2P Require Import SharedMemory.
From S2P Require Import ProcessFree.
From S2P Require Import Scheduler.
From S2P Require Import SchedulerSpec.
From S2P Require Import SemaphoreSpec.
From S2P Require Import ProcessApi.
From S2P Require Import Traps.
From S2P Require Import Devices.
From S2P Require Import Boot.
From S2P Require Import DevicesSpec.
From S2P Require Import BootSpec.
From S2P Require Import StartSpec.
From S2P Require Import Isolation.
From S2P Require Import ChannelSpec.
From S2P Require Import MachineInv.
From S2P Require Import MachineCalls.
From S2P Require Import Machine.
#[local] Open Scope Z_scope.

(** ** The data at the reset *)

(** The heads of the four queues point to themselves. *)
Definition static_links : gmap (qhead + ptr) (@link qhead ptr) :=
  INIT_LIST_HEAD activatable_process_queue (INIT_LIST_HEAD asleep_process_queue
    (INIT_LIST_HEAD dead_process_queue (INIT_LIST_HEAD blocked_io_process_queue ∅))).
Definition static_queues : queues :=
  <[activatable_process_queue := []]> (<[asleep_process_queue := []]>
    (<[dead_process_queue := []]> (<[blocked_io_process_queue := []]> ∅))).

(** The initialised data of the kernel; [ram] and [con] are what the memory
    and the console hold. *)
Definition kernel_reset (ram : fmem) (con : console_device_t) : kstate :=
  mk_kstate ram 0 static_links ∅ ∅ ∅ ∅ ∅ ∅ ∅ ∅ 1%positive ∅ ∅ ∅ (replicate 100 None) (-1) 0 0 [] 0 None 0 0
    false None false 0 false false con.

Lemma static_rep : rep static_links static_queues.
Proof. do 4 (apply rep_init_head; [|done]). apply rep_empty. Qed.

Lemma static_unqueued p : ~ queued static_queues p.
Proof.
  intros (h & xs & HQ & Hp). unfold static_queues in HQ.
  repeat (rewrite lookup_insert in HQ; case_decide; [simplify_eq; by apply elem_of_nil in Hp|]).
  by rewrite lookup_empty in HQ.
Qed.

Section System.
Context `{E : KEnv}.

(** ** Memory for a program *)

(** The level-0 tables for [n] pages, and the frames a process takes. *)
Definition tables_for (n : nat) : nat := ((n + 511) / 512)%nat.
Definition pages_for (app : uapps) (size : Z) : nat := (pages_of (code_size_of app) + pages_of size)%nat.
Definition frames_for (app : uapps) (size : Z) : nat := (5 + tables_for (pages_for app size) + pages_for app size)%nat.

Lemma split_list {X} (F : list X) (a b : nat) : (5 + a + b < length F)%nat ->
  exists root l1 T ht fs hf sf rest, F = root :: l1 :: T ++ ht :: fs ++ hf :: sf :: rest /\
    length T = a /\ length fs = b /\ rest <> [] /\ length rest = (length F - (5 + a + b))%nat.
Proof.
  intros Hn. destruct F as [|root [|l1 F]]; simpl in Hn; [lia..|].
  rewrite <- (take_drop a F) in Hn |- *. set (T := take a F). assert (HT : length T = a) by (apply length_take_le; rewrite take_drop in Hn; lia).
  rewrite length_app in Hn. fold T in Hn. destruct (drop a F) as [|ht G] eqn:EG; simpl in Hn; [lia|].
  rewrite <- (take_drop b G) in Hn |- *. set (fs := take b G). assert (Hfs : length fs = b) by (apply length_take_le; rewrite take_drop in Hn; lia).
  rewrite length_app in Hn. fold fs in Hn. destruct (drop b G) as [|hf [|sf [|r rest]]] eqn:EH; simpl in Hn; [lia..|].
  exists root, l1, T, ht, fs, hf, sf, (r :: rest). split; [done|]. split; [done|]. split; [done|]. split; [done|].
  simpl. rewrite !length_app. simpl. rewrite length_app. simpl. lia.
Qed.

Lemma tables_enough T fs : length T = tables_for (length fs) -> (0 < length fs)%nat -> enough T fs.
Proof.
  unfold enough, tables_for. intros -> Hp. rewrite Nat2Z.inj_div. pose proof (Z.div_mod (Z.of_nat (length fs + 511)) 512 ltac:(lia)) as Hd.
  pose proof (Z.mod_pos_bound (Z.of_nat (length fs + 511)) 512 ltac:(lia)). change (Z.of_nat 512) with 512. lia.
Qed.

Lemma split_room s app size F :
  program_ok app -> 0 < size <= GIGAPAGE_SIZE -> (tables_for (pages_for app size) < 128)%nat ->
  free_ok (frame_mem s) F -> (frames_for app size < length F)%nat ->
  is_frame (kernel_table s) /\ kernel_table s ∉ F -> (forall p, malloc_ok p = true) -> allocated (pt_nodes s) s ->
  exists root l1 T ht fs hf sf rest, F = root :: l1 :: T ++ ht :: fs ++ hf :: sf :: rest /\
    room s app size root l1 T ht fs hf sf rest /\ length rest = (length F - frames_for app size)%nat.
Proof.
  intros Hp Hs Ht Hf Hn Hk Hm Hnodes. destruct (split_list F _ _ Hn) as (root & l1 & T & ht & fs & hf & sf & rest & -> & HT & Hfs & Hr & Hl).
  exists root, l1, T, ht, fs, hf, sf, rest. split; [done|]. split; [|exact Hl]. split; try done.
  - apply tables_enough; [by rewrite Hfs|]. rewrite Hfs. unfold pages_for, pages_of. lia.
  - lia.
Qed.

(** ** The kernel before its first process runs *)

Record booting s (Q : queues) (A : list ptr) (F : list Z) : Prop := {
  bt_inv : sched_inv s Q;
  bt_queues : Q !! activatable_process_queue = Some A /\ Q !! asleep_process_queue = Some [] /\ Q !! dead_process_queue = Some [];
  bt_current : current_running_process_pid s = -1;
  bt_ready : forall p x, procs s !! p = Some x -> p ∈ A /\ state x = ACTIVATABLE /\ resume_point x = KUserEntry;
  bt_resources : resources_ok s;
  bt_nodes : allocated (pt_nodes s) s;
  bt_free : free_ok (frame_mem s) F;
  bt_kernel : is_frame (kernel_table s) /\ kernel_table s ∉ F;
  bt_pids : process_id_list s = [] /\ 0 <= pid_iterator s < 1000 /\ nb_proc_running s = pid_iterator s /\
    forall id, pid_iterator s < id -> pid_process_hash_table s !! id = None;
  bt_sems : sems s = ∅ /\ blocked_nodes s = ∅ /\ semaphore_table s = ∅ /\ parent_block s = false;
  bt_main : scheduler_main s = Some KMain;
  bt_chans : chans_ok s Q
}.

Lemma booting_startable s Q A F name app sz pr root l1 T ht fs hf sf rest :
  booting s Q A F -> find_app name = Some app -> Z.of_nat (String.length name) <= MAX_SIZE_NAME ->
  MINPRIO <= pr <= MAXPRIO -> 0 < sz ->
  room s app (wrapU 32 (sz + PROCESS_SETUP_SIZE)) root l1 T ht fs hf sf rest ->
  startable s Q A name app sz pr root l1 T ht fs hf sf rest.
Proof.
  intros [Hinv [HA _] Hcur _ Hres _ _ _ (Hl & Hit & Hnb & Hid) _ _ _] Happ Hname Hpr Hsz Hroom.
  assert (Hno : pid_process_hash_table s !! current_running_process_pid s = None).
  { rewrite Hcur. destruct (pid_process_hash_table s !! (-1)) as [c|] eqn:Hc; [|done].
    apply (si_table _ _ Hinv) in Hc as (x & Hx & Ex). pose proof (si_pid _ _ Hinv _ _ Hx). lia. }
  split; try done.
  - unfold MAX_NB_PROCESS. lia.
  - by left.
  - rewrite Hno. done.
  - unfold next_pid. rewrite Hl, wrapS_id by lia. split; [lia|]. apply Hid. lia.
  - apply Hres.
  - split; [apply Hinv|done].
  - apply Hinv.
Qed.

(** A process is created at the start. *)
Lemma booting_creates s Q A F name app pr arg :
  booting s Q A F -> find_app name = Some app -> Z.of_nat (String.length name) <= MAX_SIZE_NAME -> MINPRIO <= pr <= MAXPRIO ->
  program_ok app -> (tables_for (pages_for app 4002) < 128)%nat -> (frames_for app 4002 < length F)%nat ->
  (forall p, malloc_ok p = true) -> pid_iterator s < 999 ->
  exists s1 F1, let p := next_block s in
    start_virtual (Some name) 4000 pr arg s = Ok (KStart p, s1) /\
    booting s1 (<[activatable_process_queue := insert_prio (pfield s1 prio) p A]> Q) (insert_prio (pfield s1 prio) p A) F1 /\
    length F1 = (length F - frames_for app 4002)%nat /\ pid_iterator s1 = pid_iterator s + 1 /\
    (exists y, procs s1 !! p = Some y /\ pid y = pid_iterator s + 1 /\ prio y = pr /\ process_name y = Some name) /\
    (forall q x, procs s !! q = Some x -> exists y, procs s1 !! q = Some y /\ kin_same x y).
Proof.
  intros Hbt Happ Hname Hpr Hprog Htab Hlen Hm Hpid. pose proof Hbt as [Hinv [HA [HL HD]] Hcur Hrdy Hres Hnodes Hfree Hk (Hl & Hit & Hnb & Hid) Hsem Hmain Hch].
  destruct (split_room s app 4002 F) as (root & l1 & T & ht & fs & hf & sf & rest & -> & Hroom & Hrest); try done.
  assert (Hst : startable s Q A name app 4000 pr root l1 T ht fs hf sf rest) by (by eapply booting_startable).
  destruct (start_reaches _ _ _ _ _ _ _ arg _ _ _ _ _ _ _ _ Hst) as (s1 & Erun & Hcr). exists s1, rest. cbn zeta.
  assert (Hway : gives_way s pr = false).
  { unfold gives_way. destruct (st_caller _ _ _ _ _ _ _ _ _ _ _ _ _ _ _ Hst) as [[_ ->]|(c & x & Hc & _)]; [done|].
    apply (si_table _ _ Hinv) in Hc as (z & Hz & Ez). rewrite Hcur in Ez. pose proof (si_pid _ _ Hinv _ _ Hz). lia. }
  split; [by rewrite Erun, (created_calls _ _ _ _ _ _ _ _ _ _ _ _ _ _ _ _ s1 _ Hst Hcr), Hway|].
  destruct (cr_frame _ _ _ _ _ _ _ _ _ _ _ _ _ _ _ _ _ Hcr) as (ps & l & m & b & ns & pl & it & Es1).
  assert (Enext : next_pid s = pid_iterator s + 1) by (unfold next_pid; rewrite Hl, wrapS_id by lia; done).
  pose proof (cr_pids _ _ _ _ _ _ _ _ _ _ _ _ _ _ _ _ _ Hcr) as [Epl Eit]. unfold take_pid in Epl, Eit. rewrite Hl in Epl, Eit.
  cbn [process_id_list pid_iterator upd] in Epl, Eit. rewrite wrapS_id in Eit by lia.
  split; [|split; [done|split; [done|split]]].
  - split.
    + by apply (created_inv _ _ _ _ _ _ _ _ _ _ _ _ _ _ _ _ _ Hst Hcr).
    + rewrite lookup_insert_eq, !lookup_insert_ne by done. done.
    + by rewrite Es1.
    + intros q y Hy. rewrite elem_of_insert_prio.
      destruct (created_back Hcr _ _ Hy) as [(-> & Hs & Hr & _)|(_ & x & Hx & (_ & Hs & _ & _ & Hc) & _)]; [by auto|].
      destruct (Hrdy _ _ Hx) as (Hq & Hsx & Hrx). unfold resume_point in *. rewrite Hs, Hc. auto.
    + by apply (created_resources Hst Hcr).
    + apply (cr_grown _ _ _ _ _ _ _ _ _ _ _ _ _ _ _ _ _ Hcr).
    + apply Hcr.
    + rewrite (created_table Hcr). split; [apply Hk|]. intros Hin. apply Hk. set_solver.
    + rewrite Epl, Eit. split; [done|]. split; [lia|]. rewrite Es1. cbn [nb_proc_running pid_process_hash_table upd]. split; [lia|].
      intros id Hgt. rewrite lookup_insert_ne by lia. apply Hid. lia.
    + by rewrite Es1.
    + by rewrite Es1.
    + exact (created_chans Hst Hcr Hch).
  - destruct (cr_process _ _ _ _ _ _ _ _ _ _ _ _ _ _ _ _ _ Hcr) as [l1p Hp]. eexists. split; [exact Hp|].
    split; [exact Enext|done].
  - intros q x Hx. by apply (created_forth Hst Hcr).
Qed.

(** ** [initialize_process_workflow] *)

Lemma run_or_fail (m k : K Z) s v s' : m s = Ok (v, s') -> 0 <= v -> or_fail m k s = k s'.
Proof. intros E1 Hv. unfold or_fail. rewrite (run_bind _ _ _ _ _ E1). by destruct (Z.ltb_spec v 0); [lia|]. Qed.

Lemma run_malloc_block s : (forall p, malloc_ok p = true) -> malloc_block s = Ok (true, s <| next_block ::= Pos.succ |>).
Proof. intros Hm. apply wp_run. unfold malloc_block. apply wp_bind, wp_gets, wp_bind, wp_kupd, wp_ret. by rewrite Hm. Qed.

(** What is left once the tables and the main context are allocated. *)
Definition first_processes : K Z :=
  or_fail create_idle_process (or_fail create_shell_program (_ ← kput sstatus_spp false; mret 0)).

Lemma run_init_table s {A} (f : kstate -> A) `{!Upd f} v : (forall p, malloc_ok p = true) ->
  (v0 ← init_table; _ ← kput f v; mret v0) s = Ok (0, s <| next_block ::= Pos.succ |> <| f := v |>).
Proof.
  intros Hm. assert (E1 : init_table s = Ok (0, s <| next_block ::= Pos.succ |>)).
  { unfold init_table. by rewrite (run_bind _ _ _ _ _ (run_malloc_block s Hm)). }
  by rewrite (run_bind _ _ _ _ _ E1).
Qed.

Lemma run_main_context s : (forall p, malloc_ok p = true) ->
  setup_main_context s = Ok (0, s <| next_block ::= fun b => Pos.succ (Pos.succ b) |> <| scheduler_main := Some KMain |>).
Proof.
  intros Hm. unfold setup_main_context. rewrite (run_bind _ _ _ _ _ (run_malloc_block s Hm)). cbn [negb].
  rewrite (run_bind _ _ _ tt (s <| next_block ::= Pos.succ |> <| scheduler_main := Some KMain |>)) by done.
  by rewrite (run_bind _ _ _ _ _ (run_malloc_block _ Hm)).
Qed.

Lemma workflow_reaches s : (forall p, malloc_ok p = true) -> exists b,
  initialize_process_workflow s = first_processes (s <| next_block := b |> <| pid_process_hash_table := ∅ |>
    <| shared_memory_hash_table := ∅ |> <| semaphore_table := ∅ |> <| scheduler_main := Some KMain |>).
Proof.
  intros Hm. unfold initialize_process_workflow.
  assert (Hinit : forall s, init_table s = Ok (0, s <| next_block ::= Pos.succ |>)).
  { intros s1. unfold init_table. by rewrite (run_bind _ _ _ _ _ (run_malloc_block s1 Hm)). }
  exists (Pos.iter Pos.succ (next_block s) 8).
  do 3 (eapply eq_trans; [apply (run_or_fail _ _ _ _ _ (Hinit _)); done|];
    eapply eq_trans; [apply (run_or_fail _ _ _ _ _ (run_init_table _ _ _ Hm)); done|]).
  eapply eq_trans; [apply (run_or_fail _ _ _ _ _ (run_main_context _ Hm)); done|]. unfold first_processes. f_equal.
Qed.

(** ** Virtual memory *)

Lemma vm_ready virt mem f F kt sa : free_ok mem (f :: F) -> F <> [] ->
  exists mem' sa', set_up_virtual_memory virt (mk_vmem mem kt sa) = Ok (0, mk_vmem mem' f sa') /\
    is_frame f /\ free_ok mem' F /\ f ∉ F /\ kernel_closed f mem'.
Proof.
  intros Hok Hn. pose proof (init_directory_spec virt _ f F Hok Hn) as Hwp.
  apply wp_elim in Hwp as (t & m & Erun & -> & Hf & Hfree & _ & Htab). pose proof (is_frame_pos f Hf).
  unfold set_up_virtual_memory. cbn [frames]. rewrite Erun. simpl. destruct (Z.eqb_spec f 0); [lia|].
  eexists _, _. split; [done|]. split; [done|]. split; [done|]. split; [by destruct Hok as [_ _ _ [? _]%NoDup_cons]|].
  intros m' va pa e Hag Hv Hw. assert (Hr : 0 <= vpn 2 va < 512) by (unfold vpn; apply Z.mod_pos_bound; lia).
  specialize (Htab _ Hr). unfold directory_entry in Htab.
  destruct (Z.eqb_spec (vpn 2 va) 1) as [E1|_]; [done|]. cbn [andb] in Htab.
  assert (Ew : word m' (pte_at f (vpn 2 va)) = word m (pte_at f (vpn 2 va))) by (apply Hag; [by left|done]).
  destruct (if _ && virt then _ else _) as [x|]; cbn [fmap option_fmap option_map] in Htab.
  - unfold table_entry in Htab. rewrite <- Ew in Htab. fold (table_entry m' f (vpn 2 va)) in Htab.
    rewrite (sv39_walk_giga _ _ _ _ _ _ _ _ _ Htab) in Hw by done. by injection Hw as _ <-.
  - rewrite sv39_walk_invalid in Hw by congruence. done.
Qed.

(** ** The first tick *)

Lemma booting_flags s Q A F spp sie n :
  booting s Q A F -> booting (s <| sstatus_spp := spp |> <| sstatus_sie := sie |> <| counter := n |>) Q A F.
Proof.
  intros [H1 H2 H3 H4 H5 H6 H7 H8 H9 H10 H11 H12].
  split; [|exact H2|exact H3|exact H4| |exact H6|exact H7|exact H8|exact H9|exact H10|exact H11|by apply (chans_rest s)].
  - by apply (sched_inv_frame s).
  - apply (resources_ok_step s); [done|done|done|simpl; lia|done|]. intros q y Hy. by exists y.
Qed.

(** The first call of the scheduler starts the last process of the ready list. *)
Lemma first_schedule k s Q B t F :
  booting s Q (B ++ [t]) F -> is_Some (procs s !! t) ->
  exists y l, procs s !! t = Some y /\ resume_point y = KUserEntry /\
    let s' := s <| sstatus_spp := false |> <| links := l |> <| current_running_process_pid := pid y |>
      <| procs := <[t := y <| state := ACTIF |>]> (procs s) |> <| started_user_process := true |> <| scheduler_main := Some k |> in
    scheduler k s = Ok (KUserEntry, s') /\ sched_inv s' (<[activatable_process_queue := B]> Q) /\
    ~ queued (<[activatable_process_queue := B]> Q) t.
Proof.
  intros [Hinv (HA & HL & HD) Hcur Hrdy _ _ _ _ _ _ Hmain _] [y Hy]. destruct (Hrdy _ _ Hy) as (_ & Hst & Hres).
  set (s0 := s <| sstatus_spp := false |>).
  assert (Hinv0 : sched_inv s0 Q) by by apply (sched_inv_frame s).
  destruct (run_qout s0 Q activatable_process_queue B t Hinv0 HA) as (l & Eout & Hinv1 & Hnq).
  exists y, l. split; [done|]. split; [done|]. cbn zeta.
  assert (Hwp : wp (scheduler k) (fun k' s' => k' = KUserEntry /\
    s' = s0 <| links := l |> <| current_running_process_pid := pid y |>
      <| procs := <[t := y <| state := ACTIF |>]> (procs s) |> <| started_user_process := true |> <| scheduler_main := Some k |>) s).
  { unfold scheduler. apply wp_bind, wp_kput, wp_bind. fold s0.
    unfold awake_sleeping_process. apply wp_bind. eapply (wp_next_wake_none s0); [apply Hinv0|done|].
    apply wp_bind, wp_gets. unfold walk_fuel. cbn [awake_loop]. apply wp_bind, wp_gets. cbn. apply wp_ret.
    apply wp_bind. eapply (free_dead_process_none s0); [apply Hinv0|done|].
    apply wp_bind, wp_gets. cbn [scheduler_main upd s0]. rewrite Hmain. apply wp_bind, wp_gets. cbn [current_running_process_pid upd s0].
    rewrite Hcur. cbn [Z.eqb Z.compare]. unfold scheduler_first. apply wp_bind. eapply wp_qtop; [apply Hinv0|done|].
    rewrite last_snoc. apply wp_bind. eapply wp_intro; [exact Eout|].
    apply wp_bind. eapply wp_pget; [exact Hy|]. apply wp_bind. eapply wp_setpid; [apply (si_table _ _ Hinv); by exists y|].
    destruct (Z.ltb_spec (pid y) 0); [pose proof (si_pid _ _ Hinv _ _ Hy); lia|].
    apply wp_bind. eapply wp_pset; [exact Hy|]. apply wp_bind, wp_kput, wp_bind, wp_kput.
    eapply wp_direct_swap; [apply (lookup_insert_eq (procs s))|exact (si_ctx _ _ Hinv _ _ Hy)|]. by split. }
  apply wp_elim in Hwp as (k' & s' & E1 & -> & ->). split; [exact E1|]. split; [|done].
  assert (Hinv2 : sched_inv (s0 <| links := l |> <| procs ::= <[t := y <| state := ACTIF |>]> |>) (<[activatable_process_queue := B]> Q)).
  { eapply sched_inv_proc; [exact Hinv1|exact Hy|done|done|exact (si_ctx _ _ Hinv _ _ Hy)]. }
  eapply sched_inv_frame; [..|exact Hinv2]; done.
Qed.

(** The invariant of the system holds from then on. *)
Lemma first_tick k s Q B t F :
  booting s Q (B ++ [t]) F -> is_Some (procs s !! t) -> (exists i x, procs s !! i = Some x /\ pid x = idleId) ->
  exists s' y, scheduler k s = Ok (KUserEntry, s') /\ machine_inv (KUserEntry, s') /\
    procs s !! t = Some y /\ current_running_process_pid s' = pid y /\
    pid_process_hash_table s' !! pid y = Some t.
Proof.
  intros Hbt Ht (i & xi & Hxi & Hid). destruct (first_schedule k s Q B t F Hbt Ht) as (y & l & Hy & Hres & Erun & Hinv & Hnq).
  cbn zeta in Erun, Hinv. set (s' := _ <| scheduler_main := Some k |>) in *. exists s', y. split; [done|].
  split; [|do 2 (split; [done|]); apply (si_table _ _ (bt_inv _ _ _ _ Hbt)); by exists y].
  pose proof Hbt as [Hinv0 (HA & HL & HD) _ Hrdy Hro _ _ _ _ (Hsm & Hbn & Hst & Hpb) _ Hch].
  assert (Hback : forall q z, procs s' !! q = Some z -> q = t /\ z = y <| state := ACTIF |> \/ q <> t /\ procs s !! q = Some z).
  { intros q z. change (procs s') with (<[t := y <| state := ACTIF |>]> (procs s)). rewrite lookup_insert.
    case_decide; [intros [= <-]; by left|by right]. }
  assert (HtB : t ∉ B).
  { intros Hin. apply Hnq. eapply (queued_in _ activatable_process_queue B); [apply lookup_insert_eq|done]. }
  assert (Ht' : procs s' !! t = Some (y <| state := ACTIF |>)) by apply lookup_insert_eq.
  destruct (Hrdy _ _ Hy) as (_ & Hsty & _).
  apply (inv_intro _ _ (<[activatable_process_queue := B]> Q) t (y <| state := ACTIF |>) B [] ∅); [done| |].
  2:{ eapply (chans_frame None s); [exact Hch|done|done|simpl; lia| |].
    - intros h p Hh. rewrite lookup_insert_ne; [done|]. intros <-. by destruct (chan_head_main _ _ Hh).
    - eapply blocked_same_one; [reflexivity|exact Hy|by rewrite Hsty|done]. }
  split.
  - split; rewrite ?lookup_insert_eq, ?lookup_insert_ne by done; try done.
    + split; [|done|done|].
      * apply (si_table _ _ Hinv0). by exists y.
      * intros A0 HA0. rewrite lookup_insert_eq in HA0. by injection HA0 as <-.
    + intros Hin. by apply elem_of_nil in Hin.
  - done.
  - split; try done.
    + intros id sm. change (semaphore_table s') with (semaphore_table s). by rewrite Hst, lookup_empty.
    + intros a b sm. change (semaphore_table s') with (semaphore_table s). by rewrite Hst, lookup_empty.
    + intros q Hq. change (blocked_nodes s') with (blocked_nodes s) in Hq. rewrite Hbn, lookup_empty in Hq. by apply is_Some_None in Hq.
    + intros q Hq. change (sems s') with (sems s) in Hq. rewrite Hsm, lookup_empty in Hq. by apply is_Some_None in Hq.
  - intros sm ns x HW. by rewrite lookup_empty in HW.
  - destruct (decide (i = t)) as [->|Hit].
    + exists t, (y <| state := ACTIF |>). split; [done|]. split; [|by right]. simplify_eq. done.
    + exists i, xi. split; [change (procs s') with (<[t := y <| state := ACTIF |>]> (procs s)); by rewrite lookup_insert_ne|].
      split; [done|]. left. destruct (Hrdy _ _ Hxi) as [[Hi|Hi%list_elem_of_singleton]%elem_of_app _]; [done|congruence].
  - intros q z Hz Hs. destruct (Hback _ _ Hz) as [[-> ->]|[Hq Hz0]]; [done|].
    destruct (Hrdy _ _ Hz0) as [[Hi|Hi%list_elem_of_singleton]%elem_of_app _]; [done|congruence].
  - intros q z Hz Hs. destruct (Hback _ _ Hz) as [[-> ->]|[Hq Hz0]]; [done|]. destruct (Hrdy _ _ Hz0) as (_ & Es & _). congruence.
  - intros q z Hz. destruct (Hback _ _ Hz) as [[-> ->]|[Hq Hz0]]; [done|]. destruct (Hrdy _ _ Hz0) as (_ & -> & _). done.
  - intros q z Hz. destruct (Hback _ _ Hz) as [[-> ->]|[Hq Hz0]].
    + change (resume_point (y <| state := ACTIF |>)) with (resume_point y). by rewrite Hres.
    + destruct (Hrdy _ _ Hz0) as (_ & _ & ->). done.
  - done.
  - apply (resources_ok_step s); [done|done|done|simpl; lia|..].
    + intros q Hq. change (procs s') with (<[t := y <| state := ACTIF |>]> (procs s)). rewrite lookup_insert. by case_decide.
    + intros q z Hz. destruct (Hback _ _ Hz) as [[-> ->]|[Hq Hz0]]; [by exists y|by exists z].
Qed.

(** ** [kernel_start] *)

(** The programs the kernel starts, and memory for them. *)
Record installed (ia sa : uapps) : Prop := {
  is_idle : find_app "idle" = Some ia;
  is_shell : find_app "shell" = Some sa;
  is_programs : program_ok ia /\ program_ok sa;
  is_tables : (tables_for (pages_for ia 4002) < 128)%nat /\ (tables_for (pages_for sa 4002) < 128)%nat;
  is_frames : (1 + frames_for ia 4002 + frames_for sa 4002 < n_frames)%nat;
  is_malloc : forall p, malloc_ok p = true
}.

Lemma reset_booting mem ram con kt F b :
  free_ok mem F -> is_frame kt -> kt ∉ F -> kernel_closed kt mem ->
  booting (kernel_reset ram con <| frame_mem := mem |> <| kernel_table := kt |> <| next_block := b |>
    <| pid_process_hash_table := ∅ |> <| shared_memory_hash_table := ∅ |> <| semaphore_table := ∅ |>
    <| scheduler_main := Some KMain |>) static_queues [] F.
Proof.
  intros Hf Hk1 Hk2 Hcl. set (s := _ <| scheduler_main := _ |>).
  assert (Hno : forall p x, procs s !! p <> Some x) by (intros p x Hx; change (procs s) with (∅ : gmap ptr process) in Hx; by rewrite lookup_empty in Hx).
  assert (Hnot : forall p, ~ is_Some (procs s !! p)) by (by intros p [x Hx%Hno]).
  assert (Hnn : forall p, ~ is_Some (pt_nodes s !! p))
    by (intros p [x Hx]; change (pt_nodes s) with (∅ : gmap ptr page_table_link_list_t) in Hx; by rewrite lookup_empty in Hx).
  split; [|done|done|by intros p x Hx%Hno| |by intros p Hx%Hnn|done|done| |done|done|].
  - split; [exact static_rep|by intros p Hp%Hnot|by intros p Hp%static_unqueued| |by intros p x Hx%Hno..|].
    + intros id p. split; [|by intros (x & Hx%Hno & _)]. change (pid_process_hash_table s) with (∅ : gmap Z ptr). by rewrite lookup_empty.
    + by intros L p x _ _ Hx%Hno.
  - split; [by intros p Hx%Hnot|by intros p z t Hz%Hno|]. exists ∅, F.
    split; [by right|by intros p x Hx%Hno|intros p sp; by rewrite lookup_empty|intros p q sp sq f; by rewrite lookup_empty|done].
  - split; [done|]. split; [done|]. split; [done|]. intros id _. apply lookup_empty.
  - apply no_chans; [done|by intros h p [-> | ->]|by intros q z Hz%Hno].
Qed.

Lemma run_started (m : K kont) s s1 p y : m s = Ok (KStart p, s1) -> procs s1 !! p = Some y ->
  (k ← m; started k) s = Ok (pid y, s1).
Proof. intros Em Hy. rewrite (run_bind _ _ _ _ _ Em). apply wp_run. eapply wp_pget; [exact Hy|done]. Qed.

Lemma idle_then_shell s F ia sa : booting s static_queues [] F -> pid_iterator s = 0 -> installed ia sa ->
  (frames_for ia 4002 + frames_for sa 4002 < length F)%nat ->
  exists s2 Q p1 p2 F2, first_processes s = Ok (0, s2) /\ booting s2 Q ([p1] ++ [p2]) F2 /\
    (exists x, procs s2 !! p1 = Some x /\ pid x = idleId) /\
    exists y, procs s2 !! p2 = Some y /\ pid y = 2 /\ process_name y = Some "shell"%string.
Proof.
  intros Hbt Hpid [Hi Hs [Pi Ps] [Ti Ts] _ Hm] Hlen.
  destruct (booting_creates s _ _ F "idle" ia 1 300 Hbt Hi) as (s1 & F1 & E1 & Hbt1 & Hl1 & Hp1 & (y1 & Hy1 & Py1 & Pr1 & _) & _);
    [done|done|done|done|lia|done|lia|].
  rewrite Hpid in Py1. cbn zeta in E1, Hbt1. set (p1 := next_block s) in *.
  destruct (booting_creates s1 _ _ F1 "shell" sa 2 0 Hbt1 Hs) as (s2 & F2 & E2 & Hbt2 & _ & _ & (y2 & Hy2 & Py2 & Pr2 & Nm2) & Hk);
    [done|done|done|done|lia|done|lia|].
  cbn zeta in E2, Hbt2. set (p2 := next_block s1) in *. rewrite Hp1, Hpid in Py2.
  destruct (Hk _ _ Hy1) as (y1' & Hy1' & (Ep & _ & Er & _)).
  eexists _, _, p1, p2, F2. split; [|split; [|split]].
  - unfold first_processes. rewrite (run_or_fail _ _ _ _ _ (run_started _ _ _ _ _ E1 Hy1)) by lia.
    by rewrite (run_or_fail _ _ _ _ _ (run_started _ _ _ _ _ E2 Hy2)) by lia.
  - assert (EA : insert_prio (pfield s2 prio) p2 (insert_prio (pfield s1 prio) p1 []) = [p1] ++ [p2]).
    { simpl. rewrite (pfield_eq _ _ _ _ Hy1'), (pfield_eq _ _ _ _ Hy2), Pr2, Er, Pr1. done. }
    rewrite EA in Hbt2. exact (booting_flags _ _ _ _ false _ _ Hbt2).
  - exists y1'. split; [done|]. by rewrite Ep, Py1.
  - exists y2. split; [done|]. by rewrite Py2.
Qed.

Lemma kernel_starts virt ram con mem ia sa : installed ia sa -> free_ok mem all_frames ->
  exists s2 Q p1 p2 F2, kernel_start virt (kernel_reset ram con <| frame_mem := mem |>) = Ok (tt, s2) /\
    booting s2 Q ([p1] ++ [p2]) F2 /\ (exists x, procs s2 !! p1 = Some x /\ pid x = idleId) /\
    exists y, procs s2 !! p2 = Some y /\ pid y = 2 /\ process_name y = Some "shell"%string.
Proof.
  intros Hin Hok. pose proof Hin as [_ _ _ _ Hlen Hm]. set (s := kernel_reset ram con <| frame_mem := mem |>).
  assert (Hall : length all_frames = n_frames) by (unfold all_frames; by rewrite length_fmap, length_seq).
  destruct all_frames as [|f F] eqn:EF; [simpl in Hall; lia|]. simpl in Hall.
  destruct (vm_ready virt mem f F 0 0 Hok) as (mem' & sa' & Evm & Hf & Hok' & Hnin & Hcl); [intros ->; simpl in Hall; lia|].
  destruct (workflow_reaches (s <| frame_mem := mem' |> <| kernel_table := f |>) Hm) as [b Ew].
  pose proof (reset_booting mem' ram con f F b Hok' Hf Hnin Hcl) as Hbt.
  match type of Hbt with booting ?S _ _ _ => set (s1 := S) in * end.
  destruct (idle_then_shell s1 F ia sa Hbt eq_refl Hin ltac:(lia)) as (s2 & Q & p1 & p2 & F2 & E2 & Hbt2 & H1 & H2).
  exists (s2 <| sstatus_sie := true |>), Q, p1, p2, F2. split; [|split; [|done]].
  - unfold kernel_start. change (mk_vmem (frame_mem s) (kernel_table s) 0) with (mk_vmem mem 0 0). rewrite Evm. cbn [Z.ltb Z.compare].
    cbn [frames kernel_base_page_table]. rewrite (run_bind _ _ _ _ _ (eq_trans Ew E2)). done.
  - exact (booting_flags _ _ _ _ _ true _ Hbt2).
Qed.

(** ** The life of the system *)
Section Life.
Context `{P : Platform} (polls : nat) (m : machine) (Hr : console_responds polls m).
Context (user_string : Z -> option string) (user_bytes : Z -> Z -> list Z) (clk_freq : Z).

End Life.

End System.
