(* ===== verification/SystemWitness.v ===== *)
(** * SystemWitness: the system on a small machine

    The platform of the boot's witnesses: [virt] with 256 frames and two
    programs, the idle one of 2 kilobytes and the shell of 10. *)

From stdpp Require Import relations.
From S2P Require Import Prelude.
From S2P Require Import Queue.
From S2P Require Import FrameDist.
From S2P Require Import Pages.
From S2P Require Import Kernel.
From S2P Require Import KernelRules.
From S2P Require Import ProcessMemory.
From S2P Require Import ProcessMemorySpec.
From S2P Require Import Scheduler.
From S2P Require Import SchedulerSpec.
From S2P Require Import Demo.
From S2P Require Import ProcessApi.
From S2P Require Import ProcessApiSpec.
From S2P Require Import Traps.
From S2P Require Import Devices.
From S2P Require Import Boot.
From S2P Require Import DevicesSpec.
From S2P Require Import BootSpec.
From S2P Require Import BootWitness.
From S2P Require Import StartSpec.
From S2P Require Import ProcessFree.
From S2P Require Import ProcessFreeSpec.
From S2P Require Import Isolation.
From S2P Require Import WaitSpec.
From S2P Require Import ExitSpec.
From S2P Require Import Machine.
From S2P Require Import System.
#[local] Open Scope Z_scope.
#[local] Existing Instance demo_env.
#[local] Existing Instance demo_platform.

Definition idle_app : uapps := mk_uapps "idle" 0x80001000 0x80001800.
Definition shell_app : uapps := mk_uapps "shell" 0x80002000 0x80004800.

Lemma demo_installed : installed idle_app shell_app.
Proof.
  split; try done.
  - split; (apply Nat.ltb_lt; vm_compute; reflexivity).
  - apply Nat.ltb_lt. vm_compute. reflexivity.
Qed.

Definition demo_ram : fmem := mk_fmem 0 ∅.
Definition demo_console : console_device_t := mk_console false (replicate 20 0) (-1) 0 true [].
Definition no_string (a : Z) : option string := None.
Definition no_bytes (a n : Z) : list Z := [].


(** The kernel when it creates its first process. *)
Definition before_idle (mem : fmem) : kstate :=
  kernel_reset demo_ram demo_console <| frame_mem := mem |> <| kernel_table := nth_frame 0 |> <| next_block := 9%positive |>
    <| pid_process_hash_table := ∅ |> <| shared_memory_hash_table := ∅ |> <| semaphore_table := ∅ |>
    <| scheduler_main := Some KMain |>.

Lemma before_idle_startable : exists mem root l1 T ht fs hf sf rest,
  startable (before_idle mem) static_queues [] "idle" idle_app 4000 1 root l1 T ht fs hf sf rest.
Proof.
  pose proof (init_frames_spec demo_ram) as Hwp. apply wp_elim in Hwp as ([] & mem0 & _ & Hok).
  assert (Eall : all_frames = nth_frame 0 :: (nth_frame <$> seq 1 255)) by (vm_compute; reflexivity). rewrite Eall in Hok.
  destruct (vm_ready true mem0 _ _ 0 0 Hok) as (mem & sa & _ & Hf & Hok' & Hnin & Hcl); [done|]. exists mem.
  pose proof (reset_booting mem demo_ram demo_console _ _ 9%positive Hok' Hf Hnin Hcl) as Hbt.
  destruct (split_room (before_idle mem) idle_app 4002 (nth_frame <$> seq 1 255))
    as (root & l1 & T & ht & fs & hf & sf & rest & _ & Hroom & _); try done.
  - apply Nat.ltb_lt. vm_compute. reflexivity.
  - apply Nat.ltb_lt. vm_compute. reflexivity.
  - exact (bt_nodes _ _ _ _ Hbt).
  - exists root, l1, T, ht, fs, hf, sf, rest. by eapply booting_startable.
Qed.

Lemma start_virtual_creates_witness : exists mem s1 y,
  start_virtual (Some "idle"%string) 4000 1 300 (before_idle mem) = Ok (KStart 9%positive, s1) /\
  procs s1 !! 9%positive = Some y /\ pid y = 1 /\ prio y = 1 /\ state y = ACTIVATABLE.
Proof.
  destruct before_idle_startable as (mem & root & l1 & T & ht & fs & hf & sf & rest & Hst).
  destruct (start_virtual_creates _ _ _ _ _ _ _ 300 _ _ _ _ _ _ _ _ Hst) as (s1 & y & _ & Hy & E1 & _ & Hp & Hpr & Hs & _).
  exists mem, s1, y. split; [exact E1|]. split; [exact Hy|]. split; [exact Hp|]. split; [exact Hpr|exact Hs].
Defined.

(** The idle process is created and freed: the frames are back. *)
Lemma created_process_freed_witness : exists mem s1 s3 F F', free_ok mem F /\
  start_virtual (Some "idle"%string) 4000 1 300 (before_idle mem) = Ok (KStart 9%positive, s1) /\
  free_process_memory (Some 9%positive) s1 = Ok (0, s3) /\ free_ok (frame_mem s3) F' /\ F' ≡ₚ F.
Proof.
  destruct before_idle_startable as (mem & root & l1 & T & ht & fs & hf & sf & rest & Hst).
  destruct (created_process_freed _ _ _ _ _ _ _ 300 _ _ _ _ _ _ _ _ Hst) as (Hp & s1 & E1 & Hok1 & [y1 Hy1] & Hfree).
  destruct (Hfree s1 y1 rest) as (s3 & E3 & Hok3 & _).
  - split; [exact Hy1| |done|by intros t j _ _]. intros y Hy. rewrite Hy1 in Hy. injection Hy as <-. by split_and!.
  - exact Hok1.
  - destruct (taken_frames Hst) as (_ & _ & [_ _ Hn]). exact Hn.
  - exists mem, s1, s3. eexists _, _. split; [exact (rm_free _ _ _ _ _ _ _ _ _ _ _ (st_room _ _ _ _ _ _ _ _ _ _ _ _ _ _ _ Hst))|].
    split; [exact E1|]. split; [exact E3|]. split; [exact Hok3|]. rewrite <- Hp. by rewrite reverse_Permutation.
Defined.

(** Process 7 has three children, the second of which is the idle process,
    ended with the value 5. *)
Definition waiter : process :=
  demo_process 7 5 ACTIF 0 <| children_head := Some 2%positive |> <| children_tail := Some 3%positive |>.
Definition sibling (id : Z) (next : option ptr) : process :=
  demo_process id 5 ASLEEP 0 <| parent := Some 1%positive |> <| next_sibling := next |>.
Definition ended (y : process) : process :=
  y <| state := ZOMBIE |> <| return_value := 5 |> <| parent := Some 1%positive |> <| next_sibling := Some 3%positive |>.
Definition nursery (s : kstate) (y : process) : kstate :=
  s <| procs := {[1%positive := waiter; 2%positive := sibling 8 (Some 9%positive); 9%positive := y; 3%positive := sibling 10 None]} |>
    <| pid_process_hash_table := <[7 := 1%positive]> (pid_process_hash_table s) |> <| current_running_process_pid := 7 |>.

Lemma nursery_children s y : children (procs (nursery s (ended y))) waiter [2%positive; 9%positive; 3%positive].
Proof.
  split; [|repeat constructor; set_solver|done]. split; [done|]. exists (sibling 8 (Some 9%positive)). split; [done|].
  split; [done|]. exists (ended y). split; [done|]. split; [done|]. by exists (sibling 10 None).
Qed.

Lemma waitpid_reaps_witness : exists s y s' x',
  children (procs s) waiter [2%positive; 9%positive; 3%positive] /\ procs s !! 9%positive = Some y /\ state y = ZOMBIE /\
  waitpid (-1) true s = Ok (KRet 1 [5], s') /\ procs s' !! 1%positive = Some x' /\
  children (procs s') x' [2%positive; 3%positive] /\ procs s' !! 9%positive = None.
Proof.
  destruct before_idle_startable as (mem & root & l1 & T & ht & fs & hf & sf & rest & Hst).
  destruct (start_reaches _ _ _ _ _ _ _ 300 _ _ _ _ _ _ _ _ Hst) as (s1 & _ & Hcr).
  destruct (created_owned Hst Hcr) as (l1p & nodes & y1 & Hown & _). destruct (taken_frames Hst) as (_ & _ & Hrel).
  pose proof (rm_malloc _ _ _ _ _ _ _ _ _ _ _ (st_room _ _ _ _ _ _ _ _ _ _ _ _ _ _ _ Hst)) as Hm.
  assert (Ep : pid y1 = 1).
  { destruct (cr_process _ _ _ _ _ _ _ _ _ _ _ _ _ _ _ _ _ Hcr) as [l1q Hp].
    pose proof (ow_process _ _ _ _ _ _ _ _ _ _ _ _ Hown) as Hp'. rewrite Hp in Hp'. injection Hp' as <-. done. }
  destruct (waitpid_reaps (nursery s1 (ended y1)) 1%positive waiter (-1) [2%positive] 9%positive [3%positive] (ended y1)
    l1p nodes root l1 T ht fs hf sf rest) as (s' & x' & E & Hx' & Hc' & Hq & _).
  - apply lookup_insert_eq.
  - reflexivity.
  - apply nursery_children.
  - set_solver.
  - reflexivity.
  - reflexivity.
  - reflexivity.
  - change (pid y1 <> 7). rewrite Ep. discriminate.
  - reflexivity.
  - intros p z ->%list_elem_of_singleton [= <-]. reflexivity.
  - exact Hm.
  - eapply owned_frame; [exact Hown|reflexivity..|]. by intros t j _ _.
  - exact Hrel.
  - exact (cr_free _ _ _ _ _ _ _ _ _ _ _ _ _ _ _ _ _ Hcr).
  - exists (nursery s1 (ended y1)), (ended y1), s', x'. split; [apply nursery_children|]. split; [reflexivity|]. split; [reflexivity|].
    split; [|by split_and!]. rewrite E. change (pid (ended y1)) with (pid y1). by rewrite Ep.
Defined.

(** The same family, the second child asleep. *)
Definition awake_nursery : kstate := nursery sleepy_state (ended (demo_process 9 5 ACTIF 0) <| state := ASLEEP |>).

Lemma waitpid_outcomes_witness :
  waitpid 12 true awake_nursery = Ok (KRet (-1) [], awake_nursery) /\
  waitpid (-1) true awake_nursery =
    scheduler (KWaitAny true) (awake_nursery <| procs ::= <[1%positive := waiter <| state := BLOCKEDWAITCHILD |>]> |>) /\
  waitpid 9 true awake_nursery =
    scheduler (KWaitPid 9%positive 2%positive true)
      (awake_nursery <| procs ::= <[1%positive := waiter <| state := BLOCKEDWAITCHILD |>]> |>).
Proof.
  assert (Hch : children (procs awake_nursery) waiter [2%positive; 9%positive; 3%positive]).
  { split; [|repeat constructor; set_solver|done]. split; [done|]. exists (sibling 8 (Some 9%positive)). split; [done|].
    split; [done|]. eexists. split; [reflexivity|]. split; [done|]. by exists (sibling 10 None). }
  assert (Hcur : pid_process_hash_table awake_nursery !! current_running_process_pid awake_nursery = Some 1%positive) by reflexivity.
  assert (Hx : procs awake_nursery !! 1%positive = Some waiter) by reflexivity.
  split; [|split].
  - apply (proj1 (waitpid_outcomes _ _ _ _ 12 Hcur Hx Hch)); [by right|].
    intros p z Hp. rewrite !elem_of_cons in Hp. destruct Hp as [->|[->|[->|Hp]]]; [by intros [= <-]..|]. by apply elem_of_nil in Hp.
  - apply (proj1 (proj2 (waitpid_outcomes _ _ _ _ (-1) Hcur Hx Hch))); [done..|].
    intros p z Hp. rewrite !elem_of_cons in Hp. destruct Hp as [->|[->|[->|Hp]]]; [by intros [= <-]..|]. by apply elem_of_nil in Hp.
  - destruct (proj2 (proj2 (waitpid_outcomes _ _ _ _ 9 Hcur Hx Hch)) [2%positive] 9%positive [3%positive]
      (ended (demo_process 9 5 ACTIF 0) <| state := ASLEEP |>)) as (b & Eb & E).
    + discriminate.
    + reflexivity.
    + reflexivity.
    + reflexivity.
    + discriminate.
    + intros p z ->%list_elem_of_singleton [= <-]. discriminate.
    + injection Eb as ->. exact E.
Defined.

(** Process 1 runs; its parent 2 waits for it, its child 3 is the idle process,
    ended. *)
Definition dying : process :=
  demo_process 1 5 ACTIF 0 <| parent := Some 2%positive |> <| children_head := Some 3%positive |> <| children_tail := Some 3%positive |>.
Definition dead_child (y : process) : process :=
  y <| pid := 3 |> <| state := ZOMBIE |> <| wake_time := 0 |> <| parent := Some 1%positive |> <| next_sibling := None |>
    <| children_head := None |> <| children_tail := None |>.
Definition deathbed s (y : process) : kstate :=
  demo_state dying (demo_process 2 5 BLOCKEDWAITCHILD 0) (dead_child y) [] [] 0
    <| frame_mem := frame_mem s |> <| pt_nodes := pt_nodes s |>.

Lemma deathbed_pre s y : is_Some (context_process y) -> sched_pre (deathbed s y) (demo_Q [] []) 1%positive dying [] [].
Proof.
  intros Hy. assert (Hinv : sched_inv (demo_state dying (demo_process 2 5 BLOCKEDWAITCHILD 0) (dead_child y) [] [] 0) (demo_Q [] [])).
  { apply demo_sched_inv; [done..| | |simpl; constructor|by intros p ?%elem_of_nil].
    - intros x. rewrite !elem_of_cons. intros [->|[->|[->|?%elem_of_nil]]]; [by eexists|by eexists|exact Hy|done].
    - intros x. rewrite !elem_of_cons. intros [->|[->|[->|?%elem_of_nil]]]; done. }
  assert (Hpre : sched_pre (demo_state dying (demo_process 2 5 BLOCKEDWAITCHILD 0) (dead_child y) [] [] 0) (demo_Q [] []) 1%positive dying [] []).
  { by apply demo_sched_pre; [|done|apply not_elem_of_nil]. }
  destruct Hpre as [_ [H1 H2 H3 H4] H5 H6 H7 H8 H9 H10 H11]. split; [|by split|done..]. by apply (sched_inv_frame (demo_state dying (demo_process 2 5 BLOCKEDWAITCHILD 0) (dead_child y) [] [] 0)).
Qed.

Lemma exit_reaps_witness : exists s s1 F F',
  free_ok (frame_mem s) F /\ exit_process 7 (KRet 0 []) s = scheduler (KRet 0 []) s1 /\ procs s1 !! 3%positive = None /\
  free_ok (frame_mem s1) F' /\ (length F < length F')%nat /\ process_id_list s1 = 3 :: process_id_list s.
Proof.
  destruct before_idle_startable as (mem & root & l1 & T & ht & fs & hf & sf & rest & Hst).
  destruct (start_reaches _ _ _ _ _ _ _ 300 _ _ _ _ _ _ _ _ Hst) as (s1 & _ & Hcr).
  destruct (created_owned Hst Hcr) as (l1p & nodes & y1 & Hown & Hnodes). destruct (taken_frames Hst) as (_ & _ & Hrel).
  pose proof (rm_malloc _ _ _ _ _ _ _ _ _ _ _ (st_room _ _ _ _ _ _ _ _ _ _ _ _ _ _ _ Hst)) as Hm.
  set (a := mk_space l1p nodes root l1 T ht fs hf sf). set (l := [(3%positive, Some a)] : list child).
  assert (Hctx : is_Some (context_process y1)).
  { destruct (cr_process _ _ _ _ _ _ _ _ _ _ _ _ _ _ _ _ _ Hcr) as [l1q Hp].
    pose proof (ow_process _ _ _ _ _ _ _ _ _ _ _ _ Hown) as Hp'. rewrite Hp in Hp'. injection Hp' as <-. by eexists. }
  destruct (exit_reaps (deathbed s1 y1) (demo_Q [] []) 1%positive dying [] [] 2%positive (demo_process 2 5 BLOCKEDWAITCHILD 0)
    7 (KRet 0 []) l rest) as (s2 & E & _ & Hps & _ & Hids & Hok & _).
  - by apply deathbed_pre.
  - reflexivity.
  - reflexivity.
  - discriminate.
  - reflexivity.
  - discriminate.
  - intros _ Hq%demo_queued. by apply elem_of_nil in Hq.
  - exact Hm.
  - split; [|apply NoDup_singleton|reflexivity]. split; [reflexivity|]. exists (dead_child y1). by split.
  - apply Forall_singleton. exists (dead_child y1). split; [reflexivity|]. do 3 (split; [reflexivity|]). split; [discriminate|].
    destruct Hown as [H1 H2 H3 H4 H5 H6]. split; try done. eapply tables_held_frame; [|..|exact H6]; done.
  - intros p _ Hq%demo_queued. by apply elem_of_nil in Hq.
  - unfold l, gone_blocks. simpl. rewrite app_nil_r. exact (owns_blocks s1 _ y1 a Hown).
  - unfold l, gone_frames. simpl. rewrite app_nil_r. exact Hrel.
  - exact (cr_free _ _ _ _ _ _ _ _ _ _ _ _ _ _ _ _ _ Hcr).
  - exists (deathbed s1 y1), s2, rest. eexists. split; [exact (cr_free _ _ _ _ _ _ _ _ _ _ _ _ _ _ _ _ _ Hcr)|].
    split; [exact E|]. split; [by rewrite Hps|]. split; [exact Hok|]. split; [|exact Hids].
    rewrite length_app, length_reverse. unfold l, gone_frames. simpl. rewrite app_nil_r. unfold space_frames, given. rewrite !length_app. simpl. lia.
Defined.

(** A thousand requests for a program that does not exist. *)
Lemma rejected_starts_exhaust_witness : exists s1,
  calls 1000 (start_virtual (Some "none"%string) 4000 1 0) sleepy_state = Ok (tt, s1) /\
  start_virtual (Some "idle"%string) 4000 1 0 s1 = Ok (KRet (-1) [], s1).
Proof.
  destruct (rejected_starts_exhaust "none" 4000 1 0 sleepy_state 1000) as (s1 & E1 & _ & Hfull).
  - left. reflexivity.
  - right. exists 1%positive, (demo_process 1 5 ACTIF 0). split; [reflexivity|]. split; [reflexivity|]. split; discriminate.
  - vm_compute. split; discriminate.
  - exists s1. split; [exact E1|]. apply Hfull. vm_compute. discriminate.
Defined.
